(* ===== verification/_CoqProject ===== *)
-Q . S2P
Prelude.v
Threads.v
Identities.v
Types.v
Double.v
Model.v
Domains.v
Evidence.v
Routes.v
Requests.v
Recovery.v
StableSort.v
Selection.v
Bytes.v
Codec.v
Persistence.v
Fabric.v
Cutover.v
Failback.v
Invariant.v
Readers.v
System.v
CutoverSpec.v
Restart.v
Protocol.v
Sockets.v
Conn.v
Wire.v
Examples.v
Bench.v
Worker.v
WorkerThreads.v
CudaWorker.v
Gateway.v
Coordinator.v
CoordinatorSpec.v
Process.v
Concurrent.v
Refusals.v
Progress.v
Deployment.v
Tool.v
Lab.v
Demonstration.v
Cluster.v
