(* ===== verification/Prelude.v ===== *)
(** Failover Fabric: a verification of the failover coordinator.

    * The program

    Failover Fabric (src/include/failover_fabric, src/src) keeps a service available
    when the worker that serves it fails.  A coordinator ([FailoverFabric], fabric.cpp)
    records services, their slots, the targets that could serve them, failure evidence
    and failure domains; it selects a replacement (selection.cpp), plans and executes a
    cutover transaction ([execute_plan]: fence the old worker boot, activate the
    replacement, install the route, verify, commit), decides for every dispatch and
    every result whether the grant it carries is current (the gate), returns a slot to
    its target of record under an anti-flapping policy (failback), and saves and
    reloads its state (persistence.cpp).

    Three processes run this: the coordinator process (coordinator_main.cpp) answers
    its peers by calling the core and drives workers and gateway during a cutover
    through [SocketOps]; a worker (worker_main.cpp) serves requests while it is active
    and keeps a checkpoint; the gateway (gateway_main.cpp) forwards a client's request
    along its installed route, asking the coordinator before and after.  They talk
    through framed messages (protocol.cpp) over TCP sockets (net/socket_util.hpp) and
    connections (net/conn.hpp).  A worker on a GPU (cuda/cuda_worker_main.cu) stands in
    for the CPU worker.  A tool (tools/multiproc_proof.cpp) starts the processes, drives
    them through eight scenarios and checks what they do; a smaller one (tools/ff_cli.cpp)
    inspects a saved state; examples.cpp uses the core in one process.

    What matters is authority: at any time at most one worker boot may serve a slot, a
    fenced boot never serves again, and neither a crash nor a restart nor a concurrent
    attempt widens what the gate lets through.

    * How the code is modelled

    A C++ struct is a [Record] with a field per member and a prefix per struct, an
    [enum class] an [Inductive] with the source's enumerators, a vector a [list], an
    unordered map or set a [gmap] or [gset].  Integers are [Z] with the wrap-around
    written out where the code can reach it ([wrap64], [wrap32]); a [double] is its 64
    bits, its arithmetic the IEEE model of [SpecFloat] (Double).  A function that can
    throw returns [result]; stateful code is in the monad [ST], which keeps the state
    reached when an exception leaves.  Each public operation of the coordinator holds
    its mutex and is one atomic function on [Impl]; [execute_plan] holds it only in
    sections, which are separate functions.  The clock, the worker and gateway adapter
    [CutoverOps] and the outcomes of file operations are inputs: a typeclass over an
    arbitrary world, and the record [SaveIo].

    Code that other threads can interrupt ([execute_plan], [execute_failback], every
    handler of the coordinator process, the threads of a worker, the readers under the
    shared lock) is written once, over the class [Atomic] of this file: [x ⇐ m; k] performs the action [m] at once and goes on with [k].  Read in [ST]
    it is the code that runs alone; read in [Prog] (Threads) it is a thread that stops
    before every action.  The actions are the critical sections, the adapter calls and
    the single reads and sends of the source.

    A process is its state and a handler per message.  The coordinator's handlers run
    over [Run (Coord N)], the core with the peers and the network [N] behind them; what
    a handler may ask of the network is the class [PeerNet].  The gateway's calls to the
    coordinator and to a worker are the class [GatewayEnv].  The class [Deployed] says
    what that environment promises when the modelled coordinator and workers, each with
    its threads, stand behind it, and the closed system of Cluster is an instance of all three.  The socket
    calls, the CUDA runtime and the host of the demonstration tool are the classes
    [SocketApi], [CudaRuntime] and [Host], with their documented behaviour in the classes
    [StreamLaws], [FdLaws] and [CudaLaws]; each has a concrete instance.

    * The files, in dependency order

    - Prelude: errors and effects, record update, machine integers, list loops.
    - Threads: programs of atomic actions, what they do alone ([agrees]), what they
      ensure among others ([ensures], [guarantees]) and what they keep together
      ([sustains]); pools of threads ([Crew]) over one state.
    - Identities: [Id<Tag>], [Gen<Tag>], [CoordinatorEpoch] (identities.hpp,
      authority.hpp).
    - Types: the enumerations with [to_string] (types.hpp, types.cpp), the class
      [Enum], the contract of the cast to and from [uint8_t] the codecs rely on, and the
      clocks.
    - Double: the arithmetic of the ranking and [BoundedF64].
    - Model: the records of service.hpp, authority.hpp, candidate.hpp, domains.hpp,
      evidence.hpp, fence.hpp, cutover.hpp, route.hpp, recovery.hpp, request.hpp,
      plan.hpp.
    - Domains (domains.cpp), Evidence (evidence.cpp), Routes (route.cpp), Requests
      (request.cpp), Recovery (recovery.cpp, plan.cpp): one component each, its
      operations, its representation invariant and its specification.
    - StableSort: [std::stable_sort] by its contract, used by Selection
      (selection.cpp): the hard guards, the ranking, the choice.
    - Bytes, Codec, Persistence (persistence.cpp): little-endian bytes and FNV-1a, the
      record codecs with their round-trip contract [RT], the blob, its validation and
      the file operations.
    - Fabric (fabric.cpp except [execute_plan], failback, [load]): the state [Impl] and
      its operations.
    - Cutover: [execute_plan] as sections, adapter calls, checkpoints and barriers.
    - Failback: [evaluate_failback], [execute_failback].
    - Invariant: the representation invariant [impl_wf] of the coordinator and its
      preservation by every operation ([FabricOp], [apply_op]) and every section.
    - Readers: [snapshot] and the selection under the shared lock, among other threads.
    - System: the step relation [sys_step] in which any number of cutover attempts and
      operations interleave at section granularity, its steps labelled by what was done
      ([sys_does]), and the safety theorems over [reachable] configurations.  [load],
      which the process calls before it answers anybody, is no step: Restart has it.
    - CutoverSpec: a weakest-precondition calculus for [ST] and the theorems on one run
      of [execute_plan] and [execute_failback] for every adapter.
    - Restart: [load] and reconciliation.
    - Protocol: CRC-protected frames, typed payloads, framing on a stream
      (protocol.cpp).
    - Sockets: [send_all] and [recv_all] as loops over partial transfers, frames on a
      socket, opening sockets (socket_util.hpp).
    - Conn: the connection with its reader, callers and shutdown as a step relation
      (net/conn.hpp).
    - Wire: what the processes share (net/common.hpp): field numbers, the reference
      workload, transports, the route entry of INSTALL_ROUTE.
    - Examples: the four scenarios of examples.cpp and the inspection tool ff_cli.cpp.
    - Bench: the benchmarks (benchmark_main.cpp), what they set up and count.
    - Worker (worker_main.cpp), CudaWorker (cuda_worker_main.cu), Gateway
      (gateway_main.cpp), Coordinator (coordinator_main.cpp): one process each.
    - WorkerThreads: the control thread and the request threads of a worker.
    - CoordinatorSpec: every action of every handler of the coordinator process as steps
      of System, in whatever state the other threads have left the core.
    - Process: the runs of the coordinator process whose handlers come one after another.
    - Concurrent: its runs with a reader thread per connection, interleaved at every
      action.
    - Refusals: what a refused EXECUTE_FAILOVER or REQUEST_FAILBACK did among them.
    - Progress: the adapter [SocketOps] over peers that answer, and the failover it
      completes.
    - Deployment: a gateway whose environment is the other two processes, with their
      threads.
    - Tool: the demonstration tool (multiproc_proof.cpp) over a host.
    - Lab: a test host on which the modelled processes can be run; it translates no code.
    - Demonstration: the scenarios of the tool evaluated on that host.
    - Cluster: the closed system of the three processes, its scenario, and the witnesses
      of Gateway, Process, Concurrent, Refusals, Progress and Deployment.

    * What the theorems show

    - Authority (System): the gate decides exactly the conjunction of its conditions,
      grants are exclusive per slot, a fenced boot never serves again, an attempt has
      the boot it was prepared on fenced (unless that is null) before it activates
      anything, a slot changes hands only by an initial placement or by the commit of a
      verified cutover whose source, if it has one, is still current, and a superseded
      attempt commits nothing.
    - Cutover (CutoverSpec): all or nothing for every adapter and every early exit, calls
      in order, and completion when the adapter cooperates.
    - Restart and persistence: round trips of the format and of the state, detection of
      corruption, crash states of [save_file], the exact authority right after a restart,
      an interrupted cutover left for revalidation.
    - Selection, failback, routes, evidence, domains, requests, recovery: the exact
      condition under which each decision is taken.
    - Protocol: canonical round trip of frames and payloads, corruption detected.
    - Conn: a response reaches the caller that asked for it and the table of callers
      stays within its limit; once the peer is gone every call ends with steps of its own
      thread, if no two outstanding calls share an id.
    - Worker: it serves a request only when its last command was an activation and the
      request names its boot, and a damaged checkpoint is not restored; the reference
      workload has a closed form.
    - WorkerThreads: a thread alone is a step of Worker; among the others, an ok answer
      means that the worker was active and of the named boot while it was handled, after
      a fence no request that starts is served until the next activation, and while the
      file system writes whole, the checkpoint file that a crash leaves is empty or passes
      the checks.
    - Sockets: however the system cuts the streams, a frame that was sent is the frame
      that is received, and opening a socket leaks none.
    - CudaWorker: on a device that works it is the CPU worker started without options;
      on any device an ok answer carries the reference result.
    - Concurrent: the coordinator process with its threads refines the transition system
      of System, so its safety theorems hold of the process; in every interleaving a
      result is answered ok only when it passed the gate while it was handled, results of
      a fenced boot and of earlier epochs are refused, a request with an unknown outcome
      is not replayed; an ok reply to a failover means that the handler prepared, had
      verified and committed a cutover, in that order; and the runs of Process are the
      schedules without interruption.
    - Process: the same for handlers that run alone.
    - Refusals: in every interleaving a failover or failback that is refused changed no
      slot by any of its actions.
    - Progress: a failover that finds a plan, with a replacement and a gateway that
      acknowledge what they are sent, ends and is answered ok, whether or not the old
      worker is reached; that an ok is true is in Process and Concurrent.
    - Deployment: a client is told ok only if its dispatch was granted for the current
      assignment, the threads of the worker at the route's address served the call while
      it was active under the route's boot, the authorization still passed the gate
      afterwards, and the answer carries the reference result, whatever the other threads
      of the coordinator and of the workers do.
    - Demonstration: the eight scenarios succeed on the modelled processes, by evaluation:
      a test of the model, on inputs the repository gives.
    - Examples: the scenarios show what they announce; the exit status of the tool.
    - Readers: a snapshot shows one state of the coordinator.
    - Bench: the benchmark performs the operations it reports.
    - A few theorems state behaviour that differs from the intention of the code or its
      documentation, among them [unindexed_slot_commit_is_lost],
      [unsourced_cutover_displaces_current], [short_frames_are_lost],
      [save_file_not_atomic], [shared_id_strands_caller], [fenced_boot_can_serve],
      [dispatch_is_not_gated], [refused_failover_leaves_barrier],
      [replay_check_can_race], [gateway_restart_blocks_failover],
      [dead_device_registers_ready], [cuda_demonstrations], [checkpoint_can_regress],
      [registration_can_mismatch], [snapshots_can_share_a_generation],
      [auth_eqb_ignores], [bench_default_scale], [gate_ignores_incarnation],
      [null_boot_escapes_fence], [first_replacement_has_id_one],
      [load_forgets_counters], [eligibility_ignores_continuity_level],
      [unknown_evidence_is_eligible].

    * Bounds and fuel

    [ancestors_of] follows at most 64 parents, as the code does.  [parse_fields] has the
    length of its input as fuel; every turn consumes at least six bytes and
    [payload_reader_exact] shows it never runs out.  [send_from] and [recv_from] recurse
    on the bytes that are left (Equations), and end because a call that transfers nothing
    ends the loop.  A handler of Lab acts at most 500 times; the scenarios of
    Demonstration end within that, which their evaluation shows.  All other recursion is
    structural.

    * Not modelled

    That a call which waits for a silent peer does not return: [Conn::request] has no time
    limit.  In Conn such a call waits; for the coordinator's handlers a call is one action,
    which among threads may never come, and no theorem says that a handler ends whatever
    its peers do.  The epoch is read once per cutover and not at every send, which is the
    same since it never changes while the process runs.

    The creation and joining of threads: a thread exists while its handler runs, and when
    it runs is left open.  A thread of the gateway can be interrupted at its calls, where
    its environment may change the state of the gateway, and not between them.  Between
    processes a frame is delivered as the message it carries; that the bytes on the
    sockets recover it is Protocol and Sockets.  What a process does after an exception
    has left one of its threads: [std::terminate] ends it.  What the programs print, but
    for the values the examples, the benchmarks and the inspection tool show, and the
    times they measure.  Inside the modelled files: hashing and stream output, the
    interleaving inside an exclusively locked section, Winsock start-up, and the classes
    that are declared without a definition (AuthorityGate, FenceEvaluator).  The order in
    which C++ evaluates the arguments of one constructor call is the parameter
    [EvalOrder].

    * What could be added

    Frames of Protocol carried by Conn and Sockets between the processes of Deployment, in
    place of messages; several gateways; the loads and stores of the gateway's threads as
    actions of their own. *)

From stdpp Require Import base list gmap strings sorting.
From Stdlib Require Import ZArith Lia.

Open Scope Z_scope.

(** * Errors and effects *)

(** The exceptions the code throws, by C++ class, with their message. *)
Inductive exn : Type :=
  | GenerationExhausted (what : string)
  | CapacityExceeded (what : string)
  | InvalidArgument (what : string)
  | LogicError (what : string)
  | RuntimeError (what : string)
  | ProtocolError (what : string).

(** A computation that returns or throws. *)
Inductive result (A : Type) : Type :=
  | Ok (a : A)
  | Throw (e : exn).
Arguments Ok {A} a.
Arguments Throw {A} e.

#[export] Instance result_ret : MRet result := fun A a => Ok a.
#[export] Instance result_bind : MBind result := fun A B f m =>
  match m with Ok a => f a | Throw e => Throw e end.

#[export] Instance exn_eq_dec : EqDecision exn.
Proof. solve_decision. Defined.
#[export] Instance result_eq_dec `{EqDecision A} : EqDecision (result A).
Proof. solve_decision. Defined.

Definition is_ok {A} (r : result A) : bool :=
  match r with Ok _ => true | Throw _ => false end.

(** Stateful code that may throw: the state reached when the exception leaves
    the function is kept, as it is in C++. *)
Definition ST (S A : Type) : Type := S -> S * result A.

#[export] Instance st_ret {S} : MRet (ST S) := fun A a s => (s, Ok a).
#[export] Instance st_bind {S} : MBind (ST S) := fun A B f m s =>
  match m s with
  | (s', Ok a) => f a s'
  | (s', Throw e) => (s', Throw e)
  end.

Definition get {S} : ST S S := fun s => (s, Ok s).
Definition gets {S A} (f : S -> A) : ST S A := fun s => (s, Ok (f s)).
Definition put {S} (s : S) : ST S unit := fun _ => (s, Ok tt).
Definition modify {S} (f : S -> S) : ST S unit := fun s => (f s, Ok tt).
Definition throw {S A} (e : exn) : ST S A := fun s => (s, Throw e).
Definition lift {S A} (r : result A) : ST S A := fun s => (s, r).

(** Inversion of computations that return. *)
Lemma st_bind_ok {S A B} (m : ST S A) (k : A -> ST S B) s s' b :
  (m ≫= k) s = (s', Ok b) -> exists s1 a, m s = (s1, Ok a) /\ k a s1 = (s', Ok b).
Proof. unfold mbind, st_bind. destruct (m s) as [s1 [a |]]; [eauto | done]. Qed.
Lemma result_bind_ok {A B} (m : result A) (k : A -> result B) b :
  m ≫= k = Ok b -> exists a, m = Ok a /\ k a = Ok b.
Proof. unfold mbind, result_bind. destruct m as [a |]; [eauto | done]. Qed.
Lemma lift_ok {S A} (r : result A) (s s' : S) a : lift r s = (s', Ok a) -> s' = s /\ r = Ok a.
Proof. unfold lift. by intros [= -> ->]. Qed.
Lemma gets_ok {S A} (f : S -> A) (s s' : S) a : gets f s = (s', Ok a) -> s' = s /\ a = f s.
Proof. unfold gets. by intros [= -> <-]. Qed.
Lemma ret_ok {S A} (x : A) (s s' : S) a : (mret x : ST S A) s = (s', Ok a) -> s' = s /\ a = x.
Proof. unfold mret, st_ret. by intros [= -> <-]. Qed.
Lemma modify_ok {S} (f : S -> S) (s s' : S) a : modify f s = (s', Ok a) -> s' = f s.
Proof. unfold modify. by intros [= -> _]. Qed.

(** Splits one bind of a returning computation [H] into the call and the rest. *)
Tactic Notation "st_inv" hyp(H) "as" simple_intropattern(s1) simple_intropattern(a) simple_intropattern(H1) :=
  apply st_bind_ok in H; destruct H as (s1 & a & H1 & H).
Tactic Notation "result_inv" hyp(H) "as" simple_intropattern(a) simple_intropattern(H1) :=
  apply result_bind_ok in H; destruct H as (a & H1 & H).

(** * Threads

    Code that several threads run is written over an arbitrary monad [M]: [atomic m] is
    an action no other thread can interrupt, [try_catch] the C++ statement.  In [ST] the
    code runs alone; Threads has the interpretation in which the actions of several
    threads interleave. *)
Class Atomic (S : Type) (M : Type -> Type) := {
  atomic {A : Type} : ST S A -> M A;
  try_catch {A : Type} : M A -> (exn -> M A) -> M A }.

Definition st_catch {S A} (m : ST S A) (h : exn -> ST S A) : ST S A := fun s =>
  match m s with (s', Throw e) => h e s' | x => x end.
#[export] Instance st_atomic {S} : Atomic S (ST S) := {| atomic A m := m; try_catch A := st_catch |}.

(** [x ⇐ m; k]: the action [m], then [k]. *)
Notation "x ⇐ y ; z" := (mbind (fun x => z) (atomic y))
  (at level 20, y at level 100, z at level 200, only parsing) : stdpp_scope.

(** The code as it runs alone. *)
Ltac alone := cbn beta iota delta [atomic try_catch st_atomic].
Tactic Notation "alone" "in" hyp(H) := cbn beta iota delta [atomic try_catch st_atomic] in H.

(** * Record update

    [s <| f := v |>] is the record [s] with field [f] replaced.  A record type
    takes part by giving its expansion [eta], the constructor applied to the
    projections; the setter of a field is computed from it. *)

Class Eta (R : Type) := eta : R -> R.
Class Setter {R E : Type} (f : R -> E) := set_field : E -> R -> R.

Ltac solve_setter :=
  lazymatch goal with
  | |- @Setter ?R ?E ?f =>
    let e := constr:(_ : Eta R) in
    let e := eval hnf in e in
    let v := fresh "v" in let s := fresh "s" in
    intros v s;
    let body := eval cbv beta in (e s) in
    lazymatch body with
    | context C [f s] => let b := context C [v] in exact b
    end
  end.
#[export] Hint Extern 0 (@Setter _ _ _) => solve_setter : typeclass_instances.

Notation "s <| f := v |>" := (@set_field _ _ f _ v s)
  (at level 12, f at next level, v at level 60, left associativity,
   format "s  <| f  :=  v |>") : stdpp_scope.

(** * Machine integers *)

Definition u8 (z : Z) : Prop := 0 <= z < 2 ^ 8.
Definition u32 (z : Z) : Prop := 0 <= z < 2 ^ 32.
Definition u64 (z : Z) : Prop := 0 <= z < 2 ^ 64.
Definition wrap64 (z : Z) : Z := z mod 2 ^ 64.
Definition wrap32 (z : Z) : Z := z mod 2 ^ 32.

(** * Lists *)

(** The loop [for (e : v) if (p(e)) { e = f(e); return; }]: the vector with its
    first match updated, or [None] when the loop falls through. *)
Fixpoint update_first {A} (p : A -> bool) (f : A -> A) (l : list A) : option (list A) :=
  match l with
  | [] => None
  | x :: l' => if p x then Some (f x :: l') else cons x <$> update_first p f l'
  end.

(** The loop [for (e : v) if (p(e)) return e;]. *)
Fixpoint find_first {A} (p : A -> bool) (l : list A) : option A :=
  match l with
  | [] => None
  | x :: l' => if p x then Some x else find_first p l'
  end.

(** [if (v.size() > max) v.resize(max);] *)
Definition truncate {A} (l : list A) (max : Z) : list A :=
  if Z.ltb max (Z.of_nat (length l)) then take (Z.to_nat max) l else l.

(** [std::find(v, x) != v.end()]. *)
Definition mem {A} (eqb : A -> A -> bool) (x : A) (l : list A) : bool :=
  existsb (fun y => eqb y x) l.

Section lists.
Context {A : Type}.
Implicit Types (p : A -> bool) (f : A -> A) (l : list A) (x y : A).

Lemma find_first_Some p l x :
  find_first p l = Some x -> x ∈ l /\ p x = true.
Proof.
  induction l as [| y l IH]; simpl; [done |]. destruct (p y) eqn:Hp.
  - intros [= ->]. split; [apply list_elem_of_here | done].
  - intros [? ?]%IH. split; [by apply list_elem_of_further | done].
Qed.

Lemma find_first_None p l : find_first p l = None <-> forall x, x ∈ l -> p x = false.
Proof.
  induction l as [| y l IH]; simpl.
  - split; [| done]. intros _ x Hx. by apply elem_of_nil in Hx.
  - destruct (p y) eqn:Hp.
    + split; [done |]. intros H. specialize (H y (list_elem_of_here _ _)). congruence.
    + rewrite IH. split; intros H x.
      * intros [-> | Hx]%elem_of_cons; [done | by apply H].
      * intros Hx. apply H. by apply list_elem_of_further.
Qed.

Lemma update_first_None p f l : update_first p f l = None <-> find_first p l = None.
Proof.
  induction l as [| y l IH]; simpl; [done |]. destruct (p y); [done |].
  rewrite <- IH. by destruct (update_first p f l).
Qed.

Lemma update_first_Some p f l l' :
  update_first p f l = Some l' ->
  exists l1 x l2, l = l1 ++ x :: l2 /\ l' = l1 ++ f x :: l2 /\ p x = true /\
    Forall (fun y => p y = false) l1.
Proof.
  revert l'. induction l as [| y l IH]; intros l'; simpl; [done |]. destruct (p y) eqn:Hp.
  - intros [= <-]. by exists [], y, l.
  - destruct (update_first p f l) as [l0 |] eqn:Hu; simpl; [| done]. intros [= <-].
    destruct (IH l0 eq_refl) as (l1 & x & l2 & -> & -> & ? & ?).
    exists (y :: l1), x, l2. eauto using Forall_cons_2.
Qed.

Lemma find_first_app p l1 l2 :
  find_first p (l1 ++ l2) = match find_first p l1 with Some x => Some x | None => find_first p l2 end.
Proof. induction l1 as [| y l IH]; simpl; [done |]. by destruct (p y). Qed.

(** Updating the first match of [p] with a function that keeps [p] makes it the
    first match. *)
Lemma find_first_update p f l l' x :
  (forall y, p y = true -> p (f y) = true) ->
  update_first p f l = Some l' -> find_first p l = Some x -> find_first p l' = Some (f x).
Proof.
  intros Hf (l1 & z & l2 & -> & -> & Hz & Hl1)%update_first_Some.
  assert (find_first p l1 = None) as Hn.
  { apply find_first_None. intros y Hy. rewrite Forall_forall in Hl1. by apply Hl1. }
  rewrite !find_first_app, Hn. simpl. rewrite Hz, (Hf z Hz). by intros [= ->].
Qed.

(** Updating the first match of [p] leaves the first match of an unrelated [q]. *)
Lemma find_first_update_other p q f l l' :
  (forall y, p y = true -> q y = false /\ q (f y) = false) ->
  update_first p f l = Some l' -> find_first q l' = find_first q l.
Proof.
  intros Hf (l1 & z & l2 & -> & -> & Hz & _)%update_first_Some.
  rewrite !find_first_app. simpl. by destruct (Hf z Hz) as [-> ->].
Qed.

Lemma update_first_fmap {B} (g : A -> B) p f l l' :
  (forall y, p y = true -> g (f y) = g y) ->
  update_first p f l = Some l' -> g <$> l' = g <$> l.
Proof.
  intros Hg (l1 & z & l2 & -> & -> & Hz & _)%update_first_Some.
  rewrite !fmap_app. simpl. by rewrite (Hg z Hz).
Qed.

Lemma mem_true (eqb : A -> A -> bool) (Heq : forall a b, eqb a b = true <-> a = b) x l :
  mem eqb x l = true <-> x ∈ l.
Proof.
  unfold mem. rewrite existsb_exists. split.
  - intros (y & Hy & ->%Heq). by apply list_elem_of_In.
  - intros Hx%list_elem_of_In. exists x. by rewrite Heq.
Qed.

Lemma elem_of_nil_forall (P : A -> Prop) : (forall x, x ∈ [] -> P x) <-> True.
Proof. split; [done |]. intros _ x Hx. by apply elem_of_nil in Hx. Qed.

Lemma elem_of_cons_forall (P : A -> Prop) y l :
  (forall x, x ∈ y :: l -> P x) <-> P y /\ forall x, x ∈ l -> P x.
Proof. rewrite <- !Forall_forall. apply Forall_cons. Qed.

Lemma truncate_length l max : 0 <= max -> Z.of_nat (length (truncate l max)) <= max.
Proof.
  intros Hm. unfold truncate. destruct (Z.ltb_spec max (Z.of_nat (length l))); [| done].
  rewrite length_take. lia.
Qed.

Lemma truncate_prefix l max : truncate l max `prefix_of` l.
Proof.
  unfold truncate. destruct (Z.ltb max (Z.of_nat (length l))); [| done]. apply prefix_take.
Qed.
End lists.
