(* ===== verification/Threads.v ===== *)
(** Programs of atomic actions: the interpretation of the threaded code of Prelude in
    which other threads can run between two actions.

    A [Prog] is a thread at some point of its code: finished, or about to perform an
    action of which the rest depends.  [run] lets it run alone, and [agrees] says that
    the code does then what its [ST] interpretation says. *)

From stdpp Require Import base list gmap.
From S2P Require Import Prelude.

Inductive Prog (S A : Type) : Type :=
  | Done (x : result A)
  | Act {B : Type} (m : ST S B) (k : result B -> Prog S A).
Arguments Done {S A} _.
Arguments Act {S A B} _ _.

#[export] Instance prog_ret {S} : MRet (Prog S) := fun A a => Done (Ok a).
#[export] Instance prog_bind {S} : MBind (Prog S) := fun A B f =>
  fix go (p : Prog S A) : Prog S B :=
  match p with
  | Done (Ok a) => f a
  | Done (Throw e) => Done (Throw e)
  | Act m k => Act m (fun x => go (k x))
  end.
Fixpoint prog_catch {S A} (p : Prog S A) (h : exn -> Prog S A) : Prog S A :=
  match p with
  | Done (Ok a) => Done (Ok a)
  | Done (Throw e) => h e
  | Act m k => Act m (fun x => prog_catch (k x) h)
  end.
#[export] Instance prog_atomic {S} : Atomic S (Prog S) := {| atomic A m := Act m Done; try_catch A := prog_catch |}.

(** A thread that runs alone. *)
Fixpoint run {S A} (p : Prog S A) : ST S A := fun s =>
  match p with
  | Done x => (s, x)
  | Act m k => let '(s', x) := m s in run (k x) s'
  end.

(** * The two interpretations agree *)

Definition agrees {S A} (m : ST S A) (p : Prog S A) : Prop := forall s, run p s = m s.

Section agree.
Context {S : Type}.

Lemma run_bind {A B} (p : Prog S A) (k : A -> Prog S B) s :
  run (p ≫= k) s = match run p s with (s', Ok a) => run (k a) s' | (s', Throw e) => (s', Throw e) end.
Proof.
  revert s. induction p as [[a | e] | C m k' IH]; intros s; [done | done |]. cbn. destruct (m s) as [s' x]. apply IH.
Qed.

Lemma run_catch {A} (p : Prog S A) (h : exn -> Prog S A) s :
  run (prog_catch p h) s = match run p s with (s', Throw e) => run (h e) s' | x => x end.
Proof.
  revert s. induction p as [[a | e] | C m k' IH]; intros s; [done | done |]. cbn. destruct (m s) as [s' x]. apply IH.
Qed.

Lemma agrees_ret {A} (a : A) : agrees (mret a : ST S A) (mret a).
Proof. done. Qed.
Lemma agrees_atomic {A} (m : ST S A) : agrees (atomic m) (atomic m).
Proof. intros s. cbn. by destruct (m s). Qed.
Lemma agrees_bind {A B} (m : ST S A) p (k : A -> ST S B) q :
  agrees m p -> (forall a, agrees (k a) (q a)) -> agrees (m ≫= k) (p ≫= q).
Proof.
  intros Hm Hk s. rewrite run_bind, Hm. unfold mbind, st_bind. destruct (m s) as [s' [a | e]]; [apply Hk | done].
Qed.
Lemma agrees_try {A} (m : ST S A) p h q :
  agrees m p -> (forall e, agrees (h e) (q e)) -> agrees (try_catch m h) (try_catch p q).
Proof.
  intros Hm Hk s. cbn. rewrite run_catch, Hm. unfold st_catch. destruct (m s) as [s' [a | e]]; [done | apply Hk].
Qed.
End agree.

(** Follow the code: its binds and branches, which are the same on both sides. *)
Ltac solve_agrees :=
  repeat lazymatch goal with
  | H : agrees ?m ?p |- agrees ?m ?p => exact H
  | |- agrees (mret _) _ => apply agrees_ret
  | |- agrees (atomic _) _ => apply agrees_atomic
  | |- agrees (try_catch _ _) _ => apply agrees_try; [| intros ?]
  | |- agrees (mbind _ _) _ => apply agrees_bind; [| intros ?]
  | |- agrees (let _ := _ in _) _ => cbv zeta
  | |- agrees (match ?x with _ => _ end) _ => destruct x
  end.

(** * What a thread ensures *)

(** [ensures I Q p]: if the shared state satisfies [I] whenever [p] is about to act and
    when it has acted, whatever other threads do to it in between, [p] ends with a result
    in [Q]. *)
Fixpoint ensures {S A} (I : S -> Prop) (Q : result A -> Prop) (p : Prog S A) : Prop :=
  match p with
  | Done x => Q x
  | Act m k => forall s, I s -> I (m s).1 -> ensures I Q (k (m s).2)
  end.

Section ensures.
Context {S : Type} (I : S -> Prop).

Lemma ensures_mono {A} (Q Q' : result A -> Prop) (p : Prog S A) :
  (forall x, Q x -> Q' x) -> ensures I Q p -> ensures I Q' p.
Proof. intros HQ. induction p as [x | B m k IH]; cbn; [auto |]. intros H s Hs Hs'. by apply IH, H. Qed.

Lemma ensures_weaken {A} (J : S -> Prop) (Q : result A -> Prop) (p : Prog S A) :
  (forall s, J s -> I s) -> ensures I Q p -> ensures J Q p.
Proof. intros HJ. induction p as [x | B m k IH]; cbn; [done |]. intros H s Hs Hs'. by apply IH, H; apply HJ. Qed.

Lemma ensures_bind {A B} (Q : result B -> Prop) (p : Prog S A) (k : A -> Prog S B) :
  ensures I (fun x => match x with Ok a => ensures I Q (k a) | Throw e => Q (Throw e) end) p -> ensures I Q (p ≫= k).
Proof. induction p as [[a | e] | C m k' IH]; cbn; [done | done |]. intros H s Hs Hs'. by apply IH, H. Qed.

Lemma ensures_catch {A} (Q : result A -> Prop) (p : Prog S A) (h : exn -> Prog S A) :
  ensures I (fun x => match x with Ok a => Q (Ok a) | Throw e => ensures I Q (h e) end) p -> ensures I Q (prog_catch p h).
Proof. induction p as [[a | e] | C m k' IH]; cbn; [done | done |]. intros H s Hs Hs'. by apply IH, H. Qed.

Lemma ensures_atomic {A} (Q : result A -> Prop) (m : ST S A) :
  (forall s, I s -> I (m s).1 -> Q (m s).2) -> ensures I Q (atomic m).
Proof. done. Qed.
End ensures.

(** [sustains I Q p]: every action of [p] keeps [I], whatever other threads that keep it do
    in between, and then [p] ends with a result in [Q]. *)
Fixpoint sustains {S A} (I : S -> Prop) (Q : result A -> Prop) (p : Prog S A) : Prop :=
  match p with
  | Done x => Q x
  | Act m k => forall s, I s -> I (m s).1 /\ sustains I Q (k (m s).2)
  end.

Section sustains.
Context {S : Type} (I : S -> Prop).

Lemma sustains_mono {A} (Q Q' : result A -> Prop) (p : Prog S A) :
  (forall x, Q x -> Q' x) -> sustains I Q p -> sustains I Q' p.
Proof. intros HQ. induction p as [x | B m k IH]; cbn; [auto |]. intros H s Hs. destruct (H s Hs). split; [done | by apply IH]. Qed.

Lemma sustains_bind {A B} (Q : result B -> Prop) (p : Prog S A) (k : A -> Prog S B) :
  sustains I (fun x => match x with Ok a => sustains I Q (k a) | Throw e => Q (Throw e) end) p -> sustains I Q (p ≫= k).
Proof. induction p as [[a | e] | C m k' IH]; cbn; [done | done |]. intros H s Hs. destruct (H s Hs). split; [done | by apply IH]. Qed.

Lemma sustains_catch {A} (Q : result A -> Prop) (p : Prog S A) (h : exn -> Prog S A) :
  sustains I (fun x => match x with Ok a => Q (Ok a) | Throw e => sustains I Q (h e) end) p -> sustains I Q (prog_catch p h).
Proof. induction p as [[a | e] | C m k' IH]; cbn; [done | done |]. intros H s Hs. destruct (H s Hs). split; [done | by apply IH]. Qed.

Lemma sustains_atomic {A B} (Q : result B -> Prop) (m : ST S A) (k : A -> Prog S B) :
  (forall s, I s -> I (m s).1 /\ match (m s).2 with Ok a => sustains I Q (k a) | Throw e => Q (Throw e) end) ->
  sustains I Q (a ⇐ m; k a).
Proof. intros H s Hs. destruct (H s Hs) as [Hi Hq]. split; [done |]. by destruct (m s) as [s' [a | e]]. Qed.
End sustains.

(** [guarantees R p]: every action of [p] moves the state along [R], whatever the state it
    finds. *)
Fixpoint guarantees {S A} (R : S -> S -> Prop) (p : Prog S A) : Prop :=
  match p with
  | Done _ => True
  | Act m k => forall s, R s (m s).1 /\ guarantees R (k (m s).2)
  end.

Section guarantees.
Context {S : Type} (R : S -> S -> Prop).

Lemma guarantees_bind {A B} (p : Prog S A) (k : A -> Prog S B) :
  guarantees R p -> (forall a, guarantees R (k a)) -> guarantees R (p ≫= k).
Proof. intros Hp Hk. induction p as [[a | e] | C m k' IH]; [apply Hk | done |]. intros s. split; [apply Hp | apply IH, Hp]. Qed.

Lemma guarantees_atomic {A} (m : ST S A) : (forall s, R s (m s).1) -> guarantees R (atomic m).
Proof. done. Qed.

Lemma guarantees_reads {A} (m : ST S A) `{!Reflexive R} : (forall s, (m s).1 = s) -> guarantees R (atomic m).
Proof. intros H s. by rewrite H. Qed.
End guarantees.

(** [keeps_unless R Q p]: every action of [p] moves the state along [R], but for one after
    which [p] is bound to end with a result in [Q]. *)
Fixpoint keeps_unless {S A} (R : S -> S -> Prop) (Q : result A -> Prop) (p : Prog S A) : Prop :=
  match p with
  | Done _ => True
  | Act m k => forall s, (R s (m s).1 /\ keeps_unless R Q (k (m s).2)) \/ ensures (fun _ => True) Q (k (m s).2)
  end.

Section keeps_unless.
Context {S : Type} (R : S -> S -> Prop).

Lemma keeps_unless_bind {A B} (Q : result B -> Prop) (p : Prog S A) (k : A -> Prog S B) :
  keeps_unless R (fun x => match x with Ok a => ensures (fun _ => True) Q (k a) | Throw e => Q (Throw e) end) p ->
  (forall a, keeps_unless R Q (k a)) -> keeps_unless R Q (p ≫= k).
Proof.
  intros Hp Hk. induction p as [[a | e] | C m k' IH]; [apply Hk | done |]. intros s.
  destruct (Hp s) as [[H1 H2] | H]; [left; split; [done | by apply IH] | right; by apply ensures_bind].
Qed.

Lemma keeps_unless_catch {A} (Q : result A -> Prop) (p : Prog S A) (h : exn -> Prog S A) :
  keeps_unless R (fun x => match x with Ok a => Q (Ok a) | Throw e => ensures (fun _ => True) Q (h e) end) p ->
  (forall e, keeps_unless R Q (h e)) -> keeps_unless R Q (prog_catch p h).
Proof.
  intros Hp Hk. induction p as [[a | e] | C m k' IH]; [done | apply Hk |]. intros s.
  destruct (Hp s) as [[H1 H2] | H]; [left; split; [done | by apply IH] | right; by apply ensures_catch].
Qed.

Lemma keeps_unless_mono {A} (Q Q' : result A -> Prop) (p : Prog S A) :
  (forall x, Q x -> Q' x) -> keeps_unless R Q p -> keeps_unless R Q' p.
Proof.
  intros HQ. induction p as [x | C m k' IH]; [done |]. intros H s.
  destruct (H s) as [[H1 H2] | H1]; [left; split; [done | by apply IH] | right; by eapply ensures_mono].
Qed.

Lemma guarantees_keeps {A} (Q : result A -> Prop) (p : Prog S A) : guarantees R p -> keeps_unless R Q p.
Proof. induction p as [x | C m k' IH]; [done |]. intros H s. left. split; [apply H | apply IH, H]. Qed.

(** A first action that keeps [R]. *)
Lemma keeps_then {A B} (Q : result B -> Prop) (p : Prog S A) (k : A -> Prog S B) :
  guarantees R p -> (forall a, keeps_unless R Q (k a)) -> keeps_unless R Q (p ≫= k).
Proof. intros Hp Hk. apply keeps_unless_bind; [by apply guarantees_keeps | done]. Qed.
End keeps_unless.

(** [records Q h p]: when [p] ends with [x], after the actions [h] and its own, each with the
    state it found and the state it left, they are in [Q] with [x], whatever other threads
    did between the actions. *)
Fixpoint records {S A} (Q : list (S * S) -> result A -> Prop) (h : list (S * S)) (p : Prog S A) : Prop :=
  match p with
  | Done x => Q h x
  | Act m k => forall s, records Q (h ++ [(s, (m s).1)]) (k (m s).2)
  end.

(** Actions of the kinds [Fs] occur in [h], in this order. *)
Fixpoint occurs {S} (Fs : list (S -> S -> Prop)) (h : list (S * S)) : Prop :=
  match Fs with
  | [] => True
  | F :: Fs => exists h1 s s' h2, h = h1 ++ (s, s') :: h2 /\ F s s' /\ occurs Fs h2
  end.

Section records.
Context {S : Type}.
Implicit Types (h : list (S * S)) (Fs : list (S -> S -> Prop)).

Lemma records_mono {A} (Q Q' : list (S * S) -> result A -> Prop) h (p : Prog S A) :
  (forall h x, Q h x -> Q' h x) -> records Q h p -> records Q' h p.
Proof. intros HQ. revert h. induction p as [x | B m k IH]; intros h; cbn; [auto |]. intros H s. by apply IH, H. Qed.

Lemma records_bind {A B} (Q : list (S * S) -> result B -> Prop) h (p : Prog S A) (k : A -> Prog S B) :
  records (fun h x => match x with Ok a => records Q h (k a) | Throw e => Q h (Throw e) end) h p -> records Q h (p ≫= k).
Proof. revert h. induction p as [[a | e] | C m k' IH]; intros h; cbn; [done | done |]. intros H s. by apply IH, H. Qed.

Lemma records_catch {A} (Q : list (S * S) -> result A -> Prop) h (p : Prog S A) (g : exn -> Prog S A) :
  records (fun h x => match x with Ok a => Q h (Ok a) | Throw e => records Q h (g e) end) h p -> records Q h (prog_catch p g).
Proof. revert h. induction p as [[a | e] | C m k' IH]; intros h; cbn; [done | done |]. intros H s. by apply IH, H. Qed.

Lemma ensures_records {A} (Q : result A -> Prop) h (p : Prog S A) : ensures (fun _ => True) Q p -> records (fun _ => Q) h p.
Proof. revert h. induction p as [x | B m k IH]; intros h; cbn; [done |]. intros H s. by apply IH, H. Qed.

Lemma occurs_app Fs h h' : occurs Fs h -> occurs Fs (h ++ h').
Proof.
  revert h. induction Fs as [| F Fs IH]; intros h; [done |]. intros (h1 & s & s' & h2 & -> & HF & H).
  exists h1, s, s', (h2 ++ h'). rewrite <- app_assoc. split; [done | split; [done | by apply IH]].
Qed.
Lemma occurs_then Fs (F : S -> S -> Prop) h s s' : occurs Fs h -> F s s' -> occurs (Fs ++ [F]) (h ++ [(s, s')]).
Proof.
  revert h. induction Fs as [| G Fs IH]; intros h H HF; [by exists h, s, s', [] |].
  destruct H as (h1 & r & r' & h2 & -> & HG & H). exists h1, r, r', (h2 ++ [(s, s')]). rewrite <- app_assoc.
  split; [done | split; [done | by apply IH]].
Qed.
Lemma occurs_impl Fs Gs h : Forall2 (fun F G => forall s s', F s s' -> G s s') Fs Gs -> occurs Fs h -> occurs Gs h.
Proof.
  intros HF. revert h. induction HF as [| F G Fs Gs HFG _ IH]; intros h; [done |].
  intros (h1 & s & s' & h2 & -> & Hs & H). exists h1, s, s', h2. split; [done |]. split; [by apply HFG | by apply IH].
Qed.
End records.

(** * Pools of threads *)

(** A shared state and the threads that run over it. *)
Record Crew (S A : Type) : Type := mkCrew { crew_state : S; crew_threads : gmap Z (Prog S A) }.
Arguments mkCrew {S A} _ _.
Arguments crew_state {S A} _.
Arguments crew_threads {S A} _.

(** A thread begins, acts or is gone; or something outside the threads happens to the
    state. *)
Inductive CrewEvent (S A : Type) : Type :=
  | Begin (p : Z) (t : Prog S A)
  | Step (p : Z)
  | Gone (p : Z)
  | Outside (g : S -> S).
Arguments Begin {S A} _ _.
Arguments Step {S A} _.
Arguments Gone {S A} _.
Arguments Outside {S A} _.

Section crew.
Context {S A : Type}.
Implicit Types (c : Crew S A) (e : CrewEvent S A) (t : Prog S A).

Definition crew_event e c : Crew S A :=
  let s := crew_state c in let ts := crew_threads c in
  match e with
  | Begin p t => match ts !! p with None => mkCrew s (<[ p := t ]> ts) | Some _ => c end
  | Step p => match ts !! p with
              | Some (Act m k) => mkCrew (m s).1 (<[ p := k (m s).2 ]> ts)
              | _ => c
              end
  | Gone p => match ts !! p with Some (Done _) => mkCrew s (delete p ts) | _ => c end
  | Outside g => mkCrew (g s) ts
  end.
Definition crew_run (es : list (CrewEvent S A)) c : Crew S A := foldl (fun c e => crew_event e c) c es.

(** The states from [c] on, in the course of [es]. *)
Definition crew_visits c (es : list (CrewEvent S A)) (s : S) : Prop :=
  exists es1 es2, es = es1 ++ es2 /\ s = crew_state (crew_run es1 c).
(** The thread [t], begun as [p] in [c], has ended with [x] after [es]. *)
Definition finished (p : Z) t c (es : list (CrewEvent S A)) (x : result A) : Prop :=
  crew_threads c !! p = None /\ Forall (fun e => e <> Gone p) es /\
  crew_threads (crew_run es (crew_event (Begin p t) c)) !! p = Some (Done x).

Lemma crew_run_app es es' c : crew_run (es ++ es') c = crew_run es' (crew_run es c).
Proof. apply foldl_app. Qed.

(** What happens to the threads other than the one the event is about. *)
Lemma crew_other e c p t :
  crew_threads c !! p = Some t -> e <> Step p -> e <> Gone p -> crew_threads (crew_event e c) !! p = Some t.
Proof.
  intros Hp Hs Hg. destruct e as [q u | q | q | g]; cbn [crew_event]; try done.
  - destruct (crew_threads c !! q) eqn:Eq; [done |]. cbn. rewrite lookup_insert_ne by congruence. done.
  - destruct (crew_threads c !! q) as [[x |] |]; try done. cbn. rewrite lookup_insert_ne by congruence. done.
  - destruct (crew_threads c !! q) as [[x |] |]; try done. cbn. rewrite lookup_delete_ne by congruence. done.
Qed.

Lemma step_or_not e p : e = Step p \/ e <> Step p.
Proof. destruct e as [q u | q | q | g]; try (by right). destruct (decide (q = p)) as [-> |]; [by left | right; congruence]. Qed.

Lemma crew_ensures I Q p es c t :
  crew_threads c !! p = Some t -> ensures I Q t -> Forall (fun e => e <> Gone p) es -> (forall s, crew_visits c es s -> I s) ->
  exists t', crew_threads (crew_run es c) !! p = Some t' /\ ensures I Q t'.
Proof.
  revert c t. induction es as [| e es IH]; intros c t Hp Hq Hr HI; [by exists t |].
  inversion Hr as [| ? ? Hne Hr']; subst. cbn [crew_run foldl].
  assert (forall s, crew_visits (crew_event e c) es s -> I s) as HI'.
  { intros s (es1 & es2 & -> & ->). apply HI. by exists (e :: es1), es2. }
  assert (I (crew_state c) /\ I (crew_state (crew_event e c))) as [H0 H1].
  { split; [apply HI; by exists [], (e :: es) | apply HI'; by exists [], es]. }
  destruct (step_or_not e p) as [-> | He].
  - destruct t as [x | B m k]; cbn [crew_event] in *; rewrite Hp in *; [by apply (IH _ (Done x)) |].
    apply (IH _ (k (m (crew_state c)).2)); [apply lookup_insert_eq | by apply Hq | done | done].
  - apply (IH _ t); [by apply crew_other | done | done | done].
Qed.

Lemma finished_ensures Q p t c es x :
  finished p t c es x -> ensures (crew_visits (crew_event (Begin p t) c) es) Q t -> Q x.
Proof.
  intros (Hn & Hr & Hd) Hq.
  assert (crew_threads (crew_event (Begin p t) c) !! p = Some t) as Hp.
  { cbn [crew_event]. rewrite Hn. apply lookup_insert_eq. }
  destruct (crew_ensures _ Q p es _ _ Hp Hq Hr (fun s H => H)) as (t' & Ht & Hq'). rewrite Hd in Ht. by injection Ht as <-.
Qed.

(** What every thread that begins keeps, and what happens outside, the crew keeps. *)
Lemma crew_keeps (I : S -> Prop) es c :
  Forall (fun e => match e with Begin _ t => sustains I (fun _ => True) t | Outside g => forall s, I s -> I (g s) | _ => True end) es ->
  I (crew_state c) -> (forall p t, crew_threads c !! p = Some t -> sustains I (fun _ => True) t) ->
  I (crew_state (crew_run es c)) /\ forall p t, crew_threads (crew_run es c) !! p = Some t -> sustains I (fun _ => True) t.
Proof.
  intros Hes. revert c. induction Hes as [| e es He _ IH]; intros c Hi Ht; [done |]. cbn [crew_run foldl]. apply IH.
  - destruct e as [p u | p | p | g]; cbn [crew_event]; [| | | by apply He];
      destruct (crew_threads c !! p) as [[x | B m k] |] eqn:Ep; try done. by apply (Ht p _ Ep).
  - destruct e as [p u | p | p | g]; cbn [crew_event]; [| | | done];
      destruct (crew_threads c !! p) as [[x | B m k] |] eqn:Ep; try done; cbn; intros q t.
    + intros [[<- <-] | [_ Hq]]%lookup_insert_Some; [done | by eapply Ht].
    + intros [[<- <-] | [_ Hq]]%lookup_insert_Some; [by apply (Ht p _ Ep) | by eapply Ht].
    + intros [_ Hq]%lookup_delete_Some. by eapply Ht.
Qed.

(** What the threads that begin guarantee, those that run do: [P] tells apart the threads
    it is known of. *)
Lemma crew_threads_guarantee (R : S -> S -> Prop) (P : Z -> Prop) es c :
  Forall (fun e => match e with Begin p t => P p -> guarantees R t | _ => True end) es ->
  (forall p t, crew_threads c !! p = Some t -> P p -> guarantees R t) ->
  forall p t, crew_threads (crew_run es c) !! p = Some t -> P p -> guarantees R t.
Proof.
  intros Hes. revert c. induction Hes as [| e es He _ IH]; intros c Ht; [done |]. cbn [crew_run foldl]. apply IH.
  destruct e as [p u | p | p | g]; cbn [crew_event]; [| | | done];
    destruct (crew_threads c !! p) as [[x | B m k] |] eqn:Ep; try done; cbn; intros q t.
  - intros [[<- <-] | [_ Hq]]%lookup_insert_Some; [done | by eapply Ht].
  - intros [[<- <-] | [_ Hq]]%lookup_insert_Some; [intros Hp; by apply (Ht p _ Ep Hp) | by eapply Ht].
  - intros [_ Hq]%lookup_delete_Some. by eapply Ht.
Qed.

(** The states of a crew move along what all its threads guarantee. *)
Lemma crew_guarantees (R : S -> S -> Prop) `{!PreOrder R} es c :
  Forall (fun e => match e with Begin _ t => guarantees R t | Outside g => forall s, R s (g s) | _ => True end) es ->
  (forall p t, crew_threads c !! p = Some t -> guarantees R t) ->
  R (crew_state c) (crew_state (crew_run es c)).
Proof.
  intros Hes. revert c. induction Hes as [| e es He _ IH]; intros c Ht; [done |]. cbn [crew_run foldl].
  etrans; [| apply IH].
  - destruct e as [p u | p | p | g]; cbn [crew_event]; [| | | apply He];
      destruct (crew_threads c !! p) as [[x | B m k] |] eqn:Ep; try done. by apply (Ht p _ Ep).
  - intros p t Hp. apply (crew_threads_guarantee R (fun _ => True) [e] c) with (p := p); [| by eauto | done | done].
    constructor; [by destruct e | done].
Qed.

Lemma crew_visits_guarantees (R : S -> S -> Prop) `{!PreOrder R} es c s :
  Forall (fun e => match e with Begin _ t => guarantees R t | Outside g => forall s, R s (g s) | _ => True end) es ->
  (forall p t, crew_threads c !! p = Some t -> guarantees R t) -> crew_visits c es s -> R (crew_state c) s.
Proof. intros Hes Hc (es1 & es2 & -> & ->). apply Forall_app in Hes as [Hes _]. by apply crew_guarantees. Qed.

(** What part of the events visits, all of them do. *)
Lemma crew_visits_app_l c es es' s : crew_visits c es s -> crew_visits c (es ++ es') s.
Proof. intros (es1 & es2 & -> & ->). exists es1, (es2 ++ es'). by rewrite app_assoc. Qed.
Lemma crew_visits_app_r c es es' s : crew_visits (crew_run es c) es' s -> crew_visits c (es ++ es') s.
Proof. intros (es1 & es2 & -> & ->). exists (es ++ es1), es2. by rewrite app_assoc, crew_run_app. Qed.

(** The number of actions of a thread that runs alone. *)
Fixpoint actions_alone t (s : S) : nat :=
  match t with
  | Done _ => 0
  | Act m k => Datatypes.S (actions_alone (k (m s).2) (m s).1)
  end.

(** A thread whose actions come one after the other is [run]. *)
Lemma crew_alone p t c :
  crew_threads c !! p = Some t ->
  crew_run (replicate (actions_alone t (crew_state c)) (Step p)) c = mkCrew (run t (crew_state c)).1 (<[ p := Done (run t (crew_state c)).2 ]> (crew_threads c)).
Proof.
  revert c. induction t as [x | B m k IH]; intros c Hp.
  - cbn. rewrite insert_id by done. by destruct c.
  - assert (crew_threads (crew_event (Step p) c) !! p = Some (k (m (crew_state c)).2)) as Hk.
    { cbn [crew_event]. rewrite Hp. apply lookup_insert_eq. }
    pose proof (IH (m (crew_state c)).2 (crew_event (Step p) c) Hk) as Hn. assert (crew_state (crew_event (Step p) c) = (m (crew_state c)).1) as Es
      by (cbn [crew_event]; by rewrite Hp).
    cbn [actions_alone replicate crew_run foldl]. rewrite <- Es at 1. unfold crew_run in Hn. rewrite Hn. cbn [crew_event]. rewrite Hp. cbn [crew_state crew_threads run].
    destruct (m (crew_state c)) as [s' x]. cbn [fst snd]. by rewrite insert_insert_eq.
Qed.

(** The first [n] actions of a thread, alone. *)
Fixpoint run_for (n : nat) (t : Prog S A) (s : S) : S * Prog S A :=
  match n, t with
  | Datatypes.S n, Act m k => run_for n (k (m s).2) (m s).1
  | _, _ => (s, t)
  end.
Lemma crew_run_for n p t c :
  crew_threads c !! p = Some t ->
  crew_run (replicate n (Step p)) c = mkCrew (run_for n t (crew_state c)).1 (<[ p := (run_for n t (crew_state c)).2 ]> (crew_threads c)).
Proof.
  revert t c. induction n as [| n IH]; intros t c Hp; cbn [replicate crew_run foldl run_for]; [by rewrite insert_id; [destruct c |] |].
  destruct t as [x | B m k].
  - assert (crew_event (Step p) c = c) as -> by (cbn [crew_event]; by rewrite Hp). unfold crew_run in IH. rewrite (IH (Done x) c Hp).
    by destruct n.
  - unfold crew_run in IH. rewrite (IH (k (m (crew_state c)).2)); cbn [crew_event]; rewrite Hp; [| apply lookup_insert_eq].
    cbn [crew_state crew_threads]. by rewrite insert_insert_eq.
Qed.
Lemma crew_begin p t c : crew_threads c !! p = None -> crew_event (Begin p t) c = mkCrew (crew_state c) (<[ p := t ]> (crew_threads c)).
Proof. intros Hp. cbn [crew_event]. by rewrite Hp. Qed.

Lemma alone_finished p t c :
  crew_threads c !! p = None -> let n := actions_alone t (crew_state c) in
  finished p t c (replicate n (Step p)) (run t (crew_state c)).2 /\
    crew_run (Begin p t :: replicate n (Step p) ++ [Gone p]) c = mkCrew (run t (crew_state c)).1 (crew_threads c).
Proof.
  intros Hp n. pose proof (crew_alone p t (crew_event (Begin p t) c)) as Hn. rewrite (crew_begin p t c Hp) in Hn. cbn [crew_state crew_threads] in Hn.
  rewrite insert_insert_eq in Hn. specialize (Hn (lookup_insert_eq _ _ _)). fold n in Hn. rewrite <- (crew_begin p t c Hp) in Hn. split.
  - split; [done |]. split; [by apply Forall_replicate |]. rewrite Hn. apply lookup_insert_eq.
  - cbn [crew_run foldl]. rewrite foldl_app. unfold crew_run in Hn. rewrite Hn. cbn [foldl crew_event crew_threads crew_state].
    rewrite lookup_insert_eq. f_equal. by rewrite delete_insert_id.
Qed.
End crew.
