(* ===== verification/Identities.v ===== *)
(** Strongly typed identities and generations (identities.hpp) and the
    coordinator epoch (authority.hpp).

    [Id t] and [Gen t] are distinct types for distinct tags, so the type checker
    enforces on the model what the C++ templates enforce on the code.  Values are
    unsigned 64-bit; [Id.next] wraps, [Gen.next] throws instead of wrapping. *)

From stdpp Require Import base countable gmap strings.
From Stdlib Require Import ZArith Lia.
From S2P Require Import Prelude.

Open Scope Z_scope.

(** The tags, one per concept. *)
Inductive Tag : Type :=
  | ServiceTag | ServiceShardTag | ServiceSlotTag | AssignmentTag | TargetTag
  | ReplicaTag | EngineTag | EngineIncarnationTag | ReadinessProfileTag
  | ActivationTag | WorkerTag | WorkerBootTag | SourceTag | SourceBootTag
  | FailureDomainTag | FailureEventTag | FailoverPlanTag | FailoverAttemptTag
  | PromotionTag | FenceTag | RouteTag | GatewayTag | GatewayBootTag
  | CoordinatorTag | RegistrationPermitTag | StateTag | SessionTag | RequestTag
  | ExecutionTag | CompatibilityTag | CapacityTag | ResourceClaimTag
  | ReservationTag | DependencyTag | ServiceConfigTag | ServiceAuthorityTag
  | ReadinessGenerationTag | HealthGenerationTag | CandidateSnapshotTag
  | CutoverTag | VerificationTag | RecoveryTag | RevalidationTag | FailbackTag
  | PolicyTag | SloTag | CheckpointTag.

(** [detail::kGenMax]. *)
Definition kGenMax : Z := 2 ^ 64 - 1.

(** [Id<Tag>], sentinel 0. *)
Record Id (t : Tag) : Type := mkId { id_value : Z }.
Arguments mkId {t} _.
Arguments id_value {t} _.

(** [Gen<Tag>]. *)
Record Gen (t : Tag) : Type := mkGen { gen_value : Z }.
Arguments mkGen {t} _.
Arguments gen_value {t} _.

#[export] Instance Id_eq_dec t : EqDecision (Id t).
Proof. solve_decision. Defined.
#[export] Instance Gen_eq_dec t : EqDecision (Gen t).
Proof. solve_decision. Defined.
#[export] Program Instance Id_countable t : Countable (Id t) :=
  inj_countable' id_value mkId _.
Next Obligation. by intros t []. Qed.

Section id_ops.
Context {t : Tag}.
Implicit Types a b : Id t.

Definition id_null : Id t := mkId 0.
Definition min_id : Id t := mkId 1.
Definition id_is_null a : bool := Z.eqb (id_value a) 0.
Definition id_next a : Id t := mkId (wrap64 (id_value a + 1)).
Definition id_eqb a b : bool := Z.eqb (id_value a) (id_value b).
Definition id_ltb a b : bool := Z.ltb (id_value a) (id_value b).
End id_ops.

Section gen_ops.
Context {t : Tag}.
Implicit Types a b : Gen t.

Definition gen_default : Gen t := mkGen 1.
Definition gen_first : Gen t := mkGen 1.
Definition gen_null : Gen t := mkGen 0.
Definition gen_is_null a : bool := Z.eqb (gen_value a) 0.
(** [Gen::next]: throws on exhaustion rather than wrapping. *)
Definition gen_next a : result (Gen t) :=
  if Z.leb kGenMax (gen_value a) then Throw (GenerationExhausted "generation exhausted")
  else Ok (mkGen (gen_value a + 1)).
Definition can_advance a : bool := Z.ltb (gen_value a) kGenMax.
Definition gen_eqb a b : bool := Z.eqb (gen_value a) (gen_value b).
Definition gen_ltb a b : bool := Z.ltb (gen_value a) (gen_value b).
End gen_ops.

Notation "a =i b" := (id_eqb a b) (at level 70) : Z_scope.
Notation "a =g b" := (gen_eqb a b) (at level 70) : Z_scope.

(** Identity and generation aliases. *)
Notation ServiceId := (Id ServiceTag).
Notation ServiceSlotId := (Id ServiceSlotTag).
Notation AssignmentId := (Id AssignmentTag).
Notation TargetId := (Id TargetTag).
Notation ReplicaId := (Id ReplicaTag).
Notation EngineId := (Id EngineTag).
Notation EngineIncarnationId := (Id EngineIncarnationTag).
Notation ReadinessProfileId := (Id ReadinessProfileTag).
Notation ActivationId := (Id ActivationTag).
Notation WorkerId := (Id WorkerTag).
Notation WorkerBootId := (Id WorkerBootTag).
Notation SourceId := (Id SourceTag).
Notation SourceBootId := (Id SourceBootTag).
Notation FailureDomainId := (Id FailureDomainTag).
Notation FailureEventId := (Id FailureEventTag).
Notation FailoverPlanId := (Id FailoverPlanTag).
Notation FailoverAttemptId := (Id FailoverAttemptTag).
Notation FenceId := (Id FenceTag).
Notation RouteId := (Id RouteTag).
Notation GatewayBootId := (Id GatewayBootTag).
Notation CoordinatorId := (Id CoordinatorTag).
Notation StateId := (Id StateTag).
Notation RequestId := (Id RequestTag).
Notation ExecutionId := (Id ExecutionTag).
Notation CompatibilityId := (Id CompatibilityTag).
Notation ResourceClaimId := (Id ResourceClaimTag).
Notation ReservationId := (Id ReservationTag).
Notation DependencyId := (Id DependencyTag).

Notation ServiceGeneration := (Gen ServiceTag).
Notation FailureDomainGeneration := (Gen FailureDomainTag).
Notation ServiceConfigGeneration := (Gen ServiceConfigTag).
Notation AssignmentGeneration := (Gen AssignmentTag).
Notation ServiceAuthorityGeneration := (Gen ServiceAuthorityTag).
Notation TargetGeneration := (Gen TargetTag).
Notation ReplicaGeneration := (Gen ReplicaTag).
Notation EngineGeneration := (Gen EngineTag).
Notation ReadinessProfileGeneration := (Gen ReadinessProfileTag).
Notation ReadinessGeneration := (Gen ReadinessGenerationTag).
Notation ActivationGeneration := (Gen ActivationTag).
Notation FailureGeneration := (Gen FailureEventTag).
Notation HealthGeneration := (Gen HealthGenerationTag).
Notation CandidateSnapshotGeneration := (Gen CandidateSnapshotTag).
Notation FailoverPlanGeneration := (Gen FailoverPlanTag).
Notation FailoverAttemptGeneration := (Gen FailoverAttemptTag).
Notation FenceGeneration := (Gen FenceTag).
Notation RouteGeneration := (Gen RouteTag).
Notation PolicyGeneration := (Gen PolicyTag).
Notation CapacityGeneration := (Gen CapacityTag).
Notation ReservationGeneration := (Gen ReservationTag).
Notation StateGeneration := (Gen StateTag).
Notation CheckpointGeneration := (Gen CheckpointTag).
Notation ExecutionGeneration := (Gen ExecutionTag).

(** * Coordinator epoch *)

Record CoordinatorEpoch : Type := mkEpoch
  { ep_epoch : Z; ep_id : CoordinatorId; ep_boot : CoordinatorId }.

#[export] Instance CoordinatorEpoch_eq_dec : EqDecision CoordinatorEpoch.
Proof. solve_decision. Defined.

Definition epoch_default : CoordinatorEpoch := mkEpoch 0 id_null id_null.

Definition epoch_next (e : CoordinatorEpoch) : result CoordinatorEpoch :=
  if Z.eqb (ep_epoch e) (2 ^ 64 - 1) then Throw (GenerationExhausted "coordinator epoch exhausted")
  else Ok (mkEpoch (ep_epoch e + 1) (ep_id e) (ep_boot e)).

Definition epoch_eqb (a b : CoordinatorEpoch) : bool :=
  Z.eqb (ep_epoch a) (ep_epoch b) && (ep_id a =i ep_id b) && (ep_boot a =i ep_boot b).

(** [operator<]: by the number alone. *)
Definition epoch_ltb (a b : CoordinatorEpoch) : bool := Z.ltb (ep_epoch a) (ep_epoch b).

Notation "a =e b" := (epoch_eqb a b) (at level 70) : Z_scope.

(** * Lemmas *)

Lemma id_eqb_eq {t} (a b : Id t) : (a =i b) = true <-> a = b.
Proof.
  destruct a as [x], b as [y]; unfold id_eqb; simpl.
  rewrite Z.eqb_eq. split; [by intros -> | by intros [= ->]].
Qed.

Lemma id_eqb_neq {t} (a b : Id t) : (a =i b) = false <-> a <> b.
Proof. rewrite <- not_true_iff_false, id_eqb_eq. done. Qed.

Lemma id_eqb_refl {t} (a : Id t) : (a =i a) = true.
Proof. by apply id_eqb_eq. Qed.

Lemma gen_eqb_eq {t} (a b : Gen t) : (a =g b) = true <-> a = b.
Proof.
  destruct a as [x], b as [y]; unfold gen_eqb; simpl.
  rewrite Z.eqb_eq. split; [by intros -> | by intros [= ->]].
Qed.

Lemma gen_eqb_neq {t} (a b : Gen t) : (a =g b) = false <-> a <> b.
Proof. rewrite <- not_true_iff_false, gen_eqb_eq. done. Qed.

Lemma gen_eqb_refl {t} (a : Gen t) : (a =g a) = true.
Proof. by apply gen_eqb_eq. Qed.

Lemma epoch_eqb_eq (a b : CoordinatorEpoch) : (a =e b) = true <-> a = b.
Proof.
  destruct a, b; unfold epoch_eqb; simpl.
  rewrite !andb_true_iff, Z.eqb_eq, !id_eqb_eq.
  split; [by intros [[-> ->] ->] | by intros [= -> -> ->]].
Qed.

(** An epoch that advances is a later one of the same coordinator, and never 0. *)
Lemma epoch_next_later (e e' : CoordinatorEpoch) :
  0 <= ep_epoch e -> epoch_next e = Ok e' -> epoch_ltb e e' = true /\ (e =e e') = false /\ ep_id e' = ep_id e /\ ep_boot e' = ep_boot e /\ 0 < ep_epoch e'.
Proof.
  unfold epoch_next, epoch_ltb. intros He. destruct (Z.eqb _ _); [done |]. intros [= <-]. unfold epoch_eqb. cbn.
  rewrite Z.ltb_lt, (proj2 (Z.eqb_neq (ep_epoch e) (ep_epoch e + 1))) by lia. split_and!; try done; lia.
Qed.

Lemma epoch_eqb_refl (a : CoordinatorEpoch) : (a =e a) = true.
Proof. by apply epoch_eqb_eq. Qed.

Lemma id_is_null_false {t} (a : Id t) : id_is_null a = false <-> a <> id_null.
Proof.
  destruct a as [x]; unfold id_is_null, id_null; simpl. rewrite Z.eqb_neq.
  split; [intros H [= ->]; done | intros H ->; done].
Qed.

Lemma id_is_null_true {t} (a : Id t) : id_is_null a = true <-> a = id_null.
Proof.
  destruct a as [x]; unfold id_is_null, id_null; simpl. rewrite Z.eqb_eq.
  split; [by intros -> | by intros [= ->]].
Qed.

Create HintDb ids.
#[export] Hint Rewrite @id_eqb_eq @id_eqb_neq @gen_eqb_eq @gen_eqb_neq epoch_eqb_eq
  @id_eqb_refl @gen_eqb_refl epoch_eqb_refl : ids.

Lemma gen_next_ok {t} (g g' : Gen t) :
  gen_next g = Ok g' <-> gen_value g < kGenMax /\ gen_value g' = gen_value g + 1.
Proof.
  unfold gen_next. destruct g as [x], g' as [y]; simpl. destruct (Z.leb_spec kGenMax x).
  - split; [done | lia].
  - split; [intros [= ->]; lia | intros [_ ->]; done].
Qed.

(** [Gen::next] never wraps and never reuses a generation: on a 64-bit
    generation it either throws [GenerationExhausted], exactly when the maximum
    has been reached, or returns a 64-bit generation strictly above the old one;
    and [can_advance] tells the two cases apart. *)
Theorem gen_next_never_reuses {t} (g : Gen t) :
  u64 (gen_value g) ->
  (can_advance g = false /\ gen_value g = 2 ^ 64 - 1 /\
     gen_next g = Throw (GenerationExhausted "generation exhausted")) \/
  (can_advance g = true /\ exists g', gen_next g = Ok g' /\ u64 (gen_value g') /\
     gen_value g < gen_value g').
Proof.
  unfold u64, can_advance, gen_next, kGenMax. intros Hr.
  destruct (Z.leb_spec (2 ^ 64 - 1) (gen_value g)) as [Hle | Hlt].
  - left. destruct (Z.ltb_spec (gen_value g) (2 ^ 64 - 1)); repeat split; lia.
  - right. destruct (Z.ltb_spec (gen_value g) (2 ^ 64 - 1)); [| lia].
    split; [done |]. eexists; split; [done |]; simpl; lia.
Qed.

Lemma gen_next_never_reuses_witness :
  u64 (gen_value (mkGen 5 : RouteGeneration)) /\
  (can_advance (mkGen 5 : RouteGeneration) = false /\ gen_value (mkGen 5 : RouteGeneration) = 2 ^ 64 - 1 /\
     gen_next (mkGen 5 : RouteGeneration) = Throw (GenerationExhausted "generation exhausted") \/
   can_advance (mkGen 5 : RouteGeneration) = true /\
     exists g', gen_next (mkGen 5 : RouteGeneration) = Ok g' /\ u64 (gen_value g') /\
       gen_value (mkGen 5 : RouteGeneration) < gen_value g').
Proof.
  assert (H : u64 (gen_value (mkGen 5 : RouteGeneration))) by (unfold u64; simpl; lia).
  split; [exact H | exact (gen_next_never_reuses (mkGen 5) H)].
Defined.
