(* ===== verification/Types.v ===== *)
(** The vocabulary of the runtime: the enumerations of types.hpp, service.hpp,
    recovery.hpp, fence.hpp, request.hpp and plan.hpp with their [to_string]
    (types.cpp), each in a module of its own so that the constructors keep their
    C++ names ([EvidenceStatus.CONFIRMED]), and [Timestamp].

    The interface [Enum] is what the binary codecs rely on: the C++ cast of an
    enumerator to [uint8_t] and the range-checked cast back are inverse. *)

From stdpp Require Import base list strings.
From Stdlib Require Import ZArith Lia.
From S2P Require Import Prelude.

Open Scope Z_scope.

(** An [enum class E : uint8_t]: its enumerators in declaration order and the
    value of the cast [(uint8_t)e]. *)
Class Enum (A : Type) : Type :=
  { enum_all : list A;
    enum_index : A -> Z;
    enum_index_lookup : forall x, 0 <= enum_index x /\ enum_all !! Z.to_nat (enum_index x) = Some x;
    enum_lookup_index : forall i x, enum_all !! i = Some x -> enum_index x = Z.of_nat i }.

Ltac solve_enum := intros []; by split.
Ltac solve_enum_total :=
  intros i x H; repeat (destruct i as [| i]; [by injection H as <- |]); by destruct i.

(** The range-checked cast back: [if (v > (uint8_t)Last) throw; (E)v]. *)
Definition enum_of_u8 {A} `{Enum A} (v : Z) : option A :=
  if Z.ltb v 0 then None else enum_all !! Z.to_nat v.

Module EvidenceStatus.
Inductive EvidenceStatus : Type :=
  | SUSPECTED
  | CONFIRMED
  | CLEARED
  | STALE
  | UNKNOWN.

#[export] Instance EvidenceStatus_eq_dec : EqDecision EvidenceStatus.
Proof. solve_decision. Defined.

#[export] Program Instance EvidenceStatus_enum : Enum EvidenceStatus :=
  {| enum_all := [SUSPECTED; CONFIRMED; CLEARED; STALE; UNKNOWN];
     enum_index x := match x with SUSPECTED => 0 | CONFIRMED => 1 | CLEARED => 2 | STALE => 3 | UNKNOWN => 4 end |}.
Next Obligation. solve_enum. Qed.
Next Obligation. solve_enum_total. Qed.

Definition to_string_EvidenceStatus (x : EvidenceStatus) : string :=
  match x with
  | SUSPECTED => "SUSPECTED"
  | CONFIRMED => "CONFIRMED"
  | CLEARED => "CLEARED"
  | STALE => "STALE"
  | UNKNOWN => "UNKNOWN"
  end.

End EvidenceStatus.
Notation EvidenceStatus := EvidenceStatus.EvidenceStatus.
Export (hints) EvidenceStatus.


Module FailureCategory.
Inductive FailureCategory : Type :=
  | PROCESS_EXIT
  | TRANSPORT_DISCONNECT
  | HEARTBEAT_EXPIRATION
  | BACKEND_EXECUTION_FAILURE
  | READINESS_REVOKED
  | DEVICE_UNAVAILABLE
  | NODE_UNAVAILABLE
  | RESOURCE_CLAIM_REVOKED
  | DEPENDENCY_INVALIDATION
  | ADMIN_FAILOVER
  | PLANNED_MAINTENANCE
  | DEGRADED_HEALTH
  | UNKNOWN_FAILURE.

#[export] Instance FailureCategory_eq_dec : EqDecision FailureCategory.
Proof. solve_decision. Defined.

#[export] Program Instance FailureCategory_enum : Enum FailureCategory :=
  {| enum_all := [PROCESS_EXIT; TRANSPORT_DISCONNECT; HEARTBEAT_EXPIRATION; BACKEND_EXECUTION_FAILURE; READINESS_REVOKED; DEVICE_UNAVAILABLE; NODE_UNAVAILABLE; RESOURCE_CLAIM_REVOKED; DEPENDENCY_INVALIDATION; ADMIN_FAILOVER; PLANNED_MAINTENANCE; DEGRADED_HEALTH; UNKNOWN_FAILURE];
     enum_index x := match x with PROCESS_EXIT => 0 | TRANSPORT_DISCONNECT => 1 | HEARTBEAT_EXPIRATION => 2 | BACKEND_EXECUTION_FAILURE => 3 | READINESS_REVOKED => 4 | DEVICE_UNAVAILABLE => 5 | NODE_UNAVAILABLE => 6 | RESOURCE_CLAIM_REVOKED => 7 | DEPENDENCY_INVALIDATION => 8 | ADMIN_FAILOVER => 9 | PLANNED_MAINTENANCE => 10 | DEGRADED_HEALTH => 11 | UNKNOWN_FAILURE => 12 end |}.
Next Obligation. solve_enum. Qed.
Next Obligation. solve_enum_total. Qed.

Definition to_string_FailureCategory (x : FailureCategory) : string :=
  match x with
  | PROCESS_EXIT => "PROCESS_EXIT"
  | TRANSPORT_DISCONNECT => "TRANSPORT_DISCONNECT"
  | HEARTBEAT_EXPIRATION => "HEARTBEAT_EXPIRATION"
  | BACKEND_EXECUTION_FAILURE => "BACKEND_EXECUTION_FAILURE"
  | READINESS_REVOKED => "READINESS_REVOKED"
  | DEVICE_UNAVAILABLE => "DEVICE_UNAVAILABLE"
  | NODE_UNAVAILABLE => "NODE_UNAVAILABLE"
  | RESOURCE_CLAIM_REVOKED => "RESOURCE_CLAIM_REVOKED"
  | DEPENDENCY_INVALIDATION => "DEPENDENCY_INVALIDATION"
  | ADMIN_FAILOVER => "ADMIN_FAILOVER"
  | PLANNED_MAINTENANCE => "PLANNED_MAINTENANCE"
  | DEGRADED_HEALTH => "DEGRADED_HEALTH"
  | UNKNOWN_FAILURE => "UNKNOWN_FAILURE"
  end.

End FailureCategory.
Notation FailureCategory := FailureCategory.FailureCategory.
Export (hints) FailureCategory.


Module Provenance.
Inductive Provenance : Type :=
  | MEASURED
  | REPORTED
  | DERIVED
  | ESTIMATED
  | SYNTHETIC
  | RECONSTRUCTED
  | UNKNOWN.

#[export] Instance Provenance_eq_dec : EqDecision Provenance.
Proof. solve_decision. Defined.

#[export] Program Instance Provenance_enum : Enum Provenance :=
  {| enum_all := [MEASURED; REPORTED; DERIVED; ESTIMATED; SYNTHETIC; RECONSTRUCTED; UNKNOWN];
     enum_index x := match x with MEASURED => 0 | REPORTED => 1 | DERIVED => 2 | ESTIMATED => 3 | SYNTHETIC => 4 | RECONSTRUCTED => 5 | UNKNOWN => 6 end |}.
Next Obligation. solve_enum. Qed.
Next Obligation. solve_enum_total. Qed.

Definition to_string_Provenance (x : Provenance) : string :=
  match x with
  | MEASURED => "MEASURED"
  | REPORTED => "REPORTED"
  | DERIVED => "DERIVED"
  | ESTIMATED => "ESTIMATED"
  | SYNTHETIC => "SYNTHETIC"
  | RECONSTRUCTED => "RECONSTRUCTED"
  | UNKNOWN => "UNKNOWN"
  end.

End Provenance.
Notation Provenance := Provenance.Provenance.
Export (hints) Provenance.


Module ServiceOutcome.
Inductive ServiceOutcome : Type :=
  | UNKNOWN
  | AVAILABLE
  | DEGRADED
  | UNAVAILABLE
  | RECOVERING
  | REVALIDATION_REQUIRED.

#[export] Instance ServiceOutcome_eq_dec : EqDecision ServiceOutcome.
Proof. solve_decision. Defined.

#[export] Program Instance ServiceOutcome_enum : Enum ServiceOutcome :=
  {| enum_all := [UNKNOWN; AVAILABLE; DEGRADED; UNAVAILABLE; RECOVERING; REVALIDATION_REQUIRED];
     enum_index x := match x with UNKNOWN => 0 | AVAILABLE => 1 | DEGRADED => 2 | UNAVAILABLE => 3 | RECOVERING => 4 | REVALIDATION_REQUIRED => 5 end |}.
Next Obligation. solve_enum. Qed.
Next Obligation. solve_enum_total. Qed.

Definition to_string_ServiceOutcome (x : ServiceOutcome) : string :=
  match x with
  | UNKNOWN => "UNKNOWN"
  | AVAILABLE => "AVAILABLE"
  | DEGRADED => "DEGRADED"
  | UNAVAILABLE => "UNAVAILABLE"
  | RECOVERING => "RECOVERING"
  | REVALIDATION_REQUIRED => "REVALIDATION_REQUIRED"
  end.

End ServiceOutcome.
Notation ServiceOutcome := ServiceOutcome.ServiceOutcome.
Export (hints) ServiceOutcome.


Module AttemptState.
Inductive AttemptState : Type :=
  | REQUESTED
  | EVALUATING
  | BLOCKED
  | PREPARING
  | FENCING
  | PROMOTING
  | CUTTING_OVER
  | VERIFYING
  | COMPLETED
  | FAILED
  | CANCELLED
  | SUPERSEDED
  | RECOVERY_REQUIRED.

#[export] Instance AttemptState_eq_dec : EqDecision AttemptState.
Proof. solve_decision. Defined.

#[export] Program Instance AttemptState_enum : Enum AttemptState :=
  {| enum_all := [REQUESTED; EVALUATING; BLOCKED; PREPARING; FENCING; PROMOTING; CUTTING_OVER; VERIFYING; COMPLETED; FAILED; CANCELLED; SUPERSEDED; RECOVERY_REQUIRED];
     enum_index x := match x with REQUESTED => 0 | EVALUATING => 1 | BLOCKED => 2 | PREPARING => 3 | FENCING => 4 | PROMOTING => 5 | CUTTING_OVER => 6 | VERIFYING => 7 | COMPLETED => 8 | FAILED => 9 | CANCELLED => 10 | SUPERSEDED => 11 | RECOVERY_REQUIRED => 12 end |}.
Next Obligation. solve_enum. Qed.
Next Obligation. solve_enum_total. Qed.

Definition to_string_AttemptState (x : AttemptState) : string :=
  match x with
  | REQUESTED => "REQUESTED"
  | EVALUATING => "EVALUATING"
  | BLOCKED => "BLOCKED"
  | PREPARING => "PREPARING"
  | FENCING => "FENCING"
  | PROMOTING => "PROMOTING"
  | CUTTING_OVER => "CUTTING_OVER"
  | VERIFYING => "VERIFYING"
  | COMPLETED => "COMPLETED"
  | FAILED => "FAILED"
  | CANCELLED => "CANCELLED"
  | SUPERSEDED => "SUPERSEDED"
  | RECOVERY_REQUIRED => "RECOVERY_REQUIRED"
  end.

End AttemptState.
Notation AttemptState := AttemptState.AttemptState.
Export (hints) AttemptState.


Module AssignmentState.
Inductive AssignmentState : Type :=
  | CANDIDATE
  | PREPARED
  | AUTHORIZED
  | ACTIVE
  | DRAINING
  | FENCED
  | RETIRED
  | REVALIDATION_REQUIRED.

#[export] Instance AssignmentState_eq_dec : EqDecision AssignmentState.
Proof. solve_decision. Defined.

#[export] Program Instance AssignmentState_enum : Enum AssignmentState :=
  {| enum_all := [CANDIDATE; PREPARED; AUTHORIZED; ACTIVE; DRAINING; FENCED; RETIRED; REVALIDATION_REQUIRED];
     enum_index x := match x with CANDIDATE => 0 | PREPARED => 1 | AUTHORIZED => 2 | ACTIVE => 3 | DRAINING => 4 | FENCED => 5 | RETIRED => 6 | REVALIDATION_REQUIRED => 7 end |}.
Next Obligation. solve_enum. Qed.
Next Obligation. solve_enum_total. Qed.

Definition to_string_AssignmentState (x : AssignmentState) : string :=
  match x with
  | CANDIDATE => "CANDIDATE"
  | PREPARED => "PREPARED"
  | AUTHORIZED => "AUTHORIZED"
  | ACTIVE => "ACTIVE"
  | DRAINING => "DRAINING"
  | FENCED => "FENCED"
  | RETIRED => "RETIRED"
  | REVALIDATION_REQUIRED => "REVALIDATION_REQUIRED"
  end.

End AssignmentState.
Notation AssignmentState := AssignmentState.AssignmentState.
Export (hints) AssignmentState.


Module ContinuityClass.
Inductive ContinuityClass : Type :=
  | STATELESS_RESTART
  | REPLAY_SAFE_REQUESTS
  | CHECKPOINT_RESTORE
  | SESSION_STATE_REBIND
  | SESSION_RESTART_REQUIRED
  | MANUAL_RECOVERY_REQUIRED
  | UNKNOWN.

#[export] Instance ContinuityClass_eq_dec : EqDecision ContinuityClass.
Proof. solve_decision. Defined.

#[export] Program Instance ContinuityClass_enum : Enum ContinuityClass :=
  {| enum_all := [STATELESS_RESTART; REPLAY_SAFE_REQUESTS; CHECKPOINT_RESTORE; SESSION_STATE_REBIND; SESSION_RESTART_REQUIRED; MANUAL_RECOVERY_REQUIRED; UNKNOWN];
     enum_index x := match x with STATELESS_RESTART => 0 | REPLAY_SAFE_REQUESTS => 1 | CHECKPOINT_RESTORE => 2 | SESSION_STATE_REBIND => 3 | SESSION_RESTART_REQUIRED => 4 | MANUAL_RECOVERY_REQUIRED => 5 | UNKNOWN => 6 end |}.
Next Obligation. solve_enum. Qed.
Next Obligation. solve_enum_total. Qed.

Definition to_string_ContinuityClass (x : ContinuityClass) : string :=
  match x with
  | STATELESS_RESTART => "STATELESS_RESTART"
  | REPLAY_SAFE_REQUESTS => "REPLAY_SAFE_REQUESTS"
  | CHECKPOINT_RESTORE => "CHECKPOINT_RESTORE"
  | SESSION_STATE_REBIND => "SESSION_STATE_REBIND"
  | SESSION_RESTART_REQUIRED => "SESSION_RESTART_REQUIRED"
  | MANUAL_RECOVERY_REQUIRED => "MANUAL_RECOVERY_REQUIRED"
  | UNKNOWN => "UNKNOWN"
  end.

End ContinuityClass.
Notation ContinuityClass := ContinuityClass.ContinuityClass.
Export (hints) ContinuityClass.


Module DomainClass.
Inductive DomainClass : Type :=
  | PROCESS
  | DEVICE
  | HOST
  | RACK
  | ZONE
  | REGION
  | POWER
  | NETWORK
  | CUSTOM
  | UNKNOWN.

#[export] Instance DomainClass_eq_dec : EqDecision DomainClass.
Proof. solve_decision. Defined.

#[export] Program Instance DomainClass_enum : Enum DomainClass :=
  {| enum_all := [PROCESS; DEVICE; HOST; RACK; ZONE; REGION; POWER; NETWORK; CUSTOM; UNKNOWN];
     enum_index x := match x with PROCESS => 0 | DEVICE => 1 | HOST => 2 | RACK => 3 | ZONE => 4 | REGION => 5 | POWER => 6 | NETWORK => 7 | CUSTOM => 8 | UNKNOWN => 9 end |}.
Next Obligation. solve_enum. Qed.
Next Obligation. solve_enum_total. Qed.

Definition to_string_DomainClass (x : DomainClass) : string :=
  match x with
  | PROCESS => "PROCESS"
  | DEVICE => "DEVICE"
  | HOST => "HOST"
  | RACK => "RACK"
  | ZONE => "ZONE"
  | REGION => "REGION"
  | POWER => "POWER"
  | NETWORK => "NETWORK"
  | CUSTOM => "CUSTOM"
  | UNKNOWN => "UNKNOWN"
  end.

End DomainClass.
Notation DomainClass := DomainClass.DomainClass.
Export (hints) DomainClass.


Module ExclusionReason.
Inductive ExclusionReason : Type :=
  | NO_ELIGIBLE_TARGET
  | STALE_READINESS
  | INCOMPATIBLE_PROFILE
  | FAILED_DOMAIN
  | DOMAIN_INDEPENDENCE_UNKNOWN
  | INSUFFICIENT_CAPACITY
  | COMMITMENT_CONFLICT
  | STATE_UNAVAILABLE
  | STATE_TOO_OLD
  | FENCING_UNPROVEN
  | ROUTE_AUTHORITY_UNAVAILABLE
  | RECOVERY_BUDGET_INFEASIBLE
  | REVALIDATION_REQUIRED
  | STALE_AUTHORITY
  | FENCED_BOOT
  | UNKNOWN_REQUIRED_EVIDENCE
  | RESOURCES_REVOKED
  | UNREADY_ENGINE
  | UNSUPPORTED_CONTINUITY
  | POLICY_PROHIBITED_DEGRADATION
  | STALE_ROUTE_PRECONDITION.

#[export] Instance ExclusionReason_eq_dec : EqDecision ExclusionReason.
Proof. solve_decision. Defined.

#[export] Program Instance ExclusionReason_enum : Enum ExclusionReason :=
  {| enum_all := [NO_ELIGIBLE_TARGET; STALE_READINESS; INCOMPATIBLE_PROFILE; FAILED_DOMAIN; DOMAIN_INDEPENDENCE_UNKNOWN; INSUFFICIENT_CAPACITY; COMMITMENT_CONFLICT; STATE_UNAVAILABLE; STATE_TOO_OLD; FENCING_UNPROVEN; ROUTE_AUTHORITY_UNAVAILABLE; RECOVERY_BUDGET_INFEASIBLE; REVALIDATION_REQUIRED; STALE_AUTHORITY; FENCED_BOOT; UNKNOWN_REQUIRED_EVIDENCE; RESOURCES_REVOKED; UNREADY_ENGINE; UNSUPPORTED_CONTINUITY; POLICY_PROHIBITED_DEGRADATION; STALE_ROUTE_PRECONDITION];
     enum_index x := match x with NO_ELIGIBLE_TARGET => 0 | STALE_READINESS => 1 | INCOMPATIBLE_PROFILE => 2 | FAILED_DOMAIN => 3 | DOMAIN_INDEPENDENCE_UNKNOWN => 4 | INSUFFICIENT_CAPACITY => 5 | COMMITMENT_CONFLICT => 6 | STATE_UNAVAILABLE => 7 | STATE_TOO_OLD => 8 | FENCING_UNPROVEN => 9 | ROUTE_AUTHORITY_UNAVAILABLE => 10 | RECOVERY_BUDGET_INFEASIBLE => 11 | REVALIDATION_REQUIRED => 12 | STALE_AUTHORITY => 13 | FENCED_BOOT => 14 | UNKNOWN_REQUIRED_EVIDENCE => 15 | RESOURCES_REVOKED => 16 | UNREADY_ENGINE => 17 | UNSUPPORTED_CONTINUITY => 18 | POLICY_PROHIBITED_DEGRADATION => 19 | STALE_ROUTE_PRECONDITION => 20 end |}.
Next Obligation. solve_enum. Qed.
Next Obligation. solve_enum_total. Qed.

Definition to_string_ExclusionReason (x : ExclusionReason) : string :=
  match x with
  | NO_ELIGIBLE_TARGET => "NO_ELIGIBLE_TARGET"
  | STALE_READINESS => "STALE_READINESS"
  | INCOMPATIBLE_PROFILE => "INCOMPATIBLE_PROFILE"
  | FAILED_DOMAIN => "FAILED_DOMAIN"
  | DOMAIN_INDEPENDENCE_UNKNOWN => "DOMAIN_INDEPENDENCE_UNKNOWN"
  | INSUFFICIENT_CAPACITY => "INSUFFICIENT_CAPACITY"
  | COMMITMENT_CONFLICT => "COMMITMENT_CONFLICT"
  | STATE_UNAVAILABLE => "STATE_UNAVAILABLE"
  | STATE_TOO_OLD => "STATE_TOO_OLD"
  | FENCING_UNPROVEN => "FENCING_UNPROVEN"
  | ROUTE_AUTHORITY_UNAVAILABLE => "ROUTE_AUTHORITY_UNAVAILABLE"
  | RECOVERY_BUDGET_INFEASIBLE => "RECOVERY_BUDGET_INFEASIBLE"
  | REVALIDATION_REQUIRED => "REVALIDATION_REQUIRED"
  | STALE_AUTHORITY => "STALE_AUTHORITY"
  | FENCED_BOOT => "FENCED_BOOT"
  | UNKNOWN_REQUIRED_EVIDENCE => "UNKNOWN_REQUIRED_EVIDENCE"
  | RESOURCES_REVOKED => "RESOURCES_REVOKED"
  | UNREADY_ENGINE => "UNREADY_ENGINE"
  | UNSUPPORTED_CONTINUITY => "UNSUPPORTED_CONTINUITY"
  | POLICY_PROHIBITED_DEGRADATION => "POLICY_PROHIBITED_DEGRADATION"
  | STALE_ROUTE_PRECONDITION => "STALE_ROUTE_PRECONDITION"
  end.

End ExclusionReason.
Notation ExclusionReason := ExclusionReason.ExclusionReason.
Export (hints) ExclusionReason.


Module RequestDisposition.
Inductive RequestDisposition : Type :=
  | NOT_DISPATCHED
  | DISPATCHED
  | ACCEPTED_BY_TARGET
  | CONFIRMED_COMPLETE
  | RESPONSE_COMMITTED
  | FAILED
  | OUTCOME_UNKNOWN.

#[export] Instance RequestDisposition_eq_dec : EqDecision RequestDisposition.
Proof. solve_decision. Defined.

#[export] Program Instance RequestDisposition_enum : Enum RequestDisposition :=
  {| enum_all := [NOT_DISPATCHED; DISPATCHED; ACCEPTED_BY_TARGET; CONFIRMED_COMPLETE; RESPONSE_COMMITTED; FAILED; OUTCOME_UNKNOWN];
     enum_index x := match x with NOT_DISPATCHED => 0 | DISPATCHED => 1 | ACCEPTED_BY_TARGET => 2 | CONFIRMED_COMPLETE => 3 | RESPONSE_COMMITTED => 4 | FAILED => 5 | OUTCOME_UNKNOWN => 6 end |}.
Next Obligation. solve_enum. Qed.
Next Obligation. solve_enum_total. Qed.

Definition to_string_RequestDisposition (x : RequestDisposition) : string :=
  match x with
  | NOT_DISPATCHED => "NOT_DISPATCHED"
  | DISPATCHED => "DISPATCHED"
  | ACCEPTED_BY_TARGET => "ACCEPTED_BY_TARGET"
  | CONFIRMED_COMPLETE => "CONFIRMED_COMPLETE"
  | RESPONSE_COMMITTED => "RESPONSE_COMMITTED"
  | FAILED => "FAILED"
  | OUTCOME_UNKNOWN => "OUTCOME_UNKNOWN"
  end.

End RequestDisposition.
Notation RequestDisposition := RequestDisposition.RequestDisposition.
Export (hints) RequestDisposition.


Module FailbackPolicy.
Inductive FailbackPolicy : Type :=
  | MANUAL
  | STAY_ON_CURRENT
  | RETURN_AFTER_VALIDATION.

#[export] Instance FailbackPolicy_eq_dec : EqDecision FailbackPolicy.
Proof. solve_decision. Defined.

#[export] Program Instance FailbackPolicy_enum : Enum FailbackPolicy :=
  {| enum_all := [MANUAL; STAY_ON_CURRENT; RETURN_AFTER_VALIDATION];
     enum_index x := match x with MANUAL => 0 | STAY_ON_CURRENT => 1 | RETURN_AFTER_VALIDATION => 2 end |}.
Next Obligation. solve_enum. Qed.
Next Obligation. solve_enum_total. Qed.

Definition to_string_FailbackPolicy (x : FailbackPolicy) : string :=
  match x with
  | MANUAL => "MANUAL"
  | STAY_ON_CURRENT => "STAY_ON_CURRENT"
  | RETURN_AFTER_VALIDATION => "RETURN_AFTER_VALIDATION"
  end.

End FailbackPolicy.
Notation FailbackPolicy := FailbackPolicy.FailbackPolicy.
Export (hints) FailbackPolicy.


Module RouteState.
Inductive RouteState : Type :=
  | EMPTY
  | PENDING_INSTALL
  | INSTALLED
  | ACKNOWLEDGED
  | REVALIDATION_REQUIRED
  | STALE.

#[export] Instance RouteState_eq_dec : EqDecision RouteState.
Proof. solve_decision. Defined.

#[export] Program Instance RouteState_enum : Enum RouteState :=
  {| enum_all := [EMPTY; PENDING_INSTALL; INSTALLED; ACKNOWLEDGED; REVALIDATION_REQUIRED; STALE];
     enum_index x := match x with EMPTY => 0 | PENDING_INSTALL => 1 | INSTALLED => 2 | ACKNOWLEDGED => 3 | REVALIDATION_REQUIRED => 4 | STALE => 5 end |}.
Next Obligation. solve_enum. Qed.
Next Obligation. solve_enum_total. Qed.

Definition to_string_RouteState (x : RouteState) : string :=
  match x with
  | EMPTY => "EMPTY"
  | PENDING_INSTALL => "PENDING_INSTALL"
  | INSTALLED => "INSTALLED"
  | ACKNOWLEDGED => "ACKNOWLEDGED"
  | REVALIDATION_REQUIRED => "REVALIDATION_REQUIRED"
  | STALE => "STALE"
  end.

End RouteState.
Notation RouteState := RouteState.RouteState.
Export (hints) RouteState.


Module Severity.
Inductive Severity : Type :=
  | LOW
  | MEDIUM
  | HIGH
  | CRITICAL.

#[export] Instance Severity_eq_dec : EqDecision Severity.
Proof. solve_decision. Defined.

#[export] Program Instance Severity_enum : Enum Severity :=
  {| enum_all := [LOW; MEDIUM; HIGH; CRITICAL];
     enum_index x := match x with LOW => 0 | MEDIUM => 1 | HIGH => 2 | CRITICAL => 3 end |}.
Next Obligation. solve_enum. Qed.
Next Obligation. solve_enum_total. Qed.

Definition to_string_Severity (x : Severity) : string :=
  match x with
  | LOW => "LOW"
  | MEDIUM => "MEDIUM"
  | HIGH => "HIGH"
  | CRITICAL => "CRITICAL"
  end.

End Severity.
Notation Severity := Severity.Severity.
Export (hints) Severity.


Module ServingRole.
Inductive ServingRole : Type :=
  | EXCLUSIVE_ACTIVE
  | PARTITIONED_SLOTS
  | MULTI_ACTIVE_SLOTS.

#[export] Instance ServingRole_eq_dec : EqDecision ServingRole.
Proof. solve_decision. Defined.

#[export] Program Instance ServingRole_enum : Enum ServingRole :=
  {| enum_all := [EXCLUSIVE_ACTIVE; PARTITIONED_SLOTS; MULTI_ACTIVE_SLOTS];
     enum_index x := match x with EXCLUSIVE_ACTIVE => 0 | PARTITIONED_SLOTS => 1 | MULTI_ACTIVE_SLOTS => 2 end |}.
Next Obligation. solve_enum. Qed.
Next Obligation. solve_enum_total. Qed.

Definition to_string_ServingRole (x : ServingRole) : string :=
  match x with
  | EXCLUSIVE_ACTIVE => "EXCLUSIVE_ACTIVE"
  | PARTITIONED_SLOTS => "PARTITIONED_SLOTS"
  | MULTI_ACTIVE_SLOTS => "MULTI_ACTIVE_SLOTS"
  end.

End ServingRole.
Notation ServingRole := ServingRole.ServingRole.
Export (hints) ServingRole.


Module RtoAnchor.
Inductive RtoAnchor : Type :=
  | FIRST_ACCEPTED_FAILURE_OBSERVATION
  | EXPLICIT_FAILOVER_REQUEST
  | SERVICE_CONTRACT_ANCHOR.

#[export] Instance RtoAnchor_eq_dec : EqDecision RtoAnchor.
Proof. solve_decision. Defined.

#[export] Program Instance RtoAnchor_enum : Enum RtoAnchor :=
  {| enum_all := [FIRST_ACCEPTED_FAILURE_OBSERVATION; EXPLICIT_FAILOVER_REQUEST; SERVICE_CONTRACT_ANCHOR];
     enum_index x := match x with FIRST_ACCEPTED_FAILURE_OBSERVATION => 0 | EXPLICIT_FAILOVER_REQUEST => 1 | SERVICE_CONTRACT_ANCHOR => 2 end |}.
Next Obligation. solve_enum. Qed.
Next Obligation. solve_enum_total. Qed.

Definition to_string_RtoAnchor (x : RtoAnchor) : string :=
  match x with
  | FIRST_ACCEPTED_FAILURE_OBSERVATION => "FIRST_ACCEPTED_FAILURE_OBSERVATION"
  | EXPLICIT_FAILOVER_REQUEST => "EXPLICIT_FAILOVER_REQUEST"
  | SERVICE_CONTRACT_ANCHOR => "SERVICE_CONTRACT_ANCHOR"
  end.

End RtoAnchor.
Notation RtoAnchor := RtoAnchor.RtoAnchor.
Export (hints) RtoAnchor.


Module RecoveryStage.
Inductive RecoveryStage : Type :=
  | FAILURE_OBSERVATION
  | CANDIDATE_EVALUATION
  | ENGINE_PREPARATION
  | STATE_RESTORE_OR_REBIND
  | FENCING
  | ACTIVATION
  | ROUTE_INSTALLATION
  | VERIFICATION.

#[export] Instance RecoveryStage_eq_dec : EqDecision RecoveryStage.
Proof. solve_decision. Defined.

#[export] Program Instance RecoveryStage_enum : Enum RecoveryStage :=
  {| enum_all := [FAILURE_OBSERVATION; CANDIDATE_EVALUATION; ENGINE_PREPARATION; STATE_RESTORE_OR_REBIND; FENCING; ACTIVATION; ROUTE_INSTALLATION; VERIFICATION];
     enum_index x := match x with FAILURE_OBSERVATION => 0 | CANDIDATE_EVALUATION => 1 | ENGINE_PREPARATION => 2 | STATE_RESTORE_OR_REBIND => 3 | FENCING => 4 | ACTIVATION => 5 | ROUTE_INSTALLATION => 6 | VERIFICATION => 7 end |}.
Next Obligation. solve_enum. Qed.
Next Obligation. solve_enum_total. Qed.

Definition to_string_RecoveryStage (x : RecoveryStage) : string :=
  match x with
  | FAILURE_OBSERVATION => "FAILURE_OBSERVATION"
  | CANDIDATE_EVALUATION => "CANDIDATE_EVALUATION"
  | ENGINE_PREPARATION => "ENGINE_PREPARATION"
  | STATE_RESTORE_OR_REBIND => "STATE_RESTORE_OR_REBIND"
  | FENCING => "FENCING"
  | ACTIVATION => "ACTIVATION"
  | ROUTE_INSTALLATION => "ROUTE_INSTALLATION"
  | VERIFICATION => "VERIFICATION"
  end.

End RecoveryStage.
Notation RecoveryStage := RecoveryStage.RecoveryStage.
Export (hints) RecoveryStage.


Module FenceEnforcement.
Inductive FenceEnforcement : Type :=
  | COORDINATOR_ASSIGNMENT_AUTHORITY
  | GATEWAY_DISPATCH
  | WORKER_ADMISSION
  | RESULT_ACCEPTANCE
  | EXTERNAL_SIDE_EFFECT_BOUNDARY.

#[export] Instance FenceEnforcement_eq_dec : EqDecision FenceEnforcement.
Proof. solve_decision. Defined.

#[export] Program Instance FenceEnforcement_enum : Enum FenceEnforcement :=
  {| enum_all := [COORDINATOR_ASSIGNMENT_AUTHORITY; GATEWAY_DISPATCH; WORKER_ADMISSION; RESULT_ACCEPTANCE; EXTERNAL_SIDE_EFFECT_BOUNDARY];
     enum_index x := match x with COORDINATOR_ASSIGNMENT_AUTHORITY => 0 | GATEWAY_DISPATCH => 1 | WORKER_ADMISSION => 2 | RESULT_ACCEPTANCE => 3 | EXTERNAL_SIDE_EFFECT_BOUNDARY => 4 end |}.
Next Obligation. solve_enum. Qed.
Next Obligation. solve_enum_total. Qed.

Definition to_string_FenceEnforcement (x : FenceEnforcement) : string :=
  match x with
  | COORDINATOR_ASSIGNMENT_AUTHORITY => "COORDINATOR_ASSIGNMENT_AUTHORITY"
  | GATEWAY_DISPATCH => "GATEWAY_DISPATCH"
  | WORKER_ADMISSION => "WORKER_ADMISSION"
  | RESULT_ACCEPTANCE => "RESULT_ACCEPTANCE"
  | EXTERNAL_SIDE_EFFECT_BOUNDARY => "EXTERNAL_SIDE_EFFECT_BOUNDARY"
  end.

End FenceEnforcement.
Notation FenceEnforcement := FenceEnforcement.FenceEnforcement.
Export (hints) FenceEnforcement.


Module FenceState.
Inductive FenceState : Type :=
  | NONE
  | REQUESTED
  | ENFORCED
  | UNPROVEN
  | SUPERSEDED.

#[export] Instance FenceState_eq_dec : EqDecision FenceState.
Proof. solve_decision. Defined.

#[export] Program Instance FenceState_enum : Enum FenceState :=
  {| enum_all := [NONE; REQUESTED; ENFORCED; UNPROVEN; SUPERSEDED];
     enum_index x := match x with NONE => 0 | REQUESTED => 1 | ENFORCED => 2 | UNPROVEN => 3 | SUPERSEDED => 4 end |}.
Next Obligation. solve_enum. Qed.
Next Obligation. solve_enum_total. Qed.

Definition to_string_FenceState (x : FenceState) : string :=
  match x with
  | NONE => "NONE"
  | REQUESTED => "REQUESTED"
  | ENFORCED => "ENFORCED"
  | UNPROVEN => "UNPROVEN"
  | SUPERSEDED => "SUPERSEDED"
  end.

End FenceState.
Notation FenceState := FenceState.FenceState.
Export (hints) FenceState.


Module IdempotencyAuthority.
Inductive IdempotencyAuthority : Type :=
  | NONE
  | SAFE_TO_RETRY
  | DETERMINISTIC_REFERENCE.

#[export] Instance IdempotencyAuthority_eq_dec : EqDecision IdempotencyAuthority.
Proof. solve_decision. Defined.

#[export] Program Instance IdempotencyAuthority_enum : Enum IdempotencyAuthority :=
  {| enum_all := [NONE; SAFE_TO_RETRY; DETERMINISTIC_REFERENCE];
     enum_index x := match x with NONE => 0 | SAFE_TO_RETRY => 1 | DETERMINISTIC_REFERENCE => 2 end |}.
Next Obligation. solve_enum. Qed.
Next Obligation. solve_enum_total. Qed.

Definition to_string_IdempotencyAuthority (x : IdempotencyAuthority) : string :=
  match x with
  | NONE => "NONE"
  | SAFE_TO_RETRY => "SAFE_TO_RETRY"
  | DETERMINISTIC_REFERENCE => "DETERMINISTIC_REFERENCE"
  end.

End IdempotencyAuthority.
Notation IdempotencyAuthority := IdempotencyAuthority.IdempotencyAuthority.
Export (hints) IdempotencyAuthority.


Module Milestone.
Inductive Milestone : Type :=
  | INTENT_ONLY
  | OLD_ADMISSION_FENCED
  | REPLACEMENT_AUTHORIZED
  | ACTIVATION_ACKNOWLEDGED
  | ROUTE_INSTALLED
  | VERIFICATION_COMPLETE.

#[export] Instance Milestone_eq_dec : EqDecision Milestone.
Proof. solve_decision. Defined.

#[export] Program Instance Milestone_enum : Enum Milestone :=
  {| enum_all := [INTENT_ONLY; OLD_ADMISSION_FENCED; REPLACEMENT_AUTHORIZED; ACTIVATION_ACKNOWLEDGED; ROUTE_INSTALLED; VERIFICATION_COMPLETE];
     enum_index x := match x with INTENT_ONLY => 0 | OLD_ADMISSION_FENCED => 1 | REPLACEMENT_AUTHORIZED => 2 | ACTIVATION_ACKNOWLEDGED => 3 | ROUTE_INSTALLED => 4 | VERIFICATION_COMPLETE => 5 end |}.
Next Obligation. solve_enum. Qed.
Next Obligation. solve_enum_total. Qed.

Definition to_string_Milestone (x : Milestone) : string :=
  match x with
  | INTENT_ONLY => "INTENT_ONLY"
  | OLD_ADMISSION_FENCED => "OLD_ADMISSION_FENCED"
  | REPLACEMENT_AUTHORIZED => "REPLACEMENT_AUTHORIZED"
  | ACTIVATION_ACKNOWLEDGED => "ACTIVATION_ACKNOWLEDGED"
  | ROUTE_INSTALLED => "ROUTE_INSTALLED"
  | VERIFICATION_COMPLETE => "VERIFICATION_COMPLETE"
  end.

End Milestone.
Notation Milestone := Milestone.Milestone.
Export (hints) Milestone.

(** * Timestamps *)

(** [struct Timestamp]: wall clock nanoseconds (signed 64-bit) and a per-source
    sequence number. *)
Record Timestamp : Type := mkTimestamp { wall_ns : Z; ts_seq : Z }.

#[export] Instance Timestamp_eta : Eta Timestamp := fun s => mkTimestamp (wall_ns s) (ts_seq s).
#[export] Instance Timestamp_eq_dec : EqDecision Timestamp.
Proof. solve_decision. Defined.

Definition timestamp_default : Timestamp := mkTimestamp 0 0.
Definition has_wall (t : Timestamp) : bool := negb (Z.eqb (wall_ns t) 0).

(** * Clocks *)

(** [class Clock]: what [now()] reads, in nanoseconds.  [SteadyClock] is a clock of the
    environment; [ManualClock] is advanced by its owner. *)
Class Clock (C : Type) := clock_reads : C -> Z.
Record ManualClock : Type := mkManualClock { mc_base : Z; mc_elapsed : Z }.
#[export] Instance ManualClock_eta : Eta ManualClock := fun c => mkManualClock (mc_base c) (mc_elapsed c).
#[export] Instance manual_clock : Clock ManualClock := fun c => mc_base c + mc_elapsed c.
Definition clock_advance (d : Z) (c : ManualClock) : ManualClock := c <| mc_elapsed := mc_elapsed c + d |>.
Definition clock_reset (c : ManualClock) : ManualClock := c <| mc_elapsed := 0 |>.
(** [ms_since_epoch]: milliseconds, truncated. *)
Definition ms_since_epoch {C} `{Clock C} (c : C) : Z := wrap64 (Z.quot (clock_reads c) 1000000).

(** The manual clock reads what it was advanced by since it was reset, and never goes back
    unless it is reset or advanced by less than nothing. *)
Lemma manual_clock_reads ds c :
  clock_reads (foldl (fun c d => clock_advance d c) (clock_reset c) ds) = mc_base c + foldr Z.add 0 ds /\
  (Forall (Z.le 0) ds -> forall c', clock_reads c' <= clock_reads (foldl (fun c d => clock_advance d c) c' ds)).
Proof.
  assert (forall ds (c : ManualClock), clock_reads (foldl (fun c d => clock_advance d c) c ds) = clock_reads c + foldr Z.add 0 ds) as H.
  { intros l. induction l as [| d l IH]; intros c'; cbn; [lia |]. rewrite IH. unfold clock_reads, manual_clock, clock_advance. cbn. lia. }
  split; [rewrite H; unfold clock_reads, manual_clock, clock_reset; cbn; lia |]. intros Hd c'. rewrite H.
  induction Hd; cbn; lia.
Qed.

(** * The cast round trip *)

Lemma enum_of_u8_index {A} `{Enum A} (x : A) : enum_of_u8 (enum_index x) = Some x.
Proof.
  unfold enum_of_u8. destruct (enum_index_lookup x) as [Hpos Hx].
  by destruct (Z.ltb_spec (enum_index x) 0); [lia |].
Qed.

Lemma enum_index_of_u8 {A} `{Enum A} (v : Z) (x : A) : enum_of_u8 v = Some x -> enum_index x = v.
Proof.
  unfold enum_of_u8. destruct (Z.ltb_spec v 0) as [| Hv]; [done |].
  intros Hx%enum_lookup_index. lia.
Qed.

Lemma enum_index_inj {A} `{Enum A} (x y : A) : enum_index x = enum_index y -> x = y.
Proof.
  intros Hxy. apply (f_equal enum_of_u8) in Hxy.
  rewrite !enum_of_u8_index in Hxy. by injection Hxy.
Qed.

Lemma enum_of_u8_Some_iff {A} `{Enum A} (v : Z) :
  is_Some (enum_of_u8 (A:=A) v) <-> 0 <= v < Z.of_nat (length (enum_all (A:=A))).
Proof.
  unfold enum_of_u8. destruct (Z.ltb_spec v 0).
  - split; [intros []; done | lia].
  - rewrite lookup_lt_is_Some. lia.
Qed.
