(* ===== verification/Double.v ===== *)
(** IEEE-754 binary64.

    A [double] stored in a struct is its 64-bit pattern (the pattern [memcpy]
    moves in the codecs); arithmetic decodes the pattern to the executable
    [spec_float] of the Standard Library at precision 53 and exponent 1024 and
    rounds to nearest-even there, which is what the C++ expressions compute
    without fast-math or contraction. *)

From stdpp Require Import base strings.
From Stdlib Require Import ZArith Lia SpecFloat.
From S2P Require Import Prelude.

Open Scope Z_scope.

Notation double := Z.

Definition exp_bits (d : double) : Z := Z.land (Z.shiftr d 52) 2047.
Definition frac_bits (d : double) : Z := Z.land d (2 ^ 52 - 1).

(** [std::isfinite]. *)
Definition isfinite (d : double) : bool := negb (Z.eqb (exp_bits d) 2047).

Definition f64_of_bits (d : double) : spec_float :=
  let s := Z.testbit d 63 in
  let e := exp_bits d in
  let m := frac_bits d in
  if Z.eqb e 0 then (if Z.eqb m 0 then S754_zero s else S754_finite s (Z.to_pos m) (-1074))
  else if Z.eqb e 2047 then (if Z.eqb m 0 then S754_infinity s else S754_nan)
  else S754_finite s (Z.to_pos (m + 2 ^ 52)) (e - 1075).

Definition f64_add := SFadd 53 1024.
Definition f64_sub := SFsub 53 1024.
Definition f64_mul := SFmul 53 1024.
Definition f64_div := SFdiv 53 1024.
Definition f64_ltb := SFltb.

(** The conversion [(double)z] of an integer. *)
Definition f64_of_Z (z : Z) : spec_float := binary_normalize 53 1024 z 0 false.

(** A decimal literal [n / d]: the quotient of two exact integers, rounded once. *)
Definition f64_lit (n d : Z) : spec_float := f64_div (f64_of_Z n) (f64_of_Z d).

(** [std::min] and [std::max]: [b < a ? b : a] and [a < b ? b : a]. *)
Definition f64_min (a b : spec_float) : spec_float := if f64_ltb b a then b else a.
Definition f64_max (a b : spec_float) : spec_float := if f64_ltb a b then b else a.

(** [std::round] (halfway cases away from zero) of a finite value, as an integer. *)
Definition f64_round (x : spec_float) : Z :=
  match x with
  | S754_finite s m e =>
    let a := if Z.leb 0 e then Zpos m * 2 ^ e
             else (2 * Zpos m + 2 ^ (- e)) / (2 * 2 ^ (- e)) in
    if s then - a else a
  | _ => 0
  end.

(** [a < b] on two stored doubles. *)
Definition double_ltb (a b : double) : bool := f64_ltb (f64_of_bits a) (f64_of_bits b).

(** [struct BoundedF64]. *)
Definition bounded_finite (v : double) : result double :=
  if negb (isfinite v) then Throw (InvalidArgument "non-finite value") else Ok v.
Definition bounded_between (v lo hi : double) : result double :=
  if negb (isfinite v) || double_ltb v lo || double_ltb hi v then Throw (InvalidArgument "value out of bounds") else Ok v.

(** What passes the bounds is finite, unchanged, and not outside them. *)
Lemma bounded_between_ok v lo hi x :
  bounded_between v lo hi = Ok x <-> x = v /\ bounded_finite v = Ok v /\ double_ltb v lo = false /\ double_ltb hi v = false.
Proof.
  unfold bounded_between, bounded_finite. destruct (isfinite v), (double_ltb v lo), (double_ltb hi v); naive_solver.
Qed.

(** Two patterns used in the reference configuration: 1.0 and 2.0. *)
Definition double_1 : double := 0x3FF0000000000000.
Definition double_2 : double := 0x4000000000000000.

Example double_order : double_ltb double_1 double_2 = true /\ double_ltb double_2 double_1 = false.
Proof. split; reflexivity. Qed.
Example round_half : f64_round (f64_lit 5 2) = 3 /\ f64_round (f64_lit 12 5) = 2.
Proof. split; reflexivity. Qed.

#[global] Arguments double_ltb : simpl never.
#[global] Arguments f64_ltb : simpl never.
#[global] Arguments f64_of_Z : simpl never.
#[global] Arguments f64_lit : simpl never.
#[global] Arguments f64_round : simpl never.
