(* ===== verification/Model.v ===== *)
(** The data model: the structs of service.hpp, authority.hpp, candidate.hpp,
    evidence.hpp, domains.hpp, fence.hpp, route.hpp, recovery.hpp, request.hpp,
    plan.hpp and cutover.hpp, one record per struct with the source's fields
    (prefixed per struct), and the default values their in-class initialisers
    give. *)

From stdpp Require Import base list gmap strings.
From Stdlib Require Import ZArith Lia.
From S2P Require Import Prelude Identities Types Double.

Open Scope Z_scope.

(** * service.hpp *)

(** [struct ServiceSlotKey]. *)
Record ServiceSlotKey : Type := mkSlotKey
  { sk_service : ServiceId;
    sk_slot : ServiceSlotId }.
#[export] Instance ServiceSlotKey_eta : Eta ServiceSlotKey := fun s => mkSlotKey
  (sk_service s) (sk_slot s).
#[export] Instance ServiceSlotKey_eq_dec : EqDecision ServiceSlotKey.
Proof. solve_decision. Defined.

#[export] Program Instance ServiceSlotKey_countable : Countable ServiceSlotKey :=
  inj_countable' (fun k => (sk_service k, sk_slot k)) (fun p => mkSlotKey p.1 p.2) _.
Next Obligation. by intros []. Qed.

Definition slotkey_eqb (a b : ServiceSlotKey) : bool :=
  (sk_service a =i sk_service b) && (sk_slot a =i sk_slot b).
Definition slotkey_ltb (a b : ServiceSlotKey) : bool :=
  if negb (sk_service a =i sk_service b) then id_ltb (sk_service a) (sk_service b)
  else id_ltb (sk_slot a) (sk_slot b).
Notation "a =k b" := (slotkey_eqb a b) (at level 70) : Z_scope.
Definition slotkey_null : ServiceSlotKey := mkSlotKey id_null id_null.

(** [struct SlotRange], two [uint32_t]. *)
Record SlotRange : Type := mkSlotRange
  { sr_first : Z;
    sr_count : Z }.
#[export] Instance SlotRange_eta : Eta SlotRange := fun s => mkSlotRange
  (sr_first s) (sr_count s).
#[export] Instance SlotRange_eq_dec : EqDecision SlotRange.
Proof. solve_decision. Defined.

(** [struct AntiFlappingPolicy]. *)
Record AntiFlappingPolicy : Type := mkAntiFlapping
  { afp_max_auto_attempts : Z;
    afp_cooldown_ms : Z;
    afp_hysteresis_ms : Z;
    afp_manual_intervention_required : bool }.
#[export] Instance AntiFlappingPolicy_eta : Eta AntiFlappingPolicy := fun s => mkAntiFlapping
  (afp_max_auto_attempts s) (afp_cooldown_ms s) (afp_hysteresis_ms s)
  (afp_manual_intervention_required s).
#[export] Instance AntiFlappingPolicy_eq_dec : EqDecision AntiFlappingPolicy.
Proof. solve_decision. Defined.

Definition anti_flapping_default : AntiFlappingPolicy := mkAntiFlapping 3 5000 5000 false.

(** [struct RecoveryObjective]. *)
Record RecoveryObjective : Type := mkRecoveryObjective
  { ro_rto_ms : Z;
    ro_rto_anchor : RtoAnchor;
    ro_continuity : ContinuityClass;
    ro_max_state_loss_sequences : Z;
    ro_min_checkpoint_gen : option CheckpointGeneration;
    ro_requires_verified_recovery : bool }.
#[export] Instance RecoveryObjective_eta : Eta RecoveryObjective := fun s => mkRecoveryObjective
  (ro_rto_ms s) (ro_rto_anchor s) (ro_continuity s) (ro_max_state_loss_sequences s)
  (ro_min_checkpoint_gen s) (ro_requires_verified_recovery s).
#[export] Instance RecoveryObjective_eq_dec : EqDecision RecoveryObjective.
Proof. solve_decision. Defined.

Definition recovery_objective_default : RecoveryObjective :=
  mkRecoveryObjective 0 RtoAnchor.FIRST_ACCEPTED_FAILURE_OBSERVATION ContinuityClass.UNKNOWN 0 None true.

(** [struct CompatibilityRequirement]. *)
Record CompatibilityRequirement : Type := mkCompatibility
  { cr_model_key : string;
    cr_runtime_abi : string;
    cr_readiness_profile : option ReadinessProfileId;
    cr_dependencies : list DependencyId;
    cr_required_capabilities : list CompatibilityId }.
#[export] Instance CompatibilityRequirement_eta : Eta CompatibilityRequirement := fun s => mkCompatibility
  (cr_model_key s) (cr_runtime_abi s) (cr_readiness_profile s) (cr_dependencies s)
  (cr_required_capabilities s).
#[export] Instance CompatibilityRequirement_eq_dec : EqDecision CompatibilityRequirement.
Proof. solve_decision. Defined.

(** [struct ResourceRequirement]. *)
Record ResourceRequirement : Type := mkResourceRequirement
  { rr_resource_class : string;
    rr_amount : double;
    rr_exactly_one_target : bool }.
#[export] Instance ResourceRequirement_eta : Eta ResourceRequirement := fun s => mkResourceRequirement
  (rr_resource_class s) (rr_amount s) (rr_exactly_one_target s).
#[export] Instance ResourceRequirement_eq_dec : EqDecision ResourceRequirement.
Proof. solve_decision. Defined.

(** [struct DomainRequirement]. *)
Record DomainRequirement : Type := mkDomainRequirement
  { dr_require_domain_independence : bool;
    dr_min_distinct_hosts : Z;
    dr_min_distinct_devices : Z;
    dr_forbidden_overlap_classes : list DomainClass }.
#[export] Instance DomainRequirement_eta : Eta DomainRequirement := fun s => mkDomainRequirement
  (dr_require_domain_independence s) (dr_min_distinct_hosts s) (dr_min_distinct_devices s)
  (dr_forbidden_overlap_classes s).
#[export] Instance DomainRequirement_eq_dec : EqDecision DomainRequirement.
Proof. solve_decision. Defined.

(** [struct ServiceDefinition]. *)
Record ServiceDefinition : Type := mkService
  { svc_service : ServiceId;
    svc_generation : ServiceGeneration;
    svc_config_generation : ServiceConfigGeneration;
    svc_name : string;
    svc_role : ServingRole;
    svc_slots : SlotRange;
    svc_compatibility : CompatibilityRequirement;
    svc_domain_requirement : DomainRequirement;
    svc_resources : list ResourceRequirement;
    svc_recovery : RecoveryObjective;
    svc_failback : FailbackPolicy;
    svc_anti_flapping : AntiFlappingPolicy;
    svc_required_state : list StateId;
    svc_provenance : Provenance;
    svc_policy_generation : PolicyGeneration }.
#[export] Instance ServiceDefinition_eta : Eta ServiceDefinition := fun s => mkService
  (svc_service s) (svc_generation s) (svc_config_generation s) (svc_name s) (svc_role s)
  (svc_slots s) (svc_compatibility s) (svc_domain_requirement s) (svc_resources s)
  (svc_recovery s) (svc_failback s) (svc_anti_flapping s) (svc_required_state s)
  (svc_provenance s) (svc_policy_generation s).
#[export] Instance ServiceDefinition_eq_dec : EqDecision ServiceDefinition.
Proof. solve_decision. Defined.

Definition service_default : ServiceDefinition :=
  mkService id_null gen_default gen_default "" ServingRole.EXCLUSIVE_ACTIVE (mkSlotRange 1 1)
    (mkCompatibility "" "" None [] []) (mkDomainRequirement false 0 0 []) []
    recovery_objective_default FailbackPolicy.MANUAL anti_flapping_default []
    Provenance.REPORTED gen_default.

(** [struct Assignment]. *)
Record Assignment : Type := mkAssignment
  { asg_id : AssignmentId;
    asg_generation : AssignmentGeneration;
    asg_slot : ServiceSlotKey;
    asg_target : TargetId;
    asg_target_generation : TargetGeneration;
    asg_replica : ReplicaId;
    asg_replica_generation : ReplicaGeneration;
    asg_engine : EngineId;
    asg_engine_incarnation : EngineIncarnationId;
    asg_readiness_profile : ReadinessProfileId;
    asg_authority_generation : ServiceAuthorityGeneration;
    asg_activation : ActivationId;
    asg_activation_generation : ActivationGeneration;
    asg_route : RouteId;
    asg_route_generation : RouteGeneration;
    asg_worker_boot : WorkerBootId;
    asg_resource_claims : list ResourceClaimId;
    asg_continuity_state : list StateId;
    asg_state : AssignmentState;
    asg_provisory : bool;
    asg_provenance : Provenance }.
#[export] Instance Assignment_eta : Eta Assignment := fun s => mkAssignment
  (asg_id s) (asg_generation s) (asg_slot s) (asg_target s) (asg_target_generation s)
  (asg_replica s) (asg_replica_generation s) (asg_engine s) (asg_engine_incarnation s)
  (asg_readiness_profile s) (asg_authority_generation s) (asg_activation s)
  (asg_activation_generation s) (asg_route s) (asg_route_generation s) (asg_worker_boot s)
  (asg_resource_claims s) (asg_continuity_state s) (asg_state s) (asg_provisory s)
  (asg_provenance s).
#[export] Instance Assignment_eq_dec : EqDecision Assignment.
Proof. solve_decision. Defined.

Definition assignment_default : Assignment :=
  mkAssignment id_null gen_default slotkey_null id_null gen_default id_null gen_default id_null
    id_null id_null gen_default id_null gen_default id_null gen_default id_null [] []
    AssignmentState.CANDIDATE false Provenance.DERIVED.

Definition is_authorizing (a : Assignment) : bool :=
  match asg_state a with
  | AssignmentState.AUTHORIZED | AssignmentState.ACTIVE => true
  | _ => false
  end.

(** * authority.hpp *)

(** [struct WorkerAuthorization]: a bounded per-request grant. *)
Record WorkerAuthorization : Type := mkAuth
  { wa_epoch : CoordinatorEpoch;
    wa_slot : ServiceSlotKey;
    wa_assignment : AssignmentId;
    wa_assignment_generation : AssignmentGeneration;
    wa_route_generation : RouteGeneration;
    wa_incarnation : EngineIncarnationId;
    wa_request : RequestId;
    wa_execution : ExecutionId;
    wa_operation : string;
    wa_worker_boot : WorkerBootId }.
#[export] Instance WorkerAuthorization_eta : Eta WorkerAuthorization := fun s => mkAuth
  (wa_epoch s) (wa_slot s) (wa_assignment s) (wa_assignment_generation s)
  (wa_route_generation s) (wa_incarnation s) (wa_request s) (wa_execution s) (wa_operation s)
  (wa_worker_boot s).
#[export] Instance WorkerAuthorization_eq_dec : EqDecision WorkerAuthorization.
Proof. solve_decision. Defined.

(** Its [operator==] leaves out the assignment generation and the operation. *)
Definition auth_eqb (a b : WorkerAuthorization) : bool :=
  (wa_epoch a =e wa_epoch b) && (wa_slot a =k wa_slot b) && (wa_assignment a =i wa_assignment b) &&
  (wa_request a =i wa_request b) && (wa_execution a =i wa_execution b) && (wa_worker_boot a =i wa_worker_boot b) &&
  (wa_route_generation a =g wa_route_generation b) && (wa_incarnation a =i wa_incarnation b).

(** [struct GateDecision]. *)
Record GateDecision : Type := mkGate
  { gd_allowed : bool;
    gd_reason : string;
    gd_fail_closed : bool }.
#[export] Instance GateDecision_eta : Eta GateDecision := fun s => mkGate
  (gd_allowed s) (gd_reason s) (gd_fail_closed s).
#[export] Instance GateDecision_eq_dec : EqDecision GateDecision.
Proof. solve_decision. Defined.

(** * domains.hpp *)

(** [struct DomainDecl]. *)
Record DomainDecl : Type := mkDomainDecl
  { dd_id : FailureDomainId;
    dd_generation : FailureDomainGeneration;
    dd_cls : DomainClass;
    dd_name : string;
    dd_parent : option FailureDomainId;
    dd_provenance : Provenance }.
#[export] Instance DomainDecl_eta : Eta DomainDecl := fun s => mkDomainDecl
  (dd_id s) (dd_generation s) (dd_cls s) (dd_name s) (dd_parent s) (dd_provenance s).
#[export] Instance DomainDecl_eq_dec : EqDecision DomainDecl.
Proof. solve_decision. Defined.

(** [struct DomainMembership]. *)
Record DomainMembership : Type := mkMembership
  { dm_target : TargetId;
    dm_domain : FailureDomainId;
    dm_known : bool }.
#[export] Instance DomainMembership_eta : Eta DomainMembership := fun s => mkMembership
  (dm_target s) (dm_domain s) (dm_known s).
#[export] Instance DomainMembership_eq_dec : EqDecision DomainMembership.
Proof. solve_decision. Defined.

(** * evidence.hpp *)

(** [struct FailureEvent]. *)
Record FailureEvent : Type := mkFailureEvent
  { fe_event_id : FailureEventId;
    fe_generation : FailureGeneration;
    fe_source : SourceId;
    fe_source_boot : SourceBootId;
    fe_category : FailureCategory;
    fe_status : EvidenceStatus;
    fe_provenance : Provenance;
    fe_severity : Severity;
    fe_confidence : double;
    fe_target : option TargetId;
    fe_target_generation : option TargetGeneration;
    fe_domain : option FailureDomainId;
    fe_observed : Timestamp;
    fe_received : Timestamp;
    fe_mechanism : string;
    fe_detail : string;
    fe_affected_domains : list FailureDomainId;
    fe_revalidates_existing : bool }.
#[export] Instance FailureEvent_eta : Eta FailureEvent := fun s => mkFailureEvent
  (fe_event_id s) (fe_generation s) (fe_source s) (fe_source_boot s) (fe_category s)
  (fe_status s) (fe_provenance s) (fe_severity s) (fe_confidence s) (fe_target s)
  (fe_target_generation s) (fe_domain s) (fe_observed s) (fe_received s) (fe_mechanism s)
  (fe_detail s) (fe_affected_domains s) (fe_revalidates_existing s).
#[export] Instance FailureEvent_eq_dec : EqDecision FailureEvent.
Proof. solve_decision. Defined.

Definition failure_event_default : FailureEvent :=
  mkFailureEvent id_null gen_default id_null id_null FailureCategory.UNKNOWN_FAILURE
    EvidenceStatus.UNKNOWN Provenance.REPORTED Severity.MEDIUM double_1 None None None
    timestamp_default timestamp_default "" "" [] false.

(** * candidate.hpp *)

(** [struct CandidateFacts]. *)
Record CandidateFacts : Type := mkFacts
  { cf_target : TargetId;
    cf_target_generation : TargetGeneration;
    cf_service : ServiceId;
    cf_replica : ReplicaId;
    cf_replica_generation : ReplicaGeneration;
    cf_engine : EngineId;
    cf_engine_generation : EngineGeneration;
    cf_engine_incarnation : EngineIncarnationId;
    cf_worker : WorkerId;
    cf_worker_boot : WorkerBootId;
    cf_profile : ReadinessProfileId;
    cf_model_key : string;
    cf_runtime_abi : string;
    cf_profile_generation : ReadinessProfileGeneration;
    cf_readiness_generation : ReadinessGeneration;
    cf_ready : bool;
    cf_activation_eligible : bool;
    cf_health_generation : HealthGeneration;
    cf_provenance : Provenance;
    cf_observed : Timestamp;
    cf_evidence_fresh : bool }.
#[export] Instance CandidateFacts_eta : Eta CandidateFacts := fun s => mkFacts
  (cf_target s) (cf_target_generation s) (cf_service s) (cf_replica s)
  (cf_replica_generation s) (cf_engine s) (cf_engine_generation s) (cf_engine_incarnation s)
  (cf_worker s) (cf_worker_boot s) (cf_profile s) (cf_model_key s) (cf_runtime_abi s)
  (cf_profile_generation s) (cf_readiness_generation s) (cf_ready s)
  (cf_activation_eligible s) (cf_health_generation s) (cf_provenance s) (cf_observed s)
  (cf_evidence_fresh s).
#[export] Instance CandidateFacts_eq_dec : EqDecision CandidateFacts.
Proof. solve_decision. Defined.

Definition facts_default : CandidateFacts :=
  mkFacts id_null gen_null id_null id_null gen_null id_null gen_null id_null id_null id_null
    id_null "" "" gen_null gen_null false false gen_null Provenance.UNKNOWN timestamp_default false.

(** [struct CandidateState]. *)
Record CandidateState : Type := mkCandState
  { cs_state_required : bool;
    cs_state_available : bool;
    cs_state_generation : option StateGeneration;
    cs_checkpoint_generation : option CheckpointGeneration;
    cs_committed_sequence : Z;
    cs_correct_session : bool;
    cs_correct_tenant : bool;
    cs_correct_model_generation : bool;
    cs_state_format_ok : bool;
    cs_status_integrity_ok : bool;
    cs_replay_safe : bool }.
#[export] Instance CandidateState_eta : Eta CandidateState := fun s => mkCandState
  (cs_state_required s) (cs_state_available s) (cs_state_generation s)
  (cs_checkpoint_generation s) (cs_committed_sequence s) (cs_correct_session s)
  (cs_correct_tenant s) (cs_correct_model_generation s) (cs_state_format_ok s)
  (cs_status_integrity_ok s) (cs_replay_safe s).
#[export] Instance CandidateState_eq_dec : EqDecision CandidateState.
Proof. solve_decision. Defined.

Definition candidate_state_default : CandidateState :=
  mkCandState false false None None 0 false false false false false false.

(** [struct CandidateResource]. *)
Record CandidateResource : Type := mkCandResource
  { cre_resource_class : string;
    cre_amount : double;
    cre_capacity_generation : CapacityGeneration;
    cre_existing_claims : list ResourceClaimId;
    cre_has_conflicting_commitment : bool;
    cre_reservation : option ReservationId;
    cre_reservation_generation : ReservationGeneration;
    cre_resources_revoked : bool;
    cre_unit : Z }.
#[export] Instance CandidateResource_eta : Eta CandidateResource := fun s => mkCandResource
  (cre_resource_class s) (cre_amount s) (cre_capacity_generation s) (cre_existing_claims s)
  (cre_has_conflicting_commitment s) (cre_reservation s) (cre_reservation_generation s)
  (cre_resources_revoked s) (cre_unit s).
#[export] Instance CandidateResource_eq_dec : EqDecision CandidateResource.
Proof. solve_decision. Defined.

(** [struct CandidateCosts]. *)
Record CandidateCosts : Type := mkCosts
  { cc_estimated_prep_ms : Z;
    cc_estimated_cutover_ms : Z;
    cc_state_restore_ms : Z;
    cc_estimated_critical_path_ms : Z;
    cc_cost_estimated : bool;
    cc_state_loss_sequences : Z;
    cc_route_cost : string }.
#[export] Instance CandidateCosts_eta : Eta CandidateCosts := fun s => mkCosts
  (cc_estimated_prep_ms s) (cc_estimated_cutover_ms s) (cc_state_restore_ms s)
  (cc_estimated_critical_path_ms s) (cc_cost_estimated s) (cc_state_loss_sequences s)
  (cc_route_cost s).
#[export] Instance CandidateCosts_eq_dec : EqDecision CandidateCosts.
Proof. solve_decision. Defined.

Definition costs_default : CandidateCosts := mkCosts 0 0 0 0 true 0 "".

(** [struct Candidate]. *)
Record Candidate : Type := mkCandidate
  { cand_facts : CandidateFacts;
    cand_domains : list FailureDomainId;
    cand_memberships : list DomainMembership;
    cand_state : CandidateState;
    cand_resources : list CandidateResource;
    cand_costs : CandidateCosts;
    cand_continuity : option ContinuityClass;
    cand_failed_reason : option ExclusionReason;
    cand_failed_detail : string;
    cand_blocked_domain_classes : list DomainClass;
    cand_hard_eligible : bool }.
#[export] Instance Candidate_eta : Eta Candidate := fun s => mkCandidate
  (cand_facts s) (cand_domains s) (cand_memberships s) (cand_state s) (cand_resources s)
  (cand_costs s) (cand_continuity s) (cand_failed_reason s) (cand_failed_detail s)
  (cand_blocked_domain_classes s) (cand_hard_eligible s).
#[export] Instance Candidate_eq_dec : EqDecision Candidate.
Proof. solve_decision. Defined.

Definition candidate_default : Candidate :=
  mkCandidate facts_default [] [] candidate_state_default [] costs_default None None "" [] false.

(** [struct CandidateSnapshot]. *)
Record CandidateSnapshot : Type := mkSnapshot
  { snap_generation : CandidateSnapshotGeneration;
    snap_slot : ServiceSlotKey;
    snap_at : Timestamp;
    snap_candidates : list Candidate }.
#[export] Instance CandidateSnapshot_eta : Eta CandidateSnapshot := fun s => mkSnapshot
  (snap_generation s) (snap_slot s) (snap_at s) (snap_candidates s).
#[export] Instance CandidateSnapshot_eq_dec : EqDecision CandidateSnapshot.
Proof. solve_decision. Defined.

(** * fence.hpp and cutover.hpp *)

(** [struct FenceAuthorization]. *)
Record FenceAuthorization : Type := mkFenceAuth
  { fa_fence : FenceId;
    fa_generation : FenceGeneration;
    fa_epoch : CoordinatorEpoch;
    fa_slot : ServiceSlotKey;
    fa_assignment : AssignmentId;
    fa_assignment_generation : AssignmentGeneration;
    fa_fenced_boot : WorkerBootId;
    fa_permitted_boot : WorkerBootId;
    fa_state : FenceState;
    fa_deadline_ns : Z;
    fa_revokes_new_dispatch : bool }.
#[export] Instance FenceAuthorization_eq_dec : EqDecision FenceAuthorization.
Proof. solve_decision. Defined.
Definition fence_authorization_default : FenceAuthorization :=
  mkFenceAuth id_null gen_default epoch_default (mkSlotKey id_null id_null) id_null gen_default id_null id_null FenceState.NONE 0 false.

(** [struct FencingRequirement]. *)
Record FencingRequirement : Type := mkFencing
  { fr_require_gateway_dispatch : bool;
    fr_require_worker_admission : bool;
    fr_require_result_acceptance : bool;
    fr_require_coordinator_authority : bool;
    fr_require_external_effect_boundary : bool;
    fr_effect_sink_note : string }.
#[export] Instance FencingRequirement_eta : Eta FencingRequirement := fun s => mkFencing
  (fr_require_gateway_dispatch s) (fr_require_worker_admission s)
  (fr_require_result_acceptance s) (fr_require_coordinator_authority s)
  (fr_require_external_effect_boundary s) (fr_effect_sink_note s).
#[export] Instance FencingRequirement_eq_dec : EqDecision FencingRequirement.
Proof. solve_decision. Defined.

Definition fencing_default : FencingRequirement := mkFencing true true true true false "".

(** [struct FenceOutcome]. *)
Record FenceOutcome : Type := mkFenceOutcome
  { fo_applied : bool;
    fo_detail : string;
    fo_state : FenceState;
    fo_fencing_unproven : bool }.
#[export] Instance FenceOutcome_eta : Eta FenceOutcome := fun s => mkFenceOutcome
  (fo_applied s) (fo_detail s) (fo_state s) (fo_fencing_unproven s).
#[export] Instance FenceOutcome_eq_dec : EqDecision FenceOutcome.
Proof. solve_decision. Defined.

Definition fence_outcome_default : FenceOutcome := mkFenceOutcome false "" FenceState.NONE false.

(** [struct ActivateOutcome]. *)
Record ActivateOutcome : Type := mkActivateOutcome
  { ao_acknowledged : bool;
    ao_activation_note : string;
    ao_detail : string }.
#[export] Instance ActivateOutcome_eta : Eta ActivateOutcome := fun s => mkActivateOutcome
  (ao_acknowledged s) (ao_activation_note s) (ao_detail s).
#[export] Instance ActivateOutcome_eq_dec : EqDecision ActivateOutcome.
Proof. solve_decision. Defined.

(** [struct RouteOutcome]. *)
Record RouteOutcome : Type := mkRouteOutcome
  { rto_acknowledged : bool;
    rto_route : RouteId;
    rto_generation : RouteGeneration;
    rto_detail : string }.
#[export] Instance RouteOutcome_eta : Eta RouteOutcome := fun s => mkRouteOutcome
  (rto_acknowledged s) (rto_route s) (rto_generation s) (rto_detail s).
#[export] Instance RouteOutcome_eq_dec : EqDecision RouteOutcome.
Proof. solve_decision. Defined.

(** [struct VerifyOutcome]. *)
Record VerifyOutcome : Type := mkVerifyOutcome
  { vo_verified : bool;
    vo_result : string;
    vo_ambiguous : bool;
    vo_detail : string }.
#[export] Instance VerifyOutcome_eta : Eta VerifyOutcome := fun s => mkVerifyOutcome
  (vo_verified s) (vo_result s) (vo_ambiguous s) (vo_detail s).
#[export] Instance VerifyOutcome_eq_dec : EqDecision VerifyOutcome.
Proof. solve_decision. Defined.

(** * route.hpp *)

(** [struct RouteEntry]. *)
Record RouteEntry : Type := mkRouteEntry
  { re_route : RouteId;
    re_generation : RouteGeneration;
    re_slot : ServiceSlotKey;
    re_target : TargetId;
    re_target_generation : TargetGeneration;
    re_incarnation : EngineIncarnationId;
    re_permitted_boot : WorkerBootId;
    re_assignment : AssignmentId;
    re_assignment_generation : AssignmentGeneration;
    re_epoch : CoordinatorEpoch;
    re_state : RouteState;
    re_gateway_boot : GatewayBootId;
    re_transport : string;
    re_provenance : Provenance }.
#[export] Instance RouteEntry_eta : Eta RouteEntry := fun s => mkRouteEntry
  (re_route s) (re_generation s) (re_slot s) (re_target s) (re_target_generation s)
  (re_incarnation s) (re_permitted_boot s) (re_assignment s) (re_assignment_generation s)
  (re_epoch s) (re_state s) (re_gateway_boot s) (re_transport s) (re_provenance s).
#[export] Instance RouteEntry_eq_dec : EqDecision RouteEntry.
Proof. solve_decision. Defined.

Definition route_entry_default : RouteEntry :=
  mkRouteEntry id_null gen_default slotkey_null id_null gen_default id_null id_null id_null
    gen_default epoch_default RouteState.EMPTY id_null "" Provenance.DERIVED.

(** * recovery.hpp *)

(** [struct StageEstimate]. *)
Record StageEstimate : Type := mkStage
  { se_stage : RecoveryStage;
    se_estimated_ms : Z;
    se_measured : bool;
    se_measured_ms : Z;
    se_depends_on : list RecoveryStage }.
#[export] Instance StageEstimate_eta : Eta StageEstimate := fun s => mkStage
  (se_stage s) (se_estimated_ms s) (se_measured s) (se_measured_ms s) (se_depends_on s).
#[export] Instance StageEstimate_eq_dec : EqDecision StageEstimate.
Proof. solve_decision. Defined.

(** [struct RecoveryEstimate]. *)
Record RecoveryEstimate : Type := mkEstimate
  { rest_stages : list StageEstimate;
    rest_critical_path_ms : Z;
    rest_all_stages_measured : bool }.
#[export] Instance RecoveryEstimate_eta : Eta RecoveryEstimate := fun s => mkEstimate
  (rest_stages s) (rest_critical_path_ms s) (rest_all_stages_measured s).
#[export] Instance RecoveryEstimate_eq_dec : EqDecision RecoveryEstimate.
Proof. solve_decision. Defined.

(** [struct RecoveryEvaluation]. *)
Record RecoveryEvaluation : Type := mkEvaluation
  { rev_satisfied : bool;
    rev_rto_met : bool;
    rev_rpo_met : bool;
    rev_verified : bool;
    rev_elapsed_ms : Z;
    rev_state_loss_sequences : Z;
    rev_note : string }.
#[export] Instance RecoveryEvaluation_eta : Eta RecoveryEvaluation := fun s => mkEvaluation
  (rev_satisfied s) (rev_rto_met s) (rev_rpo_met s) (rev_verified s) (rev_elapsed_ms s)
  (rev_state_loss_sequences s) (rev_note s).
#[export] Instance RecoveryEvaluation_eq_dec : EqDecision RecoveryEvaluation.
Proof. solve_decision. Defined.

(** * request.hpp *)

(** [struct RequestRecord]. *)
Record RequestRecord : Type := mkRequest
  { rq_request : RequestId;
    rq_execution : ExecutionId;
    rq_execution_generation : ExecutionGeneration;
    rq_slot : ServiceSlotKey;
    rq_disposition : RequestDisposition;
    rq_idempotent : bool;
    rq_authority : IdempotencyAuthority;
    rq_externally_effectful : bool;
    rq_dispatched_auth : option WorkerAuthorization;
    rq_client_note : string;
    rq_outcome : string }.
#[export] Instance RequestRecord_eta : Eta RequestRecord := fun s => mkRequest
  (rq_request s) (rq_execution s) (rq_execution_generation s) (rq_slot s) (rq_disposition s)
  (rq_idempotent s) (rq_authority s) (rq_externally_effectful s) (rq_dispatched_auth s)
  (rq_client_note s) (rq_outcome s).
#[export] Instance RequestRecord_eq_dec : EqDecision RequestRecord.
Proof. solve_decision. Defined.

Definition request_default : RequestRecord :=
  mkRequest id_null id_null gen_default slotkey_null RequestDisposition.NOT_DISPATCHED false
    IdempotencyAuthority.NONE false None "" "".

(** * plan.hpp *)

(** [struct RollbackBoundary]. *)
Record RollbackBoundary : Type := mkRollback
  { rb_up_to : Milestone;
    rb_old_assignment_may_remain : bool }.
#[export] Instance RollbackBoundary_eta : Eta RollbackBoundary := fun s => mkRollback
  (rb_up_to s) (rb_old_assignment_may_remain s).
#[export] Instance RollbackBoundary_eq_dec : EqDecision RollbackBoundary.
Proof. solve_decision. Defined.

(** [struct FailoverPlan]. *)
Record FailoverPlan : Type := mkPlan
  { pl_plan : FailoverPlanId;
    pl_generation : FailoverPlanGeneration;
    pl_slot : ServiceSlotKey;
    pl_source_assignment : option Assignment;
    pl_triggering_evidence : list FailureEvent;
    pl_snapshot : CandidateSnapshot;
    pl_selected : option Candidate;
    pl_continuity : ContinuityClass;
    pl_resource_commitments_domain : list FailureDomainId;
    pl_fencing_requirement : FencingRequirement;
    pl_requested_route : RouteId;
    pl_requested_route_generation : RouteGeneration;
    pl_recovery_objective : RecoveryObjective;
    pl_estimated_stages : RecoveryEstimate;
    pl_rollback_boundaries : list RollbackBoundary;
    pl_policy_gen : PolicyGeneration;
    pl_reached_milestones : list Milestone;
    pl_provenance : Provenance }.
#[export] Instance FailoverPlan_eta : Eta FailoverPlan := fun s => mkPlan
  (pl_plan s) (pl_generation s) (pl_slot s) (pl_source_assignment s)
  (pl_triggering_evidence s) (pl_snapshot s) (pl_selected s) (pl_continuity s)
  (pl_resource_commitments_domain s) (pl_fencing_requirement s) (pl_requested_route s)
  (pl_requested_route_generation s) (pl_recovery_objective s) (pl_estimated_stages s)
  (pl_rollback_boundaries s) (pl_policy_gen s) (pl_reached_milestones s) (pl_provenance s).
#[export] Instance FailoverPlan_eq_dec : EqDecision FailoverPlan.
Proof. solve_decision. Defined.

Definition plan_default : FailoverPlan :=
  mkPlan id_null gen_default slotkey_null None [] (mkSnapshot gen_default slotkey_null timestamp_default [])
    None ContinuityClass.UNKNOWN [] fencing_default id_null gen_default recovery_objective_default
    (mkEstimate [] 0 false) [] gen_default [] Provenance.DERIVED.

(** * Lemmas *)

Lemma slotkey_eqb_eq (a b : ServiceSlotKey) : (a =k b) = true <-> a = b.
Proof.
  destruct a, b; unfold slotkey_eqb; simpl. rewrite andb_true_iff, !id_eqb_eq.
  split; [by intros [-> ->] | by intros [= -> ->]].
Qed.

(** Two authorizations compare equal exactly when they differ at most in the assignment
    generation and the operation. *)
Theorem auth_eqb_ignores (a b : WorkerAuthorization) :
  auth_eqb a b = true <->
  a <| wa_assignment_generation := gen_first |> <| wa_operation := ""%string |> =
  b <| wa_assignment_generation := gen_first |> <| wa_operation := ""%string |>.
Proof.
  unfold auth_eqb. rewrite !andb_true_iff, epoch_eqb_eq, slotkey_eqb_eq, gen_eqb_eq, !id_eqb_eq.
  destruct a, b; cbn. split; [naive_solver |]. intros [= -> -> -> -> -> -> -> ->]. done.
Qed.

Lemma slotkey_eqb_neq (a b : ServiceSlotKey) : (a =k b) = false <-> a <> b.
Proof. rewrite <- not_true_iff_false, slotkey_eqb_eq. done. Qed.

Lemma slotkey_eqb_refl (a : ServiceSlotKey) : (a =k a) = true.
Proof. by apply slotkey_eqb_eq. Qed.
