(* ===== verification/Domains.v ===== *)
(** Failure domains (domains.hpp, domains.cpp): declared domains, target
    memberships, and the shared-risk queries eligibility relies on. *)

From stdpp Require Import base list gmap strings.
From Stdlib Require Import ZArith Lia.
From S2P Require Import Prelude Identities Types Double Model.

Open Scope Z_scope.

(** [class DomainRegistry]. *)
Record DomainRegistry : Type := mkRegistry
  { reg_domains : list DomainDecl; reg_memberships : list DomainMembership }.
#[export] Instance DomainRegistry_eta : Eta DomainRegistry :=
  fun s => mkRegistry (reg_domains s) (reg_memberships s).

Definition registry_empty : DomainRegistry := mkRegistry [] [].

Definition domain_find (r : DomainRegistry) (id : FailureDomainId) : option DomainDecl :=
  find_first (fun d => dd_id d =i id) (reg_domains r).

(** [find], [all_domains], [all_memberships], and [concrete_ancestors], which returns its
    argument. *)
Definition registry_find (r : DomainRegistry) (id : FailureDomainId) : option DomainDecl := domain_find r id.
Definition all_domains (r : DomainRegistry) : list DomainDecl := reg_domains r.
Definition all_memberships (r : DomainRegistry) : list DomainMembership := reg_memberships r.
Definition concrete_ancestors (chain : list FailureDomainId) : list FailureDomainId := chain.

Definition declare (d : DomainDecl) (r : DomainRegistry) : DomainRegistry :=
  if id_is_null (dd_id d) then r else
  match update_first (fun e => dd_id e =i dd_id d)
          (fun e => if Z.leb (gen_value (dd_generation e)) (gen_value (dd_generation d)) then d else e)
          (reg_domains r) with
  | Some l => r <| reg_domains := l |>
  | None => r <| reg_domains := reg_domains r ++ [d] |>
  end.

Definition same_membership (m e : DomainMembership) : bool :=
  (dm_target e =i dm_target m) && (dm_domain e =i dm_domain m).

Definition registry_set_membership (m : DomainMembership) (r : DomainRegistry) : DomainRegistry :=
  match update_first (same_membership m) (fun _ => m) (reg_memberships r) with
  | Some l => r <| reg_memberships := l |>
  | None => r <| reg_memberships := reg_memberships r ++ [m] |>
  end.

Definition mark_membership_unknown (t : TargetId) (d : FailureDomainId) (r : DomainRegistry) : DomainRegistry :=
  registry_set_membership (mkMembership t d false) r.

Definition domains_of (r : DomainRegistry) (t : TargetId) : list FailureDomainId :=
  dm_domain <$> List.filter (fun m => (dm_target m =i t) && dm_known m) (reg_memberships r).

(** The loop of [ancestors_of]: [while (cur && guard++ < 64)]. *)
Fixpoint ancestors_loop (r : DomainRegistry) (fuel : nat) (cur : option FailureDomainId) : list FailureDomainId :=
  match fuel, cur with
  | S fuel, Some c =>
    match domain_find r c with
    | Some d => dd_id d :: ancestors_loop r fuel (dd_parent d)
    | None => []
    end
  | _, _ => []
  end.

Definition ancestors_of (r : DomainRegistry) (id : FailureDomainId) : list FailureDomainId :=
  ancestors_loop r 64 (Some id).

(** [overlaps]: the memberships of [a] feed [closure_a]; those of [b] that are not
    memberships of [a] feed [closure_b]. *)
Definition of_a (a : TargetId) (m : DomainMembership) : bool := dm_target m =i a.
Definition of_b (a b : TargetId) (m : DomainMembership) : bool :=
  negb (dm_target m =i a) && (dm_target m =i b).

Definition closure (r : DomainRegistry) (sel : DomainMembership -> bool) : list FailureDomainId :=
  flat_map (fun m => if sel m && dm_known m then ancestors_of r (dm_domain m) else [])
    (reg_memberships r).

Definition any_unknown (r : DomainRegistry) (sel : DomainMembership -> bool) : bool :=
  existsb (fun m => sel m && negb (dm_known m)) (reg_memberships r).

Definition overlaps (r : DomainRegistry) (a b : TargetId) : option bool :=
  let closure_a := closure r (of_a a) in
  let closure_b := closure r (of_b a b) in
  if existsb (fun d => mem id_eqb d closure_b) closure_a then Some true
  else if any_unknown r (of_a a) || any_unknown r (of_b a b) then None
  else Some false.

Definition in_domain (r : DomainRegistry) (t : TargetId) (d : FailureDomainId) : option bool :=
  let here m := (dm_target m =i t) && (dm_domain m =i d) in
  let declared_unknown := existsb (fun m => here m && negb (dm_known m)) (reg_memberships r) in
  let declared_member := existsb (fun m => here m && dm_known m) (reg_memberships r) in
  if declared_unknown then None else if declared_member then Some true else Some false.

(** * Well-formedness *)

(** No domain is declared twice, no membership is recorded twice, and the null
    domain is not declared. *)
Record registry_wf (r : DomainRegistry) : Prop := {
  reg_wf_ids : NoDup (dd_id <$> reg_domains r);
  reg_wf_null : id_null ∉ dd_id <$> reg_domains r;
  reg_wf_members : NoDup ((fun m => (dm_target m, dm_domain m)) <$> reg_memberships r) }.

(** * The declared hierarchy *)

Definition parent_of (r : DomainRegistry) (id : FailureDomainId) : option FailureDomainId :=
  domain_find r id ≫= dd_parent.

(** The [n]-th declared ancestor of a domain, the domain itself for [n = 0];
    a domain that is not declared has none. *)
Fixpoint nth_ancestor (r : DomainRegistry) (n : nat) (id : FailureDomainId) : option FailureDomainId :=
  match n with
  | O => dd_id <$> domain_find r id
  | S n => parent_of r id ≫= nth_ancestor r n
  end.

(** [t] is known to be in the domain [d] or in one nested below it, within the
    64 levels the code walks. *)
Definition under (r : DomainRegistry) (t : TargetId) (d : FailureDomainId) : Prop :=
  exists m n, m ∈ reg_memberships r /\ dm_target m = t /\ dm_known m = true /\
    (n < 64)%nat /\ nth_ancestor r n (dm_domain m) = Some d.

Definition has_unknown (r : DomainRegistry) (t : TargetId) : Prop :=
  exists m, m ∈ reg_memberships r /\ dm_target m = t /\ dm_known m = false.

Lemma domain_find_id r id d : domain_find r id = Some d -> dd_id d = id.
Proof. by intros [_ H%id_eqb_eq]%find_first_Some. Qed.

Lemma elem_of_ancestors_loop r fuel id d :
  d ∈ ancestors_loop r fuel (Some id) <-> exists n, (n < fuel)%nat /\ nth_ancestor r n id = Some d.
Proof.
  revert id. induction fuel as [| fuel IH]; intros id; simpl.
  { rewrite elem_of_nil. split; [done | intros (n & Hn & _); lia]. }
  destruct (domain_find r id) as [e |] eqn:He.
  - rewrite elem_of_cons. destruct (dd_parent e) as [p |] eqn:Hp.
    + rewrite IH. split.
      * intros [-> | (n & Hn & Hd)].
        { exists O. simpl. rewrite He. split; [lia | done]. }
        exists (S n). simpl. unfold parent_of. rewrite He. simpl. rewrite Hp. simpl. split; [lia | done].
      * intros ([| n] & Hn & Hd); simpl in Hd.
        { rewrite He in Hd. left. by injection Hd. }
        unfold parent_of in Hd. rewrite He in Hd. simpl in Hd. rewrite Hp in Hd.
        right. exists n. split; [lia | done].
    + replace (ancestors_loop r fuel None) with (@nil FailureDomainId) by (by destruct fuel).
      rewrite elem_of_nil. split.
      * intros [-> | []]. exists O. simpl. rewrite He. split; [lia | done].
      * intros ([| n] & Hn & Hd); simpl in Hd; rewrite ?He in Hd.
        { left. by injection Hd. }
        unfold parent_of in Hd. rewrite He in Hd. simpl in Hd. by rewrite Hp in Hd.
  - rewrite elem_of_nil. split; [done |]. intros ([| n] & Hn & Hd); simpl in Hd.
    + by rewrite He in Hd.
    + unfold parent_of in Hd. by rewrite He in Hd.
Qed.

Lemma ancestors_loop_length r fuel cur : (length (ancestors_loop r fuel cur) <= fuel)%nat.
Proof.
  revert cur. induction fuel as [| fuel IH]; intros [c |]; simpl; try lia.
  destruct (domain_find r c) as [d |]; simpl; [specialize (IH (dd_parent d)); lia | lia].
Qed.

Lemma elem_of_closure r sel d :
  d ∈ closure r sel <->
  exists m, m ∈ reg_memberships r /\ sel m = true /\ dm_known m = true /\ d ∈ ancestors_of r (dm_domain m).
Proof.
  unfold closure. rewrite list_elem_of_In, in_flat_map. split.
  - intros (m & Hm & Hd). exists m. destruct (sel m && dm_known m) eqn:E; [| done].
    apply andb_true_iff in E as [? ?]. rewrite !list_elem_of_In. eauto.
  - intros (m & Hm & Hs & Hk & Hd). exists m. rewrite Hs, Hk. simpl.
    by rewrite <- !list_elem_of_In.
Qed.

Lemma elem_of_closure_a r a d : d ∈ closure r (of_a a) <-> under r a d.
Proof.
  rewrite elem_of_closure. unfold under, of_a, ancestors_of.
  setoid_rewrite elem_of_ancestors_loop. setoid_rewrite id_eqb_eq. naive_solver.
Qed.

Lemma of_b_true a b m : a <> b -> of_b a b m = true <-> dm_target m = b.
Proof.
  intros Hab. unfold of_b. rewrite andb_true_iff, negb_true_iff, id_eqb_neq, id_eqb_eq.
  naive_solver.
Qed.

Lemma elem_of_closure_b r a b d : a <> b -> d ∈ closure r (of_b a b) <-> under r b d.
Proof.
  intros Hab. rewrite elem_of_closure. unfold under, ancestors_of.
  setoid_rewrite elem_of_ancestors_loop. setoid_rewrite (of_b_true a b _ Hab). naive_solver.
Qed.

Lemma any_unknown_true r sel t :
  (forall m, sel m = true <-> dm_target m = t) -> any_unknown r sel = true <-> has_unknown r t.
Proof.
  intros Hs. unfold any_unknown, has_unknown. rewrite existsb_exists.
  setoid_rewrite andb_true_iff. setoid_rewrite negb_true_iff. setoid_rewrite Hs.
  setoid_rewrite <- list_elem_of_In. naive_solver.
Qed.

Lemma of_a_true a m : of_a a m = true <-> dm_target m = a.
Proof. apply id_eqb_eq. Qed.

Lemma existsb_common r a b :
  a <> b ->
  existsb (fun d => mem id_eqb d (closure r (of_b a b))) (closure r (of_a a)) = true <->
  exists d, under r a d /\ under r b d.
Proof.
  intros Hab. rewrite existsb_exists. setoid_rewrite (mem_true id_eqb id_eqb_eq).
  setoid_rewrite (elem_of_closure_b r a b _ Hab). setoid_rewrite <- list_elem_of_In.
  setoid_rewrite elem_of_closure_a. done.
Qed.

(** * Theorems *)

Lemma overlaps_cases r a b :
  a <> b ->
  (overlaps r a b = Some true <-> exists d, under r a d /\ under r b d) /\
  (overlaps r a b = None <->
     ~ (exists d, under r a d /\ under r b d) /\ (has_unknown r a \/ has_unknown r b)) /\
  (overlaps r a b = Some false <->
     ~ (exists d, under r a d /\ under r b d) /\ ~ has_unknown r a /\ ~ has_unknown r b).
Proof.
  intros Hab. pose proof (existsb_common r a b Hab) as Hc.
  pose proof (any_unknown_true r (of_a a) a (of_a_true a)) as Ha.
  pose proof (any_unknown_true r (of_b a b) b (fun m => of_b_true a b m Hab)) as Hb.
  unfold overlaps.
  destruct (existsb _ _); destruct (any_unknown r (of_a a)); destruct (any_unknown r (of_b a b));
    simpl; intuition congruence.
Qed.

(** Shared risk is symmetric. *)
Lemma overlaps_comm r a b : overlaps r a b = overlaps r b a.
Proof.
  destruct (decide (a = b)) as [-> | Hab]; [done |].
  destruct (overlaps_cases r a b Hab) as (Ht & Hn & Hf).
  destruct (overlaps_cases r b a (not_eq_sym Hab)) as (Ht' & Hn' & Hf').
  destruct (overlaps r a b) as [[] |] eqn:E; symmetry.
  - apply Ht'. destruct (proj1 Ht eq_refl) as (d & ? & ?). eauto.
  - apply Hf'. destruct (proj1 Hf eq_refl) as (Hd & ? & ?). split; [| done].
    intros (d & ? & ?). apply Hd. eauto.
  - apply Hn'. destruct (proj1 Hn eq_refl) as (Hd & Hu). split; [| destruct Hu; [by right | by left]].
    intros (d & ? & ?). apply Hd. eauto.
Qed.

(** [DomainRegistry::overlaps] answers exactly the shared-risk question for two
    distinct targets: [true] when some declared domain holds both (directly or
    through declared parents), no answer when no shared domain is found and a
    membership of either target is unknown, and [false] only when every
    membership of both is known and no domain holds both.  The answer does not
    depend on the order of the two targets. *)
Theorem overlaps_spec (r : DomainRegistry) (a b : TargetId) (Hab : a <> b) :
  (overlaps r a b = Some true <-> exists d, under r a d /\ under r b d) /\
  (overlaps r a b = None <->
     ~ (exists d, under r a d /\ under r b d) /\ (has_unknown r a \/ has_unknown r b)) /\
  (overlaps r a b = Some false <->
     ~ (exists d, under r a d /\ under r b d) /\ ~ has_unknown r a /\ ~ has_unknown r b) /\
  overlaps r a b = overlaps r b a.
Proof.
  destruct (overlaps_cases r a b Hab) as (Ht & Hn & Hf).
  split; [done |]. split; [done |]. split; [done |]. apply overlaps_comm.
Qed.

Lemma overlaps_spec_witness :
  let r := registry_set_membership (mkMembership (mkId 2) (mkId 7) true)
             (registry_set_membership (mkMembership (mkId 1) (mkId 7) true)
               (declare (mkDomainDecl (mkId 7) gen_first DomainClass.HOST "h" None Provenance.MEASURED)
                 registry_empty)) in
  overlaps r (mkId 1) (mkId 2) = Some true /\ exists d, under r (mkId 1) d /\ under r (mkId 2) d.
Proof.
  split; [reflexivity |].
  apply (proj1 (proj1 (overlaps_spec _ (mkId 1) (mkId 2) ltac:(discriminate)))). reflexivity.
Defined.

(** [ancestors_of] terminates on every registry, cyclic parent chains
    included, returns at most 64 domains, and returns exactly the domain and its
    declared ancestors of the first 64 levels. *)
Theorem ancestors_of_spec (r : DomainRegistry) (id : FailureDomainId) :
  (length (ancestors_of r id) <= 64)%nat /\
  forall d, d ∈ ancestors_of r id <-> exists n, (n < 64)%nat /\ nth_ancestor r n id = Some d.
Proof.
  split; [apply ancestors_loop_length |]. intros d. apply elem_of_ancestors_loop.
Qed.

Lemma declare_wf d r : registry_wf r -> registry_wf (declare d r).
Proof.
  intros [Hid Hnull Hmem]. unfold declare. destruct (id_is_null (dd_id d)) eqn:Hd; [by constructor |].
  apply id_is_null_false in Hd.
  destruct (update_first _ _ _) as [l |] eqn:Hu.
  - assert (dd_id <$> l = dd_id <$> reg_domains r) as Hl.
    { eapply update_first_fmap; [| done]. intros y Hy%id_eqb_eq. simpl.
      by destruct (Z.leb _ _). }
    constructor; simpl; rewrite ?Hl; done.
  - apply update_first_None in Hu. rewrite find_first_None in Hu.
    constructor; simpl; rewrite ?fmap_app; simpl; [| | done].
    + apply NoDup_app. split; [done |]. split; [| apply NoDup_singleton].
      intros x Hx ->%list_elem_of_singleton. apply list_elem_of_fmap in Hx as (e & He & Hin).
      specialize (Hu e Hin). apply id_eqb_neq in Hu. congruence.
    + rewrite elem_of_app, list_elem_of_singleton. intros [? | ?]; congruence.
Qed.

Lemma same_membership_key m e :
  same_membership m e = true -> (dm_target m, dm_domain m) = (dm_target e, dm_domain e).
Proof. unfold same_membership. by intros [H1%id_eqb_eq H2%id_eqb_eq]%andb_true_iff; rewrite H1, H2. Qed.

Lemma set_membership_wf m r : registry_wf r -> registry_wf (registry_set_membership m r).
Proof.
  intros [Hid Hnull Hmem]. unfold registry_set_membership.
  destruct (update_first _ _ _) as [l |] eqn:Hu; constructor; simpl; try done.
  - rewrite (update_first_fmap _ _ _ _ _ (same_membership_key m) Hu). done.
  - apply update_first_None in Hu. rewrite find_first_None in Hu.
    rewrite fmap_app. apply NoDup_app. split; [done |]. split; [| apply NoDup_singleton].
    simpl. intros x Hx ->%list_elem_of_singleton. apply list_elem_of_fmap in Hx as (e & He & Hin).
    specialize (Hu e Hin). unfold same_membership in Hu. injection He as H1 H2.
    rewrite H1, H2, !id_eqb_refl in Hu. done.
Qed.

Lemma domain_find_declare_same r d e :
  domain_find r (dd_id d) = Some e -> dd_id d <> id_null ->
  domain_find (declare d r) (dd_id d) =
    Some (if Z.leb (gen_value (dd_generation e)) (gen_value (dd_generation d)) then d else e).
Proof.
  intros He Hn. unfold declare. rewrite (proj2 (id_is_null_false _) Hn).
  unfold domain_find in *. destruct (update_first _ _ _) as [l |] eqn:Hu; simpl.
  - eapply find_first_update in Hu; [| | exact He]; [exact Hu |].
    intros y Hy. destruct (Z.leb _ _); [apply id_eqb_refl | done].
  - apply update_first_None in Hu. congruence.
Qed.

(** The registry keeps each domain once and each membership once, and a
    re-declaration never moves a domain to an older generation: a declaration
    with a smaller generation is ignored. *)
Theorem registry_operations_wf (r : DomainRegistry) (d : DomainDecl) (m : DomainMembership) :
  registry_wf r ->
  registry_wf (declare d r) /\ registry_wf (registry_set_membership m r) /\
  forall e, domain_find r (dd_id d) = Some e -> dd_id d <> id_null ->
    exists e', domain_find (declare d r) (dd_id d) = Some e' /\
      gen_value (dd_generation e) <= gen_value (dd_generation e') /\ (e' = d \/ e' = e).
Proof.
  intros Hwf. split; [by apply declare_wf |]. split; [by apply set_membership_wf |].
  intros e He Hn. eexists. split; [by apply domain_find_declare_same |].
  destruct (Z.leb_spec (gen_value (dd_generation e)) (gen_value (dd_generation d))); split; auto; lia.
Qed.

Lemma registry_operations_wf_witness :
  let d := mkDomainDecl (mkId 7) gen_first DomainClass.HOST "h" None Provenance.MEASURED in
  registry_wf (declare d registry_empty).
Proof.
  apply (registry_operations_wf registry_empty _ (mkMembership id_null id_null true)).
  constructor; simpl; [apply NoDup_nil_2 | apply not_elem_of_nil | apply NoDup_nil_2].
Defined.

Lemma closure_undeclared r sel :
  (forall m, m ∈ reg_memberships r -> sel m = true -> dm_known m = true -> domain_find r (dm_domain m) = None) ->
  closure r sel = [].
Proof.
  intros H. unfold closure. revert H. generalize (reg_memberships r) as ms.
  induction ms as [| m ms IH]; intros H; simpl; [done |].
  rewrite IH; [| intros m' Hm'; apply H; by apply list_elem_of_further].
  rewrite app_nil_r. destruct (sel m) eqn:Hs; simpl; [| done].
  destruct (dm_known m) eqn:Hk; [| done].
  unfold ancestors_of. simpl. by rewrite (H m (list_elem_of_here _ _) Hs Hk).
Qed.

(** A membership in a domain that was never declared contributes nothing to
    [overlaps]: two targets recorded in the same undeclared domain are reported
    as independent. *)
Theorem overlaps_undeclared_domain (r : DomainRegistry) (a b : TargetId) (d : FailureDomainId) :
  reg_memberships r = [mkMembership a d true; mkMembership b d true] ->
  domain_find r d = None ->
  overlaps r a b = Some false.
Proof.
  intros Hm Hd. unfold overlaps.
  rewrite (closure_undeclared r (of_a a)).
  2:{ rewrite Hm. intros m [-> | [-> | []%elem_of_nil]%elem_of_cons]%elem_of_cons; done. }
  unfold any_unknown. rewrite Hm. simpl. by rewrite !andb_false_r.
Qed.

Lemma overlaps_undeclared_domain_witness :
  let r := mkRegistry [] [mkMembership (mkId 1) (mkId 9) true; mkMembership (mkId 2) (mkId 9) true] in
  overlaps r (mkId 1) (mkId 2) = Some false.
Proof. apply (overlaps_undeclared_domain _ _ _ (mkId 9)); reflexivity. Defined.

(** [in_domain] looks at direct memberships only: whatever the declared
    parents, a target whose only membership is in another domain is answered
    [false], also when that other domain is nested in the one asked about. *)
Theorem in_domain_direct_only (r : DomainRegistry) (t : TargetId) (c d : FailureDomainId) :
  reg_memberships r = [mkMembership t c true] -> c <> d -> in_domain r t d = Some false.
Proof.
  intros Hm Hcd. unfold in_domain. rewrite Hm. simpl.
  rewrite (proj2 (id_eqb_neq c d) Hcd). by rewrite !andb_false_r.
Qed.

Lemma in_domain_direct_only_witness :
  let rack := mkDomainDecl (mkId 1) gen_first DomainClass.RACK "r" None Provenance.MEASURED in
  let host := mkDomainDecl (mkId 2) gen_first DomainClass.HOST "h" (Some (mkId 1)) Provenance.MEASURED in
  let r := mkRegistry [rack; host] [mkMembership (mkId 5) (mkId 2) true] in
  in_domain r (mkId 5) (mkId 1) = Some false /\ under r (mkId 5) (mkId 1).
Proof.
  split; [by apply (in_domain_direct_only _ _ (mkId 2)) |].
  exists (mkMembership (mkId 5) (mkId 2) true), 1%nat.
  repeat split; try done; [apply list_elem_of_here | lia].
Defined.
