(* ===== verification/Evidence.v ===== *)
(** Failure evidence (evidence.hpp, evidence.cpp): the store of failure events,
    its identity index and its per-target index. *)

From stdpp Require Import base list gmap strings.
From Stdlib Require Import ZArith Lia.
From S2P Require Import Prelude Identities Types Double Model.

Open Scope Z_scope.

(** [EvidenceStore::Entry]. *)
Record EvidenceEntry : Type := mkEntry { en_event : FailureEvent; en_cleared : bool }.
#[export] Instance EvidenceEntry_eta : Eta EvidenceEntry := fun s => mkEntry (en_event s) (en_cleared s).
#[export] Instance EvidenceEntry_eq_dec : EqDecision EvidenceEntry.
Proof. solve_decision. Defined.

(** [class EvidenceStore]: the vector and its two indices. *)
Record EvidenceStore : Type := mkStore
  { ev_events : list EvidenceEntry;
    ev_id_index : gmap FailureEventId nat;
    ev_target_index : gmap TargetId (list nat) }.
#[export] Instance EvidenceStore_eta : Eta EvidenceStore :=
  fun s => mkStore (ev_events s) (ev_id_index s) (ev_target_index s).

Definition evidence_empty : EvidenceStore := mkStore [] ∅ ∅.

Definition status_is (s : EvidenceStatus) (e : FailureEvent) : bool := bool_decide (fe_status e = s).

(** [find_]: position of an event identity. *)
Definition evidence_find (s : EvidenceStore) (id : FailureEventId) : option (nat * EvidenceEntry) :=
  i ← ev_id_index s !! id; e ← ev_events s !! i; Some (i, e).

(** The freshness comparison of [publish]. *)
Definition newer (ev old : FailureEvent) : bool :=
  let r := fe_received ev in let o := fe_received old in
  Z.ltb (ts_seq o) (ts_seq r) || (Z.eqb (ts_seq r) (ts_seq o) && Z.leb (wall_ns o) (wall_ns r)).

Definition publish (ev : FailureEvent) (s : EvidenceStore) : EvidenceStore * bool :=
  match evidence_find s (fe_event_id ev) with
  | Some (i, en) =>
    let old := en_event en in
    if newer ev old && (status_is EvidenceStatus.CONFIRMED old && status_is EvidenceStatus.CLEARED ev)
    then (s, false)
    else if newer ev old
    then (s <| ev_events := <[ i := mkEntry ev (status_is EvidenceStatus.CLEARED ev) ]> (ev_events s) |>, true)
    else (s, false)
  | None =>
    let n := length (ev_events s) in
    (mkStore (ev_events s ++ [mkEntry ev (status_is EvidenceStatus.CLEARED ev)])
       (<[ fe_event_id ev := n ]> (ev_id_index s))
       (match fe_target ev with
        | Some t => <[ t := default [] (ev_target_index s !! t) ++ [n] ]> (ev_target_index s)
        | None => ev_target_index s
        end), true)
  end.

Definition evidence_clear (id : FailureEventId) (s : EvidenceStore) : EvidenceStore :=
  match evidence_find s id with
  | Some (i, en) => s <| ev_events := <[ i := en <| en_cleared := true |> ]> (ev_events s) |>
  | None => s
  end.

(** The test both queries make on an entry. *)
Definition live (e : EvidenceEntry) : bool :=
  negb (en_cleared e) && negb (status_is EvidenceStatus.CLEARED (en_event e))
  && negb (status_is EvidenceStatus.STALE (en_event e)).

(** The entries [target_index_] lists for a target, in index order. *)
Definition entries_for (s : EvidenceStore) (t : TargetId) : list EvidenceEntry :=
  omap (fun i => ev_events s !! i) (default [] (ev_target_index s !! t)).

Definition latest_step (acc : option FailureEvent) (e : EvidenceEntry) : option FailureEvent :=
  if live e then
    match acc with
    | None => Some (en_event e)
    | Some r => if Z.leb (ts_seq (fe_received r)) (ts_seq (fe_received (en_event e)))
                then Some (en_event e) else acc
    end
  else acc.

Definition latest_failure_for (s : EvidenceStore) (t : TargetId) : option FailureEvent :=
  fold_left latest_step (entries_for s t) None.

Definition evidence_failures_for (s : EvidenceStore) (t : TargetId) (max : Z) : list FailureEvent :=
  truncate (en_event <$> List.filter live (entries_for s t)) max.

Definition evidence_all (s : EvidenceStore) : list FailureEvent := en_event <$> ev_events s.

(** * Invariant *)

(** The identity index is exactly the positions of the events; the target index
    lists positions in the vector; an event is found under the target it was
    first published for. *)
Record evidence_wf (s : EvidenceStore) : Prop := {
  ev_wf_index : forall id i, ev_id_index s !! id = Some i <->
      exists e, ev_events s !! i = Some e /\ fe_event_id (en_event e) = id;
  ev_wf_target : forall t l i, ev_target_index s !! t = Some l -> i ∈ l -> (i < length (ev_events s))%nat }.

Lemma evidence_empty_wf : evidence_wf evidence_empty.
Proof.
  constructor; simpl; intros.
  - rewrite lookup_empty. split; [done | intros (e & He & _)]. by rewrite lookup_nil in He.
  - by rewrite lookup_empty in H.
Qed.

Lemma evidence_find_Some s id i e :
  evidence_find s id = Some (i, e) <-> ev_id_index s !! id = Some i /\ ev_events s !! i = Some e.
Proof. unfold evidence_find. destruct (ev_id_index s !! id) as [j |]; simpl; [| naive_solver].
  destruct (ev_events s !! j) eqn:E; simpl; naive_solver.
Qed.

Lemma evidence_find_wf s id i e :
  evidence_wf s -> evidence_find s id = Some (i, e) ->
  (i < length (ev_events s))%nat /\ ev_events s !! i = Some e /\ fe_event_id (en_event e) = id.
Proof.
  intros Hwf [Hi He]%evidence_find_Some. split; [by eapply lookup_lt_Some |]. split; [done |].
  apply (ev_wf_index s Hwf) in Hi as (e' & He' & <-). congruence.
Qed.

Lemma evidence_find_None s id :
  evidence_wf s -> evidence_find s id = None -> ev_id_index s !! id = None.
Proof.
  intros Hwf. unfold evidence_find. destruct (ev_id_index s !! id) as [i |] eqn:Hi; [| done].
  simpl. apply (ev_wf_index s Hwf) in Hi as (e & He & _). by rewrite He.
Qed.

(** Replacing an entry by one with the same identity keeps the invariant. *)
Lemma evidence_replace_wf s i e e' :
  evidence_wf s -> ev_events s !! i = Some e -> fe_event_id (en_event e') = fe_event_id (en_event e) ->
  evidence_wf (s <| ev_events := <[ i := e' ]> (ev_events s) |>).
Proof.
  intros Hwf Hi Hid. constructor; simpl.
  - intros id j. rewrite (ev_wf_index s Hwf). destruct (decide (i = j)) as [<- | Hij].
    + rewrite list_lookup_insert_eq by (by eapply lookup_lt_Some). rewrite Hi. naive_solver congruence.
    + by rewrite list_lookup_insert_ne.
  - intros t l j Ht Hj. rewrite length_insert. by eapply ev_wf_target.
Qed.

Lemma evidence_clear_wf id s : evidence_wf s -> evidence_wf (evidence_clear id s).
Proof.
  intros Hwf. unfold evidence_clear. destruct (evidence_find s id) as [[i e] |] eqn:Hf; [| done].
  apply evidence_find_wf in Hf as (_ & Hi & _); [| done]. by eapply evidence_replace_wf.
Qed.

Lemma evidence_append_wf s ev c :
  evidence_wf s -> ev_id_index s !! fe_event_id ev = None ->
  evidence_wf (mkStore (ev_events s ++ [mkEntry ev c])
     (<[ fe_event_id ev := length (ev_events s) ]> (ev_id_index s))
     (match fe_target ev with
      | Some t => <[ t := default [] (ev_target_index s !! t) ++ [length (ev_events s)] ]> (ev_target_index s)
      | None => ev_target_index s
      end)).
Proof.
  intros Hwf Hnone. constructor; simpl.
  - intros id i. destruct (decide (fe_event_id ev = id)) as [<- | Hne].
    + rewrite lookup_insert_eq. split.
      * intros [= <-]. exists (mkEntry ev c). rewrite lookup_app_r, Nat.sub_diag by lia. done.
      * intros (e & He & Hid). apply lookup_app_Some in He as [He | [Hge He]].
        { assert (ev_id_index s !! fe_event_id ev = Some i) by (apply (ev_wf_index s Hwf); eauto).
          congruence. }
        apply list_lookup_singleton_Some in He as [He _].
        f_equal. lia.
    + rewrite lookup_insert_ne by done. rewrite (ev_wf_index s Hwf). split.
      * intros (e & He & Hid). exists e. split; [| done]. by apply lookup_app_l_Some.
      * intros (e & He & Hid). exists e. split; [| done].
        apply lookup_app_Some in He as [He | [_ He]]; [done |].
        apply list_lookup_singleton_Some in He as [_ <-]. done.
  - intros t l i Ht Hi. rewrite length_app. simpl.
    destruct (fe_target ev) as [t' |]; [| pose proof (ev_wf_target s Hwf t l i Ht Hi); lia].
    destruct (decide (t' = t)) as [-> | Hne].
    + rewrite lookup_insert_eq in Ht. injection Ht as <-.
      apply elem_of_app in Hi as [Hi | ->%list_elem_of_singleton]; [| lia].
      destruct (ev_target_index s !! t) as [l |] eqn:Hl; simpl in Hi; [| by apply elem_of_nil in Hi].
      pose proof (ev_wf_target s Hwf t l i Hl Hi). lia.
    + rewrite lookup_insert_ne in Ht by done. pose proof (ev_wf_target s Hwf t l i Ht Hi). lia.
Qed.

Lemma publish_wf ev s : evidence_wf s -> evidence_wf (publish ev s).1.
Proof.
  intros Hwf. unfold publish. destruct (evidence_find s (fe_event_id ev)) as [[i en] |] eqn:Hf.
  - apply evidence_find_wf in Hf as (_ & Hi & Hid); [| done].
    destruct (_ && _); [done |]. destruct (newer _ _); [| done]. simpl.
    eapply evidence_replace_wf; [done | done | by simpl].
  - apply evidence_find_None in Hf; [| done]. by apply evidence_append_wf.
Qed.

(** * Theorems *)

(** An event identity's entry, and whether it was superseded. *)
Definition event_of (s : EvidenceStore) (id : FailureEventId) : option FailureEvent :=
  en_event ∘ snd <$> evidence_find s id.

Lemma publish_known s ev i en :
  evidence_wf s -> evidence_find s (fe_event_id ev) = Some (i, en) ->
  publish ev s =
    if newer ev (en_event en)
       && negb (status_is EvidenceStatus.CONFIRMED (en_event en) && status_is EvidenceStatus.CLEARED ev)
    then (s <| ev_events := <[ i := mkEntry ev (status_is EvidenceStatus.CLEARED ev) ]> (ev_events s) |>, true)
    else (s, false).
Proof.
  intros Hwf Hf. unfold publish. rewrite Hf.
  by destruct (newer _ _), (status_is EvidenceStatus.CONFIRMED _), (status_is EvidenceStatus.CLEARED _).
Qed.

Lemma evidence_find_replace s i en en' id :
  evidence_wf s -> evidence_find s id = Some (i, en) ->
  evidence_find (s <| ev_events := <[ i := en' ]> (ev_events s) |>) id = Some (i, en').
Proof.
  intros Hwf Hf. destruct (evidence_find_wf _ _ _ _ Hwf Hf) as (Hlt & _ & _).
  apply evidence_find_Some in Hf as [Hi _]. apply evidence_find_Some. simpl.
  split; [done |]. by apply list_lookup_insert_eq.
Qed.

Lemma evidence_find_replace_ne s i en en' id id' :
  evidence_wf s -> evidence_find s id = Some (i, en) -> id <> id' ->
  evidence_find (s <| ev_events := <[ i := en' ]> (ev_events s) |>) id' = evidence_find s id'.
Proof.
  intros Hwf Hf Hne. unfold evidence_find. simpl.
  destruct (ev_id_index s !! id') as [j |] eqn:Hj; [| done]. simpl.
  rewrite list_lookup_insert_ne; [done |]. intros <-.
  apply evidence_find_wf in Hf as (_ & He & Hid); [| done].
  apply (ev_wf_index s Hwf) in Hj as (e' & He' & <-). congruence.
Qed.

Lemma evidence_find_append s ev c m id :
  evidence_wf s -> ev_id_index s !! fe_event_id ev = None ->
  evidence_find (mkStore (ev_events s ++ [mkEntry ev c])
      (<[ fe_event_id ev := length (ev_events s) ]> (ev_id_index s)) m) id =
  if decide (fe_event_id ev = id) then Some (length (ev_events s), mkEntry ev c) else evidence_find s id.
Proof.
  intros Hwf Hn. unfold evidence_find. simpl. case_decide as Hd.
  - subst id. rewrite lookup_insert_eq. simpl. by rewrite lookup_app_r, Nat.sub_diag by lia.
  - rewrite lookup_insert_ne by done. destruct (ev_id_index s !! id) as [j |] eqn:Hj; [| done]. simpl.
    apply (ev_wf_index s Hwf) in Hj as (e & He & _). by rewrite (lookup_app_l_Some _ _ _ _ He), He.
Qed.

Lemma publish_event_of s ev id :
  evidence_wf s ->
  event_of (publish ev s).1 id =
    if decide (fe_event_id ev = id) then
      match event_of s id with
      | None => Some ev
      | Some old =>
        if newer ev old && negb (status_is EvidenceStatus.CONFIRMED old && status_is EvidenceStatus.CLEARED ev)
        then Some ev else Some old
      end
    else event_of s id.
Proof.
  intros Hwf. unfold event_of. destruct (evidence_find s (fe_event_id ev)) as [[i en] |] eqn:Hf.
  - rewrite (publish_known s ev i en Hwf Hf). case_decide as Hd.
    + subst id. rewrite Hf. simpl. destruct (_ && _); simpl; [| by rewrite Hf].
      by erewrite evidence_find_replace.
    + destruct (_ && _); simpl; [| done]. by erewrite evidence_find_replace_ne.
  - unfold publish. rewrite Hf. simpl. rewrite evidence_find_append; [| done | by apply evidence_find_None].
    case_decide as Hd; [| done]. subst id. by rewrite Hf.
Qed.

(** Publishing evidence keeps the store's indices consistent, touches only the
    event of the published identity, and resolves a conflict on that identity as
    follows: an event not yet known is recorded; otherwise the published event
    replaces the recorded one exactly when it is not older (receipt sequence,
    then wall clock) and is not a CLEARED observation of a CONFIRMED failure. *)
Theorem publish_spec (s : EvidenceStore) (ev : FailureEvent) (Hwf : evidence_wf s) :
  evidence_wf (publish ev s).1 /\
  (forall id, id <> fe_event_id ev -> event_of (publish ev s).1 id = event_of s id) /\
  match event_of s (fe_event_id ev) with
  | None => event_of (publish ev s).1 (fe_event_id ev) = Some ev /\ (publish ev s).2 = true
  | Some old =>
    let wins := newer ev old && negb (status_is EvidenceStatus.CONFIRMED old && status_is EvidenceStatus.CLEARED ev) in
    event_of (publish ev s).1 (fe_event_id ev) = Some (if wins then ev else old) /\
    (publish ev s).2 = wins
  end.
Proof.
  split; [by apply publish_wf |]. split.
  { intros id Hne. rewrite publish_event_of by done. by rewrite decide_False. }
  rewrite publish_event_of by done. rewrite decide_True by done. unfold event_of.
  destruct (evidence_find s (fe_event_id ev)) as [[i en] |] eqn:Hf; simpl.
  - rewrite (publish_known s ev i en Hwf Hf). by destruct (_ && _).
  - split; [done |]. unfold publish. by rewrite Hf.
Qed.

Lemma publish_spec_witness :
  let ev := failure_event_default <| fe_event_id := mkId 1 |> <| fe_status := EvidenceStatus.CONFIRMED |>
              <| fe_received := mkTimestamp 0 2 |> in
  let s := (publish ev evidence_empty).1 in
  evidence_wf (publish (ev <| fe_status := EvidenceStatus.CLEARED |> <| fe_received := mkTimestamp 0 9 |>) s).1 /\
  event_of (publish (ev <| fe_status := EvidenceStatus.CLEARED |> <| fe_received := mkTimestamp 0 9 |>) s).1
    (mkId 1) = Some ev.
Proof.
  intros ev s.
  assert (evidence_wf s) as Hs by (apply publish_wf, evidence_empty_wf).
  destruct (publish_spec s (ev <| fe_status := EvidenceStatus.CLEARED |> <| fe_received := mkTimestamp 0 9 |>) Hs)
    as (Hw & _ & He).
  split; [exact Hw |]. exact (proj1 He).
Defined.

Lemma fold_latest_spec l acc :
  let r := fold_left latest_step l acc in
  (forall e, e ∈ l -> live e = true -> exists f, r = Some f /\ ts_seq (fe_received (en_event e)) <= ts_seq (fe_received f)) /\
  (forall f, acc = Some f -> exists f', r = Some f' /\ ts_seq (fe_received f) <= ts_seq (fe_received f')) /\
  (forall f, r = Some f -> acc = Some f \/ exists e, e ∈ l /\ live e = true /\ en_event e = f).
Proof.
  revert acc. induction l as [| x l IH]; intros acc; simpl.
  { split; [intros e He; by apply elem_of_nil in He |]. split; [intros f Hf; exists f; split; [done | lia] | auto]. }
  destruct (IH (latest_step acc x)) as (H1 & H2 & H3). split; [| split].
  - intros e [-> | He]%elem_of_cons Hl; [| by apply H1].
    assert (exists f, latest_step acc x = Some f /\ ts_seq (fe_received (en_event x)) <= ts_seq (fe_received f)) as (f & Hf & Hle).
    { unfold latest_step. rewrite Hl. destruct acc as [r |]; [| eexists; split; [done | lia]].
      destruct (Z.leb_spec (ts_seq (fe_received r)) (ts_seq (fe_received (en_event x)))); eexists; (split; [done | lia]). }
    destruct (H2 f Hf) as (f' & -> & ?). exists f'. split; [done | lia].
  - intros f ->. assert (exists g, latest_step (Some f) x = Some g /\ ts_seq (fe_received f) <= ts_seq (fe_received g)) as (g & Hg & Hle).
    { unfold latest_step. destruct (live x); [| eexists; split; [done | lia]].
      destruct (Z.leb_spec (ts_seq (fe_received f)) (ts_seq (fe_received (en_event x)))); eexists; (split; [done | lia]). }
    destruct (H2 g Hg) as (f' & -> & ?). exists f'. split; [done | lia].
  - intros f Hf. destruct (H3 f Hf) as [Hs | (e & He & Hl & <-)].
    + unfold latest_step in Hs. destruct (live x) eqn:Hx; [| by left].
      destruct acc as [r |]; [destruct (Z.leb _ _) |]; try (by left);
        injection Hs as <-; right; exists x; (split; [apply list_elem_of_here | done]).
    + right. exists e. split; [by apply list_elem_of_further | done].
Qed.

(** [latest_failure_for] returns an uncleared, non-stale failure indexed under
    the target with the greatest receipt sequence of those, and returns nothing
    only when the target has none. *)
Theorem latest_failure_for_spec (s : EvidenceStore) (t : TargetId) :
  match latest_failure_for s t with
  | Some f => (exists e, e ∈ entries_for s t /\ live e = true /\ en_event e = f) /\
      forall e, e ∈ entries_for s t -> live e = true ->
        ts_seq (fe_received (en_event e)) <= ts_seq (fe_received f)
  | None => forall e, e ∈ entries_for s t -> live e = false
  end.
Proof.
  unfold latest_failure_for. destruct (fold_latest_spec (entries_for s t) None) as (H1 & _ & H3).
  destruct (fold_left _ _ _) as [f |] eqn:Hf.
  - split; [by destruct (H3 f eq_refl) as [| ?] |]. intros e He Hl.
    destruct (H1 e He Hl) as (f' & [= <-] & ?). done.
  - intros e He. destruct (live e) eqn:Hl; [| done]. by destruct (H1 e He Hl) as (f' & ? & _).
Qed.

(** The target index is not maintained when an event is re-published for
    another target: after a newer CONFIRMED event with the same identity names
    target [t2], the store reports no failure for [t2], and reports that event
    under the target [t1] of the first publication. *)
Theorem publish_retarget_not_indexed (ev : FailureEvent) (t1 t2 : TargetId) :
  fe_target ev = Some t1 -> fe_status ev = EvidenceStatus.CONFIRMED -> t1 <> t2 ->
  let ev2 := ev <| fe_target := Some t2 |> in
  let s := (publish ev2 (publish ev evidence_empty).1).1 in
  (publish ev2 (publish ev evidence_empty).1).2 = true /\
  latest_failure_for s t2 = None /\ latest_failure_for s t1 = Some ev2.
Proof.
  intros Ht Hs Hne ev2 s.
  assert (newer ev2 ev = true) as Hn.
  { unfold newer, ev2. simpl. by rewrite Z.eqb_refl, Z.leb_refl, Z.ltb_irrefl. }
  assert (evidence_find (publish ev evidence_empty).1 (fe_event_id ev2) =
          Some (0%nat, mkEntry ev (status_is EvidenceStatus.CLEARED ev))) as Hf.
  { apply evidence_find_Some. simpl. split; [apply lookup_insert_eq | done]. }
  pose proof (publish_known _ ev2 _ _ (publish_wf _ _ evidence_empty_wf) Hf) as Hp.
  simpl in Hp. rewrite Hn in Hp. unfold status_is, ev2 in Hp. simpl in Hp. rewrite Hs in Hp. simpl in Hp.
  subst s. unfold ev2. rewrite Hp. simpl.
  assert ((publish ev evidence_empty).1 = mkStore [mkEntry ev false] {[ fe_event_id ev := 0%nat ]} {[ t1 := [0%nat] ]}) as ->.
  { unfold publish, status_is. simpl. by rewrite Ht, Hs. }
  unfold latest_failure_for, entries_for. simpl.
  rewrite lookup_singleton_ne, lookup_singleton_eq by done. simpl.
  split; [done |]. split; [done |]. unfold latest_step, live, status_is. simpl. by rewrite Hs.
Qed.

Lemma publish_retarget_not_indexed_witness :
  let ev := failure_event_default <| fe_event_id := mkId 1 |> <| fe_status := EvidenceStatus.CONFIRMED |>
              <| fe_target := Some (mkId 1) |> in
  let s := (publish (ev <| fe_target := Some (mkId 2) |>) (publish ev evidence_empty).1).1 in
  latest_failure_for s (mkId 2) = None.
Proof.
  simpl. apply (publish_retarget_not_indexed
    (failure_event_default <| fe_event_id := mkId 1 |> <| fe_status := EvidenceStatus.CONFIRMED |>
       <| fe_target := Some (mkId 1) |>) (mkId 1) (mkId 2)); done.
Defined.
