(* ===== verification/Routes.v ===== *)
(** The route table (route.hpp, route.cpp): one current route per slot, with the
    routes it replaced, installed only in strictly increasing generation. *)

From stdpp Require Import base list gmap strings.
From Stdlib Require Import ZArith Lia Sorting.Sorted.
From S2P Require Import Prelude Identities Types Double Model.

Open Scope Z_scope.

(** [RouteTable::SlotRoute]. *)
Record SlotRoute : Type := mkSlotRoute { slr_current : RouteEntry; slr_history : list RouteEntry }.
#[export] Instance SlotRoute_eta : Eta SlotRoute := fun s => mkSlotRoute (slr_current s) (slr_history s).

(** [class RouteTable]. *)
Record RouteTable : Type := mkRoutes { rt_current : list SlotRoute; rt_revalidation_count : Z }.
#[export] Instance RouteTable_eta : Eta RouteTable := fun s => mkRoutes (rt_current s) (rt_revalidation_count s).

Definition routes_empty : RouteTable := mkRoutes [] 0.

Definition for_slot (k : ServiceSlotKey) (s : SlotRoute) : bool := re_slot (slr_current s) =k k.

Definition route_find (t : RouteTable) (k : ServiceSlotKey) : option SlotRoute :=
  find_first (for_slot k) (rt_current t).

(** Write through the pointer [find_] returned. *)
Definition route_update (k : ServiceSlotKey) (f : SlotRoute -> SlotRoute) (t : RouteTable) : RouteTable :=
  match update_first (for_slot k) f (rt_current t) with
  | Some l => t <| rt_current := l |>
  | None => t
  end.

Definition push_current (entry : RouteEntry) (s : SlotRoute) : SlotRoute :=
  mkSlotRoute entry (slr_history s ++ [slr_current s]).

Definition install (entry : RouteEntry) (t : RouteTable) : RouteTable * bool :=
  if id_is_null (sk_service (re_slot entry)) then (t, false) else
  match route_find t (re_slot entry) with
  | Some sr =>
    if Z.leb (gen_value (re_generation entry)) (gen_value (re_generation (slr_current sr))) then (t, false)
    else if Z.ltb (ep_epoch (re_epoch entry)) (ep_epoch (re_epoch (slr_current sr))) then (t, false)
    else (route_update (re_slot entry) (push_current entry) t, true)
  | None => (t <| rt_current := rt_current t ++ [mkSlotRoute entry []] |>, true)
  end.

Definition with_current (f : RouteEntry -> RouteEntry) (s : SlotRoute) : SlotRoute :=
  s <| slr_current := f (slr_current s) |>.

Definition state_in (l : list RouteState) (e : RouteEntry) : bool := bool_decide (re_state e ∈ l).

Definition bind_gateway (k : ServiceSlotKey) (boot : GatewayBootId) (t : RouteTable) : RouteTable * bool :=
  match route_find t k with
  | None => (t, false)
  | Some sr =>
    if state_in [RouteState.EMPTY] (slr_current sr) then (t, false)
    else if re_gateway_boot (slr_current sr) =i boot then (t, true)
    else (route_update k (with_current (fun e => e <| re_gateway_boot := boot |>)) t, true)
  end.

Definition acknowledge (k : ServiceSlotKey) (gen : RouteGeneration) (boot : GatewayBootId) (t : RouteTable)
    : RouteTable * bool :=
  match route_find t k with
  | None => (t, false)
  | Some sr =>
    let cur := slr_current sr in
    if negb (re_generation cur =g gen) then (t, false)
    else if negb (boot =i re_gateway_boot cur) then (t, false)
    else if negb (state_in [RouteState.INSTALLED; RouteState.PENDING_INSTALL] cur) then (t, false)
    else (route_update k (with_current (fun e => e <| re_state := RouteState.ACKNOWLEDGED |>)) t, true)
  end.

Definition route_current (t : RouteTable) (k : ServiceSlotKey) : option RouteEntry :=
  match route_find t k with
  | None => None
  | Some sr => if state_in [RouteState.EMPTY] (slr_current sr) then None else Some (slr_current sr)
  end.

Definition table_history (t : RouteTable) (k : ServiceSlotKey) (max : Z) : list RouteEntry :=
  match route_find t k with
  | None => []
  | Some sr => truncate (slr_history sr) max
  end.

Definition all_routes (t : RouteTable) : list RouteEntry :=
  List.filter (fun e => negb (state_in [RouteState.EMPTY] e)) (slr_current <$> rt_current t).

Definition revalidatable (e : RouteEntry) : bool :=
  state_in [RouteState.ACKNOWLEDGED; RouteState.INSTALLED; RouteState.PENDING_INSTALL] e.

Definition revalidate_entry (e : RouteEntry) : RouteEntry :=
  if revalidatable e then e <| re_state := RouteState.REVALIDATION_REQUIRED |> else e.

Definition mark_revalidation_required (t : RouteTable) : RouteTable :=
  mkRoutes (with_current revalidate_entry <$> rt_current t)
    (rt_revalidation_count t +
     Z.of_nat (length (List.filter (fun s => revalidatable (slr_current s)) (rt_current t)))).

(** * Invariant *)

(** A route that may follow another on a slot. *)
Definition route_lt (a b : RouteEntry) : Prop :=
  re_slot a = re_slot b /\ gen_value (re_generation a) < gen_value (re_generation b) /\
  ep_epoch (re_epoch a) <= ep_epoch (re_epoch b).

(** The routes a slot ever had, oldest first, the current one last. *)
Definition timeline (s : SlotRoute) : list RouteEntry := slr_history s ++ [slr_current s].

Record routes_wf (t : RouteTable) : Prop := {
  rt_wf_slots : NoDup (re_slot ∘ slr_current <$> rt_current t);
  rt_wf_service : forall s, s ∈ rt_current t -> sk_service (re_slot (slr_current s)) <> id_null;
  rt_wf_timeline : forall s, s ∈ rt_current t -> StronglySorted route_lt (timeline s) }.

Lemma routes_empty_wf : routes_wf routes_empty.
Proof. constructor; simpl; [apply NoDup_nil_2 | |]; intros s Hs; by apply elem_of_nil in Hs. Qed.

#[export] Instance route_lt_trans : Transitive route_lt.
Proof. intros a b c (? & ? & ?) (? & ? & ?). split; [congruence | lia]. Qed.

Lemma for_slot_true k s : for_slot k s = true <-> re_slot (slr_current s) = k.
Proof. apply slotkey_eqb_eq. Qed.

Lemma route_find_Some t k s :
  route_find t k = Some s -> s ∈ rt_current t /\ re_slot (slr_current s) = k.
Proof. by intros [? ?%for_slot_true]%find_first_Some. Qed.

Lemma route_find_None t k s : route_find t k = None -> s ∈ rt_current t -> re_slot (slr_current s) <> k.
Proof.
  unfold route_find. rewrite find_first_None. intros H Hs. specialize (H s Hs).
  by apply slotkey_eqb_neq in H.
Qed.

(** The effect of a write through [find_] on the lookups, for a write that keeps
    the slot of the route. *)
Lemma route_find_update t k f s k' :
  (forall y, re_slot (slr_current y) = k -> re_slot (slr_current (f y)) = k) ->
  route_find t k = Some s ->
  route_find (route_update k f t) k' = if decide (k = k') then Some (f s) else route_find t k'.
Proof.
  intros Hf Hs. unfold route_update, route_find in *.
  destruct (update_first (for_slot k) f (rt_current t)) as [l |] eqn:Hu; simpl.
  - case_decide as Hk.
    + subst k'. eapply find_first_update; [| done | done].
      intros y Hy%for_slot_true. apply for_slot_true. by apply Hf.
    + eapply find_first_update_other; [| done]. intros y Hy%for_slot_true.
      unfold for_slot. rewrite !slotkey_eqb_neq. rewrite (Hf y Hy). naive_solver.
  - apply update_first_None in Hu. congruence.
Qed.

Lemma route_update_wf t k f s :
  routes_wf t ->
  (forall y, re_slot (slr_current y) = k -> re_slot (slr_current (f y)) = k) ->
  route_find t k = Some s -> (forall y, y ∈ rt_current t -> re_slot (slr_current y) = k ->
     StronglySorted route_lt (timeline (f y))) ->
  routes_wf (route_update k f t).
Proof.
  intros [Hd Hsvc Htl] Hf Hs Hnew. unfold route_update.
  destruct (update_first (for_slot k) f (rt_current t)) as [l |] eqn:Hu; [| by constructor].
  assert (forall x, x ∈ l -> (x ∈ rt_current t) \/
            exists y, y ∈ rt_current t /\ re_slot (slr_current y) = k /\ x = f y) as Hin.
  { apply update_first_Some in Hu as (l1 & z & l2 & Hl & -> & Hz%for_slot_true & _).
    rewrite Hl. intros x [Hx | [-> | Hx]%elem_of_cons]%elem_of_app.
    - left. rewrite elem_of_app. by left.
    - right. exists z. split; [| done]. rewrite elem_of_app, elem_of_cons. tauto.
    - left. rewrite elem_of_app, elem_of_cons. tauto. }
  constructor; simpl.
  - erewrite update_first_fmap; [exact Hd | | exact Hu].
    intros y Hy%for_slot_true. simpl. rewrite Hf; done.
  - intros x [Hx | (y & Hy & Hk & ->)]%Hin; [by apply Hsvc |]. rewrite Hf by done. rewrite <- Hk. by apply Hsvc.
  - intros x [Hx | (y & Hy & Hk & ->)]%Hin; [by apply Htl |]. by apply Hnew.
Qed.

Lemma StronglySorted_snoc {A} (R : A -> A -> Prop) `{!Transitive R} (l : list A) (x y : A) :
  StronglySorted R (l ++ [x]) -> R x y -> StronglySorted R ((l ++ [x]) ++ [y]).
Proof.
  intros Hl Hxy. induction l as [| z l IH]; simpl in *.
  - repeat constructor. done.
  - inversion Hl as [| ? ? Hs Ha]; subst. constructor; [by apply IH |].
    rewrite !Forall_app in *. destruct Ha as [Hl' Hx]. inversion Hx; subst.
    split; [done |]. repeat constructor. by trans x.
Qed.

Lemma StronglySorted_last {A} (R : A -> A -> Prop) (l : list A) (x y : A) :
  StronglySorted R (l ++ [x]) -> (forall z, R z x -> R z y) -> StronglySorted R (l ++ [y]).
Proof.
  intros Hl Hxy. induction l as [| z l IH]; simpl in *; [repeat constructor |].
  inversion Hl as [| ? ? Hs Ha]; subst. constructor; [by apply IH |].
  rewrite Forall_app in *. destruct Ha as [? Hx]. inversion Hx; subst. split; [done |].
  repeat constructor. by apply Hxy.
Qed.

Lemma install_wf entry t : routes_wf t -> routes_wf (install entry t).1.
Proof.
  intros Hwf. unfold install. destruct (id_is_null _) eqn:Hn; [done |]. apply id_is_null_false in Hn.
  destruct (route_find t (re_slot entry)) as [sr |] eqn:Hf.
  - destruct (Z.leb_spec (gen_value (re_generation entry)) (gen_value (re_generation (slr_current sr)))); [done |].
    destruct (Z.ltb_spec (ep_epoch (re_epoch entry)) (ep_epoch (re_epoch (slr_current sr)))); [done |]. simpl.
    eapply route_update_wf; [done | done | done |]. intros y Hy Hk.
    unfold timeline, push_current. simpl. apply StronglySorted_snoc; [apply _ | by apply (rt_wf_timeline t) |].
    assert (y = sr) as ->.
    { pose proof (rt_wf_slots t Hwf) as Hd. apply route_find_Some in Hf as [Hsr Hsk].
      apply list_elem_of_lookup in Hy as [i Hi]. apply list_elem_of_lookup in Hsr as [j Hj].
      assert (i = j) as ->.
      { eapply (NoDup_lookup _ i j (re_slot entry) Hd); rewrite list_lookup_fmap; rewrite ?Hi, ?Hj; simpl; congruence. }
      congruence. }
    split; [done |]. lia.
  - destruct Hwf as [Hd Hs Ht]. constructor; simpl.
    + rewrite fmap_app. apply NoDup_app. split; [done |]. split; [| apply NoDup_singleton].
      simpl. intros x Hx ->%list_elem_of_singleton. apply list_elem_of_fmap in Hx as (s & Hk & Hin).
      by eapply (route_find_None t (re_slot entry)) in Hin.
    + intros s [? | ->%list_elem_of_singleton]%elem_of_app; [by apply Hs | done].
    + intros s [? | ->%list_elem_of_singleton]%elem_of_app; [by apply Ht | repeat constructor].
Qed.

(** A write to the current route that keeps slot, generation and epoch. *)
Definition same_position (f : RouteEntry -> RouteEntry) : Prop :=
  forall e, re_slot (f e) = re_slot e /\ re_generation (f e) = re_generation e /\ re_epoch (f e) = re_epoch e.

Lemma with_current_timeline f s :
  same_position f -> StronglySorted route_lt (timeline s) -> StronglySorted route_lt (timeline (with_current f s)).
Proof.
  intros Hf Hs. unfold timeline, with_current in *. simpl. eapply StronglySorted_last; [exact Hs |].
  intros z (? & ? & ?). destruct (Hf (slr_current s)) as (? & Hg & He). unfold route_lt. rewrite Hg, He.
  split; [congruence | lia].
Qed.

Lemma with_current_update_wf k f t s :
  routes_wf t -> same_position f -> route_find t k = Some s -> routes_wf (route_update k (with_current f) t).
Proof.
  intros Hwf Hf Hs. eapply route_update_wf; [done | | done |].
  - intros y Hy. simpl. by rewrite (proj1 (Hf _)).
  - intros y Hy _. apply with_current_timeline; [done |]. by apply (rt_wf_timeline t).
Qed.

Lemma bind_gateway_wf k b t : routes_wf t -> routes_wf (bind_gateway k b t).1.
Proof.
  intros Hwf. unfold bind_gateway. destruct (route_find t k) as [s |] eqn:Hs; [| done].
  destruct (state_in _ _); [done |]. destruct (_ =i _); [done |]. simpl.
  eapply with_current_update_wf; [done | | done]. by intros e.
Qed.

Lemma acknowledge_wf k g b t : routes_wf t -> routes_wf (acknowledge k g b t).1.
Proof.
  intros Hwf. unfold acknowledge. destruct (route_find t k) as [s |] eqn:Hs; [| done].
  destruct (negb _); [done |]. destruct (negb _); [done |]. destruct (negb _); [done |]. simpl.
  eapply with_current_update_wf; [done | | done]. by intros e.
Qed.

Lemma revalidate_same_position : same_position revalidate_entry.
Proof. intros e. unfold revalidate_entry. by destruct (revalidatable e). Qed.

Lemma mark_revalidation_wf t : routes_wf t -> routes_wf (mark_revalidation_required t).
Proof.
  intros [Hd Hs Ht]. constructor; simpl.
  - rewrite <- list_fmap_compose.
    erewrite list_fmap_ext; [exact Hd |]. intros i s _. simpl.
    by rewrite (proj1 (revalidate_same_position _)).
  - intros x (s & -> & Hin)%list_elem_of_fmap. simpl. rewrite (proj1 (revalidate_same_position _)). by apply Hs.
  - intros x (s & -> & Hin)%list_elem_of_fmap. apply with_current_timeline; [apply revalidate_same_position |].
    by apply Ht.
Qed.

(** * Theorems *)

Lemma install_cases (entry : RouteEntry) (t : RouteTable) :
  let ok := sk_service (re_slot entry) <> id_null /\
            (forall s, route_find t (re_slot entry) = Some s ->
               gen_value (re_generation (slr_current s)) < gen_value (re_generation entry) /\
               ep_epoch (re_epoch (slr_current s)) <= ep_epoch (re_epoch entry)) in
  ((install entry t).2 = true <-> ok) /\
  (~ ok -> (install entry t).1 = t) /\
  (ok -> forall k, route_find (install entry t).1 k =
     if decide (re_slot entry = k)
     then Some (mkSlotRoute entry
                  match route_find t k with Some s => timeline s | None => [] end)
     else route_find t k).
Proof.
  intros ok. unfold install. destruct (id_is_null (sk_service (re_slot entry))) eqn:Hn.
  { apply id_is_null_true in Hn. split; [split; [done | by intros []] |]. split; [done | by intros []]. }
  apply id_is_null_false in Hn.
  destruct (route_find t (re_slot entry)) as [s |] eqn:Hf.
  - destruct (Z.leb_spec (gen_value (re_generation entry)) (gen_value (re_generation (slr_current s)))) as [Hg | Hg].
    { assert (~ ok) by (intros [_ H]; specialize (H s eq_refl); lia). naive_solver. }
    destruct (Z.ltb_spec (ep_epoch (re_epoch entry)) (ep_epoch (re_epoch (slr_current s)))) as [He | He].
    { assert (~ ok) by (intros [_ H]; specialize (H s eq_refl); lia). naive_solver. }
    assert ok as Hok by (split; [done |]; intros s' [= <-]; lia).
    split; [done |]. split; [done |]. intros _ k. simpl.
    rewrite (route_find_update t _ _ s k) by done. case_decide; [subst k; by rewrite Hf | done].
  - assert ok as Hok by (split; [done |]; intros s [=]). split; [done |]. split; [done |]. intros _ k. simpl.
    unfold route_find in *. simpl. rewrite find_first_app. simpl.
    case_decide as Hk.
    + subst k. assert (for_slot (re_slot entry) (mkSlotRoute entry []) = true) as -> by (by apply for_slot_true).
      by rewrite Hf.
    + assert (for_slot k (mkSlotRoute entry []) = false) as -> by (by apply slotkey_eqb_neq).
      destruct (find_first (for_slot k) (rt_current t)); done.
Qed.

(** [RouteTable::install] accepts a route exactly when its service is not null
    and it is strictly newer in generation, and not older in epoch, than the
    slot's current route if there is one.  An accepted route becomes the slot's
    current route, pushes the replaced one onto the history, and leaves the other
    slots alone; a refused one leaves the table unchanged. *)
Theorem install_spec (entry : RouteEntry) (t : RouteTable) :
  let ok := sk_service (re_slot entry) <> id_null /\
            (forall s, route_find t (re_slot entry) = Some s ->
               gen_value (re_generation (slr_current s)) < gen_value (re_generation entry) /\
               ep_epoch (re_epoch (slr_current s)) <= ep_epoch (re_epoch entry)) in
  ((install entry t).2 = true <-> ok) /\
  (~ ok -> (install entry t).1 = t) /\
  (ok -> forall k, route_find (install entry t).1 k =
     if decide (re_slot entry = k)
     then Some (mkSlotRoute entry
                  match route_find t k with Some s => timeline s | None => [] end)
     else route_find t k).
Proof. apply install_cases. Qed.

Lemma install_spec_witness :
  let e := route_entry_default <| re_slot := mkSlotKey (mkId 1) (mkId 1) |> <| re_state := RouteState.ACKNOWLEDGED |> in
  (install e routes_empty).2 = true.
Proof.
  apply (install_spec _ routes_empty). split; [discriminate | intros s Hs; discriminate].
Defined.

(** The operations that change the table. *)
Inductive RouteOp : Type :=
  | OpInstall (e : RouteEntry)
  | OpBind (k : ServiceSlotKey) (b : GatewayBootId)
  | OpAck (k : ServiceSlotKey) (g : RouteGeneration) (b : GatewayBootId)
  | OpRevalidate.

Definition run_op (t : RouteTable) (o : RouteOp) : RouteTable :=
  match o with
  | OpInstall e => (install e t).1
  | OpBind k b => (bind_gateway k b t).1
  | OpAck k g b => (acknowledge k g b t).1
  | OpRevalidate => mark_revalidation_required t
  end.

(** What a route generation binds. *)
Definition binding (e : RouteEntry) :=
  (re_route e, re_slot e, re_target e, re_target_generation e, re_incarnation e,
   re_permitted_boot e, re_assignment e, re_assignment_generation e, re_epoch e).

(** Between two tables, a slot's route only moves forward: to a strictly newer
    generation under a not older epoch, or it stays the same binding. *)
Definition advances (t t' : RouteTable) : Prop :=
  forall k s, route_find t k = Some s ->
  exists s', route_find t' k = Some s' /\
    (route_lt (slr_current s) (slr_current s') \/
     (re_generation (slr_current s') = re_generation (slr_current s) /\
      binding (slr_current s') = binding (slr_current s))).

#[export] Instance advances_preorder : PreOrder advances.
Proof.
  split.
  - intros t k s Hs. exists s. auto.
  - intros t1 t2 t3 H12 H23 k s Hs. destruct (H12 k s Hs) as (s2 & Hs2 & H2).
    destruct (H23 k s2 Hs2) as (s3 & Hs3 & H3). exists s3. split; [done |].
    destruct H2 as [H2 | [Hg2 Hb2]], H3 as [H3 | [Hg3 Hb3]].
    + left. by trans (slr_current s2).
    + left. destruct H2 as (? & ? & ?). unfold binding in Hb3. injection Hb3 as Hr Hk _ _ _ _ _ _ He.
      unfold route_lt. rewrite Hg3, He, Hk. done.
    + left. destruct H3 as (? & ? & ?). unfold binding in Hb2. injection Hb2 as Hr Hk _ _ _ _ _ _ He.
      unfold route_lt in *. rewrite <- Hg2, <- He, <- Hk. done.
    + right. split; congruence.
Qed.

Definition keeps_binding (f : RouteEntry -> RouteEntry) : Prop :=
  forall e, re_generation (f e) = re_generation e /\ binding (f e) = binding e.

Lemma with_current_advances k f t s :
  keeps_binding f -> route_find t k = Some s -> advances t (route_update k (with_current f) t).
Proof.
  intros Hf Hs k' s' Hs'. rewrite (route_find_update t k _ s k'); [| | done].
  - case_decide as Hk.
    + subst k'. assert (s' = s) as -> by congruence. eexists. split; [done |]. right. apply Hf.
    + exists s'. auto.
  - intros y Hy. simpl. destruct (Hf (slr_current y)) as [_ Hb]. unfold binding in Hb. congruence.
Qed.

Lemma route_find_fmap f t n k :
  (forall e, re_slot (f e) = re_slot e) ->
  route_find (mkRoutes (with_current f <$> rt_current t) n) k = with_current f <$> route_find t k.
Proof.
  intros Hf. unfold route_find. simpl. induction (rt_current t) as [| s l IH]; simpl; [done |].
  unfold for_slot at 1 3. simpl. rewrite Hf. by destruct (_ =k _).
Qed.

Lemma run_op_advances t o : advances t (run_op t o).
Proof.
  destruct o as [e | k b | k g b |]; simpl.
  - unfold install. destruct (id_is_null _); [done |].
    destruct (route_find t (re_slot e)) as [s |] eqn:Hs.
    + destruct (Z.leb_spec (gen_value (re_generation e)) (gen_value (re_generation (slr_current s)))); [done |].
      destruct (Z.ltb_spec (ep_epoch (re_epoch e)) (ep_epoch (re_epoch (slr_current s)))); [done |]. simpl.
      intros k s' Hs'. rewrite (route_find_update t _ _ s k) by done. case_decide as Hk; [| exists s'; auto].
      subst k. assert (s' = s) as -> by congruence. eexists. split; [done |]. left.
      apply route_find_Some in Hs as [_ Hk]. split; [done |]. simpl. lia.
    + simpl. intros k s Hk. exists s. split; [| auto]. unfold route_find in *. simpl.
      by rewrite find_first_app, Hk.
  - unfold bind_gateway. destruct (route_find t k) as [s |] eqn:Hs; [| done].
    destruct (state_in _ _); [done |]. destruct (_ =i _); [done |]. simpl.
    eapply with_current_advances; [| done]. by intros e.
  - unfold acknowledge. destruct (route_find t k) as [s |] eqn:Hs; [| done].
    destruct (negb _); [done |]. destruct (negb _); [done |]. destruct (negb _); [done |]. simpl.
    eapply with_current_advances; [| done]. by intros e.
  - intros k s Hs. unfold mark_revalidation_required. rewrite route_find_fmap.
    + rewrite Hs. eexists. split; [done |]. right. simpl. unfold revalidate_entry. by destruct (revalidatable _).
    + intros e. apply revalidate_same_position.
Qed.

Lemma run_op_wf t o : routes_wf t -> routes_wf (run_op t o).
Proof. destruct o; [apply install_wf | apply bind_gateway_wf | apply acknowledge_wf | apply mark_revalidation_wf]. Qed.

(** C32: Whatever sequence of operations runs on the table, each slot keeps at most
    one current route, the routes of a slot are in strictly increasing generation
    under a non-decreasing epoch, and a slot's route never goes back: it is later
    replaced only by a strictly newer generation, and while the generation stays
    the same its target, worker boot, assignment and epoch do not change. *)
Theorem routes_never_regress (t : RouteTable) (ops : list RouteOp) :
  routes_wf t -> routes_wf (fold_left run_op ops t) /\ advances t (fold_left run_op ops t).
Proof.
  revert t. induction ops as [| o ops IH]; intros t Hwf; simpl; [done |].
  destruct (IH (run_op t o) (run_op_wf t o Hwf)) as [Hw Ha].
  split; [done |]. trans (run_op t o); [apply run_op_advances | done].
Qed.

Lemma routes_never_regress_witness :
  let e := route_entry_default <| re_slot := mkSlotKey (mkId 1) (mkId 1) |> in
  let ops := [OpInstall e; OpInstall (e <| re_generation := mkGen 2 |>); OpInstall e; OpRevalidate] in
  routes_wf (fold_left run_op ops routes_empty).
Proof. apply (routes_never_regress routes_empty). exact routes_empty_wf. Defined.

Lemma revalidated_current t k e :
  route_current (mark_revalidation_required t) k = Some e ->
  re_state e = RouteState.REVALIDATION_REQUIRED \/ re_state e = RouteState.STALE.
Proof.
  unfold route_current, mark_revalidation_required.
  rewrite route_find_fmap by (intros; apply revalidate_same_position).
  destruct (route_find t k) as [s |]; simpl; [| done].
  destruct (state_in [RouteState.EMPTY] _) eqn:He; [done |]. intros [= <-].
  unfold state_in, revalidate_entry, revalidatable, state_in in *.
  apply bool_decide_eq_false in He. case_bool_decide as Hr; simpl in *; [by left |].
  rewrite !elem_of_cons in *. destruct (re_state (slr_current s)); naive_solver.
Qed.

(** After [mark_revalidation_required] no slot offers a usable route: every
    current route is REVALIDATION_REQUIRED, STALE or EMPTY. *)
Theorem mark_revalidation_total (t : RouteTable) (k : ServiceSlotKey) (e : RouteEntry) :
  route_current (mark_revalidation_required t) k = Some e ->
  re_state e = RouteState.REVALIDATION_REQUIRED \/ re_state e = RouteState.STALE.
Proof. apply revalidated_current. Qed.

Lemma mark_revalidation_total_witness :
  let e := route_entry_default <| re_slot := mkSlotKey (mkId 1) (mkId 1) |> <| re_state := RouteState.ACKNOWLEDGED |> in
  let e' := e <| re_state := RouteState.REVALIDATION_REQUIRED |> in
  re_state e' = RouteState.REVALIDATION_REQUIRED \/ re_state e' = RouteState.STALE.
Proof.
  apply (mark_revalidation_total
    (install (route_entry_default <| re_slot := mkSlotKey (mkId 1) (mkId 1) |> <| re_state := RouteState.ACKNOWLEDGED |>)
       routes_empty).1 (mkSlotKey (mkId 1) (mkId 1))). vm_compute. reflexivity.
Defined.
