(* ===== verification/Requests.v ===== *)
(** In-flight requests (request.hpp, request.cpp): dispositions, ambiguity and the
    classification of late results. *)

From stdpp Require Import base list gmap strings.
From Stdlib Require Import ZArith Lia.
From S2P Require Import Prelude Identities Types Double Model.

Open Scope Z_scope.

(** [RequestTracker::LateOutcome]. *)
Module LateOutcome.
Inductive LateOutcome : Type := ACCEPTED | REJECTED_STALE | CLASSIFIED_AMBIGUOUS.
#[export] Instance LateOutcome_eq_dec : EqDecision LateOutcome.
Proof. solve_decision. Defined.
End LateOutcome.
Notation LateOutcome := LateOutcome.LateOutcome.
Export (hints) LateOutcome.

(** [RequestTracker::Entry]. *)
Record RequestEntry : Type := mkReqEntry { rqe_rec : RequestRecord; rqe_committed : bool }.
#[export] Instance RequestEntry_eta : Eta RequestEntry := fun s => mkReqEntry (rqe_rec s) (rqe_committed s).

(** [class RequestTracker]. *)
Record RequestTracker : Type := mkTracker
  { trk_records : list RequestEntry; trk_ambiguous : Z; trk_rejected_late : Z }.
#[export] Instance RequestTracker_eta : Eta RequestTracker :=
  fun s => mkTracker (trk_records s) (trk_ambiguous s) (trk_rejected_late s).

Definition tracker_empty : RequestTracker := mkTracker [] 0 0.

Definition for_request (id : RequestId) (e : RequestEntry) : bool := rq_request (rqe_rec e) =i id.

Definition request_find_entry (t : RequestTracker) (id : RequestId) : option RequestEntry :=
  find_first (for_request id) (trk_records t).

Definition record (r : RequestRecord) (t : RequestTracker) : RequestTracker :=
  match update_first (for_request (rq_request r)) (fun e => e <| rqe_rec := r |>) (trk_records t) with
  | Some l => t <| trk_records := l |>
  | None => t <| trk_records := trk_records t ++ [mkReqEntry r false] |>
  end.

Definition request_find (t : RequestTracker) (id : RequestId) : option RequestRecord :=
  rqe_rec <$> request_find_entry t id.

Definition disposition_is (d : RequestDisposition) (r : RequestRecord) : bool :=
  bool_decide (rq_disposition r = d).

Definition bump_ambiguous (t : RequestTracker) : RequestTracker :=
  t <| trk_ambiguous := trk_ambiguous t + 1 |>.

Definition set_outcome_unknown (id : RequestId) (t : RequestTracker) : RequestTracker :=
  match request_find_entry t id with
  | None => bump_ambiguous t
  | Some e =>
    if disposition_is RequestDisposition.OUTCOME_UNKNOWN (rqe_rec e) then t
    else match update_first (for_request id)
                 (fun e => e <| rqe_rec := rqe_rec e <| rq_disposition := RequestDisposition.OUTCOME_UNKNOWN |> |>)
                 (trk_records t) with
         | Some l => bump_ambiguous (t <| trk_records := l |>)
         | None => bump_ambiguous t
         end
  end.

(** [classify_late_result]: the authorization of the result is not consulted. *)
Definition tracker_classify (id : RequestId) (result_auth : WorkerAuthorization) (t : RequestTracker)
    : RequestTracker * LateOutcome :=
  match request_find_entry t id with
  | None => (bump_ambiguous t, LateOutcome.CLASSIFIED_AMBIGUOUS)
  | Some e =>
    let r := rqe_rec e in
    match rq_dispatched_auth r with
    | None => (bump_ambiguous t, LateOutcome.CLASSIFIED_AMBIGUOUS)
    | Some _ =>
      if disposition_is RequestDisposition.RESPONSE_COMMITTED r
      then (t <| trk_rejected_late := trk_rejected_late t + 1 |>, LateOutcome.REJECTED_STALE)
      else (bump_ambiguous t, LateOutcome.CLASSIFIED_AMBIGUOUS)
    end
  end.

(** [FailoverFabric::retry_allowed] on a record. *)
Definition record_retry_allowed (r : RequestRecord) : bool :=
  match rq_authority r with
  | IdempotencyAuthority.SAFE_TO_RETRY | IdempotencyAuthority.DETERMINISTIC_REFERENCE => true
  | IdempotencyAuthority.NONE => if rq_externally_effectful r then false else rq_idempotent r
  end.

(** * Invariant: one record per request. *)

Definition tracker_wf (t : RequestTracker) : Prop :=
  NoDup ((fun e => rq_request (rqe_rec e)) <$> trk_records t).

Lemma for_request_true id e : for_request id e = true <-> rq_request (rqe_rec e) = id.
Proof. apply id_eqb_eq. Qed.

Lemma record_wf r t : tracker_wf t -> tracker_wf (record r t).
Proof.
  unfold tracker_wf, record. intros Hd. destruct (update_first _ _ _) as [l |] eqn:Hu; simpl.
  - erewrite update_first_fmap; [exact Hd | | exact Hu]. by intros y ->%for_request_true.
  - apply update_first_None in Hu. rewrite find_first_None in Hu.
    rewrite fmap_app. apply NoDup_app. split; [done |]. split; [| apply NoDup_singleton].
    simpl. intros x Hx ->%list_elem_of_singleton. apply list_elem_of_fmap in Hx as (e & He & Hin).
    specialize (Hu e Hin). apply id_eqb_neq in Hu. done.
Qed.

Lemma set_outcome_unknown_wf id t : tracker_wf t -> tracker_wf (set_outcome_unknown id t).
Proof.
  unfold tracker_wf, set_outcome_unknown. intros Hd. destruct (request_find_entry t id); [| done].
  destruct (disposition_is _ _); [done |]. destruct (update_first _ _ _) as [l |] eqn:Hu; [| done]. simpl.
  erewrite update_first_fmap; [exact Hd | | exact Hu]. done.
Qed.

(** * Lookup after each operation *)

Lemma request_find_record r t id :
  request_find (record r t) id = if decide (rq_request r = id) then Some r else request_find t id.
Proof.
  unfold request_find, request_find_entry, record.
  destruct (update_first _ _ _) as [l |] eqn:Hu; simpl; case_decide as Hid.
  - subst id. destruct (find_first (for_request (rq_request r)) (trk_records t)) as [e |] eqn:Hf.
    + erewrite find_first_update; [| | exact Hu | exact Hf]; [done |]. intros y _. by apply for_request_true.
    + apply (update_first_None _ (fun e => e <| rqe_rec := r |>)) in Hf. congruence.
  - erewrite find_first_update_other; [done | | exact Hu]. intros y Hy%for_request_true.
    unfold for_request. rewrite !id_eqb_neq. simpl. naive_solver.
  - subst id. apply update_first_None in Hu. rewrite find_first_app, Hu. simpl.
    assert (for_request (rq_request r) (mkReqEntry r false) = true) as -> by (by apply for_request_true). done.
  - rewrite find_first_app. simpl.
    assert (for_request id (mkReqEntry r false) = false) as -> by (by apply id_eqb_neq).
    destruct (find_first (for_request id) (trk_records t)); done.
Qed.

Lemma request_find_unknown id t id' :
  request_find (set_outcome_unknown id t) id' =
    if decide (id = id')
    then (fun r => r <| rq_disposition := RequestDisposition.OUTCOME_UNKNOWN |>) <$> request_find t id'
    else request_find t id'.
Proof.
  unfold set_outcome_unknown, request_find.
  destruct (request_find_entry t id) as [e |] eqn:He.
  - destruct (disposition_is _ _) eqn:Hd.
    + case_decide as Hid; [| done]. subst id'. rewrite He. simpl. f_equal.
      unfold disposition_is in Hd. apply bool_decide_eq_true in Hd.
      destruct e as [[] ?]; simpl in *. by subst.
    + unfold request_find_entry in *.
      destruct (update_first _ _ _) as [l |] eqn:Hu; [| apply update_first_None in Hu; congruence]. simpl.
      case_decide as Hid.
      * subst id'. erewrite find_first_update; [| | exact Hu | exact He]; [by rewrite He |]. done.
      * erewrite find_first_update_other; [done | | exact Hu]. intros y Hy%for_request_true.
        unfold for_request. rewrite !id_eqb_neq. simpl. split; congruence.
  - unfold request_find_entry in *. simpl. case_decide as Hid; [| done]. subst id'. by rewrite He.
Qed.

(** * Theorems *)

(** Recording a request makes it the one record of its identity and leaves the
    others alone; marking a request's outcome unknown changes the disposition of
    that request only, to OUTCOME_UNKNOWN, never to a success; both keep one
    record per request. *)
Theorem tracker_lookup_spec (t : RequestTracker) (r : RequestRecord) (id id' : RequestId) :
  tracker_wf t ->
  tracker_wf (record r t) /\ tracker_wf (set_outcome_unknown id t) /\
  request_find (record r t) id' = (if decide (rq_request r = id') then Some r else request_find t id') /\
  request_find (set_outcome_unknown id t) id' =
    (if decide (id = id')
     then (fun q => q <| rq_disposition := RequestDisposition.OUTCOME_UNKNOWN |>) <$> request_find t id'
     else request_find t id').
Proof.
  intros Hwf. split; [by apply record_wf |]. split; [by apply set_outcome_unknown_wf |].
  split; [apply request_find_record | apply request_find_unknown].
Qed.

Lemma tracker_lookup_spec_witness :
  let r := request_default <| rq_request := mkId 4 |> in
  tracker_wf (record r tracker_empty) /\
  request_find (record r tracker_empty) (mkId 4) = Some r.
Proof.
  intros r. destruct (tracker_lookup_spec tracker_empty r (mkId 4) (mkId 4)) as (H1 & _ & H3 & _).
  { apply NoDup_nil_2. }
  split; [exact H1 | exact H3].
Defined.

(** A late result is never accepted: [classify_late_result] answers
    REJECTED_STALE exactly when the request was dispatched and its response is
    already committed, and CLASSIFIED_AMBIGUOUS otherwise; it counts the late
    result in exactly one counter and changes no record. *)
Theorem late_result_never_accepted (t : RequestTracker) (id : RequestId) (auth : WorkerAuthorization) :
  let '(t', o) := tracker_classify id auth t in
  o <> LateOutcome.ACCEPTED /\
  (o = LateOutcome.REJECTED_STALE <->
     exists r, request_find t id = Some r /\ rq_dispatched_auth r <> None /\
       rq_disposition r = RequestDisposition.RESPONSE_COMMITTED) /\
  trk_records t' = trk_records t /\
  trk_ambiguous t' + trk_rejected_late t' = trk_ambiguous t + trk_rejected_late t + 1 /\
  trk_ambiguous t <= trk_ambiguous t' /\ trk_rejected_late t <= trk_rejected_late t'.
Proof.
  unfold tracker_classify, request_find, disposition_is.
  destruct (request_find_entry t id) as [e |]; simpl; [| naive_solver lia].
  destruct (rq_dispatched_auth (rqe_rec e)) as [a |] eqn:Ha; simpl.
  - case_bool_decide as Hd; simpl.
    + repeat split; try done; try lia. intros _. exists (rqe_rec e). by rewrite Ha.
    + repeat split; try done; try lia. by intros (r & [= <-] & _ & ?).
  - repeat split; try done; try lia. intros (r & [= <-] & Hn & _). congruence.
Qed.

(** Automatic replay is allowed exactly for requests whose authority says so,
    or that are idempotent without external effects. *)
Theorem retry_allowed_spec (r : RequestRecord) :
  record_retry_allowed r = true <->
  rq_authority r <> IdempotencyAuthority.NONE \/
  (rq_externally_effectful r = false /\ rq_idempotent r = true).
Proof.
  unfold record_retry_allowed.
  destruct (rq_authority r), (rq_externally_effectful r), (rq_idempotent r); naive_solver.
Qed.
