(* ===== verification/Recovery.v ===== *)
(** Recovery objectives and continuity (recovery.hpp, recovery.cpp) and the
    plan's milestones (plan.hpp, plan.cpp). *)

From stdpp Require Import base list gmap strings.
From Stdlib Require Import ZArith Lia.
From S2P Require Import Prelude Identities Types Double Model.

Open Scope Z_scope.

Definition preservation_level (c : ContinuityClass) : Z :=
  match c with
  | ContinuityClass.STATELESS_RESTART => 0
  | ContinuityClass.REPLAY_SAFE_REQUESTS => 1
  | ContinuityClass.SESSION_STATE_REBIND => 2
  | ContinuityClass.CHECKPOINT_RESTORE => 3
  | ContinuityClass.SESSION_RESTART_REQUIRED => 1
  | ContinuityClass.MANUAL_RECOVERY_REQUIRED => -1
  | ContinuityClass.UNKNOWN => -2
  end.

Definition continuity_compatible (required candidate : ContinuityClass) : bool :=
  if bool_decide (required = ContinuityClass.UNKNOWN) then true
  else if bool_decide (candidate = ContinuityClass.UNKNOWN) then false
  else if bool_decide (candidate = ContinuityClass.MANUAL_RECOVERY_REQUIRED) then false
  else if bool_decide (required = ContinuityClass.MANUAL_RECOVERY_REQUIRED) then true
  else Z.leb (preservation_level required) (preservation_level candidate).

Definition evaluate (obj : RecoveryObjective) (est : RecoveryEstimate) (elapsed_ms state_loss : Z)
    (verified : bool) : RecoveryEvaluation :=
  let note0 := if rest_all_stages_measured est then ""%string else "(estimated); "%string in
  let rto_met := Z.eqb (ro_rto_ms obj) 0 || Z.leb elapsed_ms (ro_rto_ms obj) in
  let rpo_met0 := Z.leb state_loss (ro_max_state_loss_sequences obj) in
  let rpo_met := match ro_min_checkpoint_gen obj with Some _ => rpo_met0 && true | None => rpo_met0 end in
  let satisfied := rto_met && rpo_met && (verified || negb (ro_requires_verified_recovery obj)) in
  let note1 :=
    if satisfied then note0
    else ((note0 +:+ (if rto_met then "" else "RTO not met; ")) +:+ (if rpo_met then "" else "RPO not met; "))
         +:+ (if negb verified && ro_requires_verified_recovery obj then "recovery not verified; " else "") in
  mkEvaluation satisfied rto_met rpo_met verified elapsed_ms state_loss note1.

(** * plan.cpp *)

Definition plan_reached (p : FailoverPlan) (m : Milestone) : bool := bool_decide (m ∈ pl_reached_milestones p).

Definition record_milestone (m : Milestone) (p : FailoverPlan) : FailoverPlan :=
  if plan_reached p m then p else p <| pl_reached_milestones := pl_reached_milestones p ++ [m] |>.

Definition plan_is_valid (p : FailoverPlan) : bool :=
  if id_is_null (pl_plan p) then false
  else if id_is_null (sk_service (pl_slot p)) || id_is_null (sk_slot (pl_slot p)) then false
  else match pl_selected p with
       | None => false
       | Some _ => negb (plan_reached p Milestone.VERIFICATION_COMPLETE)
       end.

(** [a < b] on milestones, as the enum's underlying integers. *)
Definition milestone_ltb (a b : Milestone) : bool := Z.ltb (enum_index a) (enum_index b).

(** * Theorems *)

(** A recovery satisfies its contract exactly when the deadline holds (or none
    is set), the state loss is within the permitted loss, and the recovery is
    verified unless the contract waives verification: an unverified recovery is
    never reported as satisfying a contract that requires verification, and a
    satisfied evaluation carries no failure note. *)
Theorem evaluate_satisfied_iff (obj : RecoveryObjective) (est : RecoveryEstimate)
    (elapsed_ms state_loss : Z) (verified : bool) :
  let e := evaluate obj est elapsed_ms state_loss verified in
  (rev_satisfied e = true <->
     (ro_rto_ms obj = 0 \/ elapsed_ms <= ro_rto_ms obj) /\
     state_loss <= ro_max_state_loss_sequences obj /\
     (ro_requires_verified_recovery obj = true -> verified = true)) /\
  (rev_satisfied e = true ->
     rev_note e = if rest_all_stages_measured est then ""%string else "(estimated); "%string).
Proof.
  simpl. assert (match ro_min_checkpoint_gen obj with
                 | Some _ => Z.leb state_loss (ro_max_state_loss_sequences obj) && true
                 | None => Z.leb state_loss (ro_max_state_loss_sequences obj)
                 end = Z.leb state_loss (ro_max_state_loss_sequences obj)) as ->.
  { destruct (ro_min_checkpoint_gen obj); [apply andb_true_r | done]. }
  split.
  - rewrite !andb_true_iff, !orb_true_iff, Z.eqb_eq, !Z.leb_le.
    destruct verified, (ro_requires_verified_recovery obj); naive_solver.
  - by intros ->.
Qed.

Lemma evaluate_satisfied_iff_witness :
  rev_note (evaluate recovery_objective_default (mkEstimate [] 0 true) 5 0 true) = ""%string.
Proof. apply (evaluate_satisfied_iff recovery_objective_default (mkEstimate [] 0 true) 5 0 true). reflexivity. Defined.

(** Continuity compatibility never downgrades: a candidate accepted for a
    stated requirement preserves at least as much state as the requirement, a
    candidate of unknown or manual continuity is accepted only when nothing is
    required, and acceptance is transitive through known requirements. *)
Theorem continuity_never_downgrades (required c c' : ContinuityClass) :
  (continuity_compatible required c = true -> required <> ContinuityClass.UNKNOWN ->
     preservation_level required <= preservation_level c /\
     c <> ContinuityClass.UNKNOWN /\ c <> ContinuityClass.MANUAL_RECOVERY_REQUIRED) /\
  (continuity_compatible required c = true -> continuity_compatible c c' = true ->
     c <> ContinuityClass.UNKNOWN -> continuity_compatible required c' = true).
Proof. destruct required, c, c'; vm_compute; naive_solver. Qed.

Lemma continuity_never_downgrades_witness :
  continuity_compatible ContinuityClass.REPLAY_SAFE_REQUESTS ContinuityClass.CHECKPOINT_RESTORE = true /\
  preservation_level ContinuityClass.REPLAY_SAFE_REQUESTS <= preservation_level ContinuityClass.CHECKPOINT_RESTORE.
Proof.
  split; [reflexivity |].
  apply (continuity_never_downgrades ContinuityClass.REPLAY_SAFE_REQUESTS ContinuityClass.CHECKPOINT_RESTORE
           ContinuityClass.UNKNOWN); [reflexivity | discriminate].
Defined.
