(* ===== verification/StableSort.v ===== *)
(** [std::stable_sort] with a comparison that is a strict weak order: an executable
    stable insertion sort and the facts that determine its result. *)

From stdpp Require Import base list sorting.
From Stdlib Require Import ZArith Lia Sorting.Sorted.
From S2P Require Import Prelude.

(** What [std::stable_sort] requires of its comparison. *)
Class StrictWeakOrder {A} (lt : A -> A -> bool) : Prop :=
  { swo_irrefl : forall x, lt x x = false;
    swo_trans : forall x y z, lt x y = true -> lt y z = true -> lt x z = true;
    swo_incomp : forall x y z, lt x y = false -> lt y z = false -> lt x z = false }.

Section sort.
Context {A : Type} (lt : A -> A -> bool).

Fixpoint stable_insert (x : A) (l : list A) : list A :=
  match l with
  | [] => [x]
  | y :: l' => if lt y x then y :: stable_insert x l' else x :: l
  end.

Fixpoint stable_sort (l : list A) : list A :=
  match l with
  | [] => []
  | x :: l' => stable_insert x (stable_sort l')
  end.

Lemma stable_insert_perm x l : Permutation (stable_insert x l) (x :: l).
Proof.
  induction l as [| y l IH]; simpl; [done |]. destruct (lt y x); [| done].
  rewrite IH. by constructor.
Qed.

Lemma stable_sort_perm l : Permutation (stable_sort l) l.
Proof. induction l as [| x l IH]; simpl; [done |]. by rewrite stable_insert_perm, IH. Qed.

Lemma elem_of_stable_sort x l : x ∈ stable_sort l <-> x ∈ l.
Proof. by rewrite stable_sort_perm. Qed.

Context {Hswo : StrictWeakOrder lt}.

(** [y] may come after [x]. *)
Definition not_before (x y : A) : Prop := lt y x = false.

Lemma swo_asym x y : lt x y = true -> lt y x = false.
Proof.
  intros Hxy. destruct (lt y x) eqn:Hyx; [| done].
  pose proof (swo_trans _ _ _ Hxy Hyx) as H. by rewrite swo_irrefl in H.
Qed.

Lemma stable_insert_sorted x l :
  StronglySorted not_before l -> StronglySorted not_before (stable_insert x l).
Proof.
  induction 1 as [| y l Hs IH Hf]; simpl; [repeat constructor |].
  destruct (lt y x) eqn:Hyx.
  - constructor; [done |]. apply Forall_forall. intros z Hz.
    rewrite stable_insert_perm, elem_of_cons in Hz. destruct Hz as [-> | Hz].
    + by apply swo_asym.
    + rewrite Forall_forall in Hf. by apply Hf.
  - constructor; [by constructor |]. constructor; [done |].
    apply Forall_forall. intros z Hz. rewrite Forall_forall in Hf. specialize (Hf z Hz).
    unfold not_before in *. by eapply swo_incomp.
Qed.

Lemma stable_sort_sorted l : StronglySorted not_before (stable_sort l).
Proof. induction l as [| x l IH]; simpl; [constructor |]. by apply stable_insert_sorted. Qed.

(** The first element of the sorted vector is beaten by nobody. *)
Lemma stable_sort_head l x l' y : stable_sort l = x :: l' -> y ∈ l -> lt y x = false.
Proof.
  intros Hs Hy. pose proof (stable_sort_sorted l) as Hsort. rewrite Hs in Hsort.
  apply elem_of_stable_sort in Hy. rewrite Hs in Hy.
  inversion Hsort as [| ? ? _ Hf]; subst. apply elem_of_cons in Hy as [-> | Hy]; [apply swo_irrefl |].
  rewrite Forall_forall in Hf. by apply Hf.
Qed.

(** Elements the comparison does not separate keep their relative order. *)
Definition tied (x y : A) : bool := negb (lt x y) && negb (lt y x).

Lemma stable_insert_filter x y l :
  StronglySorted not_before l ->
  List.filter (tied x) (stable_insert y l) = List.filter (tied x) (y :: l).
Proof.
  induction 1 as [| z l Hs IH Hf]; simpl; [done |].
  destruct (lt z y) eqn:Hzy; [| done]. simpl. rewrite IH. simpl.
  destruct (tied x z) eqn:Hxz, (tied x y) eqn:Hxy; try done. exfalso.
  unfold tied in *. rewrite andb_true_iff, !negb_true_iff in Hxz, Hxy.
  destruct Hxz as [Hxz Hzx], Hxy as [Hxy Hyx].
  assert (lt z y = false) by (by eapply swo_incomp). congruence.
Qed.

Lemma stable_sort_stable x l : List.filter (tied x) (stable_sort l) = List.filter (tied x) l.
Proof.
  induction l as [| y l IH]; simpl; [done |].
  rewrite stable_insert_filter by apply stable_sort_sorted. simpl. by rewrite IH.
Qed.

(** Two sorted permutations agree when the comparison separates the elements. *)
Lemma sorted_perm_eq l1 l2 :
  StronglySorted not_before l1 -> StronglySorted not_before l2 -> Permutation l1 l2 ->
  (forall x y, x ∈ l1 -> y ∈ l1 -> lt x y = false -> lt y x = false -> x = y) -> l1 = l2.
Proof.
  intros Hs1. revert l2. induction Hs1 as [| x l1 Hs1 IH Hf1]; intros l2 Hs2 Hp Hsep.
  { by apply Permutation_nil_l in Hp as ->. }
  destruct l2 as [| y l2]; [by apply Permutation_nil_r in Hp |].
  inversion Hs2 as [| ? ? Hs2' Hf2]; subst. rewrite !Forall_forall in *.
  assert (x = y) as ->.
  { assert (y ∈ x :: l1) as Hy by (rewrite Hp; apply list_elem_of_here).
    assert (x ∈ y :: l2) as Hx by (rewrite <- Hp; apply list_elem_of_here).
    apply Hsep; [apply list_elem_of_here | done | |].
    - apply elem_of_cons in Hx as [-> | Hx]; [apply swo_irrefl | by apply Hf2].
    - apply elem_of_cons in Hy as [-> | Hy]; [apply swo_irrefl | by apply Hf1]. }
  f_equal. apply IH; [done | by eapply Permutation_cons_inv |].
  intros a b Ha Hb. apply Hsep; by apply list_elem_of_further.
Qed.

Lemma stable_sort_perm_eq l1 l2 :
  Permutation l1 l2 ->
  (forall x y, x ∈ l1 -> y ∈ l1 -> lt x y = false -> lt y x = false -> x = y) ->
  stable_sort l1 = stable_sort l2.
Proof.
  intros Hp Hsep. apply sorted_perm_eq; [apply stable_sort_sorted | apply stable_sort_sorted | |].
  - by rewrite !stable_sort_perm.
  - intros x y Hx Hy. rewrite stable_sort_perm in Hx, Hy. by apply Hsep.
Qed.
End sort.

(** A comparison by an integer key vector, lexicographically. *)
Definition lex4 (a b : Z * Z * Z * Z) : bool :=
  let '(a1, a2, a3, a4) := a in let '(b1, b2, b3, b4) := b in
  if negb (Z.eqb a1 b1) then Z.ltb a1 b1
  else if negb (Z.eqb a2 b2) then Z.ltb a2 b2
  else if negb (Z.eqb a3 b3) then Z.ltb a3 b3
  else Z.ltb a4 b4.

Lemma lex4_true a1 a2 a3 a4 b1 b2 b3 b4 :
  lex4 (a1, a2, a3, a4) (b1, b2, b3, b4) = true <->
  (a1 < b1 \/ a1 = b1 /\ (a2 < b2 \/ a2 = b2 /\ (a3 < b3 \/ a3 = b3 /\ a4 < b4)))%Z.
Proof.
  unfold lex4. destruct (Z.eqb_spec a1 b1), (Z.eqb_spec a2 b2), (Z.eqb_spec a3 b3); simpl; rewrite Z.ltb_lt; lia.
Qed.

Lemma lex4_false a b : lex4 a b = false <-> ~ (lex4 a b = true).
Proof. by destruct (lex4 a b). Qed.

Lemma key_order_swo {A} (key : A -> Z * Z * Z * Z) (lt : A -> A -> bool) :
  (forall x y, lt x y = lex4 (key x) (key y)) -> StrictWeakOrder lt.
Proof.
  intros H. split.
  - intros x. rewrite H. destruct (key x) as [[[x1 x2] x3] x4]. rewrite lex4_false, lex4_true. lia.
  - intros x y z. rewrite !H. destruct (key x) as [[[x1 x2] x3] x4], (key y) as [[[y1 y2] y3] y4],
      (key z) as [[[z1 z2] z3] z4]. rewrite !lex4_true. lia.
  - intros x y z. rewrite !H. destruct (key x) as [[[x1 x2] x3] x4], (key y) as [[[y1 y2] y3] y4],
      (key z) as [[[z1 z2] z3] z4]. rewrite !lex4_false, !lex4_true. lia.
Qed.
