(* ===== verification/Selection.v ===== *)
(** Hard eligibility and deterministic replacement selection (selection.hpp,
    selection.cpp).

    [hard_eligible] runs its guards in the order of the code and records the first
    that fails on the candidate; [rank] is the weighted score in binary64; [select]
    annotates a copy of the snapshot, sorts the eligible candidates with
    [std::stable_sort] and takes the first. *)

From stdpp Require Import base list gmap strings sorting.
From Stdlib Require Import ZArith Lia SpecFloat.
From S2P Require Import Prelude Identities Types Double Model Domains Recovery StableSort.

Open Scope Z_scope.

(** [struct SelectionContext]. *)
Record SelectionContext : Type := mkContext
  { ctx_failed_target : TargetId;
    ctx_confirmed_failed_targets : list TargetId;
    ctx_fenced_boots : list WorkerBootId;
    ctx_failed_domains : list FailureDomainId;
    ctx_current_route_gen : option RouteGeneration;
    ctx_preferred_target : option TargetId;
    ctx_requires_fresh_readiness : bool;
    ctx_now_receipt_seq : Z }.
#[export] Instance SelectionContext_eta : Eta SelectionContext := fun s => mkContext
  (ctx_failed_target s) (ctx_confirmed_failed_targets s) (ctx_fenced_boots s)
  (ctx_failed_domains s) (ctx_current_route_gen s) (ctx_preferred_target s)
  (ctx_requires_fresh_readiness s) (ctx_now_receipt_seq s).

Definition context_default : SelectionContext := mkContext id_null [] [] [] None None true 0.

(** [struct RankingFactor]. *)
Record RankingFactor : Type := mkFactor
  { rf_name : string; rf_weight : spec_float; rf_normalized_value : spec_float; rf_note : string }.

(** [struct SelectionResult]. *)
Record SelectionResult : Type := mkSelection
  { sel_has_selection : bool;
    sel_selected : option Candidate;
    sel_evaluated_alternatives : list Candidate;
    sel_exclusions : list (TargetId * (ExclusionReason * string));
    sel_factors : list RankingFactor;
    sel_cost_components : list string;
    sel_provenance : Provenance;
    sel_uncertainty : spec_float;
    sel_policy_gen : PolicyGeneration;
    sel_snapshot_gen : CandidateSnapshotGeneration }.
#[export] Instance SelectionResult_eta : Eta SelectionResult := fun s => mkSelection
  (sel_has_selection s) (sel_selected s) (sel_evaluated_alternatives s) (sel_exclusions s)
  (sel_factors s) (sel_cost_components s) (sel_provenance s) (sel_uncertainty s)
  (sel_policy_gen s) (sel_snapshot_gen s).

(** * Hard eligibility *)

Notation exclusion := (option (ExclusionReason * string)).

(** An early [return false] with its reason, or the next guard. *)
Definition reject_if (b : bool) (r : ExclusionReason) (d : string) (next : exclusion) : exclusion :=
  if b then Some (r, d) else next.
Notation "'guard' b 'rejects' r 'with' d ';;' k" := (reject_if b r d k)
  (at level 200, b at level 99, r at level 99, d at level 99, k at level 200).

(** Guards 1 to 3: identity, failure evidence, fence. *)
Definition identity_guards (c : Candidate) (ctx : SelectionContext) (next : exclusion) : exclusion :=
  guard negb (cf_target (cand_facts c) =i id_null) && (cf_target (cand_facts c) =i ctx_failed_target ctx)
    rejects ExclusionReason.FAILED_DOMAIN with "candidate is the failed target" ;;
  guard mem id_eqb (cf_target (cand_facts c)) (ctx_confirmed_failed_targets ctx)
    rejects ExclusionReason.FAILED_DOMAIN with "target has confirmed failure evidence" ;;
  guard mem id_eqb (cf_worker_boot (cand_facts c)) (ctx_fenced_boots ctx)
    rejects ExclusionReason.FENCED_BOOT with "worker boot is fenced" ;;
  next.

(** Guards 4 and 5: readiness and compatibility. *)
Definition readiness_guards (c : Candidate) (svc : ServiceDefinition) (ctx : SelectionContext)
    (next : exclusion) : exclusion :=
  let f := cand_facts c in let req := svc_compatibility svc in
  guard ctx_requires_fresh_readiness ctx && negb (cf_evidence_fresh f)
    rejects ExclusionReason.STALE_READINESS with "readiness evidence is stale" ;;
  guard ctx_requires_fresh_readiness ctx && negb (cf_ready f)
    rejects ExclusionReason.UNREADY_ENGINE with "engine is not ready" ;;
  guard negb (String.eqb (cr_model_key req) "") && negb (String.eqb (cf_model_key f) (cr_model_key req))
    rejects ExclusionReason.INCOMPATIBLE_PROFILE with "model_key mismatch" ;;
  guard negb (String.eqb (cr_runtime_abi req) "") && negb (String.eqb (cf_runtime_abi f) (cr_runtime_abi req))
    rejects ExclusionReason.INCOMPATIBLE_PROFILE with "runtime_abi mismatch" ;;
  guard match cr_readiness_profile req with Some p => negb (cf_profile f =i p) | None => false end
    rejects ExclusionReason.INCOMPATIBLE_PROFILE with "readiness_profile mismatch" ;;
  next.

(** Guard 6: continuity and state. *)
Definition stateful (required : ContinuityClass) : bool :=
  match required with
  | ContinuityClass.CHECKPOINT_RESTORE | ContinuityClass.SESSION_STATE_REBIND => true
  | _ => false
  end.

Definition state_guards (c : Candidate) (svc : ServiceDefinition) (next : exclusion) : exclusion :=
  let st := cand_state c in
  if stateful (ro_continuity (svc_recovery svc)) then
    guard negb (cs_state_available st) || negb (cs_correct_session st) || negb (cs_correct_tenant st) ||
          negb (cs_correct_model_generation st) || negb (cs_state_format_ok st) ||
          negb (cs_status_integrity_ok st)
      rejects ExclusionReason.STATE_UNAVAILABLE with "required state is not available or incompatible" ;;
    guard match ro_min_checkpoint_gen (svc_recovery svc), cs_checkpoint_generation st with
          | Some m, Some g => gen_ltb g m
          | _, _ => false
          end
      rejects ExclusionReason.STATE_TOO_OLD with "checkpoint is older than the permitted recovery point" ;;
    guard match cand_continuity c with
          | None | Some ContinuityClass.UNKNOWN => true
          | Some _ => false
          end
      rejects ExclusionReason.UNSUPPORTED_CONTINUITY with "candidate continuity class is unknown" ;;
    next
  else next.

(** Guard 7: for each requirement the candidate's first resource of that class. *)
Definition resource_for (c : Candidate) (req : ResourceRequirement) : option CandidateResource :=
  find_first (fun cr => String.eqb (cre_resource_class cr) (rr_resource_class req)) (cand_resources c).

Fixpoint resource_guards (c : Candidate) (reqs : list ResourceRequirement) (next : exclusion) : exclusion :=
  match reqs with
  | [] => next
  | req :: reqs' =>
    match resource_for c req with
    | Some cr =>
      guard cre_resources_revoked cr
        rejects ExclusionReason.RESOURCES_REVOKED with "resource claim revoked" ;;
      guard cre_has_conflicting_commitment cr
        rejects ExclusionReason.COMMITMENT_CONFLICT
        with ("conflicting exclusive commitment on " +:+ rr_resource_class req) ;;
      guard double_ltb (cre_amount cr) (rr_amount req)
        rejects ExclusionReason.INSUFFICIENT_CAPACITY
        with ("insufficient capacity on " +:+ rr_resource_class req) ;;
      resource_guards c reqs' next
    | None => Some (ExclusionReason.INSUFFICIENT_CAPACITY, "no capacity on " +:+ rr_resource_class req)
    end
  end.

(** Guard 8: failure-domain independence. *)
Fixpoint failed_domain_guards (dom : DomainRegistry) (t : TargetId) (fds : list FailureDomainId)
    (next : exclusion) : exclusion :=
  match fds with
  | [] => next
  | fd :: fds' =>
    match in_domain dom t fd with
    | Some true => Some (ExclusionReason.FAILED_DOMAIN, "candidate is inside a failed domain")
    | None => Some (ExclusionReason.DOMAIN_INDEPENDENCE_UNKNOWN,
                    "candidate domain membership is unknown in failed domain")
    | Some false => failed_domain_guards dom t fds' next
    end
  end.

Definition domain_guards (c : Candidate) (svc : ServiceDefinition) (dom : DomainRegistry)
    (ctx : SelectionContext) (next : exclusion) : exclusion :=
  if dr_require_domain_independence (svc_domain_requirement svc) then
    match overlaps dom (cf_target (cand_facts c)) (ctx_failed_target ctx) with
    | None => Some (ExclusionReason.DOMAIN_INDEPENDENCE_UNKNOWN,
                    "domain independence cannot be established (unknown membership)")
    | Some true => Some (ExclusionReason.FAILED_DOMAIN,
                         "candidate shares a failure domain with the failed target")
    | Some false => failed_domain_guards dom (cf_target (cand_facts c)) (ctx_failed_domains ctx) next
    end
  else next.

(** The first guard a candidate fails, in the order of the code. *)
Definition excluded_by (c : Candidate) (svc : ServiceDefinition) (dom : DomainRegistry)
    (ctx : SelectionContext) : exclusion :=
  identity_guards c ctx
    (readiness_guards c svc ctx
      (state_guards c svc
        (resource_guards c (svc_resources svc)
          (domain_guards c svc dom ctx None)))).

(** [SelectionEngine::hard_eligible]: the annotated candidate and the answer.  A
    rejected candidate keeps its [hard_eligible] flag, an accepted one its
    [failed_detail]. *)
Definition hard_eligible (c : Candidate) (svc : ServiceDefinition) (dom : DomainRegistry)
    (ctx : SelectionContext) : Candidate * bool :=
  match excluded_by c svc dom ctx with
  | Some (r, d) => (c <| cand_failed_reason := Some r |> <| cand_failed_detail := d |>, false)
  | None => (c <| cand_hard_eligible := true |> <| cand_failed_reason := None |>, true)
  end.

(** * Ranking *)

Definition kDomainIndependenceWeight := f64_lit 25 100.
Definition kPreparationWeight := f64_lit 12 100.
Definition kContinuityWeight := f64_lit 20 100.
Definition kStateFreshnessWeight := f64_lit 10 100.
Definition kCapacityWeight := f64_lit 8 100.
Definition kResourceOverlapWeight := f64_lit 6 100.
Definition kPrepCostWeight := f64_lit 7 100.
Definition kPolicyPreferenceWeight := f64_lit 3 100.

Definition f64_0 := f64_of_Z 0.
Definition f64_1 := f64_of_Z 1.

(** [x > 0 ? 1.0 - std::min(1.0, x / scale) : 1.0]. *)
Definition inverse_cost (x scale : Z) : spec_float :=
  let t := f64_of_Z x in
  if f64_ltb f64_0 t then f64_sub f64_1 (f64_min f64_1 (f64_div t (f64_of_Z scale))) else f64_1.

Definition resource_overlap_credit (c : Candidate) : spec_float :=
  match cand_resources c with [] => f64_lit 5 10 | _ => f64_1 end.

(** The headroom of one requirement: [min(1, (amount - need) / max(1, need))]. *)
Definition headroom (cr : CandidateResource) (req : ResourceRequirement) : spec_float :=
  let amount := f64_of_bits (cre_amount cr) in
  let need := f64_of_bits (rr_amount req) in
  let avail := if f64_ltb need amount then f64_div (f64_sub amount need) (f64_max f64_1 need) else f64_0 in
  f64_min f64_1 avail.

(** The capacity loop: the accumulated headroom and [have_cap]. *)
Definition capacity_step (c : Candidate) (acc : spec_float * bool) (req : ResourceRequirement)
    : spec_float * bool :=
  match resource_for c req with
  | Some cr => (f64_add acc.1 (headroom cr req), true)
  | None => acc
  end.

Definition capacity (c : Candidate) (svc : ServiceDefinition) : spec_float :=
  let '(cap, have_cap) := foldl (capacity_step c) (f64_0, false) (svc_resources svc) in
  if have_cap then f64_div cap (f64_of_Z (Z.of_nat (length (svc_resources svc)))) else f64_0.

Definition continuity_index (c : Candidate) : Z :=
  match cand_continuity c with Some k => enum_index k | None => 0 end.

Definition score (c : Candidate) (svc : ServiceDefinition) : spec_float :=
  let s := f64_0 in
  let s := f64_add s (f64_mul kPreparationWeight (if cf_ready (cand_facts c) then f64_1 else f64_0)) in
  let s := f64_add s (f64_mul kPrepCostWeight
             (inverse_cost (cc_estimated_critical_path_ms (cand_costs c)) 30000)) in
  let s := f64_add s (f64_mul kContinuityWeight
             (f64_div (f64_of_Z (continuity_index c)) (f64_of_Z (enum_index ContinuityClass.UNKNOWN)))) in
  let s := f64_add s (f64_mul kStateFreshnessWeight
             (inverse_cost (cc_state_loss_sequences (cand_costs c)) 1000)) in
  let s := f64_add s (f64_mul kCapacityWeight (capacity c svc)) in
  let s := f64_add s (f64_mul kResourceOverlapWeight (resource_overlap_credit c)) in
  let s := f64_add s kDomainIndependenceWeight in
  f64_add s (f64_mul kPolicyPreferenceWeight (f64_lit 5 10)).

Definition rank (c : Candidate) (svc : ServiceDefinition) : Z :=
  let result := f64_round (f64_mul (score c svc) (f64_of_Z 1000000)) in
  wrap64 (result * 2 + cc_estimated_critical_path_ms (cand_costs c) mod 1000).

(** * Selection *)

Definition is_preferred (ctx : SelectionContext) (c : Candidate) : bool :=
  match ctx_preferred_target ctx with Some t => cf_target (cand_facts c) =i t | None => false end.

(** The comparison passed to [std::stable_sort]. *)
Definition candidate_before (svc : ServiceDefinition) (ctx : SelectionContext) (a b : Candidate) : bool :=
  let pa := is_preferred ctx a in let pb := is_preferred ctx b in
  if negb (Bool.eqb pa pb) then pa
  else if negb (Z.eqb (rank a svc) (rank b svc)) then Z.ltb (rank b svc) (rank a svc)
  else if negb (cf_target (cand_facts a) =i cf_target (cand_facts b)) then
    id_ltb (cf_target (cand_facts a)) (cf_target (cand_facts b))
  else id_ltb (cf_worker_boot (cand_facts a)) (cf_worker_boot (cand_facts b)).

(** Phase 1: the annotated eligible candidates and the exclusions, in snapshot order. *)
Definition eligible_candidates (svc : ServiceDefinition) (dom : DomainRegistry) (ctx : SelectionContext)
    (cs : list Candidate) : list Candidate :=
  omap (fun c => let '(c', ok) := hard_eligible c svc dom ctx in if ok then Some c' else None) cs.

Definition exclusions_of (svc : ServiceDefinition) (dom : DomainRegistry) (ctx : SelectionContext)
    (cs : list Candidate) : list (TargetId * (ExclusionReason * string)) :=
  omap (fun c => let '(c', ok) := hard_eligible c svc dom ctx in
          if ok then None
          else (fun r => (cf_target (cand_facts c'), (r, cand_failed_detail c'))) <$> cand_failed_reason c') cs.

Definition select (snap : CandidateSnapshot) (svc : ServiceDefinition) (dom : DomainRegistry)
    (ctx : SelectionContext) : SelectionResult :=
  let eligible := eligible_candidates svc dom ctx (snap_candidates snap) in
  let exclusions := exclusions_of svc dom ctx (snap_candidates snap) in
  let out := mkSelection false None [] exclusions [] [] Provenance.DERIVED f64_0
               (svc_policy_generation svc) (snap_generation snap) in
  match stable_sort (candidate_before svc ctx) eligible with
  | [] => match exclusions with
          | [] => out <| sel_exclusions := [(id_null, (ExclusionReason.NO_ELIGIBLE_TARGET, "no candidates"%string))] |>
          | _ => out
          end
  | best :: rest =>
    out <| sel_selected := Some best |> <| sel_has_selection := true |>
        <| sel_evaluated_alternatives := rest |>
        <| sel_uncertainty := if Z.ltb 1 (Z.of_nat (length eligible))
                              then f64_div f64_1 (f64_of_Z (Z.of_nat (length eligible))) else f64_0 |>
  end.

(** * What eligibility means *)

(** The declarative reading of the eight guards. *)
Record Eligible (c : Candidate) (svc : ServiceDefinition) (dom : DomainRegistry)
    (ctx : SelectionContext) : Prop := {
  el_not_failed : cf_target (cand_facts c) = id_null \/ cf_target (cand_facts c) <> ctx_failed_target ctx;
  el_not_confirmed : cf_target (cand_facts c) ∉ ctx_confirmed_failed_targets ctx;
  el_not_fenced : cf_worker_boot (cand_facts c) ∉ ctx_fenced_boots ctx;
  el_ready : ctx_requires_fresh_readiness ctx = true ->
    cf_evidence_fresh (cand_facts c) = true /\ cf_ready (cand_facts c) = true;
  el_model : cr_model_key (svc_compatibility svc) <> ""%string ->
    cf_model_key (cand_facts c) = cr_model_key (svc_compatibility svc);
  el_abi : cr_runtime_abi (svc_compatibility svc) <> ""%string ->
    cf_runtime_abi (cand_facts c) = cr_runtime_abi (svc_compatibility svc);
  el_profile : forall p, cr_readiness_profile (svc_compatibility svc) = Some p ->
    cf_profile (cand_facts c) = p;
  el_state : stateful (ro_continuity (svc_recovery svc)) = true ->
    (cs_state_available (cand_state c) = true /\ cs_correct_session (cand_state c) = true /\
     cs_correct_tenant (cand_state c) = true /\ cs_correct_model_generation (cand_state c) = true /\
     cs_state_format_ok (cand_state c) = true /\ cs_status_integrity_ok (cand_state c) = true) /\
    (forall m g, ro_min_checkpoint_gen (svc_recovery svc) = Some m ->
       cs_checkpoint_generation (cand_state c) = Some g -> gen_value m <= gen_value g) /\
    exists k, cand_continuity c = Some k /\ k <> ContinuityClass.UNKNOWN;
  el_resources : forall req, req ∈ svc_resources svc ->
    exists cr, resource_for c req = Some cr /\ cre_resources_revoked cr = false /\
      cre_has_conflicting_commitment cr = false /\ double_ltb (cre_amount cr) (rr_amount req) = false;
  el_domains : dr_require_domain_independence (svc_domain_requirement svc) = true ->
    overlaps dom (cf_target (cand_facts c)) (ctx_failed_target ctx) = Some false /\
    forall fd, fd ∈ ctx_failed_domains ctx -> in_domain dom (cf_target (cand_facts c)) fd = Some false }.

(** One lemma per group of guards: the group lets the candidate through to [next]
    exactly when its conditions hold. *)
Section guards.
Context (c : Candidate) (svc : ServiceDefinition) (dom : DomainRegistry) (ctx : SelectionContext).
Implicit Types next : exclusion.

Lemma reject_if_None b r d next : reject_if b r d next = None <-> b = false /\ next = None.
Proof. unfold reject_if. destruct b; intuition congruence. Qed.

Lemma identity_guards_None next :
  identity_guards c ctx next = None <->
  (cf_target (cand_facts c) = id_null \/ cf_target (cand_facts c) <> ctx_failed_target ctx) /\
  cf_target (cand_facts c) ∉ ctx_confirmed_failed_targets ctx /\
  cf_worker_boot (cand_facts c) ∉ ctx_fenced_boots ctx /\ next = None.
Proof.
  unfold identity_guards. rewrite !reject_if_None, andb_false_iff, negb_false_iff, id_eqb_eq, id_eqb_neq.
  rewrite <- !not_true_iff_false, !(mem_true _ id_eqb_eq). done.
Qed.

Lemma optional_match_None (key need : string) :
  negb (String.eqb need "") && negb (String.eqb key need) = false <-> (need <> ""%string -> key = need).
Proof.
  destruct (String.eqb_spec need ""), (String.eqb_spec key need); simpl; intuition congruence.
Qed.

Lemma readiness_guards_None next :
  readiness_guards c svc ctx next = None <->
  (ctx_requires_fresh_readiness ctx = true ->
     cf_evidence_fresh (cand_facts c) = true /\ cf_ready (cand_facts c) = true) /\
  (cr_model_key (svc_compatibility svc) <> ""%string ->
     cf_model_key (cand_facts c) = cr_model_key (svc_compatibility svc)) /\
  (cr_runtime_abi (svc_compatibility svc) <> ""%string ->
     cf_runtime_abi (cand_facts c) = cr_runtime_abi (svc_compatibility svc)) /\
  (forall p, cr_readiness_profile (svc_compatibility svc) = Some p -> cf_profile (cand_facts c) = p) /\
  next = None.
Proof.
  unfold readiness_guards. rewrite !reject_if_None, !optional_match_None.
  set (R := ctx_requires_fresh_readiness ctx). set (F := cf_evidence_fresh _). set (D := cf_ready _).
  assert (((R && negb F) = false /\ (R && negb D) = false) <-> (R = true -> F = true /\ D = true)) as <-
    by (destruct R, F, D; simpl; intuition congruence).
  assert (match cr_readiness_profile (svc_compatibility svc) with
          | Some p => negb (cf_profile (cand_facts c) =i p) | None => false end = false <->
          (forall p, cr_readiness_profile (svc_compatibility svc) = Some p -> cf_profile (cand_facts c) = p)) as <-.
  { destruct (cr_readiness_profile _) as [p |]; [| naive_solver].
    rewrite negb_false_iff, id_eqb_eq. naive_solver. }
  naive_solver.
Qed.

Lemma state_guards_None next :
  state_guards c svc next = None <->
  (stateful (ro_continuity (svc_recovery svc)) = true ->
    (cs_state_available (cand_state c) = true /\ cs_correct_session (cand_state c) = true /\
     cs_correct_tenant (cand_state c) = true /\ cs_correct_model_generation (cand_state c) = true /\
     cs_state_format_ok (cand_state c) = true /\ cs_status_integrity_ok (cand_state c) = true) /\
    (forall m g, ro_min_checkpoint_gen (svc_recovery svc) = Some m ->
       cs_checkpoint_generation (cand_state c) = Some g -> gen_value m <= gen_value g) /\
    exists k, cand_continuity c = Some k /\ k <> ContinuityClass.UNKNOWN) /\ next = None.
Proof.
  unfold state_guards. destruct (stateful _); [| naive_solver].
  rewrite !reject_if_None, !orb_false_iff, !negb_false_iff.
  assert (match ro_min_checkpoint_gen (svc_recovery svc), cs_checkpoint_generation (cand_state c) with
          | Some m, Some g => gen_ltb g m | _, _ => false end = false <->
          (forall m g, ro_min_checkpoint_gen (svc_recovery svc) = Some m ->
             cs_checkpoint_generation (cand_state c) = Some g -> gen_value m <= gen_value g)) as ->.
  { destruct (ro_min_checkpoint_gen _) as [m |], (cs_checkpoint_generation _) as [g |]; try naive_solver.
    unfold gen_ltb. rewrite Z.ltb_ge. naive_solver. }
  assert (match cand_continuity c with None | Some ContinuityClass.UNKNOWN => true | Some _ => false end = false
          <-> exists k, cand_continuity c = Some k /\ k <> ContinuityClass.UNKNOWN) as ->.
  { destruct (cand_continuity c) as [[] |]; naive_solver. }
  naive_solver.
Qed.

Lemma resource_guards_None reqs next :
  resource_guards c reqs next = None <->
  (forall req, req ∈ reqs ->
    exists cr, resource_for c req = Some cr /\ cre_resources_revoked cr = false /\
      cre_has_conflicting_commitment cr = false /\ double_ltb (cre_amount cr) (rr_amount req) = false) /\
  next = None.
Proof.
  induction reqs as [| req reqs IH]; cbn [resource_guards]; [rewrite elem_of_nil_forall; naive_solver |].
  rewrite elem_of_cons_forall. destruct (resource_for c req) as [cr |] eqn:E.
  - rewrite !reject_if_None, IH. naive_solver.
  - naive_solver.
Qed.

Lemma failed_domain_guards_None t fds next :
  failed_domain_guards dom t fds next = None <->
  (forall fd, fd ∈ fds -> in_domain dom t fd = Some false) /\ next = None.
Proof.
  induction fds as [| fd fds IH]; simpl; [rewrite elem_of_nil_forall; naive_solver |].
  rewrite elem_of_cons_forall. destruct (in_domain dom t fd) as [[] |] eqn:E; naive_solver.
Qed.

Lemma domain_guards_None next :
  domain_guards c svc dom ctx next = None <->
  (dr_require_domain_independence (svc_domain_requirement svc) = true ->
    overlaps dom (cf_target (cand_facts c)) (ctx_failed_target ctx) = Some false /\
    forall fd, fd ∈ ctx_failed_domains ctx -> in_domain dom (cf_target (cand_facts c)) fd = Some false) /\
  next = None.
Proof.
  unfold domain_guards. destruct (dr_require_domain_independence _); [| naive_solver].
  destruct (overlaps _ _ _) as [[] |]; try naive_solver.
  rewrite failed_domain_guards_None. naive_solver.
Qed.

Lemma excluded_by_None : excluded_by c svc dom ctx = None <-> Eligible c svc dom ctx.
Proof.
  unfold excluded_by. rewrite identity_guards_None, readiness_guards_None, state_guards_None,
    resource_guards_None, domain_guards_None. split.
  - intros (? & ? & ? & ? & ? & ? & ? & ? & ? & ? & _). by split.
  - intros []. repeat (split; [done |]). done.
Qed.
End guards.

(** * The order of the candidates *)

(** The key the comparison sorts by: preferred first, then the larger rank, then
    the smaller target and boot. *)
Definition candidate_key (svc : ServiceDefinition) (ctx : SelectionContext) (c : Candidate) : Z * Z * Z * Z :=
  (if is_preferred ctx c then 0 else 1, - rank c svc, id_value (cf_target (cand_facts c)),
   id_value (cf_worker_boot (cand_facts c))).

Lemma candidate_before_key svc ctx a b :
  candidate_before svc ctx a b = lex4 (candidate_key svc ctx a) (candidate_key svc ctx b).
Proof.
  unfold candidate_before, candidate_key, lex4, id_eqb, id_ltb.
  generalize (rank a svc) (rank b svc). intros ra rb.
  destruct (Z.eqb_spec ra rb), (Z.eqb_spec (- ra) (- rb)); try lia;
    destruct (is_preferred ctx a), (is_preferred ctx b); simpl; try done;
    destruct (Z.ltb_spec rb ra), (Z.ltb_spec (- ra) (- rb)); try lia; done.
Qed.

#[export] Instance candidate_before_swo svc ctx : StrictWeakOrder (candidate_before svc ctx).
Proof. apply (key_order_swo (candidate_key svc ctx)). apply candidate_before_key. Qed.

(** The comparison separates candidates that differ in target or boot. *)
Lemma candidate_before_separates svc ctx a b :
  candidate_before svc ctx a b = false -> candidate_before svc ctx b a = false ->
  cf_target (cand_facts a) = cf_target (cand_facts b) /\
  cf_worker_boot (cand_facts a) = cf_worker_boot (cand_facts b).
Proof.
  rewrite !candidate_before_key. unfold candidate_key. rewrite !lex4_false, !lex4_true.
  destruct (cf_target (cand_facts a)) as [ta], (cf_target (cand_facts b)) as [tb],
    (cf_worker_boot (cand_facts a)) as [wa], (cf_worker_boot (cand_facts b)) as [wb]; simpl.
  intros H1 H2. split; f_equal; lia.
Qed.

(** * Lemmas on selection *)

Definition mark_eligible (c : Candidate) : Candidate :=
  c <| cand_hard_eligible := true |> <| cand_failed_reason := None |>.

Section select.
Context (svc : ServiceDefinition) (dom : DomainRegistry) (ctx : SelectionContext).

Lemma hard_eligible_true c c' :
  hard_eligible c svc dom ctx = (c', true) <-> Eligible c svc dom ctx /\ c' = mark_eligible c.
Proof.
  unfold hard_eligible. rewrite <- excluded_by_None.
  destruct (excluded_by c svc dom ctx) as [[r d] |]; naive_solver.
Qed.

Lemma hard_eligible_false c c' :
  hard_eligible c svc dom ctx = (c', false) <->
  exists r d, excluded_by c svc dom ctx = Some (r, d) /\
    c' = c <| cand_failed_reason := Some r |> <| cand_failed_detail := d |>.
Proof.
  unfold hard_eligible. destruct (excluded_by c svc dom ctx) as [[r d] |]; naive_solver.
Qed.

Lemma elem_of_eligible cs c' :
  c' ∈ eligible_candidates svc dom ctx cs <->
  exists c, c ∈ cs /\ Eligible c svc dom ctx /\ c' = mark_eligible c.
Proof.
  unfold eligible_candidates. rewrite list_elem_of_omap. f_equiv. intros c.
  destruct (hard_eligible c svc dom ctx) as [c1 []] eqn:E.
  - apply hard_eligible_true in E as [? ->]. naive_solver.
  - split; [naive_solver |]. intros (_ & He & _).
    apply hard_eligible_false in E as (r & d & E & _). apply excluded_by_None in He. congruence.
Qed.

Lemma elem_of_exclusions cs t r d :
  (t, (r, d)) ∈ exclusions_of svc dom ctx cs <->
  exists c, c ∈ cs /\ t = cf_target (cand_facts c) /\ excluded_by c svc dom ctx = Some (r, d).
Proof.
  unfold exclusions_of. rewrite list_elem_of_omap. f_equiv. intros c.
  unfold hard_eligible. destruct (excluded_by c svc dom ctx) as [[r' d'] |]; simpl; naive_solver.
Qed.

Lemma eligible_exclusions_length cs :
  (length (eligible_candidates svc dom ctx cs) + length (exclusions_of svc dom ctx cs))%nat = length cs.
Proof.
  induction cs as [| c cs IH]; [done |]. unfold eligible_candidates, exclusions_of in *.
  cbn [omap list_omap length]. destruct (hard_eligible c svc dom ctx) as [c' []] eqn:E; [simpl; lia |].
  apply hard_eligible_false in E as (r & d & _ & ->). simpl. lia.
Qed.

Lemma select_cases snap :
  let out := select snap svc dom ctx in
  let eligible := eligible_candidates svc dom ctx (snap_candidates snap) in
  (eligible = [] /\ sel_has_selection out = false /\ sel_selected out = None /\
     sel_evaluated_alternatives out = []) \/
  exists best rest, stable_sort (candidate_before svc ctx) eligible = best :: rest /\
    sel_has_selection out = true /\ sel_selected out = Some best /\
    sel_evaluated_alternatives out = rest /\
    sel_exclusions out = exclusions_of svc dom ctx (snap_candidates snap).
Proof.
  intros out eligible. unfold out, select. fold eligible.
  destruct (stable_sort (candidate_before svc ctx) eligible) as [| best rest] eqn:E.
  - left. pose proof (stable_sort_perm (candidate_before svc ctx) eligible) as Hp. rewrite E in Hp.
    apply Permutation_nil_l in Hp. destruct (exclusions_of _ _ _ _); naive_solver.
  - right. exists best, rest. naive_solver.
Qed.

Lemma selected_eligible snap best :
  sel_selected (select snap svc dom ctx) = Some best ->
  exists c, c ∈ snap_candidates snap /\ Eligible c svc dom ctx /\ best = mark_eligible c.
Proof.
  intros Hs. destruct (select_cases snap) as [(_ & _ & Hn & _) | (b & rest & E & _ & Hb & _)]; [congruence |].
  assert (b = best) as -> by congruence. apply elem_of_eligible.
  rewrite <- (stable_sort_perm (candidate_before svc ctx)), E. apply list_elem_of_here.
Qed.

Lemma eligible_perm cs cs' :
  Permutation cs cs' -> Permutation (eligible_candidates svc dom ctx cs) (eligible_candidates svc dom ctx cs').
Proof. unfold eligible_candidates. intros Hp. by rewrite Hp. Qed.
End select.

(** * Theorems *)

(** C26: [hard_eligible] decides, in one pass with early returns, exactly the conjunction
    of the eight groups of guards the source numbers ([Eligible]: not the failed
    target, no confirmed failure, boot not fenced, fresh and ready if the context asks
    for it, compatible, for a stateful service the state present, not known to be too
    old and of a known continuity class, for every required resource the first one of
    its class available, domain independence established if it is required).  It marks
    a candidate that passes eligible and clears its reason; for every other candidate
    it answers false and records a reason and a detail, changing nothing else.  What
    the documentation asks beyond these guards is not checked:
    [eligibility_ignores_continuity_level], [unknown_evidence_is_eligible]. *)
Theorem hard_eligible_spec (c : Candidate) (svc : ServiceDefinition) (dom : DomainRegistry)
    (ctx : SelectionContext) :
  match hard_eligible c svc dom ctx with
  | (c', true) => Eligible c svc dom ctx /\
      c' = c <| cand_hard_eligible := true |> <| cand_failed_reason := None |>
  | (c', false) => ~ Eligible c svc dom ctx /\
      exists r d, c' = c <| cand_failed_reason := Some r |> <| cand_failed_detail := d |>
  end.
Proof.
  destruct (hard_eligible c svc dom ctx) as [c' []] eqn:E.
  - by apply hard_eligible_true in E.
  - apply hard_eligible_false in E as (r & d & E & ->). rewrite <- excluded_by_None, E.
    split; [done |]. by exists r, d.
Qed.

(** C27: The candidate [select] returns comes from the snapshot, passes every hard
    guard, and no eligible candidate of the snapshot sorts before it in the
    documented order (preferred target, rank, target id, boot id); the
    alternatives are exactly the other eligible candidates. *)
Theorem select_sound (snap : CandidateSnapshot) (svc : ServiceDefinition) (dom : DomainRegistry)
    (ctx : SelectionContext) (best : Candidate) :
  sel_selected (select snap svc dom ctx) = Some best ->
  (exists c, c ∈ snap_candidates snap /\ Eligible c svc dom ctx /\ best = mark_eligible c) /\
  (forall c, c ∈ snap_candidates snap -> Eligible c svc dom ctx ->
     candidate_before svc ctx (mark_eligible c) best = false) /\
  Permutation (best :: sel_evaluated_alternatives (select snap svc dom ctx))
    (eligible_candidates svc dom ctx (snap_candidates snap)).
Proof.
  intros Hs. destruct (select_cases svc dom ctx snap) as [(_ & _ & Hn & _) | (b & rest & E & _ & Hb & -> & _)];
    [congruence |]. assert (b = best) as -> by congruence.
  pose proof (stable_sort_perm (candidate_before svc ctx)
                (eligible_candidates svc dom ctx (snap_candidates snap))) as Hp. rewrite E in Hp.
  split; [| split; [| done]].
  - by apply selected_eligible.
  - intros c Hc He. eapply stable_sort_head; [apply _ | exact E |]. apply elem_of_eligible. eauto.
Qed.

(** [select] fails only when it must and then explains itself.  It has no
    selection exactly when no candidate of the snapshot is eligible; with a
    non-empty snapshot every rejected candidate appears in the exclusions with its
    target, reason and detail, nothing else does, and every candidate is accounted
    for either as eligible or as excluded. *)
Theorem select_complete (snap : CandidateSnapshot) (svc : ServiceDefinition) (dom : DomainRegistry)
    (ctx : SelectionContext) :
  snap_candidates snap <> [] ->
  (sel_has_selection (select snap svc dom ctx) = false <->
     forall c, c ∈ snap_candidates snap -> ~ Eligible c svc dom ctx) /\
  (forall t r d, (t, (r, d)) ∈ sel_exclusions (select snap svc dom ctx) <->
     exists c, c ∈ snap_candidates snap /\ t = cf_target (cand_facts c) /\
       excluded_by c svc dom ctx = Some (r, d)) /\
  (length (sel_exclusions (select snap svc dom ctx)) +
   length (eligible_candidates svc dom ctx (snap_candidates snap)))%nat = length (snap_candidates snap).
Proof.
  intros Hne. pose proof (eligible_exclusions_length svc dom ctx (snap_candidates snap)) as Hlen.
  assert (sel_exclusions (select snap svc dom ctx) = exclusions_of svc dom ctx (snap_candidates snap)) as Hx.
  { destruct (select_cases svc dom ctx snap) as [(E & _) | (? & ? & _ & _ & _ & _ & ?)]; [| done].
    unfold select. rewrite E. simpl. rewrite E in Hlen.
    destruct (exclusions_of _ _ _ _) eqn:Ex; [| done]. by destruct (snap_candidates snap). }
  split; [| split].
  - destruct (select_cases svc dom ctx snap) as [(E & -> & _) | (b & rest & E & -> & _)].
    + split; [| done]. intros _ c Hc He.
      assert (mark_eligible c ∈ eligible_candidates svc dom ctx (snap_candidates snap)) as Hin
        by (apply elem_of_eligible; eauto). rewrite E in Hin. by apply elem_of_nil in Hin.
    + split; [done |]. intros Hno. exfalso.
      assert (b ∈ eligible_candidates svc dom ctx (snap_candidates snap)) as (c & Hc & He & _)%elem_of_eligible
        by (rewrite <- (elem_of_stable_sort (candidate_before svc ctx)), E; apply list_elem_of_here).
      by apply (Hno c).
  - intros t r d. rewrite Hx. apply elem_of_exclusions.
  - rewrite Hx. lia.
Qed.

(** C29: Selection is deterministic in the strong sense: when no two candidates
    share both target and worker boot, the selected candidate and the ordered
    alternatives do not depend on the order in which candidates were published. *)
Theorem select_order_independent (snap snap' : CandidateSnapshot) (svc : ServiceDefinition)
    (dom : DomainRegistry) (ctx : SelectionContext) :
  Permutation (snap_candidates snap) (snap_candidates snap') ->
  (forall a b, a ∈ snap_candidates snap -> b ∈ snap_candidates snap ->
     cf_target (cand_facts a) = cf_target (cand_facts b) ->
     cf_worker_boot (cand_facts a) = cf_worker_boot (cand_facts b) -> a = b) ->
  sel_selected (select snap svc dom ctx) = sel_selected (select snap' svc dom ctx) /\
  sel_evaluated_alternatives (select snap svc dom ctx) = sel_evaluated_alternatives (select snap' svc dom ctx).
Proof.
  intros Hp Hsep.
  assert (stable_sort (candidate_before svc ctx) (eligible_candidates svc dom ctx (snap_candidates snap)) =
          stable_sort (candidate_before svc ctx) (eligible_candidates svc dom ctx (snap_candidates snap'))) as E.
  { apply stable_sort_perm_eq; [apply _ | by apply eligible_perm |].
    intros x y (a & Ha & _ & ->)%elem_of_eligible (b & Hb & _ & ->)%elem_of_eligible H1 H2.
    destruct (candidate_before_separates _ _ _ _ H1 H2) as [Ht Hb']. by rewrite (Hsep a b Ha Hb Ht Hb'). }
  unfold select. rewrite E. clear E.
  destruct (stable_sort _ _) as [| best rest]; [| by split].
  by destruct (exclusions_of svc dom ctx (snap_candidates snap)),
    (exclusions_of svc dom ctx (snap_candidates snap')).
Qed.


(** The rank's tie-break favours the longer critical path: beyond 30 s the path
    no longer enters the score, and the term added for ties grows with it, so of
    two candidates that differ only in a path of 30000 or 30001 ms the slower one
    ranks one higher (up to 64-bit wrap-around). *)
Theorem rank_tie_prefers_longer_path (c : Candidate) (svc : ServiceDefinition) :
  let slow := c <| cand_costs := cand_costs c <| cc_estimated_critical_path_ms := 30001 |> |> in
  let fast := c <| cand_costs := cand_costs c <| cc_estimated_critical_path_ms := 30000 |> |> in
  rank slow svc = wrap64 (rank fast svc + 1).
Proof.
  intros slow fast.
  assert (inverse_cost 30001 30000 = inverse_cost 30000 30000) as Hc by (vm_compute; reflexivity).
  assert (score slow svc = score fast svc) as Hs.
  { unfold score, slow, fast. cbn [cand_costs cc_estimated_critical_path_ms set_field]. by rewrite Hc. }
  unfold rank. rewrite Hs. unfold slow, fast. cbn [cand_costs cc_estimated_critical_path_ms set_field].
  change (30001 mod 1000) with 1. change (30000 mod 1000) with 0.
  unfold wrap64. rewrite Zplus_mod_idemp_l. f_equal. lia.
Qed.

(** The continuity class a candidate offers is only checked to be known, never
    compared with the one the service requires: an eligible candidate stays
    eligible when its class is replaced by a stateless restart, also for a service
    whose class [continuity_compatible] would refuse it for. *)
Theorem eligibility_ignores_continuity_level (c : Candidate) (svc : ServiceDefinition) (dom : DomainRegistry)
    (ctx : SelectionContext) :
  Eligible c svc dom ctx ->
  Eligible (c <| cand_continuity := Some ContinuityClass.STATELESS_RESTART |>) svc dom ctx.
Proof.
  intros [H1 H2 H3 H4 H5 H6 H7 H8 H9 H10]. split; [done .. | | done | done].
  intros Hst. destruct (H8 Hst) as (Ha & Hb & _). split; [done |]. split; [done |]. by eexists.
Qed.

(** Evidence that is missing is not always refused: a candidate that reports no checkpoint
    generation passes whatever recovery point the service requires, and for a service
    that is not stateful a candidate of no continuity class, or an UNKNOWN one, passes. *)
Theorem unknown_evidence_is_eligible (c : Candidate) (svc : ServiceDefinition) (dom : DomainRegistry)
    (ctx : SelectionContext) (m : CheckpointGeneration) (k : option ContinuityClass) :
  Eligible c svc dom ctx ->
  Eligible (c <| cand_state := cand_state c <| cs_checkpoint_generation := None |> |>)
    (svc <| svc_recovery := svc_recovery svc <| ro_min_checkpoint_gen := Some m |> |>) dom ctx /\
  (stateful (ro_continuity (svc_recovery svc)) = false -> Eligible (c <| cand_continuity := k |>) svc dom ctx).
Proof.
  intros [H1 H2 H3 H4 H5 H6 H7 H8 H9 H10]. split.
  - split; [done .. | | done | done]. intros Hst. by destruct (H8 Hst) as (Ha & _ & Hk).
  - intros Hst. split; [done .. | | done | done]. simpl. by rewrite Hst.
Qed.

(** * Witnesses *)

(** Two healthy standbys of a service that requires independence, the failed
    target on a rack of its own. *)
Module Witness.
Definition standby (t b path : Z) : Candidate :=
  candidate_default
    <| cand_facts := facts_default <| cf_target := mkId t |> <| cf_worker_boot := mkId b |>
         <| cf_ready := true |> <| cf_evidence_fresh := true |> |>
    <| cand_costs := costs_default <| cc_estimated_critical_path_ms := path |> |>.
Definition snap : CandidateSnapshot :=
  mkSnapshot gen_first slotkey_null timestamp_default [standby 2 20 900; standby 3 30 100; standby 1 10 5].
Definition snap' : CandidateSnapshot :=
  mkSnapshot gen_first slotkey_null timestamp_default [standby 3 30 100; standby 2 20 900; standby 1 10 5].
Definition svc : ServiceDefinition :=
  service_default <| svc_domain_requirement := mkDomainRequirement true 0 0 [] |>.
Definition dom : DomainRegistry :=
  mkRegistry [mkDomainDecl (mkId 7) gen_first DomainClass.RACK "r7" None Provenance.MEASURED;
              mkDomainDecl (mkId 8) gen_first DomainClass.RACK "r8" None Provenance.MEASURED]
    [mkMembership (mkId 1) (mkId 7) true; mkMembership (mkId 2) (mkId 8) true;
     mkMembership (mkId 3) (mkId 8) true].
Definition ctx : SelectionContext := context_default <| ctx_failed_target := mkId 1 |>.
End Witness.

Lemma select_sound_witness :
  exists best, sel_selected (select Witness.snap Witness.svc Witness.dom Witness.ctx) = Some best /\
    cf_target (cand_facts best) = mkId 3 /\
    (exists c, c ∈ snap_candidates Witness.snap /\ Eligible c Witness.svc Witness.dom Witness.ctx /\
       best = mark_eligible c) /\
    (forall c, c ∈ snap_candidates Witness.snap -> Eligible c Witness.svc Witness.dom Witness.ctx ->
       candidate_before Witness.svc Witness.ctx (mark_eligible c) best = false) /\
    Permutation (best :: sel_evaluated_alternatives (select Witness.snap Witness.svc Witness.dom Witness.ctx))
      (eligible_candidates Witness.svc Witness.dom Witness.ctx (snap_candidates Witness.snap)).
Proof.
  exists (mark_eligible (Witness.standby 3 30 100)).
  assert (H : sel_selected (select Witness.snap Witness.svc Witness.dom Witness.ctx) =
              Some (mark_eligible (Witness.standby 3 30 100))) by (vm_compute; reflexivity).
  split; [exact H |]. split; [reflexivity |]. exact (select_sound _ _ _ _ _ H).
Defined.

Lemma select_complete_witness :
  snap_candidates Witness.snap <> [] /\
  (length (sel_exclusions (select Witness.snap Witness.svc Witness.dom Witness.ctx)) +
   length (eligible_candidates Witness.svc Witness.dom Witness.ctx (snap_candidates Witness.snap)))%nat = 3%nat.
Proof.
  assert (H : snap_candidates Witness.snap <> []) by discriminate.
  split; [exact H |]. exact (proj2 (proj2 (select_complete _ Witness.svc Witness.dom Witness.ctx H))).
Defined.

Lemma select_order_independent_witness :
  sel_selected (select Witness.snap Witness.svc Witness.dom Witness.ctx) =
    sel_selected (select Witness.snap' Witness.svc Witness.dom Witness.ctx) /\
  sel_evaluated_alternatives (select Witness.snap Witness.svc Witness.dom Witness.ctx) =
    sel_evaluated_alternatives (select Witness.snap' Witness.svc Witness.dom Witness.ctx).
Proof.
  apply select_order_independent; simpl; [constructor |].
  intros a b Ha Hb Ht _. repeat setoid_rewrite elem_of_cons in Ha. repeat setoid_rewrite elem_of_cons in Hb.
  destruct Ha as [-> | [-> | [-> | Ha%elem_of_nil]]], Hb as [-> | [-> | [-> | Hb%elem_of_nil]]];
    reflexivity || contradiction || discriminate Ht.
Defined.


Lemma eligibility_ignores_continuity_level_witness :
  let svc := service_default <| svc_recovery := recovery_objective_default
               <| ro_continuity := ContinuityClass.SESSION_STATE_REBIND |> |> in
  let c := Witness.standby 2 20 900
             <| cand_state := mkCandState true true None None 0 true true true true true true |>
             <| cand_continuity := Some ContinuityClass.SESSION_STATE_REBIND |> in
  continuity_compatible ContinuityClass.SESSION_STATE_REBIND ContinuityClass.STATELESS_RESTART = false /\
  Eligible (c <| cand_continuity := Some ContinuityClass.STATELESS_RESTART |>) svc Witness.dom Witness.ctx.
Proof.
  intros svc c. split; [reflexivity |]. apply eligibility_ignores_continuity_level.
  apply excluded_by_None. vm_compute. reflexivity.
Defined.

Lemma unknown_evidence_is_eligible_witness :
  let svc := service_default <| svc_recovery := recovery_objective_default
               <| ro_continuity := ContinuityClass.CHECKPOINT_RESTORE |> |> in
  let c := Witness.standby 2 20 900
             <| cand_state := mkCandState true true None None 0 true true true true true true |>
             <| cand_continuity := Some ContinuityClass.CHECKPOINT_RESTORE |> in
  Eligible c (svc <| svc_recovery := svc_recovery svc <| ro_min_checkpoint_gen := Some (mkGen 1000) |> |>) Witness.dom Witness.ctx.
Proof.
  intros svc c. apply (unknown_evidence_is_eligible c svc Witness.dom Witness.ctx (mkGen 1000) None).
  apply excluded_by_None. vm_compute. reflexivity.
Defined.
