(* ===== verification/Bytes.v ===== *)
(** Byte-level encodings shared by the persistence format and the wire protocol:
    little-endian integers, strings as bytes, and the FNV-1a checksum with the
    facts that make it detect a changed byte. *)

From stdpp Require Import base list strings.
From Stdlib Require Import ZArith Lia Ascii.
From S2P Require Import Prelude.

Open Scope Z_scope.

(** A [std::vector<std::uint8_t>]. *)
Notation bytes := (list Z).
Definition are_bytes (bs : bytes) : Prop := Forall u8 bs.

(** [(v >> (8 * i)) & 0xff] for [i < n], least significant first. *)
Definition le_byte (v : Z) (i : nat) : Z := Z.land (Z.shiftr v (8 * Z.of_nat i)) 255.
Definition le_bytes (n : nat) (v : Z) : bytes := le_byte v <$> seq 0 n.

(** [v |= (T)p[i++] << (8 * k)] from byte [k] on. *)
Fixpoint le_read (k : nat) (v : Z) (bs : bytes) : Z :=
  match bs with
  | [] => v
  | b :: bs' => le_read (S k) (Z.lor v (Z.shiftl b (8 * Z.of_nat k))) bs'
  end.

(** The bytes of a [std::string] and back. *)
Definition byte_of_ascii (a : ascii) : Z := Z.of_N (N_of_ascii a).
Definition ascii_of_byte (b : Z) : ascii := ascii_of_N (Z.to_N b).
Definition string_bytes (s : string) : bytes := byte_of_ascii <$> String.list_ascii_of_string s.
Definition string_of_bytes (bs : bytes) : string := String.string_of_list_ascii (ascii_of_byte <$> bs).

(** [fnv1a(data, n, h)]. *)
Definition fnv_prime : Z := 1099511628211.
Definition fnv_offset : Z := 1469598103934665603.
Definition fnv_step (h b : Z) : Z := wrap64 (Z.lxor h b * fnv_prime).
Definition fnv1a (data : bytes) (h : Z) : Z := foldl fnv_step h data.

(** * Little-endian integers *)

Lemma le_byte_arith v i : le_byte v i = (v / 2 ^ (8 * Z.of_nat i)) mod 256.
Proof.
  unfold le_byte. rewrite Z.shiftr_div_pow2 by lia. change 255 with (Z.ones 8).
  by rewrite Z.land_ones by lia.
Qed.

Lemma le_byte_u8 v i : u8 (le_byte v i).
Proof. rewrite le_byte_arith. unfold u8. apply Z.mod_pos_bound. lia. Qed.

Lemma le_bytes_are_bytes n v : are_bytes (le_bytes n v).
Proof. apply Forall_fmap, Forall_forall. intros i _. apply le_byte_u8. Qed.

Lemma le_bytes_length n v : length (le_bytes n v) = n.
Proof. unfold le_bytes. by rewrite length_fmap, length_seq. Qed.

Lemma lor_shiftl_disjoint v b m :
  0 <= m -> 0 <= v < 2 ^ m -> Z.lor v (Z.shiftl b m) = v + b * 2 ^ m.
Proof.
  intros Hm Hv. rewrite <- Z.add_lor_land, Z.shiftl_mul_pow2 by done.
  assert (Z.land v (b * 2 ^ m) = 0) as ->; [| lia].
  apply Z.bits_inj'. intros i Hi. rewrite Z.land_spec, Z.bits_0.
  destruct (Z.lt_ge_cases i m) as [Hlt | Hge].
  - rewrite Z.mul_pow2_bits_low by lia. apply andb_false_r.
  - destruct (decide (v = 0)) as [-> | Hnz]; [by rewrite Z.bits_0 |].
    rewrite (Z.bits_above_log2 v i); [done | lia |].
    apply Z.lt_le_trans with m; [| done]. apply Z.log2_lt_pow2; lia.
Qed.

Lemma le_read_bytes n k v acc :
  acc = v mod 2 ^ (8 * Z.of_nat k) ->
  le_read k acc (le_byte v <$> seq k n) = v mod 2 ^ (8 * Z.of_nat (k + n)).
Proof.
  revert k acc. induction n as [| n IH]; intros k acc ->; simpl.
  { by rewrite Nat.add_0_r. }
  rewrite IH; [f_equal; f_equal; lia |].
  assert (0 < 2 ^ (8 * Z.of_nat k)) as Hp by (apply Z.pow_pos_nonneg; lia).
  rewrite lor_shiftl_disjoint; [| lia | by apply Z.mod_pos_bound].
  rewrite le_byte_arith. replace (8 * Z.of_nat (S k)) with (8 * Z.of_nat k + 8) by lia.
  rewrite Z.pow_add_r by lia. change (2 ^ 8) with 256.
  rewrite (Z.rem_mul_r v _ 256) by lia. lia.
Qed.

(** Reading back [n] little-endian bytes gives the value at that width. *)
Lemma le_read_le_bytes n v : le_read 0 0 (le_bytes n v) = v mod 2 ^ (8 * Z.of_nat n).
Proof. unfold le_bytes. rewrite le_read_bytes; [done |]. by rewrite Z.mod_1_r. Qed.

Lemma le_read_range k acc bs :
  are_bytes bs -> 0 <= acc < 2 ^ (8 * Z.of_nat k) ->
  0 <= le_read k acc bs < 2 ^ (8 * Z.of_nat (k + length bs)).
Proof.
  intros Hb. revert k acc. induction Hb as [| b bs Hb _ IH]; intros k acc Hacc; simpl.
  { by rewrite Nat.add_0_r. }
  rewrite <- plus_n_Sm. apply (IH (S k)). rewrite lor_shiftl_disjoint by lia. unfold u8 in Hb.
  replace (8 * Z.of_nat (S k)) with (8 * Z.of_nat k + 8) by lia.
  rewrite Z.pow_add_r by lia. change (2 ^ 8) with 256 in *. nia.
Qed.

(** * Strings *)

Lemma string_bytes_roundtrip s : string_of_bytes (string_bytes s) = s.
Proof.
  unfold string_of_bytes, string_bytes. rewrite <- list_fmap_compose.
  rewrite (list_fmap_ext _ id), list_fmap_id; [apply String.string_of_list_ascii_of_string |].
  intros _ a _. unfold compose, ascii_of_byte, byte_of_ascii. by rewrite N2Z.id, ascii_N_embedding.
Qed.

Lemma string_bytes_length s : length (string_bytes s) = String.length s.
Proof. unfold string_bytes. rewrite length_fmap. induction s; simpl; congruence. Qed.

Lemma string_length_app s1 s2 : String.length (s1 +:+ s2) = (String.length s1 + String.length s2)%nat.
Proof. induction s1 as [| a s1 IH]; simpl; [done | by rewrite IH]. Qed.

Lemma string_bytes_are_bytes s : are_bytes (string_bytes s).
Proof.
  apply Forall_fmap, Forall_forall. intros a _. unfold u8, compose, byte_of_ascii.
  pose proof (N_ascii_bounded a). lia.
Qed.

(** * FNV-1a *)

(** The multiplicative inverse of the prime modulo [2 ^ 64]: the step is injective. *)
Definition fnv_inverse : Z := 14886173955864302971.

Lemma fnv_mul_inj x y :
  u64 x -> u64 y -> wrap64 (x * fnv_prime) = wrap64 (y * fnv_prime) -> x = y.
Proof.
  unfold u64, wrap64. intros Hx Hy H.
  assert (forall z, 0 <= z < 2 ^ 64 -> ((z * fnv_prime) mod 2 ^ 64 * fnv_inverse) mod 2 ^ 64 = z) as Hinv.
  { intros z Hz. rewrite Zmult_mod_idemp_l.
    replace (z * fnv_prime * fnv_inverse) with (z + z * ((fnv_prime * fnv_inverse - 1) / 2 ^ 64) * 2 ^ 64)
      by (change ((fnv_prime * fnv_inverse - 1) / 2 ^ 64) with ((fnv_prime * fnv_inverse - 1) / 2 ^ 64);
          assert (fnv_prime * fnv_inverse = 1 + (fnv_prime * fnv_inverse - 1) / 2 ^ 64 * 2 ^ 64)
            by (vm_compute; reflexivity); nia).
    rewrite Z_mod_plus_full. by apply Z.mod_small. }
  rewrite <- (Hinv x Hx), <- (Hinv y Hy). by rewrite H.
Qed.

Lemma lxor_u64 h b : u64 h -> u8 b -> u64 (Z.lxor h b).
Proof.
  unfold u64, u8. intros Hh Hb. assert (0 <= Z.lxor h b) as Hn by (apply Z.lxor_nonneg; lia).
  split; [done |]. destruct (decide (Z.lxor h b = 0)) as [-> | Hnz]; [lia |].
  apply Z.log2_lt_pow2; [lia |]. eapply Z.le_lt_trans; [apply Z.log2_lxor; lia |].
  assert (Z.log2 h < 64) by (destruct (decide (h = 0)) as [-> |]; [simpl; lia | apply Z.log2_lt_pow2; lia]).
  assert (Z.log2 b < 8) by (destruct (decide (b = 0)) as [-> |]; [simpl; lia | apply Z.log2_lt_pow2; lia]).
  lia.
Qed.

Lemma lxor_inj_l h b b' : Z.lxor h b = Z.lxor h b' -> b = b'.
Proof.
  intros H. assert (Z.lxor h (Z.lxor h b) = Z.lxor h (Z.lxor h b')) as E by congruence.
  by rewrite <- !Z.lxor_assoc, Z.lxor_nilpotent, !Z.lxor_0_l in E.
Qed.

Lemma lxor_inj_r h h' b : Z.lxor h b = Z.lxor h' b -> h = h'.
Proof. rewrite (Z.lxor_comm h), (Z.lxor_comm h'). apply lxor_inj_l. Qed.

Lemma fnv_step_u64 h b : u64 (fnv_step h b).
Proof. unfold fnv_step, wrap64, u64. apply Z.mod_pos_bound. lia. Qed.

Lemma fnv1a_u64 data h : u64 h -> u64 (fnv1a data h).
Proof. revert h. induction data as [| b data IH]; intros h Hh; [done |]. apply IH, fnv_step_u64. Qed.

Lemma fnv1a_app d1 d2 h : fnv1a (d1 ++ d2) h = fnv1a d2 (fnv1a d1 h).
Proof. apply foldl_app. Qed.

(** The checksum of a fixed tail is injective in the state before it. *)
Lemma fnv1a_inj data h h' :
  are_bytes data -> u64 h -> u64 h' -> fnv1a data h = fnv1a data h' -> h = h'.
Proof.
  intros Hd. revert h h'. induction Hd as [| b data Hb Hd IH]; intros h h' Hh Hh'; [done |].
  intros H. apply IH in H; [| apply fnv_step_u64 ..].
  apply fnv_mul_inj in H; [| by apply lxor_u64 ..]. by eapply lxor_inj_r.
Qed.

(** Replacing one byte changes the checksum. *)
Lemma fnv1a_detects_byte d1 b b' d2 h :
  are_bytes d1 -> are_bytes d2 -> u8 b -> u8 b' -> b <> b' -> u64 h ->
  fnv1a (d1 ++ b :: d2) h <> fnv1a (d1 ++ b' :: d2) h.
Proof.
  intros Hd1 Hd2 Hb Hb' Hne Hh. rewrite !fnv1a_app. intros H. apply Hne.
  apply (fnv1a_inj d2) in H; [| done | apply fnv_step_u64 ..].
  apply fnv_mul_inj in H; [| apply lxor_u64; [by apply fnv1a_u64 | done] ..]. by eapply lxor_inj_l.
Qed.

(** Reading is injective on byte strings of the same length. *)
Lemma le_read_inj k a a' bs bs' :
  are_bytes bs -> are_bytes bs' -> length bs = length bs' ->
  0 <= a < 2 ^ (8 * Z.of_nat k) -> 0 <= a' < 2 ^ (8 * Z.of_nat k) ->
  le_read k a bs = le_read k a' bs' -> a = a' /\ bs = bs'.
Proof.
  intros Hb. revert k a a' bs'. induction Hb as [| b bs Hb _ IH]; intros k a a' bs' Hb' Hlen Ha Ha'.
  { destruct bs'; [done | discriminate]. }
  destruct bs' as [| b' bs']; [discriminate |]. inversion Hb' as [| ? ? Hu Hbs']; subst. simpl in *.
  unfold u8 in Hb, Hu. rewrite !lor_shiftl_disjoint by lia.
  assert (8 * Z.of_nat (S k) = 8 * Z.of_nat k + 8) as E by lia.
  intros H. apply IH in H as [Hacc ->]; [| done | lia | rewrite E, Z.pow_add_r by lia; change (2 ^ 8) with 256 in *; nia ..].
  assert (b = b') as -> by nia. split; [lia | done].
Qed.
