(* ===== verification/Codec.v ===== *)
(** The record codecs of persistence.cpp: the [put_*] writers, the bounds-checked
    [Reader], and one encoder and decoder per struct, each in the field order of
    the code.

    A writer is the bytes it appends or the exception it throws; a reader consumes
    the unread bytes.  [RT e d x] is the round-trip contract between the two that
    the whole format is built from: [e] writes bytes from which [d] reads [x] back,
    whatever follows. *)

From stdpp Require Import base list gmap strings.
From Stdlib Require Import ZArith Lia.
From S2P Require Import Prelude Identities Types Double Bytes Model.

Open Scope Z_scope.

(** * Writers *)

Definition kMaxBlob : Z := Z.shiftl 1 30.
Definition kMaxCount : Z := Z.shiftl 1 22.
Definition kMaxString : Z := Z.shiftl 1 22.

(** Consecutive [put] calls: the first that throws ends the encoding. *)
Fixpoint put_all (ps : list (result bytes)) : result bytes :=
  match ps with
  | [] => Ok []
  | p :: ps' => b ← p; r ← put_all ps'; Ok (b ++ r)
  end.

Definition put_u32 (v : Z) : result bytes := Ok (le_bytes 4 v).
Definition put_u64 (v : Z) : result bytes := Ok (le_bytes 8 v).
Definition put_u8 (v : Z) : result bytes := Ok [v].
Definition put_bool (v : bool) : result bytes := Ok [if v then 1 else 0].
Definition put_double (v : double) : result bytes :=
  if isfinite v then put_u64 v else Throw (RuntimeError "non-finite value in persistence").
Definition put_string (s : string) : result bytes :=
  if Z.ltb kMaxString (Z.of_nat (String.length s)) then Throw (RuntimeError "string too large")
  else put_all [put_u32 (Z.of_nat (String.length s)); Ok (string_bytes s)].
Definition put_opt {A} (ser : A -> result bytes) (v : option A) : result bytes :=
  match v with
  | None => put_all [put_bool false]
  | Some x => put_all [put_bool true; ser x]
  end.
Definition put_id {t} (i : Id t) : result bytes := put_u64 (id_value i).
Definition put_gen {t} (g : Gen t) : result bytes := put_u64 (gen_value g).
Definition put_enum {E} `{Enum E} (x : E) : result bytes := put_u8 (enum_index x).
(** [put_u32(b, (uint32_t)v.size()); for (x : v) ser(b, x);] *)
Definition put_list {A} (ser : A -> result bytes) (l : list A) : result bytes :=
  put_all (put_u32 (Z.of_nat (length l)) :: (ser <$> l)).

(** * Readers *)

Notation Reader := (ST bytes).

(** [need(k)] and the [k] bytes it guards. *)
Definition r_take (k : nat) : Reader bytes := fun s =>
  if Nat.ltb (length s) k then (s, Throw (RuntimeError "truncated persistence blob"))
  else (drop k s, Ok (take k s)).
Definition r_u8 : Reader Z := bs ← r_take 1; mret (default 0 (head bs)).
Definition r_u32 : Reader Z := bs ← r_take 4; mret (le_read 0 0 bs).
Definition r_u64 : Reader Z := bs ← r_take 8; mret (le_read 0 0 bs).
Definition r_boolean : Reader bool :=
  v ← r_u8; if Z.ltb 1 v then throw (RuntimeError "invalid bool") else mret (Z.eqb v 1).
Definition r_dbl : Reader double :=
  u ← r_u64; if isfinite u then mret u else throw (RuntimeError "non-finite value").
Definition r_str : Reader string :=
  len ← r_u32;
  if Z.ltb kMaxString len then throw (RuntimeError "string too large")
  else bs ← r_take (Z.to_nat len); mret (string_of_bytes bs).
Definition r_count : Reader Z :=
  c ← r_u32; if Z.ltb kMaxCount c then throw (RuntimeError "count too large") else mret c.
Definition r_opt {A} (deser : Reader A) : Reader (option A) :=
  b ← r_boolean; if (b : bool) then x ← deser; mret (Some x) else mret None.
Definition dec_id {t} : Reader (Id t) := v ← r_u64; mret (mkId v).
Definition dec_gen {t} : Reader (Gen t) := v ← r_u64; mret (mkGen v).
(** [auto v = r.u8(); chk_E(v); (E)v]. *)
Definition r_enum {E} `{Enum E} (name : string) : Reader E :=
  v ← r_u8;
  match enum_of_u8 v with
  | Some x => mret x
  | None => throw (RuntimeError ("invalid " +:+ name))
  end.
(** [auto n = r.count(); for (i < n) v.push_back(deser(r));] *)
Fixpoint r_repeat {A} (n : nat) (deser : Reader A) : Reader (list A) :=
  match n with
  | O => mret []
  | S n' => x ← deser; xs ← r_repeat n' deser; mret (x :: xs)
  end.
Definition r_list {A} (deser : Reader A) : Reader (list A) :=
  n ← r_count; r_repeat (Z.to_nat n) deser.

(** * The round-trip contract *)

Definition RT {A} (e : result bytes) (d : Reader A) (x : A) : Prop :=
  exists bs, e = Ok bs /\ are_bytes bs /\ forall rest, d (bs ++ rest) = (rest, Ok x).

(** The values of a type that the C++ type can hold and the format can carry. *)
Class Typed (A : Type) := typed : A -> Prop.
#[export] Instance typed_id t : Typed (Id t) := fun i => u64 (id_value i).
#[export] Instance typed_gen t : Typed (Gen t) := fun g => u64 (gen_value g).
#[export] Instance typed_string : Typed string := fun s => Z.of_nat (String.length s) <= kMaxString.
#[export] Instance typed_option `{Typed A} : Typed (option A) := fun o => forall x, o = Some x -> typed x.
#[export] Instance typed_list `{Typed A} : Typed (list A) := fun l =>
  Z.of_nat (length l) <= kMaxCount /\ Forall typed l.
Definition typed_double (d : double) : Prop := u64 d /\ isfinite d = true.

Section rt.
Context {A B : Type}.

Lemma RT_ret (x y : A) : x = y -> RT (put_all []) (mret x) y.
Proof. intros ->. exists []. split; [done |]. split; [constructor | done]. Qed.

Lemma RT_cons e es (d : Reader B) (k : B -> Reader A) x y :
  RT e d x -> RT (put_all es) (k x) y -> RT (put_all (e :: es)) (d ≫= k) y.
Proof.
  intros (b1 & -> & Hb1 & H1) (b2 & E2 & Hb2 & H2). exists (b1 ++ b2). split; [| split].
  - simpl. unfold mbind, result_bind. by rewrite E2.
  - by apply Forall_app.
  - intros rest. rewrite <- app_assoc. unfold mbind, st_bind. by rewrite H1, H2.
Qed.

(** The last [put] of a sequence. *)
Lemma RT_one e (d : Reader A) x : RT e d x -> RT (put_all [e]) d x.
Proof.
  intros (bs & -> & Hb & H). exists bs. split; [| done]. simpl. unfold mbind, result_bind.
  by rewrite app_nil_r.
Qed.

(** A reader that only wraps the value it reads. *)
Lemma RT_map e (d : Reader B) (f : B -> A) x : RT e d x -> RT e (y ← d; mret (f y)) (f x).
Proof.
  intros (bs & -> & Hb & H). exists bs. split; [done |]. split; [done |].
  intros rest. unfold mbind, st_bind. by rewrite H.
Qed.
End rt.

Lemma r_take_app bs rest : r_take (length bs) (bs ++ rest) = (rest, Ok bs).
Proof.
  unfold r_take. rewrite length_app. destruct (Nat.ltb_spec (length bs + length rest) (length bs)); [lia |].
  by rewrite drop_app_length, take_app_length.
Qed.

Lemma RT_le n v (f : Z -> Z) :
  f v = v mod 2 ^ (8 * Z.of_nat n) ->
  RT (Ok (le_bytes n v)) (bs ← r_take n; mret (le_read 0 0 bs)) (f v).
Proof.
  intros Hf. exists (le_bytes n v). split; [done |]. split; [apply le_bytes_are_bytes |].
  intros rest. unfold mbind, st_bind. rewrite <- (le_bytes_length n v) at 1.
  by rewrite r_take_app, le_read_le_bytes, Hf.
Qed.

Lemma RT_u64 v : u64 v -> RT (put_u64 v) r_u64 v.
Proof. intros H. apply (RT_le 8 v id). symmetry. by apply Z.mod_small. Qed.

Lemma RT_u32 v : u32 v -> RT (put_u32 v) r_u32 v.
Proof. intros H. apply (RT_le 4 v id). symmetry. by apply Z.mod_small. Qed.

Lemma RT_u8 v : u8 v -> RT (put_u8 v) r_u8 v.
Proof. intros H. exists [v]. split; [done |]. split; [by constructor | done]. Qed.

Lemma RT_bool b : RT (put_bool b) r_boolean b.
Proof. exists [if b then 1 else 0]. split; [done |]. split; [by destruct b; repeat constructor | by destruct b]. Qed.

Lemma RT_double d : typed_double d -> RT (put_double d) r_dbl d.
Proof.
  intros [Hd Hf]. unfold put_double. rewrite Hf. destruct (RT_u64 d Hd) as (bs & -> & Hb & H).
  exists bs. split; [done |]. split; [done |]. intros rest. unfold r_dbl, mbind, st_bind. rewrite H.
  by rewrite Hf.
Qed.

Lemma RT_id {t} (i : Id t) : typed i -> RT (put_id i) dec_id i.
Proof. intros H. destruct i as [v]. apply (RT_map _ r_u64 mkId). by apply RT_u64. Qed.

Lemma RT_gen {t} (g : Gen t) : typed g -> RT (put_gen g) dec_gen g.
Proof. intros H. destruct g as [v]. apply (RT_map _ r_u64 mkGen). by apply RT_u64. Qed.

Lemma RT_enum {E} `{Enum E} name (x : E) : enum_index x < 256 -> RT (put_enum x) (r_enum name) x.
Proof.
  intros Hx. exists [enum_index x]. split; [done |]. pose proof (enum_index_lookup x) as [H0 _].
  split; [by constructor |]. intros rest. unfold r_enum, mbind, st_bind. simpl.
  by rewrite enum_of_u8_index.
Qed.

Lemma RT_string s : typed s -> RT (put_string s) r_str s.
Proof.
  unfold typed, typed_string. intros H. unfold put_string.
  destruct (Z.ltb_spec kMaxString (Z.of_nat (String.length s))); [lia |].
  apply (RT_cons _ _ r_u32 _ (Z.of_nat (String.length s))).
  { apply RT_u32. unfold u32. change kMaxString with 4194304 in *. lia. }
  destruct (Z.ltb_spec kMaxString (Z.of_nat (String.length s))); [lia |].
  rewrite Nat2Z.id. exists (string_bytes s). split; [simpl; unfold mbind, result_bind; by rewrite app_nil_r |].
  split; [apply string_bytes_are_bytes |]. intros rest. unfold mbind, st_bind.
  by rewrite <- string_bytes_length, r_take_app, string_bytes_roundtrip.
Qed.

Section rt_containers.
Context {A : Type} (ser : A -> result bytes) (deser : Reader A) (f : A -> A).

(** When one element reads back as [f] of it, so does the container. *)
Lemma RT_opt (o : option A) :
  (forall x, o = Some x -> RT (ser x) deser (f x)) -> RT (put_opt ser o) (r_opt deser) (f <$> o).
Proof.
  intros H. unfold r_opt. destruct o as [x |]; cbn [put_opt]; (eapply RT_cons; [apply RT_bool |]).
  - eapply RT_cons; [by apply H |]. by apply RT_ret.
  - by apply RT_ret.
Qed.

Lemma RT_repeat (l : list A) :
  Forall (fun x => RT (ser x) deser (f x)) l ->
  RT (put_all (ser <$> l)) (r_repeat (length l) deser) (f <$> l).
Proof.
  induction 1 as [| x l Hx _ IH]; cbn [fmap list_fmap length r_repeat]; [by apply RT_ret |].
  eapply RT_cons; [exact Hx |]. by apply (RT_map _ _ (cons (f x))).
Qed.

Lemma RT_list (l : list A) :
  Z.of_nat (length l) <= kMaxCount -> Forall (fun x => RT (ser x) deser (f x)) l ->
  RT (put_list ser l) (r_list deser) (f <$> l).
Proof.
  intros Hlen Hl. unfold put_list, r_list, r_count.
  destruct (RT_u32 (Z.of_nat (length l))) as (b1 & E1 & Hb1 & H1).
  { unfold u32. change kMaxCount with 4194304 in *. lia. }
  destruct (RT_repeat l Hl) as (b2 & E2 & Hb2 & H2).
  exists (b1 ++ b2). split; [| split].
  - cbn [put_all]. unfold mbind, result_bind. by rewrite E1, E2.
  - by apply Forall_app.
  - intros rest. rewrite <- app_assoc. unfold mbind, st_bind. rewrite H1.
    destruct (Z.ltb_spec kMaxCount (Z.of_nat (length l))); [lia |]. unfold mret, st_ret.
    by rewrite Nat2Z.id, H2.
Qed.
End rt_containers.

Lemma RT_opt_map `{Typed A} (ser : A -> result bytes) deser (f : A -> A) (o : option A) :
  (forall x, typed x -> RT (ser x) deser (f x)) -> typed o -> RT (put_opt ser o) (r_opt deser) (f <$> o).
Proof. intros Hrt Ho. apply RT_opt. intros x Hx. by apply Hrt, Ho. Qed.

Lemma RT_list_map `{Typed A} (ser : A -> result bytes) deser (f : A -> A) (l : list A) :
  (forall x, typed x -> RT (ser x) deser (f x)) -> typed l -> RT (put_list ser l) (r_list deser) (f <$> l).
Proof. intros Hrt [Hlen Hl]. apply RT_list; [done |]. by eapply Forall_impl; [exact Hl |]. Qed.

Lemma RT_opt_typed `{Typed A} (ser : A -> result bytes) deser (o : option A) :
  (forall x, typed x -> RT (ser x) deser x) -> typed o -> RT (put_opt ser o) (r_opt deser) o.
Proof. intros Hrt Ho. pose proof (RT_opt_map ser deser id o Hrt Ho) as E. by rewrite option_fmap_id in E. Qed.

Lemma RT_list_typed `{Typed A} (ser : A -> result bytes) deser (l : list A) :
  (forall x, typed x -> RT (ser x) deser x) -> typed l -> RT (put_list ser l) (r_list deser) l.
Proof. intros Hrt Hl. pose proof (RT_list_map ser deser id l Hrt Hl) as E. by rewrite list_fmap_id in E. Qed.

Create HintDb codec.
#[export] Hint Resolve RT_u64 RT_u32 RT_u8 RT_bool RT_double RT_id RT_gen RT_string
  RT_opt_typed RT_list_typed : codec.

(** One [put] against one read of a struct's codec, and the struct itself. *)
Ltac rt_field :=
  eapply RT_cons;
  [first [ apply RT_enum; match goal with |- enum_index ?x < 256 => by destruct x end
         | solve [eauto 4 with codec nocore] ] |].
Ltac rt_struct :=
  repeat rt_field; apply RT_ret; try reflexivity.

(** * The struct codecs *)

(** [CoordinatorEpoch(r.u64(), dec_id(r), dec_id(r))] reads its three fields in the
    order the implementation evaluates function arguments, which C++ leaves
    unspecified; compilers choose left to right or right to left. *)
Class EvalOrder := args_left_to_right : bool.

Section structs.
Context `{EO : EvalOrder}.

Definition enc_ts (t : Timestamp) : result bytes :=
  put_all [put_u64 (wrap64 (wall_ns t)); put_u64 (ts_seq t)].
(** The cast [(std::int64_t)u]. *)
Definition to_int64 (u : Z) : Z := if Z.ltb u (2 ^ 63) then u else u - 2 ^ 64.
Definition dec_ts : Reader Timestamp :=
  w ← r_u64; s ← r_u64; mret (mkTimestamp (to_int64 w) s).

Definition enc_slotkey (s : ServiceSlotKey) : result bytes :=
  put_all [put_id (sk_service s); put_id (sk_slot s)].
Definition dec_slotkey : Reader ServiceSlotKey := a ← dec_id; b ← dec_id; mret (mkSlotKey a b).

Definition enc_compat (c : CompatibilityRequirement) : result bytes := put_all
  [put_string (cr_model_key c); put_string (cr_runtime_abi c); put_opt put_id (cr_readiness_profile c);
   put_list put_id (cr_dependencies c); put_list put_id (cr_required_capabilities c)].
Definition dec_compat : Reader CompatibilityRequirement :=
  mk ← r_str; abi ← r_str; rp ← r_opt dec_id; deps ← r_list dec_id; caps ← r_list dec_id;
  mret (mkCompatibility mk abi rp deps caps).

Definition enc_domreq (d : DomainRequirement) : result bytes := put_all
  [put_bool (dr_require_domain_independence d); put_u32 (dr_min_distinct_hosts d);
   put_u32 (dr_min_distinct_devices d); put_list put_enum (dr_forbidden_overlap_classes d)].
Definition dec_domreq : Reader DomainRequirement :=
  i ← r_boolean; h ← r_u32; dv ← r_u32; cl ← r_list (r_enum "DomainClass");
  mret (mkDomainRequirement i h dv cl).

Definition enc_resreq (r : ResourceRequirement) : result bytes := put_all
  [put_string (rr_resource_class r); put_double (rr_amount r); put_bool (rr_exactly_one_target r)].
Definition dec_resreq : Reader ResourceRequirement :=
  c ← r_str; a ← r_dbl; e ← r_boolean; mret (mkResourceRequirement c a e).

Definition enc_reco (o : RecoveryObjective) : result bytes := put_all
  [put_u64 (ro_rto_ms o); put_enum (ro_rto_anchor o); put_enum (ro_continuity o);
   put_u64 (ro_max_state_loss_sequences o); put_opt put_gen (ro_min_checkpoint_gen o);
   put_bool (ro_requires_verified_recovery o)].
Definition dec_reco : Reader RecoveryObjective :=
  rto ← r_u64; a ← r_enum "RtoAnchor"; c ← r_enum "ContinuityClass"; ml ← r_u64;
  g ← r_opt dec_gen; v ← r_boolean; mret (mkRecoveryObjective rto a c ml g v).

Definition enc_afp (p : AntiFlappingPolicy) : result bytes := put_all
  [put_u32 (afp_max_auto_attempts p); put_u32 (afp_cooldown_ms p); put_u32 (afp_hysteresis_ms p);
   put_bool (afp_manual_intervention_required p)].
Definition dec_afp : Reader AntiFlappingPolicy :=
  m ← r_u32; c ← r_u32; h ← r_u32; b ← r_boolean; mret (mkAntiFlapping m c h b).

Definition enc_svc (s : ServiceDefinition) : result bytes := put_all
  [put_id (svc_service s); put_gen (svc_generation s); put_gen (svc_config_generation s);
   put_string (svc_name s); put_enum (svc_role s); put_u32 (sr_first (svc_slots s));
   put_u32 (sr_count (svc_slots s)); enc_compat (svc_compatibility s); enc_domreq (svc_domain_requirement s);
   put_list enc_resreq (svc_resources s); enc_reco (svc_recovery s); put_enum (svc_failback s);
   enc_afp (svc_anti_flapping s); put_list put_id (svc_required_state s); put_enum (svc_provenance s);
   put_gen (svc_policy_generation s)].
Definition dec_svc : Reader ServiceDefinition :=
  i ← dec_id; g ← dec_gen; cg ← dec_gen; nm ← r_str; ro ← r_enum "ServingRole"; f ← r_u32; n ← r_u32;
  co ← dec_compat; dq ← dec_domreq; res ← r_list dec_resreq; rc ← dec_reco; fb ← r_enum "FailbackPolicy";
  af ← dec_afp; rs ← r_list dec_id; pv ← r_enum "Provenance"; pg ← dec_gen;
  mret (mkService i g cg nm ro (mkSlotRange f n) co dq res rc fb af rs pv pg).

Definition enc_assign (a : Assignment) : result bytes := put_all
  [put_id (asg_id a); put_gen (asg_generation a); enc_slotkey (asg_slot a); put_id (asg_target a);
   put_gen (asg_target_generation a); put_id (asg_replica a); put_gen (asg_replica_generation a);
   put_id (asg_engine a); put_id (asg_engine_incarnation a); put_id (asg_readiness_profile a);
   put_gen (asg_authority_generation a); put_id (asg_activation a); put_gen (asg_activation_generation a);
   put_id (asg_route a); put_gen (asg_route_generation a); put_id (asg_worker_boot a);
   put_list put_id (asg_resource_claims a); put_list put_id (asg_continuity_state a);
   put_enum (asg_state a); put_bool (asg_provisory a); put_enum (asg_provenance a)].
Definition dec_assign : Reader Assignment :=
  i ← dec_id; g ← dec_gen; sl ← dec_slotkey; t ← dec_id; tg ← dec_gen; rp ← dec_id; rg ← dec_gen;
  en ← dec_id; ei ← dec_id; pr ← dec_id; ag ← dec_gen; ac ← dec_id; acg ← dec_gen; rt ← dec_id;
  rtg ← dec_gen; wb ← dec_id; cl ← r_list dec_id; cs ← r_list dec_id; st ← r_enum "AssignmentState";
  pv ← r_boolean; pn ← r_enum "Provenance";
  mret (mkAssignment i g sl t tg rp rg en ei pr ag ac acg rt rtg wb cl cs st pv pn).

Definition enc_domdecl (d : DomainDecl) : result bytes := put_all
  [put_id (dd_id d); put_gen (dd_generation d); put_enum (dd_cls d); put_string (dd_name d);
   put_opt put_id (dd_parent d); put_enum (dd_provenance d)].
Definition dec_domdecl : Reader DomainDecl :=
  i ← dec_id; g ← dec_gen; c ← r_enum "DomainClass"; n ← r_str; p ← r_opt dec_id;
  pv ← r_enum "Provenance"; mret (mkDomainDecl i g c n p pv).

Definition enc_memb (m : DomainMembership) : result bytes :=
  put_all [put_id (dm_target m); put_id (dm_domain m); put_bool (dm_known m)].
Definition dec_memb : Reader DomainMembership :=
  t ← dec_id; d ← dec_id; k ← r_boolean; mret (mkMembership t d k).

Definition enc_ev (e : FailureEvent) : result bytes := put_all
  [put_id (fe_event_id e); put_gen (fe_generation e); put_id (fe_source e); put_id (fe_source_boot e);
   put_enum (fe_category e); put_enum (fe_status e); put_enum (fe_provenance e); put_enum (fe_severity e);
   put_double (fe_confidence e); put_opt put_id (fe_target e); put_opt put_gen (fe_target_generation e);
   put_opt put_id (fe_domain e); enc_ts (fe_observed e); enc_ts (fe_received e);
   put_string (fe_mechanism e); put_string (fe_detail e); put_list put_id (fe_affected_domains e);
   put_bool (fe_revalidates_existing e)].
Definition dec_ev : Reader FailureEvent :=
  i ← dec_id; g ← dec_gen; so ← dec_id; sb ← dec_id; ca ← r_enum "FailureCategory";
  st ← r_enum "EvidenceStatus"; pv ← r_enum "Provenance"; se ← r_enum "Severity"; cf ← r_dbl;
  t ← r_opt dec_id; tg ← r_opt dec_gen; d ← r_opt dec_id; ob ← dec_ts; rc ← dec_ts; me ← r_str;
  de ← r_str; ad ← r_list dec_id; re ← r_boolean;
  mret (mkFailureEvent i g so sb ca st pv se cf t tg d ob rc me de ad re).

Definition enc_epoch (e : CoordinatorEpoch) : result bytes :=
  put_all [put_u64 (ep_epoch e); put_id (ep_id e); put_id (ep_boot e)].
Definition dec_epoch : Reader CoordinatorEpoch :=
  if args_left_to_right then v ← r_u64; i ← dec_id; b ← dec_id; mret (mkEpoch v i b)
  else b ← dec_id; i ← dec_id; v ← r_u64; mret (mkEpoch v i b).

Definition enc_route (e : RouteEntry) : result bytes := put_all
  [put_id (re_route e); put_gen (re_generation e); enc_slotkey (re_slot e); put_id (re_target e);
   put_gen (re_target_generation e); put_id (re_incarnation e); put_id (re_permitted_boot e);
   put_id (re_assignment e); put_gen (re_assignment_generation e); enc_epoch (re_epoch e);
   put_id (re_gateway_boot e); put_enum (re_state e); put_string (re_transport e);
   put_enum (re_provenance e)].
Definition dec_route : Reader RouteEntry :=
  i ← dec_id; g ← dec_gen; sl ← dec_slotkey; t ← dec_id; tg ← dec_gen; ei ← dec_id; pb ← dec_id;
  a ← dec_id; ag ← dec_gen; ep ← dec_epoch; gb ← dec_id; st ← r_enum "RouteState"; tr ← r_str;
  pv ← r_enum "Provenance"; mret (mkRouteEntry i g sl t tg ei pb a ag ep st gb tr pv).
End structs.

(** * The round trips of the structs *)

#[export] Instance typed_ts : Typed Timestamp := fun t =>
  - 2 ^ 63 <= wall_ns t < 2 ^ 63 /\ u64 (ts_seq t).
#[export] Instance typed_slotkey : Typed ServiceSlotKey := fun s => typed (sk_service s) /\ typed (sk_slot s).
#[export] Instance typed_compat : Typed CompatibilityRequirement := fun c =>
  typed (cr_model_key c) /\ typed (cr_runtime_abi c) /\ typed (cr_readiness_profile c) /\
  typed (cr_dependencies c) /\ typed (cr_required_capabilities c).
#[export] Instance typed_enum_list : Typed DomainClass := fun _ => True.
#[export] Instance typed_domreq : Typed DomainRequirement := fun d =>
  u32 (dr_min_distinct_hosts d) /\ u32 (dr_min_distinct_devices d) /\ typed (dr_forbidden_overlap_classes d).
#[export] Instance typed_resreq : Typed ResourceRequirement := fun r =>
  typed (rr_resource_class r) /\ typed_double (rr_amount r).
#[export] Instance typed_reco : Typed RecoveryObjective := fun o =>
  u64 (ro_rto_ms o) /\ u64 (ro_max_state_loss_sequences o) /\ typed (ro_min_checkpoint_gen o).
#[export] Instance typed_afp : Typed AntiFlappingPolicy := fun p =>
  u32 (afp_max_auto_attempts p) /\ u32 (afp_cooldown_ms p) /\ u32 (afp_hysteresis_ms p).
#[export] Instance typed_svc : Typed ServiceDefinition := fun s =>
  typed (svc_service s) /\ typed (svc_generation s) /\ typed (svc_config_generation s) /\
  typed (svc_name s) /\ u32 (sr_first (svc_slots s)) /\ u32 (sr_count (svc_slots s)) /\
  typed (svc_compatibility s) /\ typed (svc_domain_requirement s) /\ typed (svc_resources s) /\
  typed (svc_recovery s) /\ typed (svc_anti_flapping s) /\ typed (svc_required_state s) /\
  typed (svc_policy_generation s).
#[export] Instance typed_assignment : Typed Assignment := fun a =>
  typed (asg_id a) /\ typed (asg_generation a) /\ typed (asg_slot a) /\ typed (asg_target a) /\
  typed (asg_target_generation a) /\ typed (asg_replica a) /\ typed (asg_replica_generation a) /\
  typed (asg_engine a) /\ typed (asg_engine_incarnation a) /\ typed (asg_readiness_profile a) /\
  typed (asg_authority_generation a) /\ typed (asg_activation a) /\ typed (asg_activation_generation a) /\
  typed (asg_route a) /\ typed (asg_route_generation a) /\ typed (asg_worker_boot a) /\
  typed (asg_resource_claims a) /\ typed (asg_continuity_state a).
#[export] Instance typed_domdecl : Typed DomainDecl := fun d =>
  typed (dd_id d) /\ typed (dd_generation d) /\ typed (dd_name d) /\ typed (dd_parent d).
#[export] Instance typed_memb : Typed DomainMembership := fun m => typed (dm_target m) /\ typed (dm_domain m).
#[export] Instance typed_event : Typed FailureEvent := fun e =>
  typed (fe_event_id e) /\ typed (fe_generation e) /\ typed (fe_source e) /\ typed (fe_source_boot e) /\
  typed_double (fe_confidence e) /\ typed (fe_target e) /\ typed (fe_target_generation e) /\
  typed (fe_domain e) /\ typed (fe_observed e) /\ typed (fe_received e) /\ typed (fe_mechanism e) /\
  typed (fe_detail e) /\ typed (fe_affected_domains e).
#[export] Instance typed_epoch : Typed CoordinatorEpoch := fun e =>
  u64 (ep_epoch e) /\ typed (ep_id e) /\ typed (ep_boot e).
#[export] Instance typed_route : Typed RouteEntry := fun e =>
  typed (re_route e) /\ typed (re_generation e) /\ typed (re_slot e) /\ typed (re_target e) /\
  typed (re_target_generation e) /\ typed (re_incarnation e) /\ typed (re_permitted_boot e) /\
  typed (re_assignment e) /\ typed (re_assignment_generation e) /\ typed (re_epoch e) /\
  typed (re_gateway_boot e) /\ typed (re_transport e).

(** Every field of a typed struct is typed. *)
Ltac split_typed :=
  repeat match goal with H : _ /\ _ |- _ => destruct H end.

(** A signed 64-bit value survives the cast to unsigned and back. *)
Lemma to_int64_wrap w : - 2 ^ 63 <= w < 2 ^ 63 -> to_int64 (wrap64 w) = w.
Proof.
  intros Hw. unfold to_int64, wrap64. destruct (Z.lt_ge_cases w 0).
  - rewrite <- (Z.mod_unique w (2 ^ 64) (-1) (w + 2 ^ 64)) by lia.
    destruct (Z.ltb_spec (w + 2 ^ 64) (2 ^ 63)); lia.
  - rewrite Z.mod_small by lia. destruct (Z.ltb_spec w (2 ^ 63)); lia.
Qed.

Lemma RT_ts t : typed t -> RT (enc_ts t) dec_ts t.
Proof.
  intros [Hw Hs]. unfold enc_ts, dec_ts.
  assert (u64 (wrap64 (wall_ns t))) by (unfold u64, wrap64; apply Z.mod_pos_bound; lia).
  rt_field. rt_field. apply RT_ret. destruct t as [w s]; simpl in *. f_equal. by apply to_int64_wrap.
Qed.
#[export] Hint Resolve RT_ts : codec.

Lemma RT_slotkey s : typed s -> RT (enc_slotkey s) dec_slotkey s.
Proof. intros []. unfold enc_slotkey, dec_slotkey. rt_struct. by destruct s. Qed.

Lemma RT_compat c : typed c -> RT (enc_compat c) dec_compat c.
Proof. intros H. unfold typed, typed_compat in H. split_typed. unfold enc_compat, dec_compat. rt_struct. by destruct c. Qed.

Lemma RT_domain_class (x : DomainClass) : typed x -> RT (put_enum x) (r_enum "DomainClass") x.
Proof. intros _. apply RT_enum. by destruct x. Qed.
#[export] Hint Resolve RT_slotkey RT_compat RT_domain_class : codec.

Lemma RT_domreq d : typed d -> RT (enc_domreq d) dec_domreq d.
Proof. intros H. unfold typed, typed_domreq in H. split_typed. unfold enc_domreq, dec_domreq. rt_struct. by destruct d. Qed.

Lemma RT_resreq r : typed r -> RT (enc_resreq r) dec_resreq r.
Proof. intros H. unfold typed, typed_resreq in H. split_typed. unfold enc_resreq, dec_resreq. rt_struct. by destruct r. Qed.

Lemma RT_reco o : typed o -> RT (enc_reco o) dec_reco o.
Proof. intros H. unfold typed, typed_reco in H. split_typed. unfold enc_reco, dec_reco. rt_struct. by destruct o. Qed.

Lemma RT_afp p : typed p -> RT (enc_afp p) dec_afp p.
Proof. intros H. unfold typed, typed_afp in H. split_typed. unfold enc_afp, dec_afp. rt_struct. by destruct p. Qed.
#[export] Hint Resolve RT_domreq RT_resreq RT_reco RT_afp : codec.

Lemma RT_svc s : typed s -> RT (enc_svc s) dec_svc s.
Proof.
  intros H. unfold typed, typed_svc in H. split_typed. unfold enc_svc, dec_svc. rt_struct.
  by destruct s as [? ? ? ? ? [] ? ? ? ? ? ? ? ? ?].
Qed.

Lemma RT_assign a : typed a -> RT (enc_assign a) dec_assign a.
Proof. intros H. unfold typed, typed_assignment in H. split_typed. unfold enc_assign, dec_assign. rt_struct. by destruct a. Qed.

Lemma RT_domdecl d : typed d -> RT (enc_domdecl d) dec_domdecl d.
Proof. intros H. unfold typed, typed_domdecl in H. split_typed. unfold enc_domdecl, dec_domdecl. rt_struct. by destruct d. Qed.

Lemma RT_memb m : typed m -> RT (enc_memb m) dec_memb m.
Proof. intros H. unfold typed, typed_memb in H. split_typed. unfold enc_memb, dec_memb. rt_struct. by destruct m. Qed.

Lemma RT_ev e : typed e -> RT (enc_ev e) dec_ev e.
Proof. intros H. unfold typed, typed_event in H. split_typed. unfold enc_ev, dec_ev. rt_struct. by destruct e. Qed.
#[export] Hint Resolve RT_svc RT_assign RT_domdecl RT_memb RT_ev : codec.

(** An epoch as it is read back: right-to-left evaluation exchanges its first and
    last field. *)
Definition reread_epoch `{EvalOrder} (e : CoordinatorEpoch) : CoordinatorEpoch :=
  if args_left_to_right then e else mkEpoch (id_value (ep_boot e)) (ep_id e) (mkId (ep_epoch e)).
Definition reread_route `{EvalOrder} (r : RouteEntry) : RouteEntry :=
  r <| re_epoch := reread_epoch (re_epoch r) |>.

Section ordered.
Context `{EO : EvalOrder}.

Lemma RT_epoch e : typed e -> RT (enc_epoch e) dec_epoch (reread_epoch e).
Proof.
  intros H. unfold typed, typed_epoch in H. split_typed. destruct e as [v i [b]].
  unfold enc_epoch, dec_epoch, reread_epoch. cbn [ep_epoch ep_id ep_boot] in *.
  destruct args_left_to_right; [rt_struct |].
  eapply RT_cons; [exact (RT_id (mkId v) ltac:(assumption)) |].
  eapply RT_cons; [by apply RT_id |]. eapply RT_cons; [by apply (RT_u64 b) |]. by apply RT_ret.
Qed.

Lemma RT_route e : typed e -> RT (enc_route e) dec_route (reread_route e).
Proof.
  intros H. unfold typed, typed_route in H. split_typed. unfold enc_route, dec_route.
  do 9 rt_field. eapply RT_cons; [by apply RT_epoch |]. rt_struct.
Qed.
End ordered.
