(* ===== verification/Persistence.v ===== *)
(** The durable state (persistence.hpp, persistence.cpp): the snapshot, its
    self-describing blob (magic, version, length, payload, FNV-1a checksum), the
    semantic validation of a decoded snapshot, and the file replacement of
    [save_file] as a sequence of file-system steps. *)

From stdpp Require Import base list gmap strings.
From Stdlib Require Import ZArith Lia.
From S2P Require Import Prelude Identities Types Double Bytes Model Codec.

Open Scope Z_scope.

(** [struct PersistenceSnapshot]. *)
Record PersistenceSnapshot : Type := mkPersist
  { ps_format_version : Z;
    ps_epoch : CoordinatorEpoch;
    ps_policy_generation : PolicyGeneration;
    ps_last_authority_gen : ServiceAuthorityGeneration;
    ps_services : list ServiceDefinition;
    ps_assignments : list Assignment;
    ps_domains : list DomainDecl;
    ps_memberships : list DomainMembership;
    ps_evidence : list FailureEvent;
    ps_routes : list RouteEntry;
    ps_fenced_boots : list WorkerBootId;
    ps_has_txn : bool;
    ps_txn_milestone : Milestone;
    ps_pending_assignment : option Assignment;
    ps_source_assignment : option Assignment;
    ps_pending_route : option RouteEntry }.
#[export] Instance PersistenceSnapshot_eta : Eta PersistenceSnapshot := fun s => mkPersist
  (ps_format_version s) (ps_epoch s) (ps_policy_generation s) (ps_last_authority_gen s)
  (ps_services s) (ps_assignments s) (ps_domains s) (ps_memberships s) (ps_evidence s)
  (ps_routes s) (ps_fenced_boots s) (ps_has_txn s) (ps_txn_milestone s)
  (ps_pending_assignment s) (ps_source_assignment s) (ps_pending_route s).

Definition persist_default : PersistenceSnapshot :=
  mkPersist 2 epoch_default gen_default gen_default [] [] [] [] [] [] [] false
    Milestone.VERIFICATION_COMPLETE None None None.

Definition kMagic : bytes := string_bytes "FFRST001".
Definition kVersion : Z := 2.

(** * Encoding *)

(** The transaction record, written only when there is one. *)
Definition enc_txn (s : PersistenceSnapshot) : result bytes :=
  if ps_has_txn s then put_all
    [put_enum (ps_txn_milestone s); put_opt enc_assign (ps_pending_assignment s);
     put_opt enc_assign (ps_source_assignment s); put_opt enc_route (ps_pending_route s)]
  else put_all [].

Definition enc_payload (s : PersistenceSnapshot) : result bytes := put_all
  [put_u32 (ps_format_version s); enc_epoch (ps_epoch s); put_gen (ps_policy_generation s);
   put_gen (ps_last_authority_gen s); put_list enc_svc (ps_services s);
   put_list enc_assign (ps_assignments s); put_list enc_domdecl (ps_domains s);
   put_list enc_memb (ps_memberships s); put_list enc_ev (ps_evidence s);
   put_list enc_route (ps_routes s); put_list put_id (ps_fenced_boots s);
   put_bool (ps_has_txn s); enc_txn s].

Definition encode (s : PersistenceSnapshot) : result bytes :=
  if negb (Z.eqb (ps_format_version s) kVersion) then Throw (RuntimeError "unsupported format version")
  else
    payload ← enc_payload s;
    let blob := kMagic ++ le_bytes 4 kVersion ++ le_bytes 8 (Z.of_nat (length payload)) ++ payload in
    Ok (blob ++ le_bytes 8 (fnv1a blob fnv_offset)).

(** * Decoding *)

Section decode.
Context `{EO : EvalOrder}.

Definition dec_txn (s : PersistenceSnapshot) : Reader PersistenceSnapshot :=
  b ← r_boolean;
  if (b : bool) then
    m ← r_enum "Milestone"; pa ← r_opt dec_assign; sa ← r_opt dec_assign; pr ← r_opt dec_route;
    if match pa with Some a => negb (bool_decide (asg_state a = AssignmentState.AUTHORIZED)) | None => false end
    then throw (RuntimeError "pending assignment must be authorized")
    else mret (s <| ps_has_txn := true |> <| ps_txn_milestone := m |> <| ps_pending_assignment := pa |>
                 <| ps_source_assignment := sa |> <| ps_pending_route := pr |>)
  else mret s.

Definition dec_payload : Reader PersistenceSnapshot :=
  v ← r_u32;
  if negb (Z.eqb v kVersion) then throw (RuntimeError "unsupported snapshot format_version")
  else
    ep ← dec_epoch; pg ← dec_gen; ag ← dec_gen; svcs ← r_list dec_svc; asgs ← r_list dec_assign;
    doms ← r_list dec_domdecl; mems ← r_list dec_memb; evs ← r_list dec_ev; rts ← r_list dec_route;
    fbs ← r_list dec_id;
    dec_txn (mkPersist v ep pg ag svcs asgs doms mems evs rts fbs false
               Milestone.VERIFICATION_COMPLETE None None None).

(** The framing checks of [decode], in order; the result is the payload length. *)
Definition decode_header (blob : bytes) : result Z :=
  if Z.ltb (Z.of_nat (length blob)) (8 + 4 + 8 + 8 + 8) then Throw (RuntimeError "persistence blob too short")
  else if negb (bool_decide (take 8 blob = kMagic)) then Throw (RuntimeError "bad persistence magic")
  else if negb (Z.eqb (le_read 0 0 (take 4 (drop 8 blob))) kVersion)
    then Throw (RuntimeError "unsupported persistence version")
  else
    let plen := le_read 0 0 (take 8 (drop 12 blob)) in
    if Z.ltb kMaxBlob plen then Throw (RuntimeError "persistence payload too large")
    else if negb (Z.eqb (20 + plen + 8) (Z.of_nat (length blob)))
      then Throw (RuntimeError "persistence length mismatch")
    else
      let crc_stored := le_read 0 0 (take 8 (drop (20 + Z.to_nat plen) blob)) in
      let crc_calc := fnv1a (take (20 + Z.to_nat plen) blob) fnv_offset in
      if negb (Z.eqb crc_calc crc_stored) then Throw (RuntimeError "persistence checksum mismatch")
      else Ok plen.

(** The semantic validation, in the order of the loops. *)
Fixpoint check_service_ids (seen : list ServiceId) (l : list ServiceDefinition) : result unit :=
  match l with
  | [] => Ok tt
  | d :: l' => if mem id_eqb (svc_service d) seen then Throw (RuntimeError "duplicate service identity")
               else check_service_ids (svc_service d :: seen) l'
  end.

Fixpoint check_slot_counts (l : list ServiceDefinition) : result unit :=
  match l with
  | [] => Ok tt
  | d :: l' => if Z.eqb (sr_count (svc_slots d)) 0 then Throw (RuntimeError "service has zero slots")
               else check_slot_counts l'
  end.

Definition is_active (a : Assignment) : bool := bool_decide (asg_state a = AssignmentState.ACTIVE).

Fixpoint check_assignments (svc_ids : list ServiceId) (seen_active : list ServiceSlotKey)
    (l : list Assignment) : result unit :=
  match l with
  | [] => Ok tt
  | a :: l' =>
    if negb (mem id_eqb (sk_service (asg_slot a)) svc_ids)
      then Throw (RuntimeError "assignment references unknown service")
    else if is_active a && mem slotkey_eqb (asg_slot a) seen_active
      then Throw (RuntimeError "duplicate exclusive active assignment")
    else if gen_is_null (asg_authority_generation a) then Throw (RuntimeError "null authority generation")
    else check_assignments svc_ids (if is_active a then asg_slot a :: seen_active else seen_active) l'
  end.

Definition check_snapshot (s : PersistenceSnapshot) : result unit :=
  _ ← check_service_ids [] (ps_services s);
  _ ← check_slot_counts (ps_services s);
  check_assignments (svc_service <$> ps_services s) [] (ps_assignments s).

Definition decode (blob : bytes) : result PersistenceSnapshot :=
  plen ← decode_header blob;
  match dec_payload (take (Z.to_nat plen) (drop 20 blob)) with
  | (_, Throw e) => Throw e
  | (rest, Ok s) =>
    if bool_decide (rest = []) then _ ← check_snapshot s; Ok s
    else Throw (RuntimeError "trailing garbage in persistence payload")
  end.

Definition exn_what (e : exn) : string :=
  match e with
  | GenerationExhausted w | CapacityExceeded w | InvalidArgument w
  | LogicError w | RuntimeError w | ProtocolError w => w
  end.

Definition validate (blob : bytes) : list string :=
  match decode blob with Ok _ => [] | Throw e => [exn_what e] end.
End decode.

(** * Files *)

(** The directory: file names to their contents. *)
Notation FileSystem := (gmap string bytes).

(** What the operating system may answer during one [save_file]: whether the
    temporary file opens, how many bytes reach it when the write fails, and whether
    the rename succeeds. *)
Record SaveIo : Type := mkSaveIo { io_open : bool; io_short_write : option nat; io_rename : bool }.

(** The states of the directory a crash can leave during [save_file], in order: the
    truncated temporary file, each prefix written to it, [path] removed, the rename. *)
Definition save_states (path : string) (blob : bytes) (fs : FileSystem) : list FileSystem :=
  let tmp := path +:+ ".tmp" in
  ((fun n => <[tmp := take n blob]> fs) <$> seq 0 (S (length blob))) ++
  [delete path (<[tmp := blob]> fs); <[path := blob]> (delete tmp (delete path (<[tmp := blob]> fs)))].

Definition save_file (io : SaveIo) (path : string) (s : PersistenceSnapshot) : ST FileSystem unit := fun fs =>
  match encode s with
  | Throw e => (fs, Throw e)
  | Ok blob =>
    let tmp := path +:+ ".tmp" in
    if negb (io_open io) then (fs, Throw (RuntimeError ("cannot open persistence file for write: " +:+ path)))
    else match io_short_write io with
    | Some n => (<[tmp := take n blob]> fs, Throw (RuntimeError "persistence write failed"))
    | None =>
      let removed := delete path (<[tmp := blob]> fs) in
      if negb (io_rename io) then (removed, Throw (RuntimeError "persistence rename failed"))
      else (<[path := blob]> (delete tmp removed), Ok tt)
    end
  end.

Definition load_file `{EvalOrder} (path : string) (fs : FileSystem) : result PersistenceSnapshot :=
  match fs !! path with
  | None => Throw (RuntimeError ("cannot open persistence file: " +:+ path))
  | Some blob => decode blob
  end.

Definition validate_file `{EvalOrder} (path : string) (fs : FileSystem) : list string :=
  match fs !! path with
  | None => ["cannot open persistence file: " +:+ path]
  | Some blob => validate blob
  end.

(** * Validity *)

(** What the semantic validation promises of a decoded snapshot. *)
Record SnapshotValid (s : PersistenceSnapshot) : Prop := {
  sv_services : NoDup (svc_service <$> ps_services s);
  sv_slots : Forall (fun d => sr_count (svc_slots d) <> 0) (ps_services s);
  sv_refs : Forall (fun a => sk_service (asg_slot a) ∈ svc_service <$> ps_services s /\
                             asg_authority_generation a <> gen_null) (ps_assignments s);
  sv_exclusive : NoDup (asg_slot <$> List.filter is_active (ps_assignments s)) }.

Lemma check_service_ids_ok seen l :
  check_service_ids seen l = Ok tt <->
  NoDup (svc_service <$> l) /\ Forall (fun d => svc_service d ∉ seen) l.
Proof.
  revert seen. induction l as [| d l IH]; intros seen; simpl.
  { split; [intros _; split; constructor | done]. }
  rewrite NoDup_cons, Forall_cons, list_elem_of_fmap.
  destruct (mem id_eqb (svc_service d) seen) eqn:E.
  - apply (mem_true _ id_eqb_eq) in E. naive_solver.
  - apply not_true_iff_false in E. rewrite (mem_true _ id_eqb_eq) in E. rewrite IH, !Forall_forall.
    setoid_rewrite not_elem_of_cons. naive_solver.
Qed.

Lemma check_slot_counts_ok l :
  check_slot_counts l = Ok tt <-> Forall (fun d => sr_count (svc_slots d) <> 0) l.
Proof.
  induction l as [| d l IH]; simpl; [split; [constructor | done] |].
  rewrite Forall_cons, <- IH. destruct (Z.eqb_spec (sr_count (svc_slots d)) 0); naive_solver.
Qed.

Lemma gen_is_null_false {t} (g : Gen t) : gen_is_null g = false <-> g <> gen_null.
Proof.
  destruct g as [v]. unfold gen_is_null, gen_null. simpl. rewrite Z.eqb_neq.
  split; [intros H [= ->]; done | intros H ->; done].
Qed.

Lemma check_assignments_ok ids seen l :
  check_assignments ids seen l = Ok tt <->
  Forall (fun a => sk_service (asg_slot a) ∈ ids /\ asg_authority_generation a <> gen_null) l /\
  NoDup (asg_slot <$> List.filter is_active l) /\
  Forall (fun a => asg_slot a ∉ seen) (List.filter is_active l).
Proof.
  revert seen. induction l as [| a l IH]; intros seen; simpl.
  { split; [intros _; repeat split; constructor | done]. }
  rewrite Forall_cons, <- (mem_true _ id_eqb_eq), <- gen_is_null_false.
  destruct (mem id_eqb (sk_service (asg_slot a)) ids); simpl; [| naive_solver].
  destruct (is_active a) eqn:Ea; simpl.
  - destruct (mem slotkey_eqb (asg_slot a) seen) eqn:Em.
    + apply (mem_true _ slotkey_eqb_eq) in Em. rewrite !Forall_cons. naive_solver.
    + apply not_true_iff_false in Em. rewrite (mem_true _ slotkey_eqb_eq) in Em.
      destruct (gen_is_null _); [naive_solver |].
      rewrite IH, !Forall_cons, NoDup_cons, list_elem_of_fmap, !Forall_forall.
      setoid_rewrite not_elem_of_cons. naive_solver.
  - destruct (gen_is_null _); [naive_solver |]. rewrite IH. naive_solver.
Qed.

Lemma check_snapshot_ok s : check_snapshot s = Ok tt <-> SnapshotValid s.
Proof.
  unfold check_snapshot, mbind, result_bind.
  destruct (check_service_ids [] (ps_services s)) as [[] | e] eqn:E1.
  - apply check_service_ids_ok in E1 as [H1 _].
    destruct (check_slot_counts (ps_services s)) as [[] | e] eqn:E2.
    + apply check_slot_counts_ok in E2. rewrite check_assignments_ok. split.
      * intros (? & ? & _). by split.
      * intros []. split; [done |]. split; [done |]. apply Forall_forall. intros a _ Ha.
        by apply elem_of_nil in Ha.
    + split; [done |]. intros [_ H2 _ _]. apply check_slot_counts_ok in H2. congruence.
  - split; [done |]. intros [H1 _ _ _].
    assert (check_service_ids [] (ps_services s) = Ok tt); [| congruence].
    apply check_service_ids_ok. split; [done |]. apply Forall_forall. intros d _ Hd. by apply elem_of_nil in Hd.
Qed.

(** * The framing *)

Section framing.
Implicit Types blob : bytes.

(** What an accepted header says of the blob. *)
Lemma decode_header_ok blob plen :
  decode_header blob = Ok plen <->
  36 <= Z.of_nat (length blob) /\ take 8 blob = kMagic /\
  le_read 0 0 (take 4 (drop 8 blob)) = kVersion /\ plen = le_read 0 0 (take 8 (drop 12 blob)) /\
  plen <= kMaxBlob /\ 28 + plen = Z.of_nat (length blob) /\
  fnv1a (take (20 + Z.to_nat plen) blob) fnv_offset =
    le_read 0 0 (take 8 (drop (20 + Z.to_nat plen) blob)).
Proof.
  unfold decode_header.
  destruct (Z.ltb_spec (Z.of_nat (length blob)) (8 + 4 + 8 + 8 + 8)); [split; [done | lia] |].
  case_bool_decide; cbn [negb]; [| split; [done | naive_solver]].
  destruct (Z.eqb_spec (le_read 0 0 (take 4 (drop 8 blob))) kVersion); cbn [negb]; [| split; [done | naive_solver]].
  generalize (le_read 0 0 (take 8 (drop 12 blob))). intros p.
  destruct (Z.ltb_spec kMaxBlob p); [split; [done | intros (_ & _ & _ & -> & ? & _); lia] |].
  destruct (Z.eqb_spec (20 + p + 8) (Z.of_nat (length blob))); cbn [negb];
    [| split; [done | intros (_ & _ & _ & -> & _ & ? & _); lia]].
  destruct (Z.eqb_spec (fnv1a (take (20 + Z.to_nat p) blob) fnv_offset)
              (le_read 0 0 (take 8 (drop (20 + Z.to_nat p) blob)))); cbn [negb].
  - split; [intros [= <-]; split_and!; done || lia | intros (_ & _ & _ & -> & _); done].
  - split; [done | intros (_ & _ & _ & -> & _ & _ & ?); done].
Qed.

Lemma decode_header_error blob :
  (exists plen, decode_header blob = Ok plen) \/ exists w, decode_header blob = Throw (RuntimeError w).
Proof.
  unfold decode_header. repeat (case_match; [right; by eexists |]). left. by eexists.
Qed.

Lemma are_bytes_take n (bs : bytes) : are_bytes bs -> are_bytes (take n bs).
Proof. apply Forall_take. Qed.
Lemma are_bytes_drop n (bs : bytes) : are_bytes bs -> are_bytes (drop n bs).
Proof. apply Forall_drop. Qed.
End framing.

(** * Round trip *)




Section roundtrip.
Context `{EO : EvalOrder}.
Implicit Types s : PersistenceSnapshot.


End roundtrip.

(** * Lemmas on the blob *)

Section blob.
Context `{EO : EvalOrder}.


Lemma decode_ok blob s :
  decode blob = Ok s <->
  exists plen, decode_header blob = Ok plen /\
    dec_payload (take (Z.to_nat plen) (drop 20 blob)) = ([], Ok s) /\ SnapshotValid s.
Proof.
  unfold decode, mbind, result_bind. destruct (decode_header blob) as [plen | e]; [| split; [done | by intros (? & ? & _)]].
  destruct (dec_payload _) as [rest [s' | e]] eqn:E.
  - case_bool_decide as Hr; [subst rest |].
    + destruct (check_snapshot s') as [[] | e] eqn:Ec.
      * apply check_snapshot_ok in Ec. split; [intros [= <-]; eauto |].
        intros (? & [= <-] & E' & _). by rewrite E in E'; injection E' as ->.
      * split; [done |]. intros (? & [= <-] & E' & Hv). rewrite E in E'. injection E' as ->.
        apply check_snapshot_ok in Hv. congruence.
    + split; [done |]. intros (? & [= <-] & E' & _). congruence.
  - split; [done |]. intros (? & [= <-] & E' & _). congruence.
Qed.

Lemma put_all_min e es bs : put_all (e :: es) = Ok bs -> exists b, e = Ok b /\ (length b <= length bs)%nat.
Proof.
  simpl. unfold mbind, result_bind. destruct e as [b |]; [| done]. destruct (put_all es); [| done].
  intros [= <-]. exists b. rewrite length_app. split; [done | lia].
Qed.


(** Flipping a byte of an accepted blob breaks the framing. *)
Lemma decode_header_detects l1 b b' l2 plen :
  are_bytes (l1 ++ b :: l2) -> u8 b' -> b <> b' ->
  decode_header (l1 ++ b :: l2) = Ok plen -> forall plen', decode_header (l1 ++ b' :: l2) <> Ok plen'.
Proof.
  intros Hb Hb' Hne (H36 & _ & _ & Ep & _ & Hlen & Hcrc)%decode_header_ok plen' (_ & _ & _ & Ep' & _ & Hlen' & Hcrc')%decode_header_ok.
  rewrite !length_app in *. simpl length in *.
  assert (plen' = plen) as -> by lia. clear Ep Ep' Hlen'.
  apply Forall_app in Hb as [Hl1 [Hub Hl2]%Forall_cons].
  set (n := (20 + Z.to_nat plen)%nat) in *.
  destruct (decide (length l1 < n)%nat) as [Hlt | Hge].
  - rewrite !drop_app_ge in Hcrc, Hcrc' by lia.
    rewrite !take_app_ge in Hcrc, Hcrc' by lia.
    destruct (n - length l1)%nat as [| m] eqn:Em; [lia |]. simpl in Hcrc, Hcrc'.
    assert (fnv1a (l1 ++ b :: take m l2) fnv_offset = fnv1a (l1 ++ b' :: take m l2) fnv_offset) as Heq by congruence.
    revert Heq. apply fnv1a_detects_byte; done || by apply are_bytes_take.
  - rewrite !take_app_le in Hcrc, Hcrc' by lia. rewrite Hcrc in Hcrc'.
    rewrite !drop_app_le in Hcrc' by lia.
    assert (length l1 + S (length l2) = n + 8)%nat as Htot by lia.
    rewrite !take_ge in Hcrc' by (rewrite length_app, length_drop; simpl; lia).
    apply (le_read_inj 0 0 0) in Hcrc' as [_ Heq%app_inv_head]; [congruence | | | | simpl; lia ..].
    + apply Forall_app. split; [by apply are_bytes_drop | by constructor].
    + apply Forall_app. split; [by apply are_bytes_drop | by constructor].
    + rewrite !length_app. done.
Qed.
End blob.

(** * Theorems *)


(** C24: No single corrupted byte gets through: if [decode] accepts a blob, it rejects
    every blob that differs from it in exactly one byte (magic, version, length,
    payload or checksum alike), with a [std::runtime_error]. *)
Theorem decode_detects_corrupt_byte `{EO : EvalOrder} (l1 l2 : bytes) (b b' : Z) (s : PersistenceSnapshot) :
  are_bytes (l1 ++ b :: l2) -> u8 b' -> b <> b' -> decode (l1 ++ b :: l2) = Ok s ->
  exists w, decode (l1 ++ b' :: l2) = Throw (RuntimeError w).
Proof.
  intros Hb Hb' Hne (plen & Hh & _)%decode_ok.
  pose proof (decode_header_detects l1 b b' l2 plen Hb Hb' Hne Hh) as Hbad. unfold decode.
  destruct (decode_header_error (l1 ++ b' :: l2)) as [[p Hp] | [w ->]]; [by apply Hbad in Hp | by exists w].
Qed.

(** No partial or padded file gets through: if [decode] accepts a blob, it
    rejects every proper prefix and every proper extension of it. *)
Theorem decode_rejects_other_length `{EO : EvalOrder} (l1 l2 : bytes) (s : PersistenceSnapshot) :
  l2 <> [] ->
  (decode (l1 ++ l2) = Ok s -> exists w, decode l1 = Throw (RuntimeError w)) /\
  (decode l1 = Ok s -> exists w, decode (l1 ++ l2) = Throw (RuntimeError w)).
Proof.
  intros Hne.
  assert (forall p p', decode_header (l1 ++ l2) = Ok p -> decode_header l1 = Ok p' -> False) as Hboth.
  { intros p p' (_ & _ & _ & Hp & _ & Hlen & _)%decode_header_ok (H36 & _ & _ & Hp' & _ & Hlen' & _)%decode_header_ok.
    rewrite drop_app_le, take_app_le in Hp by (rewrite ?length_drop; lia).
    rewrite length_app in Hlen. destruct l2; [done |]. simpl in Hlen. lia. }
  split; intros (p & Hh & _)%decode_ok; unfold decode.
  - destruct (decode_header_error l1) as [[p' Hp'] | [w ->]]; [by destruct (Hboth p p') | by exists w].
  - destruct (decode_header_error (l1 ++ l2)) as [[p' Hp'] | [w ->]]; [by destruct (Hboth p' p) | by exists w].
Qed.

(** Whatever the bytes, a snapshot that [decode] returns is semantically valid:
    service identities are unique, no service has zero slots, every assignment
    belongs to a known service and has a non-null authority generation, and no slot
    has two ACTIVE assignments. *)
Theorem decode_valid `{EO : EvalOrder} (blob : bytes) (s : PersistenceSnapshot) :
  decode blob = Ok s -> SnapshotValid s.
Proof. by intros (plen & _ & _ & Hv)%decode_ok. Qed.

(** The directory after [save_file] is one of the crash states. *)
Lemma save_file_end io path s fs blob :
  encode s = Ok blob ->
  (save_file io path s fs).1 = fs \/ (save_file io path s fs).1 ∈ save_states path blob fs.
Proof.
  intros He. unfold save_file, save_states. rewrite He.
  destruct io as [[] [n |] []]; cbn [io_open io_short_write io_rename negb fst]; try (by left); right; apply elem_of_app.
  1, 2: left; apply list_elem_of_fmap; exists (Nat.min n (length blob)); split;
    [f_equal; destruct (Nat.min_spec n (length blob)) as [[_ ->] | [? ->]]; [done | by rewrite !take_ge by lia]
    | apply elem_of_seq; lia].
  - right. by right; left.
  - right. by left.
Qed.

(** C25: [save_file] never loses both copies: in every state a crash can leave, either
    the old file is untouched, or the complete new blob is in the temporary file,
    or it is in place; the state [save_file] itself ends in is the one it started in
    or one of these; and when no error is reported the new blob is in place and the
    rest of the directory is unchanged apart from the temporary file. *)
Theorem save_file_keeps_a_copy (io : SaveIo) (path : string) (s : PersistenceSnapshot) (fs : FileSystem)
    (blob : bytes) :
  encode s = Ok blob ->
  Forall (fun fs' => fs' !! path = fs !! path \/ fs' !! (path +:+ ".tmp") = Some blob \/
                     fs' !! path = Some blob) (save_states path blob fs) /\
  ((save_file io path s fs).1 = fs \/ (save_file io path s fs).1 ∈ save_states path blob fs) /\
  (forall fs', save_file io path s fs = (fs', Ok tt) ->
     fs' !! path = Some blob /\
     forall f, f <> path -> f <> (path +:+ ".tmp") -> fs' !! f = fs !! f).
Proof.
  intros He.
  assert ((path +:+ ".tmp") <> path) as Hneq.
  { intros E%(f_equal String.length). rewrite string_length_app in E. simpl in E. lia. }
  split_and!.
  - unfold save_states. apply Forall_app. split.
    + apply Forall_fmap, Forall_forall. intros n _. left. simpl. by rewrite lookup_insert_ne.
    + constructor; [| constructor; [| constructor]].
      * right; left. by rewrite lookup_delete_ne, lookup_insert_eq.
      * right; right. apply lookup_insert_eq.
  - by apply save_file_end.
  - intros fs'. unfold save_file. rewrite He. destruct io as [[] [n |] []]; simpl; try done.
    intros [= <-]. split; [apply lookup_insert_eq |]. intros f Hf Hft.
    by rewrite lookup_insert_ne, !lookup_delete_ne, lookup_insert_ne by congruence.
Qed.

(** The replacement is not atomic: for any existing file there is a state a crash
    can leave in which the file does not exist at its path at all, so [load_file]
    fails although the state had been saved before. *)
Theorem save_file_not_atomic `{EO : EvalOrder} (path : string) (blob : bytes) (fs : FileSystem) :
  exists fs', fs' ∈ save_states path blob fs /\ fs' !! path = None /\
    load_file path fs' = Throw (RuntimeError ("cannot open persistence file: " +:+ path)).
Proof.
  exists (delete path (<[path +:+ ".tmp" := blob]> fs)). split.
  - unfold save_states. apply elem_of_app. right. apply list_elem_of_here.
  - unfold load_file. by rewrite lookup_delete_eq.
Qed.

(** With right-to-left evaluation of the constructor arguments, which C++ allows,
    the coordinator epoch does not survive a restart: the decoder returns the boot
    identity as the epoch and the epoch as the boot identity. *)
Theorem epoch_reread_right_to_left `{EO : EvalOrder} (e : CoordinatorEpoch) :
  args_left_to_right = false -> typed e ->
  exists bs, enc_epoch e = Ok bs /\
    dec_epoch bs = ([], Ok (mkEpoch (id_value (ep_boot e)) (ep_id e) (mkId (ep_epoch e)))).
Proof.
  intros Hrl Ht. destruct (RT_epoch e Ht) as (bs & He & _ & Hd). exists bs. split; [done |].
  pose proof (Hd []) as H. rewrite app_nil_r in H. unfold reread_epoch in H. by rewrite Hrl in H.
Qed.

(** * Witnesses *)

Module PersistWitness.
Definition left_to_right : EvalOrder := true.
Definition right_to_left : EvalOrder := false.

Definition svc : ServiceDefinition := service_default <| svc_service := mkId 1 |> <| svc_name := "inference" |>.
Definition asg : Assignment :=
  assignment_default <| asg_id := mkId 3 |> <| asg_slot := mkSlotKey (mkId 1) (mkId 1) |>
    <| asg_target := mkId 9 |> <| asg_state := AssignmentState.ACTIVE |>.
(** A service with an ACTIVE assignment. *)
Definition snap : PersistenceSnapshot :=
  persist_default <| ps_epoch := mkEpoch 7 (mkId 5) (mkId 6) |> <| ps_services := [svc] |>
    <| ps_assignments := [asg] |> <| ps_fenced_boots := [mkId 4] |>.





Definition blob : bytes := Eval vm_compute in match encode snap with Ok b => b | Throw _ => [] end.
End PersistWitness.


Lemma decode_detects_corrupt_byte_witness :
  exists w, @decode PersistWitness.left_to_right
    (take 40 PersistWitness.blob ++ 77 :: drop 41 PersistWitness.blob) = Throw (RuntimeError w).
Proof.
  apply (@decode_detects_corrupt_byte PersistWitness.left_to_right
           (take 40 PersistWitness.blob) (drop 41 PersistWitness.blob) 6 77 PersistWitness.snap).
  - vm_compute. repeat constructor; discriminate.
  - unfold u8; lia.
  - lia.
  - vm_compute. reflexivity.
Defined.

Lemma decode_rejects_other_length_witness :
  exists w, @decode PersistWitness.left_to_right (take 100 PersistWitness.blob) = Throw (RuntimeError w).
Proof.
  apply (@decode_rejects_other_length PersistWitness.left_to_right (take 100 PersistWitness.blob)
           (drop 100 PersistWitness.blob) PersistWitness.snap).
  - discriminate.
  - vm_compute. reflexivity.
Defined.

Lemma decode_valid_witness : SnapshotValid PersistWitness.snap.
Proof.
  apply (@decode_valid PersistWitness.left_to_right PersistWitness.blob). vm_compute. reflexivity.
Defined.

Lemma save_file_keeps_a_copy_witness :
  Forall (fun fs' => fs' !! "s"%string = (∅ : FileSystem) !! "s"%string \/
                     fs' !! "s.tmp"%string = Some PersistWitness.blob \/
                     fs' !! "s"%string = Some PersistWitness.blob) (save_states "s" PersistWitness.blob ∅) /\
  ((save_file (mkSaveIo true None true) "s" PersistWitness.snap ∅).1 = ∅ \/
   (save_file (mkSaveIo true None true) "s" PersistWitness.snap ∅).1 ∈ save_states "s" PersistWitness.blob ∅) /\
  (forall fs', save_file (mkSaveIo true None true) "s" PersistWitness.snap ∅ = (fs', Ok tt) ->
     fs' !! "s"%string = Some PersistWitness.blob /\
     forall f, f <> "s"%string -> f <> "s.tmp"%string -> fs' !! f = (∅ : FileSystem) !! f).
Proof.
  apply (save_file_keeps_a_copy (mkSaveIo true None true) "s" PersistWitness.snap ∅ PersistWitness.blob).
  vm_compute. reflexivity.
Defined.

Lemma epoch_reread_right_to_left_witness :
  exists bs, enc_epoch (mkEpoch 7 (mkId 5) (mkId 6)) = Ok bs /\
    @dec_epoch PersistWitness.right_to_left bs = ([], Ok (mkEpoch 6 (mkId 5) (mkId 7))).
Proof.
  apply (@epoch_reread_right_to_left PersistWitness.right_to_left (mkEpoch 7 (mkId 5) (mkId 6))).
  - reflexivity.
  - split; [| split]; unfold typed, typed_id, u64; simpl; lia.
Defined.
