(* ===== verification/Fabric.v ===== *)
(** The coordinator core (failover_fabric.hpp, fabric.cpp): the state
    [FailoverFabric::Impl] and every operation on it except the cutover
    transaction, which is in Cutover, and the restart, which is in Restart.

    The state has the vectors of the source together with their index maps, so a
    lookup goes through the index as it does in the code.  Each public operation
    runs under the mutex of the source and is therefore one atomic step; it is a
    function on the state, or a computation in [ST Impl] where it can throw or
    returns a value.  The clock is an argument, in nanoseconds. *)

From stdpp Require Import base list gmap strings.
From Stdlib Require Import ZArith Lia SpecFloat.
From S2P Require Import Prelude Identities Types Double Model Domains Evidence Routes Requests Recovery.
From S2P Require Import Selection.

Open Scope Z_scope.

(** [struct RuntimeConfig]. *)
Record RuntimeConfig : Type := mkConfig
  { cfg_max_services : Z; cfg_max_slots_per_service : Z; cfg_max_slots : Z; cfg_max_targets : Z;
    cfg_max_candidates_per_snapshot : Z; cfg_max_domains : Z; cfg_max_memberships : Z;
    cfg_max_failure_history : Z; cfg_max_requests : Z; cfg_max_attempt_history : Z;
    cfg_max_route_history : Z; cfg_max_explanations : Z; cfg_strict : bool; cfg_bounds_checked : bool }.

Definition config_default : RuntimeConfig :=
  mkConfig 10000 1024 20000 20000 4096 10000 100000 10000 65536 4096 64 4096 true true.

(** [Impl::SlotState] and [Impl::TargetRecord]. *)
Record SlotState : Type := mkSlotState
  { ss_slot : ServiceSlotKey; ss_current : option Assignment; ss_history : list Assignment }.
#[export] Instance SlotState_eta : Eta SlotState := fun s => mkSlotState (ss_slot s) (ss_current s) (ss_history s).

Record TargetRecord : Type := mkTargetRecord
  { tr_id : TargetId; tr_transport : string; tr_facts : option CandidateFacts; tr_has_state : bool;
    tr_state : CandidateState; tr_resources : list CandidateResource }.
#[export] Instance TargetRecord_eta : Eta TargetRecord := fun s => mkTargetRecord
  (tr_id s) (tr_transport s) (tr_facts s) (tr_has_state s) (tr_state s) (tr_resources s).

(** [struct FailoverFabric::Impl]. *)
Record Impl : Type := mkImpl
  { im_cfg : RuntimeConfig;
    im_services : list ServiceDefinition;
    im_service_index : gmap ServiceId nat;
    im_slots : list SlotState;
    im_slot_index : gmap ServiceSlotKey nat;
    im_targets : list TargetRecord;
    im_target_index : gmap TargetId nat;
    im_targets_by_service : gmap ServiceId (list nat);
    im_evidence : EvidenceStore;
    im_domains : DomainRegistry;
    im_routes : RouteTable;
    im_requests : RequestTracker;
    im_epoch : CoordinatorEpoch;
    im_policy_gen : PolicyGeneration;
    im_last_authority_gen : ServiceAuthorityGeneration;
    im_snapshot_counter : CandidateSnapshotGeneration;
    im_assignment_counter : AssignmentId;
    im_assignment_gen_counter : AssignmentGeneration;
    im_attempt_counter : FailoverAttemptId;
    im_attempt_gen_counter : FailoverAttemptGeneration;
    im_plan_counter : FailoverPlanId;
    im_plan_gen_counter : FailoverPlanGeneration;
    im_route_counter : RouteId;
    im_route_gen_counter : RouteGeneration;
    im_activation_counter : ActivationId;
    im_activation_gen_counter : ActivationGeneration;
    im_gateway_boot : GatewayBootId;
    im_coordinator_id : CoordinatorId;
    im_fenced_boots : list WorkerBootId;
    im_attempt_states : list AttemptState;
    im_confirmed_failed_targets : gset TargetId;
    im_receipt_seq : Z;
    im_preferred : gmap ServiceSlotKey TargetId;
    im_last_transition : gmap ServiceSlotKey Z;
    im_failback_attempts : gmap ServiceSlotKey Z;
    im_manual_failback_authorized : gset ServiceSlotKey;
    im_dispatch_count : Z;
    im_ready_since : gmap TargetId Z;
    im_checkpoint_path : string;
    im_barrier_milestone : Milestone;
    im_has_txn : bool;
    im_txn_milestone : Milestone;
    im_pending_assignment : option Assignment;
    im_source_assignment : option Assignment;
    im_pending_route : option RouteEntry }.
#[export] Instance Impl_eta : Eta Impl := fun s => mkImpl
  (im_cfg s) (im_services s) (im_service_index s) (im_slots s) (im_slot_index s) (im_targets s)
  (im_target_index s) (im_targets_by_service s) (im_evidence s) (im_domains s) (im_routes s)
  (im_requests s) (im_epoch s) (im_policy_gen s) (im_last_authority_gen s) (im_snapshot_counter s)
  (im_assignment_counter s) (im_assignment_gen_counter s) (im_attempt_counter s)
  (im_attempt_gen_counter s) (im_plan_counter s) (im_plan_gen_counter s) (im_route_counter s)
  (im_route_gen_counter s) (im_activation_counter s) (im_activation_gen_counter s)
  (im_gateway_boot s) (im_coordinator_id s) (im_fenced_boots s) (im_attempt_states s)
  (im_confirmed_failed_targets s) (im_receipt_seq s) (im_preferred s) (im_last_transition s)
  (im_failback_attempts s) (im_manual_failback_authorized s) (im_dispatch_count s)
  (im_ready_since s) (im_checkpoint_path s) (im_barrier_milestone s) (im_has_txn s)
  (im_txn_milestone s) (im_pending_assignment s) (im_source_assignment s) (im_pending_route s).

(** [Impl(RuntimeConfig)]. *)
Definition impl_init (cfg : RuntimeConfig) : Impl :=
  mkImpl cfg [] ∅ [] ∅ [] ∅ ∅ evidence_empty registry_empty routes_empty tracker_empty
    epoch_default gen_default gen_first gen_default min_id gen_default min_id gen_default
    min_id gen_default min_id gen_default min_id gen_default id_null min_id
    [] [] ∅ 0 ∅ ∅ ∅ ∅ 0 ∅ "" Milestone.VERIFICATION_COMPLETE false Milestone.INTENT_ONLY None None None.

(** * Lookups *)

(** [find_slot] with the position the pointer stands for. *)
Definition find_slot_pos (s : Impl) (k : ServiceSlotKey) : option (nat * SlotState) :=
  i ← im_slot_index s !! k; st ← im_slots s !! i; Some (i, st).
Definition find_slot (s : Impl) (k : ServiceSlotKey) : option SlotState := snd <$> find_slot_pos s k.
Definition find_target_pos (s : Impl) (t : TargetId) : option (nat * TargetRecord) :=
  i ← im_target_index s !! t; r ← im_targets s !! i; Some (i, r).
Definition find_target (s : Impl) (t : TargetId) : option TargetRecord := snd <$> find_target_pos s t.
Definition find_service (s : Impl) (id : ServiceId) : option ServiceDefinition :=
  i ← im_service_index s !! id; im_services s !! i.
Definition service_for_slot (s : Impl) (k : ServiceSlotKey) : option ServiceDefinition :=
  find_service s (sk_service k).

(** [st && st->current]. *)
Definition slot_current (s : Impl) (k : ServiceSlotKey) : option Assignment := find_slot s k ≫= ss_current.

Definition next_assignment_id : ST Impl AssignmentId := fun s =>
  (s <| im_assignment_counter := id_next (im_assignment_counter s) |>, Ok (im_assignment_counter s)).
Definition boot_fenced (s : Impl) (b : WorkerBootId) : bool := mem id_eqb b (im_fenced_boots s).
Definition add_fenced_boot (b : WorkerBootId) (s : Impl) : Impl :=
  if negb (id_is_null b) && negb (boot_fenced s b) then s <| im_fenced_boots := im_fenced_boots s ++ [b] |> else s.

(** [slot_index[k] = slots.size(); slots.push_back(SlotState{k, nullopt, {}})]. *)
Definition push_slot (k : ServiceSlotKey) (s : Impl) : Impl :=
  s <| im_slot_index := <[ k := length (im_slots s) ]> (im_slot_index s) |>
    <| im_slots := im_slots s ++ [mkSlotState k None []] |>.

(** A write through the pointer [find_slot] returned. *)
Definition write_slot (i : nat) (f : SlotState -> SlotState) (s : Impl) : Impl :=
  s <| im_slots := alter f i (im_slots s) |>.
Definition write_target (i : nat) (f : TargetRecord -> TargetRecord) (s : Impl) : Impl :=
  s <| im_targets := alter f i (im_targets s) |>.

Definition infer_continuity (st : CandidateState) (f : CandidateFacts) : ContinuityClass :=
  let ready := if cf_ready f then ContinuityClass.REPLAY_SAFE_REQUESTS else ContinuityClass.STATELESS_RESTART in
  if cs_state_available st && cs_correct_session st && cs_correct_tenant st &&
     cs_correct_model_generation st && cs_state_format_ok st && cs_status_integrity_ok st
  then match cs_checkpoint_generation st, cs_state_generation st with
       | Some _, _ => ContinuityClass.CHECKPOINT_RESTORE
       | None, Some _ => ContinuityClass.SESSION_STATE_REBIND
       | None, None => ready
       end
  else ready.

Definition crit_path_ms (c : CandidateCosts) : Z :=
  wrap64 (Z.max (cc_estimated_prep_ms c) (cc_state_restore_ms c) + 20 + 20 + 20 + 100).

Definition make_auth (epoch : CoordinatorEpoch) (a : Assignment) (c : Candidate) (req : RequestId)
    (ex : ExecutionId) (op : string) : WorkerAuthorization :=
  mkAuth epoch (asg_slot a) (asg_id a) (asg_generation a) (asg_route_generation a)
    (cf_engine_incarnation (cand_facts c)) req ex op (cf_worker_boot (cand_facts c)).

(** * Control plane *)

Definition set_coordinator_identity (id : CoordinatorId) (epoch : Z) (s : Impl) : Impl :=
  s <| im_coordinator_id := id |> <| im_epoch := mkEpoch epoch id id |>.
Definition set_gateway_boot (b : GatewayBootId) (s : Impl) : Impl := s <| im_gateway_boot := b |>.

(** * Services and assignments *)

Definition create_service (def : ServiceDefinition) : ST Impl unit := fun s =>
  if Z.leb (cfg_max_services (im_cfg s)) (Z.of_nat (length (im_services s)))
    then (s, Throw (CapacityExceeded "max_services exceeded"))
  else if existsb (fun d => svc_service d =i svc_service def) (im_services s)
    then (s, Throw (InvalidArgument "service already exists with same identity"))
  else (s <| im_service_index := <[ svc_service def := length (im_services s) ]> (im_service_index s) |>
          <| im_services := im_services s ++ [def] |>, Ok tt).

Definition get_service (s : Impl) (id : ServiceId) : option ServiceDefinition := find_service s id.

(** [slots]: the keys of a service, with the 32-bit addition of the source. *)
Definition service_slots (s : Impl) (id : ServiceId) : list ServiceSlotKey :=
  match find_service s id with
  | None => []
  | Some d => (fun i => mkSlotKey id (mkId (wrap32 (sr_first (svc_slots d) + Z.of_nat i))))
                <$> seq 0 (Z.to_nat (sr_count (svc_slots d)))
  end.

(** Lines 215-221: the assignment becomes the slot's current one and its target the
    slot's target of record; [now] is the reading of the clock. *)
Definition place_initial (now : Z) (a : Assignment) (s : Impl) : Impl :=
  let k := asg_slot a in
  let a := a <| asg_state := AssignmentState.ACTIVE |> <| asg_provisory := false |> in
  let a := if gen_is_null (asg_authority_generation a)
           then a <| asg_authority_generation := im_last_authority_gen s |> else a in
  let s := s <| im_preferred := <[ k := asg_target a ]> (im_preferred s) |>
             <| im_last_transition := <[ k := now ]> (im_last_transition s) |>
             <| im_failback_attempts := <[ k := 0 ]> (im_failback_attempts s) |> in
  match im_slot_index s !! k with
  | Some i => write_slot i (fun st => st <| ss_current := Some a |>) s
  | None => s
  end.

Definition set_initial_assignment (now : Z) (a : Assignment) : ST Impl unit := fun s =>
  let k := asg_slot a in
  if id_is_null (sk_service k) || id_is_null (sk_slot k)
    then (s, Throw (InvalidArgument "assignment slot is null"))
  else match find_slot s k with
  | Some (mkSlotState _ (Some _) _) => (s, Throw (LogicError "slot already has a current assignment"))
  | Some _ => (place_initial now a s, Ok tt)
  | None => (place_initial now a (push_slot k s), Ok tt)
  end.

Definition current_assignment (s : Impl) (k : ServiceSlotKey) : option Assignment := slot_current s k.
Definition assignment_history (s : Impl) (k : ServiceSlotKey) (max : Z) : list Assignment :=
  match find_slot s k with None => [] | Some st => truncate (ss_history st) max end.

(** * Domains *)

Definition declare_domain (d : DomainDecl) (s : Impl) : Impl := s <| im_domains := declare d (im_domains s) |>.
Definition set_membership (m : DomainMembership) (s : Impl) : Impl :=
  s <| im_domains := registry_set_membership m (im_domains s) |>.

(** * Candidates *)

Definition register_target (id : TargetId) (transport : string) : ST Impl unit := fun s =>
  if Z.leb (cfg_max_targets (im_cfg s)) (Z.of_nat (length (im_targets s)))
    then (s, Throw (CapacityExceeded "max_targets exceeded"))
  else match find_target s id with
  | Some _ => (s, Ok tt)
  | None => (s <| im_target_index := <[ id := length (im_targets s) ]> (im_target_index s) |>
               <| im_targets := im_targets s ++ [mkTargetRecord id transport None false candidate_state_default []] |>,
             Ok tt)
  end.

Definition publish_candidate_facts (now : Z) (f : CandidateFacts) : ST Impl unit := fun s =>
  match find_target_pos s (cf_target f) with
  | None => (s, Throw (InvalidArgument "target not registered"))
  | Some (i, t) =>
    if match tr_facts t with
       | None => true
       | Some old => Z.leb (gen_value (cf_readiness_generation old)) (gen_value (cf_readiness_generation f))
       end
    then
      let f := f <| cf_evidence_fresh := true |> in
      let same_svc := match tr_facts t with Some old => cf_service old =i cf_service f | None => false end in
      let s := if negb (cf_service f =i id_null) && negb same_svc
               then s <| im_targets_by_service :=
                      <[ cf_service f := default [] (im_targets_by_service s !! cf_service f) ++ [i] ]>
                        (im_targets_by_service s) |>
               else s in
      let s := if cf_ready f && bool_decide (cf_target f ∈ im_confirmed_failed_targets s)
               then s <| im_confirmed_failed_targets := im_confirmed_failed_targets s ∖ {[ cf_target f ]} |>
               else s in
      let s := if cf_ready f then s <| im_ready_since := <[ cf_target f := now ]> (im_ready_since s) |> else s in
      (write_target i (fun t => t <| tr_facts := Some f |>) s, Ok tt)
    else (s, Ok tt)
  end.

Definition publish_candidate_state (t : TargetId) (st : CandidateState) : ST Impl unit := fun s =>
  match find_target_pos s t with
  | None => (s, Throw (InvalidArgument "target not registered"))
  | Some (i, _) => (write_target i (fun r => r <| tr_state := st |> <| tr_has_state := true |>) s, Ok tt)
  end.

Definition publish_candidate_resources (t : TargetId) (rs : list CandidateResource) : ST Impl unit := fun s =>
  match find_target_pos s t with
  | None => (s, Throw (InvalidArgument "target not registered"))
  | Some (i, _) => (write_target i (fun r => r <| tr_resources := rs |>) s, Ok tt)
  end.

(** * Failure evidence *)

Definition publish_failure (ev : FailureEvent) (s : Impl) : Impl :=
  let seq' := wrap64 (im_receipt_seq s + 1) in
  let fresh := Z.eqb (ts_seq (fe_received ev)) 0 in
  let s := if fresh then s <| im_receipt_seq := seq' |> else s in
  let ev := if fresh then ev <| fe_received := fe_received ev <| ts_seq := seq' |> |> else ev in
  let s := match fe_target ev with
           | Some t => if status_is EvidenceStatus.CONFIRMED ev || status_is EvidenceStatus.UNKNOWN ev
                       then s <| im_confirmed_failed_targets := im_confirmed_failed_targets s ∪ {[ t ]} |>
                       else s
           | None => s
           end in
  s <| im_evidence := (publish ev (im_evidence s)).1 |>.
Definition clear_failure (id : FailureEventId) (s : Impl) : Impl :=
  s <| im_evidence := evidence_clear id (im_evidence s) |>.
Definition failures_for (s : Impl) (t : TargetId) (max : Z) : list FailureEvent :=
  evidence_failures_for (im_evidence s) t max.

(** * Snapshot and selection context *)

(** The lambda [emit]: the candidate of a target record that has facts.  The domains
    are those of the target followed by the ancestors of each, the value the loop
    over [c.domains] is written for. *)
Definition candidate_of (s : Impl) (t : TargetRecord) (f : CandidateFacts) : Candidate :=
  let own := domains_of (im_domains s) (tr_id t) in
  let restored := tr_has_state t && cs_state_available (tr_state t) in
  let costs := costs_default
    <| cc_estimated_prep_ms := if cf_ready f then 0 else 5000 |>
    <| cc_state_restore_ms := if restored then 200 else 0 |>
    <| cc_estimated_cutover_ms := 50 |> in
  candidate_default
    <| cand_facts := f |> <| cand_state := tr_state t |> <| cand_resources := tr_resources t |>
    <| cand_domains := own ++ flat_map (ancestors_of (im_domains s)) own |>
    <| cand_continuity := Some (infer_continuity (tr_state t) f) |>
    <| cand_costs := costs <| cc_estimated_critical_path_ms := crit_path_ms costs |>
                           <| cc_state_loss_sequences := if restored then 0 else 1000 |>
                           <| cc_cost_estimated := true |> |>.

Definition emit (s : Impl) (t : TargetRecord) : option Candidate := candidate_of s t <$> tr_facts t.

(** The filter of the scan over targets that are not bound to the service. *)
Definition scan_matches (want_model want_abi : string) (t : TargetRecord) : bool :=
  match tr_facts t with
  | None => false
  | Some f => (String.eqb want_model "" || String.eqb (cf_model_key f) want_model) &&
              (String.eqb want_abi "" || String.eqb (cf_runtime_abi f) want_abi)
  end.

Definition snapshot_candidates (s : Impl) (k : ServiceSlotKey) : list Candidate :=
  let svc := service_for_slot s k in
  let want_model := match svc with Some d => cr_model_key (svc_compatibility d) | None => ""%string end in
  let want_abi := match svc with Some d => cr_runtime_abi (svc_compatibility d) | None => ""%string end in
  let cs :=
    match im_targets_by_service s !! sk_service k with
    | Some (i :: ix) => omap (fun j => im_targets s !! j ≫= emit s) (i :: ix)
    | _ => omap (emit s) (List.filter (scan_matches want_model want_abi) (im_targets s))
    end in
  truncate cs (cfg_max_candidates_per_snapshot (im_cfg s)).

(** [snapshot_locked]: the counter is advanced first. *)
Definition snapshot_locked (k : ServiceSlotKey) : ST Impl CandidateSnapshot := fun s =>
  match gen_next (im_snapshot_counter s) with
  | Throw e => (s, Throw e)
  | Ok g => let s := s <| im_snapshot_counter := g |> in
            (s, Ok (mkSnapshot g k timestamp_default (snapshot_candidates s k)))
  end.

(** [std::sort] followed by [std::unique]. *)
Fixpoint insert_unique {t} (x : Id t) (l : list (Id t)) : list (Id t) :=
  match l with
  | [] => [x]
  | y :: l' => if id_ltb x y then x :: l else if x =i y then l else y :: insert_unique x l'
  end.
Definition uniq {t} (l : list (Id t)) : list (Id t) := foldr insert_unique [] l.

Definition build_context (s : Impl) (k : ServiceSlotKey) : SelectionContext :=
  let failed := match slot_current s k with Some a => asg_target a | None => id_null end in
  let relevant :=
    match im_targets_by_service s !! sk_service k with
    | Some ix => omap (fun i => tr_id <$> im_targets s !! i) ix
    | None => []
    end ++ (if failed =i id_null then [] else [failed]) in
  let confirmed := List.filter (fun t => bool_decide (t ∈ im_confirmed_failed_targets s)) relevant in
  context_default
    <| ctx_now_receipt_seq := im_receipt_seq s |> <| ctx_failed_target := failed |>
    <| ctx_confirmed_failed_targets := uniq confirmed |>
    <| ctx_failed_domains := uniq (flat_map (domains_of (im_domains s)) confirmed) |>
    <| ctx_fenced_boots := im_fenced_boots s |>
    <| ctx_current_route_gen := re_generation <$> route_current (im_routes s) k |>.

Definition selection_default : SelectionResult :=
  mkSelection false None [] [] [] [] Provenance.DERIVED f64_0 gen_default gen_default.

(** [FailoverFabric::select]. *)
Definition fabric_select (k : ServiceSlotKey) : ST Impl SelectionResult := fun s =>
  match service_for_slot s k with
  | None => (s, Ok selection_default)
  | Some svc =>
    (snap ← snapshot_locked k;
     s' ← get;
     mret (select snap svc (im_domains s') (build_context s' k))) s
  end.

(** [FailoverFabric::eligible_candidates]. *)
Definition fabric_eligible_candidates (k : ServiceSlotKey) : ST Impl (list Candidate) :=
  r ← fabric_select k;
  mret (match sel_selected r with Some c => [c] | None => [] end ++ sel_evaluated_alternatives r).

(** * Planning *)

Definition reference_fencing : FencingRequirement :=
  mkFencing true true true true false
    "reference coordinator/gateway/worker gates enforce generation-bound authority".

(** The route a plan asks for: the slot's route one generation up, or a new one. *)
Definition requested_route (s : Impl) (k : ServiceSlotKey) : result (RouteId * RouteGeneration) :=
  match route_current (im_routes s) k with
  | Some r => g ← gen_next (re_generation r); Ok (re_route r, g)
  | None => g ← gen_next (im_route_gen_counter s); Ok (id_next (im_route_counter s), g)
  end.

Definition plan_failover_pref (k : ServiceSlotKey) (preferred : option TargetId)
    : ST Impl (option FailoverPlan) := fun s =>
  match service_for_slot s k with
  | None => (s, Ok None)
  | Some svc =>
    (snap ← snapshot_locked k;
     s ← get;
     let ctx := build_context s k <| ctx_preferred_target := preferred |> in
     match sel_selected (select snap svc (im_domains s) ctx) with
     | None => mret None
     | Some c =>
       pg ← lift (gen_next (im_plan_gen_counter s));
       rr ← lift (requested_route s k);
       mret (Some (record_milestone Milestone.INTENT_ONLY
         (mkPlan (id_next (im_plan_counter s)) pg k (slot_current s k)
            (evidence_failures_for (im_evidence s) (ctx_failed_target ctx) 4) snap (Some c)
            (default ContinuityClass.UNKNOWN (cand_continuity c)) (pl_resource_commitments_domain plan_default)
            reference_fencing rr.1 rr.2 (svc_recovery svc) (pl_estimated_stages plan_default)
            (pl_rollback_boundaries plan_default) (svc_policy_generation svc)
            (pl_reached_milestones plan_default) (pl_provenance plan_default))))
     end) s
  end.
Definition plan_failover (k : ServiceSlotKey) : ST Impl (option FailoverPlan) := plan_failover_pref k None.

(** * Cutover controls *)

Definition set_checkpoint_path (p : string) (s : Impl) : Impl := s <| im_checkpoint_path := p |>.
Definition set_cutover_barrier (m : Milestone) (s : Impl) : Impl := s <| im_barrier_milestone := m |>.
Definition clear_cutover_barrier (s : Impl) : Impl :=
  s <| im_barrier_milestone := Milestone.VERIFICATION_COMPLETE |>.
Definition has_incomplete_cutover (s : Impl) : bool :=
  im_has_txn s && milestone_ltb (im_txn_milestone s) Milestone.VERIFICATION_COMPLETE.

(** * Requests *)

Definition record_request (r : RequestRecord) (s : Impl) : Impl := s <| im_requests := record r (im_requests s) |>.
Definition classify_late_result (id : RequestId) (auth : WorkerAuthorization) (s : Impl) : Impl * LateOutcome :=
  let '(t, o) := tracker_classify id auth (im_requests s) in (s <| im_requests := t |>, o).
(** [mark_outcome_unknown]: the copy [find] returns is changed and dropped. *)
Definition mark_outcome_unknown (id : RequestId) (k : ServiceSlotKey) (s : Impl) : Impl :=
  s <| im_requests := set_outcome_unknown id (im_requests s) |>.
Definition request_state (s : Impl) (id : RequestId) : option RequestRecord := request_find (im_requests s) id.
Definition record_dispatch (s : Impl) : Impl := s <| im_dispatch_count := wrap64 (im_dispatch_count s + 1) |>.
Definition retry_allowed (s : Impl) (id : RequestId) : bool :=
  match request_find (im_requests s) id with None => false | Some r => record_retry_allowed r end.

(** * The gate *)

Definition refuse (why : string) : GateDecision := mkGate false why true.

Definition dispatch_allowed_locked (s : Impl) (auth : WorkerAuthorization) : GateDecision :=
  match slot_current s (wa_slot auth) with
  | None => refuse "no current assignment for slot"
  | Some cur =>
    if negb (wa_epoch auth =e im_epoch s) then refuse "stale coordinator epoch"
    else if negb (wa_assignment auth =i asg_id cur) || negb (wa_assignment_generation auth =g asg_generation cur)
      then refuse "stale assignment generation"
    else if negb (wa_route_generation auth =g asg_route_generation cur) then refuse "stale route generation"
    else if match route_current (im_routes s) (wa_slot auth) with
            | Some rt => state_in [RouteState.REVALIDATION_REQUIRED; RouteState.EMPTY; RouteState.STALE] rt
            | None => false
            end
      then refuse "route requires revalidation"
    else if negb (wa_worker_boot auth =i asg_worker_boot cur) then refuse "worker boot not current"
    else if boot_fenced s (wa_worker_boot auth) then refuse "fenced worker boot"
    else if negb (bool_decide (asg_state cur = AssignmentState.ACTIVE)) then refuse "assignment not active"
    else mkGate true "authorized" false
  end.

Definition authorize_dispatch (s : Impl) (auth : WorkerAuthorization) : GateDecision :=
  dispatch_allowed_locked s auth.

Definition authorize_result (s : Impl) (auth : WorkerAuthorization) : GateDecision :=
  let d := dispatch_allowed_locked s auth in
  if negb (gd_allowed d) then d
  else match request_find (im_requests s) (wa_request auth) with
  | None => refuse "unknown request"
  | Some r => if disposition_is RequestDisposition.RESPONSE_COMMITTED r
              then refuse "response already committed"
              else mkGate true "authorized result" false
  end.

(** * Routes *)

Definition install_route (entry : RouteEntry) (boot : GatewayBootId) (s : Impl) : Impl * bool :=
  if negb (re_epoch entry =e im_epoch s) then (s, false)
  else let '(t, ok) := install (entry <| re_state := RouteState.ACKNOWLEDGED |> <| re_gateway_boot := boot |>)
                         (im_routes s) in
       (s <| im_routes := t |>, ok).
Definition bind_route_gateway (k : ServiceSlotKey) (boot : GatewayBootId) (s : Impl) : Impl * bool :=
  let '(t, ok) := bind_gateway k boot (im_routes s) in (s <| im_routes := t |>, ok).
Definition current_route (s : Impl) (k : ServiceSlotKey) : option RouteEntry :=
  match route_current (im_routes s) k with
  | Some r => if state_in [RouteState.EMPTY] r then None else Some r
  | None => None
  end.
Definition route_history (s : Impl) (k : ServiceSlotKey) (max : Z) : list RouteEntry :=
  table_history (im_routes s) k max.
Definition mark_routes_revalidation (s : Impl) : Impl :=
  s <| im_routes := mark_revalidation_required (im_routes s) |>.

(** * Introspection *)

Definition service_outcome (s : Impl) (k : ServiceSlotKey) : ServiceOutcome :=
  match slot_current s k with
  | None => ServiceOutcome.UNAVAILABLE
  | Some a =>
    let r := route_current (im_routes s) k in
    let route_is st := match r with Some e => bool_decide (re_state e = st) | None => false end in
    if route_is RouteState.REVALIDATION_REQUIRED then ServiceOutcome.REVALIDATION_REQUIRED
    else if bool_decide (asg_state a = AssignmentState.ACTIVE) && route_is RouteState.ACKNOWLEDGED then
      match latest_failure_for (im_evidence s) (asg_target a) with
      | Some _ => ServiceOutcome.DEGRADED
      | None => ServiceOutcome.AVAILABLE
      end
    else if bool_decide (asg_state a = AssignmentState.DRAINING) ||
            bool_decide (asg_state a = AssignmentState.REVALIDATION_REQUIRED)
      then ServiceOutcome.REVALIDATION_REQUIRED
    else ServiceOutcome.UNAVAILABLE
  end.

(** What a caller is shown of the state. *)
Definition current_epoch (s : Impl) : CoordinatorEpoch := im_epoch s.
Definition gateway_boot (s : Impl) : GatewayBootId := im_gateway_boot s.
Definition fabric_services (s : Impl) : list ServiceDefinition := im_services s.
Definition fabric_domains (s : Impl) : DomainRegistry := im_domains s.
Definition fabric_snapshot (k : ServiceSlotKey) : ST Impl CandidateSnapshot := snapshot_locked k.
Definition ambiguous_count (s : Impl) : Z := trk_ambiguous (im_requests s).
Definition rejected_late_count (s : Impl) : Z := trk_rejected_late (im_requests s).
Definition dispatch_count (s : Impl) : Z := im_dispatch_count s.
Definition revalidation_required_count (s : Impl) : Z := rt_revalidation_count (im_routes s).
Definition attempt_history (s : Impl) : list AttemptState := im_attempt_states s.

(** [set_clock]: a null clock is refused and the clock stays. *)
Definition set_clock {C} (clock : option C) (current : C) : C * bool :=
  match clock with None => (current, false) | Some c => (c, true) end.
