(* ===== verification/Cutover.v ===== *)
(** The cutover transaction (fabric.cpp: [execute_plan], [save];
    cutover.hpp).

    [execute_plan] holds the coordinator's lock only in sections; between them it
    calls the adapter [CutoverOps], which drives the workers and the gateway.  Each
    section is a function of the state and the local variables of the attempt
    ([Attempt]); [execute_plan] composes them with the adapter calls and the durable
    checkpoints, over any monad with atomic actions.  [System] gives the same sections
    a small-step semantics in which any number of attempts and other operations
    interleave. *)

From stdpp Require Import base list gmap strings pretty.
From Stdlib Require Import ZArith Lia.
From S2P Require Import Prelude Identities Types Double Bytes Model Codec Domains Evidence Routes Requests.
From S2P Require Import Recovery Selection Persistence Fabric.

Open Scope Z_scope.

(** [struct AttemptResult]. *)
Record AttemptResult : Type := mkAttemptResult
  { ar_attempt : FailoverAttemptId;
    ar_generation : FailoverAttemptGeneration;
    ar_state : AttemptState;
    ar_reached : Milestone;
    ar_committed_assignment : option Assignment;
    ar_detail : string;
    ar_stage_durations : list StageEstimate;
    ar_elapsed_ms : Z;
    ar_recovery_verified : bool;
    ar_violated_recovery_objective : bool }.
#[export] Instance AttemptResult_eta : Eta AttemptResult := fun s => mkAttemptResult
  (ar_attempt s) (ar_generation s) (ar_state s) (ar_reached s) (ar_committed_assignment s)
  (ar_detail s) (ar_stage_durations s) (ar_elapsed_ms s) (ar_recovery_verified s)
  (ar_violated_recovery_objective s).

Definition attempt_result_default : AttemptResult :=
  mkAttemptResult id_null gen_default AttemptState.REQUESTED Milestone.INTENT_ONLY None "" [] 0 false false.

(** The local variables of [execute_plan] that live across its sections. *)
Record Attempt : Type := mkAttempt
  { at_result : AttemptResult;
    at_slot : ServiceSlotKey;
    at_old : option Assignment;
    at_new : Assignment;
    at_selected : Candidate }.
#[export] Instance Attempt_eta : Eta Attempt := fun s => mkAttempt
  (at_result s) (at_slot s) (at_old s) (at_new s) (at_selected s).

(** * The sections of [execute_plan] *)

Definition push_attempt_state (a : AttemptState) (s : Impl) : Impl :=
  s <| im_attempt_states := im_attempt_states s ++ [a] |>.

(** [return result] with a final state and a detail. *)
Definition finish (r : AttemptResult) (st : AttemptState) (detail : string) : AttemptResult :=
  r <| ar_state := st |> <| ar_detail := detail |>.

(** An early return that also records the attempt's final state. *)
Definition stop (r : AttemptResult) (st : AttemptState) (detail : string) (s : Impl)
    : Impl * (AttemptResult + Attempt) :=
  (push_attempt_state st s, inl (finish r st detail)).

(** The source assignment of the plan is still the slot's current assignment. *)
Definition source_unchanged (plan : FailoverPlan) (old : option Assignment) : bool :=
  match pl_source_assignment plan with
  | None => true
  | Some src => match old with
                | None => false
                | Some o => (asg_id o =i asg_id src) && (asg_generation o =g asg_generation src)
                end
  end.

(** The fresh revalidation: the first candidate of a new snapshot with the planned
    target and boot, if it still passes the hard guards. *)
Definition revalidate (s : Impl) (svc : ServiceDefinition) (snap : CandidateSnapshot) (planned : Candidate)
    (k : ServiceSlotKey) : option Candidate :=
  c ← find_first (fun c => (cf_target (cand_facts c) =i cf_target (cand_facts planned)) &&
                           (cf_worker_boot (cand_facts c) =i cf_worker_boot (cand_facts planned)))
        (snap_candidates snap);
  if snd (hard_eligible c svc (im_domains s) (build_context s k)) then Some c else None.

(** The replacement assignment, AUTHORIZED and provisory. *)
Definition new_assignment (s : Impl) (plan : FailoverPlan) (id : AssignmentId) (g : AssignmentGeneration)
    (ag : ServiceAuthorityGeneration) (acg : ActivationGeneration) (c : Candidate) : Assignment :=
  let f := cand_facts c in
  let claims := if existsb (fun r => String.eqb (cre_resource_class r) "cuda_device") (cand_resources c)
                then [min_id] else [] in
  mkAssignment id g (pl_slot plan) (cf_target f) (cf_target_generation f) (cf_replica f) (cf_replica_generation f)
    (cf_engine f) (cf_engine_incarnation f) (cf_profile f) ag (id_next (im_activation_counter s)) acg
    (pl_requested_route plan) (pl_requested_route_generation plan) (cf_worker_boot f) claims
    (asg_continuity_state assignment_default) AssignmentState.AUTHORIZED true (asg_provenance assignment_default).

(** Lines 484-543: validate the plan and prepare the replacement. *)
Definition prepare (plan : FailoverPlan) : ST Impl (AttemptResult + Attempt) :=
  let k := pl_slot plan in
  s ← get;
  ag ← lift (gen_next (im_attempt_gen_counter s));
  let result := attempt_result_default <| ar_attempt := id_next (im_attempt_counter s) |>
                                       <| ar_generation := ag |> in
  let invalid why : ST Impl (AttemptResult + Attempt) :=
    fun s => let '(s, r) := stop result AttemptState.FAILED why s in (s, Ok r) in
  match service_for_slot s k, pl_selected plan with
  | None, _ => invalid "service not registered"
  | Some _, None => invalid "plan has no selected candidate"
  | Some svc, Some planned =>
    let old := slot_current s k in
    if negb (source_unchanged plan old) then invalid "source assignment changed since planning"
    else
      snap ← snapshot_locked k;
      s ← get;
      match revalidate s svc snap planned k with
      | None => invalid "selected candidate failed fresh revalidation"
      | Some c =>
        id ← next_assignment_id;
        s ← get;
        g ← lift (gen_next (im_assignment_gen_counter s));
        aug ← lift (gen_next (im_last_authority_gen s));
        acg ← lift (gen_next (im_activation_gen_counter s));
        _ ← modify (push_attempt_state AttemptState.EVALUATING);
        mret (inr (mkAttempt (result <| ar_reached := Milestone.INTENT_ONLY |>) k old
                     (new_assignment s plan id g aug acg c) c))
      end
  end.

(** The locked half of the lambda [checkpoint]. *)
Definition record_txn (m : Milestone) (pend src : option Assignment) (rt : option RouteEntry) (s : Impl) : Impl :=
  s <| im_has_txn := true |> <| im_txn_milestone := m |> <| im_pending_assignment := pend |>
    <| im_source_assignment := src |> <| im_pending_route := rt |>.

Definition advance (m : Milestone) (st : AttemptState) (a : Attempt) : Attempt :=
  a <| at_result := at_result a <| ar_reached := m |> <| ar_state := st |> |>.

(** Lines 556-563. *)
Definition fence_section (a : Attempt) (fo : FenceOutcome) (s : Impl) : Impl * (AttemptResult + Attempt) :=
  if fo_fencing_unproven fo then
    stop (at_result a) AttemptState.FAILED "FENCING_UNPROVEN: cannot enforce fencing at a mandated boundary" s
  else if negb (fo_applied fo) then
    stop (at_result a) AttemptState.FAILED ("fence not applied: " +:+ fo_detail fo) s
  else
    (match at_old a with Some o => add_fenced_boot (asg_worker_boot o) s | None => s end,
     inr (advance Milestone.OLD_ADMISSION_FENCED AttemptState.FENCING a)).

(** Lines 573-580. *)
Definition activate_section (a : Attempt) (ao : ActivateOutcome) (s : Impl) : Impl * (AttemptResult + Attempt) :=
  if negb (ao_acknowledged ao) then
    stop (at_result a) AttemptState.RECOVERY_REQUIRED ("activation not acknowledged: " +:+ ao_detail ao) s
  else (s, inr (advance Milestone.ACTIVATION_ACKNOWLEDGED AttemptState.CUTTING_OVER a)).

(** Lines 588-601: the route of the replacement, read outside the lock. *)
Definition route_for (s : Impl) (a : Attempt) : RouteEntry :=
  let n := at_new a in
  mkRouteEntry (asg_route n) (asg_route_generation n) (at_slot a) (asg_target n) (asg_target_generation n)
    (cf_engine_incarnation (cand_facts (at_selected a))) (cf_worker_boot (cand_facts (at_selected a)))
    (asg_id n) (asg_generation n) (im_epoch s) RouteState.ACKNOWLEDGED (im_gateway_boot s)
    ("pipes/" +:+ pretty (Z.to_N (id_value (cf_target (cand_facts (at_selected a))))))
    (re_provenance route_entry_default).

(** Lines 603-609: the outcome of [RouteTable::install] is not looked at. *)
Definition route_section (a : Attempt) (re : RouteEntry) (ro : RouteOutcome) (s : Impl)
    : Impl * (AttemptResult + Attempt) :=
  if negb (rto_acknowledged ro) then
    stop (at_result a) AttemptState.RECOVERY_REQUIRED ("route not acknowledged: " +:+ rto_detail ro) s
  else (s <| im_routes := (install re (im_routes s)).1 |>,
        inr (advance Milestone.ROUTE_INSTALLED AttemptState.VERIFYING a)).

(** The committed form of the replacement. *)
Definition activated (n : Assignment) : Assignment :=
  n <| asg_state := AssignmentState.ACTIVE |> <| asg_provisory := false |>.

(** The slot when the attempt commits: what it held goes to the history, FENCED. *)
Definition commit_slot (a : Attempt) (st : SlotState) : SlotState :=
  let st := match ss_current st, at_old a with
            | Some c, _ => st <| ss_history := ss_history st ++ [c <| asg_state := AssignmentState.FENCED |>] |>
            | None, Some o => st <| ss_history := ss_history st ++ [o <| asg_state := AssignmentState.FENCED |>] |>
            | None, None => st
            end in
  st <| ss_current := Some (activated (at_new a)) |>.

(** The supersession guard: another assignment than the attempt's source is current. *)
Definition superseded (a : Attempt) (st : SlotState) : bool :=
  match at_old a, ss_current st with
  | Some o, Some c => negb ((asg_id c =i asg_id o) && (asg_generation c =g asg_generation o))
  | _, _ => false
  end.

(** Lines 618-647.  A slot that is not indexed is appended without an index entry. *)
Definition verify_section (a : Attempt) (vo : VerifyOutcome) (now : Z) (s : Impl)
    : Impl * (AttemptResult + Attempt) :=
  if negb (vo_verified vo) then
    stop (at_result a) AttemptState.RECOVERY_REQUIRED ("verification failed: " +:+ vo_detail vo) s
  else
    let '(i, st, s) :=
      match find_slot_pos s (at_slot a) with
      | Some (i, st) => (i, st, s)
      | None => let st := mkSlotState (at_slot a) None [] in
                (length (im_slots s), st, s <| im_slots := im_slots s ++ [st] |>)
      end in
    if superseded a st then
      stop (at_result a) AttemptState.SUPERSEDED "attempt superseded by a newer promotion" s
    else
      let s := write_slot i (commit_slot a) s in
      let s := match at_old a with Some o => add_fenced_boot (asg_worker_boot o) s | None => s end in
      let s := s <| im_last_authority_gen := asg_authority_generation (at_new a) |>
                 <| im_last_transition := <[ at_slot a := now ]> (im_last_transition s) |>
                 <| im_has_txn := false |> in
      (push_attempt_state AttemptState.COMPLETED s,
       inl (at_result a <| ar_reached := Milestone.VERIFICATION_COMPLETE |> <| ar_state := AttemptState.COMPLETED |>
              <| ar_recovery_verified := true |> <| ar_committed_assignment := Some (activated (at_new a)) |>)).

(** * The adapter *)

(** [class CutoverOps]: the effects on the workers and the gateway, over a world [W]
    the coordinator does not see into; a call may throw.  The clock and the answers of
    the file system belong to the world too. *)
Class CutoverOps (W : Type) := {
  fence_old : Assignment -> WorkerBootId -> W -> W * result FenceOutcome;
  activate : Candidate -> WorkerAuthorization -> ServiceAuthorityGeneration -> W -> W * result ActivateOutcome;
  ops_install_route : RouteEntry -> GatewayBootId -> W -> W * result RouteOutcome;
  verify : RouteEntry -> WorkerAuthorization -> W -> W * result VerifyOutcome;
  clock_now : W -> Z;
  save_io : W -> SaveIo }.

(** The durable part of the state, as [FailoverFabric::save] copies it under the lock. *)
Definition snapshot_of (s : Impl) : PersistenceSnapshot :=
  mkPersist 2 (im_epoch s) (im_policy_gen s) (im_last_authority_gen s) (im_services s)
    (flat_map (fun st => match ss_current st with Some a => [a] | None => [] end ++ ss_history st) (im_slots s))
    (reg_domains (im_domains s)) (reg_memberships (im_domains s)) (evidence_all (im_evidence s))
    (all_routes (im_routes s)) (im_fenced_boots s) (im_has_txn s) (im_txn_milestone s)
    (im_pending_assignment s) (im_source_assignment s) (im_pending_route s).

(** The coordinator, its directory and the world. *)
Record Run (W : Type) : Type := mkRun { run_impl : Impl; run_fs : FileSystem; run_world : W }.
Arguments mkRun {W} _ _ _.
Arguments run_impl {W} _.
Arguments run_fs {W} _.
Arguments run_world {W} _.

(** * Sections and calls *)

Section actions.
Context {W : Type}.
Notation R := (Run W).

(** A locked section of the coordinator. *)
Definition locked {A} (f : Impl -> Impl * A) : ST R A := fun r =>
  let '(s, x) := f (run_impl r) in (mkRun s (run_fs r) (run_world r), Ok x).
Definition locked_st {A} (f : ST Impl A) : ST R A := fun r =>
  let '(s, x) := f (run_impl r) in (mkRun s (run_fs r) (run_world r), x).
(** A call of the adapter. *)
Definition external {A} (f : W -> W * result A) : ST R A := fun r =>
  let '(w, x) := f (run_world r) in (mkRun (run_impl r) (run_fs r) w, x).

Context `{Ops : CutoverOps W}.
Definition now : ST R Z := gets (fun r => clock_now (run_world r)).

(** [persistence::save_file], called without the lock. *)
Definition write_snapshot (path : string) (snap : PersistenceSnapshot) : ST R unit := fun r =>
  let '(fs, x) := save_file (save_io (run_world r)) path snap (run_fs r) in
  (mkRun (run_impl r) fs (run_world r), x).
End actions.

(** * The transaction *)

Section execute.
Context {W : Type} `{Ops : CutoverOps W} {M : Type -> Type} `{!MBind M, !MRet M, !Atomic (Run W) M}.

(** [FailoverFabric::save]: the copy under the lock, then the file. *)
Definition save (path : string) : M unit :=
  snap ⇐ gets (fun r => snapshot_of (run_impl r));
  atomic (write_snapshot path snap).

(** The lambda [checkpoint]: whether the barrier is this milestone. *)
Definition checkpoint (m : Milestone) (pend src : option Assignment) (rt : option RouteEntry) : M bool :=
  _ ⇐ locked (fun s => (record_txn m pend src rt s, tt));
  path ⇐ gets (fun r => im_checkpoint_path (run_impl r));
  _ ← (if String.eqb path "" then mret tt else save path);
  atomic (gets (fun r => bool_decide (im_barrier_milestone (run_impl r) = m))).

Definition interrupted (a : Attempt) (m : Milestone) : AttemptResult :=
  finish (at_result a) AttemptState.RECOVERY_REQUIRED
    ("cutover interrupted at " +:+ Milestone.to_string_Milestone m +:+ " (checkpointed)").

(** Continue with the attempt a section returned, unless it returned a result. *)
Definition unless_done (m : ST (Run W) (AttemptResult + Attempt)) (k : Attempt -> M AttemptResult) : M AttemptResult :=
  x ⇐ m; match x with inl r => mret r | inr a => k a end.

(** A checkpoint after a section, and the early return at the barrier. *)
Definition at_milestone (m : Milestone) (a : Attempt) (rt : option RouteEntry) (k : M AttemptResult) : M AttemptResult :=
  b ← checkpoint m (Some (at_new a)) (at_old a) rt;
  if (b : bool) then mret (interrupted a m) else k.

Definition fence_call (a : Attempt) : ST (Run W) FenceOutcome :=
  match at_old a with
  | Some o => external (fence_old o (cf_worker_boot (cand_facts (at_selected a))))
  | None => mret (fence_outcome_default <| fo_applied := true |> <| fo_detail := "no old assignment to fence" |>)
  end.

(** Lines 570-650: activate the replacement, install its route, verify through it,
    commit. *)
Definition promote (t0 : Z) (a : Attempt) : M AttemptResult :=
  s ⇐ gets run_impl;
  let auth := make_auth (im_epoch s) (at_new a) (at_selected a) (mkId 1) (mkId 1) "serve" in
  ao ⇐ external (activate (at_selected a) auth (asg_authority_generation (at_new a)));
  unless_done (locked (activate_section a ao)) (fun a =>
  at_milestone Milestone.ACTIVATION_ACKNOWLEDGED a None (
  s ⇐ gets run_impl;
  let re := route_for s a in
  ro ⇐ external (ops_install_route re (im_gateway_boot s));
  unless_done (locked (route_section a re ro)) (fun a =>
  at_milestone Milestone.ROUTE_INSTALLED a (Some re) (
  vo ⇐ external (verify re auth);
  tc ⇐ now;
  x ⇐ locked (verify_section a vo tc);
  match x with
  | inr _ => mret (at_result a)
  | inl r =>
    if bool_decide (ar_state r = AttemptState.COMPLETED) then
      t1 ⇐ now;
      mret (r <| ar_elapsed_ms := wrap64 (Z.quot (t1 - t0) 1000000) |>)
    else mret r
  end)))).

(** [execute_plan]: prepare, fence the old admission, promote the replacement. *)
Definition run_plan (plan : FailoverPlan) : M AttemptResult :=
  unless_done (locked_st (prepare plan)) (fun a =>
  at_milestone Milestone.INTENT_ONLY a None (
  t0 ⇐ now;
  fo ⇐ fence_call a;
  unless_done (locked (fence_section a fo)) (fun a =>
  at_milestone Milestone.OLD_ADMISSION_FENCED a None (promote t0 a)))).
End execute.

(** [execute_plan] as it runs alone. *)
Definition execute_plan {W : Type} `{Ops : CutoverOps W} : FailoverPlan -> ST (Run W) AttemptResult := run_plan.
