(* ===== verification/Failback.v ===== *)
(** Failback and anti-flapping (fabric.cpp: [evaluate_failback],
    [authorize_failback], [execute_failback]): returning a slot to its target of
    record under policy, fresh readiness, cooldown, hysteresis and a bounded budget. *)

From stdpp Require Import base list gmap strings.
From Stdlib Require Import ZArith Lia.
From S2P Require Import Prelude Identities Types Double Model Evidence Routes Requests Selection Fabric.
From S2P Require Import Cutover.

Open Scope Z_scope.

(** [struct FailbackDecision]. *)
Record FailbackDecision : Type := mkFailback
  { fd_authorized : bool;
    fd_reason : string;
    fd_in_cooldown : bool;
    fd_attempts_exhausted : bool;
    fd_stale_readiness : bool;
    fd_policy_refused : bool;
    fd_hysteresis_not_met : bool;
    fd_remaining_cooldown_ms : Z;
    fd_remaining_hysteresis_ms : Z }.
#[export] Instance FailbackDecision_eta : Eta FailbackDecision := fun s => mkFailback
  (fd_authorized s) (fd_reason s) (fd_in_cooldown s) (fd_attempts_exhausted s) (fd_stale_readiness s)
  (fd_policy_refused s) (fd_hysteresis_not_met s) (fd_remaining_cooldown_ms s) (fd_remaining_hysteresis_ms s).

Definition failback_refused (why : string) : FailbackDecision :=
  mkFailback false why false false false false false 0 0.

(** [duration_cast<milliseconds>(now - then).count()]. *)
Definition elapsed_ms (now since : Z) : Z := Z.quot (now - since) 1000000.

(** The test both windows make: [e >= 0 && (uint64_t)e < window]. *)
Definition within (e window : Z) : bool := Z.leb 0 e && Z.ltb e window.

(** The policy gate: whether the service's policy refuses, and why. *)
Definition policy_gate (s : Impl) (k : ServiceSlotKey) (p : FailbackPolicy) : option string :=
  match p with
  | FailbackPolicy.STAY_ON_CURRENT => Some "failback policy stays on current"%string
  | FailbackPolicy.MANUAL =>
    if bool_decide (k ∈ im_manual_failback_authorized s) then None
    else Some "manual failback authorization required"%string
  | FailbackPolicy.RETURN_AFTER_VALIDATION => None
  end.

(** The readiness gate on the target of record. *)
Definition target_ready (s : Impl) (t : TargetId) : bool :=
  match find_target s t ≫= tr_facts with
  | Some f => cf_ready f && cf_evidence_fresh f
  | None => false
  end.

Definition attempts_gate (s : Impl) (k : ServiceSlotKey) (afp : AntiFlappingPolicy) : FailbackDecision :=
  match im_failback_attempts s !! k with
  | Some n => if Z.leb (afp_max_auto_attempts afp) n
              then failback_refused "failback attempt budget exhausted" <| fd_attempts_exhausted := true |>
              else failback_refused "failback authorized" <| fd_authorized := true |>
  | None => failback_refused "failback authorized" <| fd_authorized := true |>
  end.

Definition hysteresis_gate (now : Z) (s : Impl) (k : ServiceSlotKey) (pref : TargetId)
    (afp : AntiFlappingPolicy) : FailbackDecision :=
  if Z.ltb 0 (afp_hysteresis_ms afp) then
    match im_ready_since s !! pref with
    | None => failback_refused "preferred target not stably ready (hysteresis)" <| fd_hysteresis_not_met := true |>
    | Some since =>
      let h := elapsed_ms now since in
      if within h (afp_hysteresis_ms afp)
      then failback_refused "failback in hysteresis window" <| fd_hysteresis_not_met := true |>
             <| fd_remaining_hysteresis_ms := wrap64 (afp_hysteresis_ms afp - h) |>
      else attempts_gate s k afp
    end
  else attempts_gate s k afp.

Definition cooldown_gate (now now_h : Z) (s : Impl) (k : ServiceSlotKey) (pref : TargetId)
    (afp : AntiFlappingPolicy) : FailbackDecision :=
  match im_last_transition s !! k with
  | Some since =>
    let e := elapsed_ms now since in
    if within e (afp_cooldown_ms afp)
    then failback_refused "failback in cooldown" <| fd_in_cooldown := true |>
           <| fd_remaining_cooldown_ms := wrap64 (afp_cooldown_ms afp - e) |>
    else hysteresis_gate now_h s k pref afp
  | None => hysteresis_gate now_h s k pref afp
  end.

(** [now] and [now_h] are the two readings of the clock, for the cooldown and for the
    hysteresis window. *)
Definition evaluate_failback (now now_h : Z) (s : Impl) (k : ServiceSlotKey) : FailbackDecision :=
  match service_for_slot s k with
  | None => failback_refused "service not found"
  | Some svc =>
    match slot_current s k with
    | None => failback_refused "no current assignment"
    | Some cur =>
      match im_preferred s !! k with
      | None => failback_refused "no preferred target"
      | Some pref =>
        if asg_target cur =i pref then failback_refused "already on preferred target"
        else match policy_gate s k (svc_failback svc) with
        | Some why => failback_refused why <| fd_policy_refused := true |>
        | None =>
          if negb (target_ready s pref)
          then failback_refused "preferred target readiness stale or unavailable" <| fd_stale_readiness := true |>
          else cooldown_gate now now_h s k pref (svc_anti_flapping svc)
        end
      end
    end
  end.

Definition authorize_failback (k : ServiceSlotKey) (s : Impl) : Impl :=
  s <| im_manual_failback_authorized := im_manual_failback_authorized s ∪ {[ k ]} |>.

(** The bookkeeping after the attempt (lines 745-753). *)
Definition settle_failback (k : ServiceSlotKey) (ar : AttemptResult) (now : Z) (s : Impl) : Impl :=
  if bool_decide (ar_state ar = AttemptState.COMPLETED)
  then s <| im_last_transition := <[ k := now ]> (im_last_transition s) |>
         <| im_failback_attempts := <[ k := 0 ]> (im_failback_attempts s) |>
  else s <| im_failback_attempts :=
           <[ k := wrap32 (default 0 (im_failback_attempts s !! k) + 1) ]> (im_failback_attempts s) |>.

Section failback.
Context {W : Type} `{Ops : CutoverOps W} {M : Type -> Type} `{!MBind M, !MRet M, !Atomic (Run W) M}.

Definition failback_failed (why : string) : AttemptResult :=
  attempt_result_default <| ar_state := AttemptState.FAILED |> <| ar_detail := why |>.

(** [execute_failback]. *)
Definition failback_run (k : ServiceSlotKey) : M AttemptResult :=
  t ⇐ now;
  t_h ⇐ now;
  d ⇐ gets (fun r => evaluate_failback t t_h (run_impl r) k);
  if negb (fd_authorized d) then mret (failback_failed ("failback not authorized: " +:+ fd_reason d))
  else
  pref ⇐ gets (fun r => im_preferred (run_impl r) !! k);
  match pref with
  | None => mret (failback_failed "no preferred target")
  | Some pref =>
    plan ⇐ locked_st (plan_failover_pref k (Some pref));
    match plan with
    | Some p =>
      match pl_selected p with
      | Some _ =>
        ar ← run_plan p;
        t' ⇐ now;
        _ ⇐ locked (fun s => (settle_failback k ar t' s, tt));
        mret ar
      | None => mret (failback_failed "no eligible preferred target for failback")
      end
    | None => mret (failback_failed "no eligible preferred target for failback")
    end
  end.
End failback.

(** [execute_failback] as it runs alone. *)
Definition execute_failback {W : Type} `{Ops : CutoverOps W} : ServiceSlotKey -> ST (Run W) AttemptResult := failback_run.

(** * The gates *)

Lemma within_true e w : within e w = true <-> 0 <= e < w.
Proof. unfold within. rewrite andb_true_iff, Z.leb_le, Z.ltb_lt. done. Qed.

Lemma attempts_gate_authorized s k afp :
  fd_authorized (attempts_gate s k afp) = true <->
  forall n, im_failback_attempts s !! k = Some n -> n < afp_max_auto_attempts afp.
Proof.
  unfold attempts_gate. destruct (im_failback_attempts s !! k) as [n |]; [| by split].
  destruct (Z.leb_spec (afp_max_auto_attempts afp) n) as [Hle | Hlt]; simpl.
  - split; [done |]. intros H. specialize (H n eq_refl). lia.
  - split; [intros _ m [= <-]; lia | done].
Qed.

Lemma hysteresis_gate_authorized now s k pref afp :
  fd_authorized (hysteresis_gate now s k pref afp) = true <->
  (0 < afp_hysteresis_ms afp ->
     exists t, im_ready_since s !! pref = Some t /\ ~ (0 <= elapsed_ms now t < afp_hysteresis_ms afp)) /\
  (forall n, im_failback_attempts s !! k = Some n -> n < afp_max_auto_attempts afp).
Proof.
  rewrite <- attempts_gate_authorized. unfold hysteresis_gate.
  destruct (Z.ltb_spec 0 (afp_hysteresis_ms afp)) as [Hpos | Hle]; [| split; [intros H; split; [lia | done] | by intros []]].
  destruct (im_ready_since s !! pref) as [t |].
  - destruct (within (elapsed_ms now t) (afp_hysteresis_ms afp)) eqn:Ew; simpl.
    + apply within_true in Ew. split; [done |]. intros [H _]. destruct (H Hpos) as (t' & [= <-] & Hn). done.
    + rewrite <- not_true_iff_false, within_true in Ew. split; [intros H; split; [by exists t | done] | by intros []].
  - split; [done |]. intros [H _]. by destruct (H Hpos) as (t' & ? & _).
Qed.

Lemma cooldown_gate_authorized now now_h s k pref afp :
  fd_authorized (cooldown_gate now now_h s k pref afp) = true <->
  (forall t, im_last_transition s !! k = Some t -> ~ (0 <= elapsed_ms now t < afp_cooldown_ms afp)) /\
  fd_authorized (hysteresis_gate now_h s k pref afp) = true.
Proof.
  unfold cooldown_gate. destruct (im_last_transition s !! k) as [t |]; [| by split; [intros H; split |  intros []]].
  destruct (within (elapsed_ms now t) (afp_cooldown_ms afp)) eqn:Ew; simpl.
  - apply within_true in Ew. split; [done |]. intros [H _]. by destruct (H t eq_refl).
  - rewrite <- not_true_iff_false, within_true in Ew. split; [intros H; split; [by intros t' [= <-] | done] | by intros []].
Qed.

Lemma policy_gate_None s k p :
  policy_gate s k p = None <->
  p = FailbackPolicy.RETURN_AFTER_VALIDATION \/ p = FailbackPolicy.MANUAL /\ k ∈ im_manual_failback_authorized s.
Proof. unfold policy_gate. destruct p; [case_bool_decide | |]; naive_solver. Qed.

(** * Theorems *)

(** C30: [evaluate_failback] authorizes a return exactly when every gate is open: the
    service exists, the slot's current assignment is away from its target of
    record, the policy permits it (with an operator's authorization if it is
    MANUAL), the target of record is fresh and ready, the cooldown since the last
    transition and the hysteresis window since the target became ready are over (or
    the clock went back), and the attempt budget is not exhausted. *)
Theorem failback_authorized_iff (now now_h : Z) (s : Impl) (k : ServiceSlotKey) :
  fd_authorized (evaluate_failback now now_h s k) = true <->
  exists svc cur pref, service_for_slot s k = Some svc /\ slot_current s k = Some cur /\
    im_preferred s !! k = Some pref /\ asg_target cur <> pref /\
    (svc_failback svc = FailbackPolicy.RETURN_AFTER_VALIDATION \/
     svc_failback svc = FailbackPolicy.MANUAL /\ k ∈ im_manual_failback_authorized s) /\
    target_ready s pref = true /\
    (forall t, im_last_transition s !! k = Some t ->
       ~ (0 <= elapsed_ms now t < afp_cooldown_ms (svc_anti_flapping svc))) /\
    (0 < afp_hysteresis_ms (svc_anti_flapping svc) ->
       exists t, im_ready_since s !! pref = Some t /\
         ~ (0 <= elapsed_ms now_h t < afp_hysteresis_ms (svc_anti_flapping svc))) /\
    (forall n, im_failback_attempts s !! k = Some n -> n < afp_max_auto_attempts (svc_anti_flapping svc)).
Proof.
  unfold evaluate_failback.
  destruct (service_for_slot s k) as [svc |]; [| split; [done | by intros (? & ? & ? & ? & _)]].
  destruct (slot_current s k) as [cur |]; [| split; [done | by intros (? & ? & ? & _ & ? & _)]].
  destruct (im_preferred s !! k) as [pref |]; [| split; [done | by intros (? & ? & ? & _ & _ & ? & _)]].
  destruct (asg_target cur =i pref) eqn:Et; [apply id_eqb_eq in Et | apply id_eqb_neq in Et].
  { split; [done | by intros (? & ? & ? & _ & [= <-] & [= <-] & ? & _)]. }
  pose proof (policy_gate_None s k (svc_failback svc)) as Hp.
  destruct (policy_gate s k (svc_failback svc)) as [why |].
  { split; [done |]. intros (? & ? & ? & [= <-] & _ & _ & _ & H & _). by apply Hp in H. }
  destruct (target_ready s pref) eqn:Er; simpl.
  - rewrite cooldown_gate_authorized, hysteresis_gate_authorized. split.
    + intros (? & ? & ?). exists svc, cur, pref. split_and!; try done. by apply Hp.
    + intros (? & ? & ? & [= <-] & [= <-] & [= <-] & _ & _ & _ & ? & ? & ?). by split_and!.
  - split; [done |]. intros (? & ? & ? & _ & _ & [= <-] & _ & _ & ? & _). congruence.
Qed.

(** The budget bounds consecutive failed failbacks: after an attempt that did not
    complete the counter is one higher (below the 32-bit bound), a completed one
    resets it, and once the counter reaches the maximum no failback is authorized,
    whatever the clock reads, until the counter is reset. *)
Theorem failback_budget_enforced (s : Impl) (k : ServiceSlotKey) (ar : AttemptResult) (now now' now_h : Z)
    (svc : ServiceDefinition) (n : Z) :
  service_for_slot s k = Some svc -> im_failback_attempts s !! k = Some n -> 0 <= n < 2 ^ 32 - 1 ->
  afp_max_auto_attempts (svc_anti_flapping svc) <= n + 1 -> ar_state ar <> AttemptState.COMPLETED ->
  im_failback_attempts (settle_failback k ar now s) !! k = Some (n + 1) /\
  (forall ar', ar_state ar' = AttemptState.COMPLETED ->
     im_failback_attempts (settle_failback k ar' now s) !! k = Some 0) /\
  fd_authorized (evaluate_failback now' now_h (settle_failback k ar now s) k) = false.
Proof.
  intros Hsvc Hn Hr Hmax Hst.
  assert (im_failback_attempts (settle_failback k ar now s) !! k = Some (n + 1)) as Hset.
  { unfold settle_failback. rewrite bool_decide_eq_false_2 by done. simpl.
    rewrite lookup_insert_eq, Hn. simpl. unfold wrap32. by rewrite Z.mod_small by lia. }
  split; [done |]. split.
  { intros ar' Har. unfold settle_failback. rewrite bool_decide_eq_true_2 by done. apply lookup_insert_eq. }
  unfold evaluate_failback.
  assert (service_for_slot (settle_failback k ar now s) k = Some svc) as ->.
  { unfold settle_failback. by case_bool_decide. }
  destruct (slot_current _ k) as [cur |]; [| done]. destruct (im_preferred _ !! k) as [pref |]; [| done].
  destruct (asg_target cur =i pref); [done |]. destruct (policy_gate _ _ _); [done |].
  destruct (target_ready _ _); [| done]. simpl.
  apply not_true_iff_false. rewrite cooldown_gate_authorized, hysteresis_gate_authorized.
  intros (_ & _ & H). apply H in Hset. lia.
Qed.
