(* ===== verification/Invariant.v ===== *)
(** The representation invariant of the coordinator and its preservation by every
    operation of Fabric and every section of the cutover.

    The invariant is a conjunction of one condition per component, each about the
    fields of that component only, so that an operation has to show only the
    conditions of the fields it writes. *)

From stdpp Require Import base list gmap strings.
From Stdlib Require Import ZArith Lia.
From S2P Require Import Prelude Identities Types Double Model Domains Evidence Routes Requests Selection.
From S2P Require Import Fabric Cutover Failback.

Open Scope Z_scope.

(** The service index is exactly the positions of the services. *)
Definition services_wf (idx : gmap ServiceId nat) (l : list ServiceDefinition) : Prop :=
  forall id i, idx !! id = Some i <-> exists d, l !! i = Some d /\ svc_service d = id.

(** A slot holds at most one assignment that can be ACTIVE, its own; its history holds
    none. *)
Definition slot_ok (st : SlotState) : Prop :=
  (forall a, ss_current st = Some a -> asg_slot a = ss_slot st /\
     (asg_state a = AssignmentState.ACTIVE \/ asg_state a = AssignmentState.REVALIDATION_REQUIRED)) /\
  Forall (fun a => asg_state a <> AssignmentState.ACTIVE) (ss_history st).

Definition slots_wf (idx : gmap ServiceSlotKey nat) (l : list SlotState) : Prop :=
  (forall k i, idx !! k = Some i -> exists st, l !! i = Some st /\ ss_slot st = k) /\ Forall slot_ok l.

(** The target indices point at records, a record's facts are about its target. *)
Definition target_ok (r : TargetRecord) : Prop := forall f, tr_facts r = Some f -> cf_target f = tr_id r.
Definition targets_wf (idx : gmap TargetId nat) (by_svc : gmap ServiceId (list nat)) (l : list TargetRecord) : Prop :=
  (forall t i, idx !! t = Some i -> exists r, l !! i = Some r /\ tr_id r = t) /\
  (forall s ix i, by_svc !! s = Some ix -> i ∈ ix -> (i < length l)%nat) /\ Forall target_ok l.

Record impl_wf (s : Impl) : Prop := {
  wf_services : services_wf (im_service_index s) (im_services s);
  wf_slots : slots_wf (im_slot_index s) (im_slots s);
  wf_targets : targets_wf (im_target_index s) (im_targets_by_service s) (im_targets s);
  wf_evidence : evidence_wf (im_evidence s);
  wf_domains : registry_wf (im_domains s);
  wf_routes : routes_wf (im_routes s);
  wf_requests : tracker_wf (im_requests s) }.

Create HintDb fabric.
#[export] Hint Resolve wf_services wf_slots wf_targets wf_evidence wf_domains wf_routes wf_requests
  declare_wf set_membership_wf publish_wf evidence_clear_wf install_wf bind_gateway_wf
  mark_revalidation_wf record_wf set_outcome_unknown_wf : fabric.

(** An operation that leaves the fields of a component alone keeps its condition. *)
Ltac solve_wf := intros; constructor; simpl; auto with fabric.

(** * Lemmas on the components *)

Lemma services_wf_push idx l d :
  services_wf idx l -> (forall e, e ∈ l -> svc_service e <> svc_service d) ->
  services_wf (<[ svc_service d := length l ]> idx) (l ++ [d]).
Proof.
  intros Hwf Hnew id i. rewrite lookup_insert. case_decide as Hid.
  - subst id. split.
    + intros [= <-]. exists d. split; [| done]. by rewrite lookup_app_r, Nat.sub_diag by lia.
    + intros (e & He & Hs). apply lookup_app_Some in He as [He | [Hle He]].
      * by destruct (Hnew e (list_elem_of_lookup_2 _ _ _ He)).
      * apply list_lookup_singleton_Some in He as [Hi _]. f_equal. lia.
  - rewrite (Hwf id i). split; intros (e & He & Hs); exists e; (split; [| done]).
    + by apply lookup_app_l_Some.
    + apply lookup_app_Some in He as [He | [_ [_ <-]%list_lookup_singleton_Some]]; [done | congruence].
Qed.

Lemma slots_wf_append idx l k :
  slots_wf idx l -> slots_wf idx (l ++ [mkSlotState k None []]).
Proof.
  intros [Hi Hok]. split.
  - intros k' i H. destruct (Hi k' i H) as (st & Hst & Hk). exists st. split; [by apply lookup_app_l_Some | done].
  - apply Forall_app. split; [done |]. constructor; [| constructor]. split; [done | constructor].
Qed.

Lemma slots_wf_push idx l k :
  slots_wf idx l -> slots_wf (<[ k := length l ]> idx) (l ++ [mkSlotState k None []]).
Proof.
  intros Hwf. destruct (slots_wf_append idx l k Hwf) as [Hi Hok]. split; [| done].
  intros k' i. rewrite lookup_insert. case_decide as Hk; [| apply Hi]. intros [= <-]. subst k'.
  exists (mkSlotState k None []). split; [by rewrite lookup_app_r, Nat.sub_diag by lia | done].
Qed.

Lemma slots_wf_alter idx l i f :
  slots_wf idx l ->
  (forall st, l !! i = Some st -> slot_ok st -> ss_slot (f st) = ss_slot st /\ slot_ok (f st)) ->
  slots_wf idx (alter f i l).
Proof.
  intros [Hi Hok] Hf. rewrite Forall_lookup in Hok. split.
  - intros k j H. destruct (Hi k j H) as (st & Hst & Hk). destruct (decide (i = j)) as [-> | Hij].
    + exists (f st). rewrite list_lookup_alter_eq, Hst. split; [done |].
      by rewrite (proj1 (Hf st Hst (Hok j st Hst))).
    + exists st. by rewrite list_lookup_alter_ne.
  - apply Forall_lookup. intros j st. destruct (decide (i = j)) as [-> | Hij].
    + rewrite list_lookup_alter_eq. destruct (l !! j) as [st' |] eqn:E; [| done]. intros [= <-].
      apply Hf; [done |]. by apply (Hok j).
    + rewrite list_lookup_alter_ne by done. apply Hok.
Qed.

Lemma targets_wf_push idx by_svc l t tr :
  targets_wf idx by_svc l ->
  targets_wf (<[ t := length l ]> idx) by_svc (l ++ [mkTargetRecord t tr None false candidate_state_default []]).
Proof.
  intros (Hi & Hb & Hok). split; [| split].
  - intros t' i. rewrite lookup_insert. case_decide as Ht.
    + intros [= <-]. subst t'. eexists. split; [by rewrite lookup_app_r, Nat.sub_diag by lia | done].
    + intros H. destruct (Hi t' i H) as (r & Hr & Hid). exists r. split; [by apply lookup_app_l_Some | done].
  - intros s ix i Hs Hin. rewrite length_app. specialize (Hb s ix i Hs Hin). lia.
  - apply Forall_app. split; [done |]. by constructor; [| constructor].
Qed.

Lemma targets_wf_alter idx by_svc l i f :
  targets_wf idx by_svc l ->
  (forall r, l !! i = Some r -> target_ok r -> tr_id (f r) = tr_id r /\ target_ok (f r)) ->
  targets_wf idx by_svc (alter f i l).
Proof.
  intros (Hi & Hb & Hok) Hf. rewrite Forall_lookup in Hok. split; [| split].
  - intros t j H. destruct (Hi t j H) as (r & Hr & Hid). destruct (decide (i = j)) as [-> | Hij].
    + exists (f r). rewrite list_lookup_alter_eq, Hr. split; [done |].
      by rewrite (proj1 (Hf r Hr (Hok j r Hr))).
    + exists r. by rewrite list_lookup_alter_ne.
  - intros s ix j. rewrite length_alter. apply Hb.
  - apply Forall_lookup. intros j r. destruct (decide (i = j)) as [-> | Hij].
    + rewrite list_lookup_alter_eq. destruct (l !! j) as [r' |] eqn:E; [| done]. intros [= <-].
      apply Hf; [done |]. by apply (Hok j).
    + rewrite list_lookup_alter_ne by done. apply Hok.
Qed.

Lemma targets_wf_bind idx by_svc l svc i :
  targets_wf idx by_svc l -> (i < length l)%nat ->
  targets_wf idx (<[ svc := default [] (by_svc !! svc) ++ [i] ]> by_svc) l.
Proof.
  intros (Hi & Hb & Hok) Hlt. split; [done |]. split; [| done].
  intros s ix j. rewrite lookup_insert. case_decide as Hs; [| apply Hb].
  intros [= <-]. rewrite elem_of_app, list_elem_of_singleton. intros [Hin | ->]; [| done].
  destruct (by_svc !! svc) as [ix |] eqn:E; simpl in Hin; [by apply (Hb svc ix) | by apply elem_of_nil in Hin].
Qed.

(** * Lookups in a well-formed state *)

Lemma find_slot_pos_Some s k i st :
  find_slot_pos s k = Some (i, st) <-> im_slot_index s !! k = Some i /\ im_slots s !! i = Some st.
Proof.
  unfold find_slot_pos. destruct (im_slot_index s !! k) as [j |]; simpl; [| naive_solver].
  destruct (im_slots s !! j) eqn:E; simpl; naive_solver.
Qed.

Lemma find_slot_pos_None s k : impl_wf s -> find_slot_pos s k = None <-> im_slot_index s !! k = None.
Proof.
  intros Hwf. unfold find_slot_pos. destruct (im_slot_index s !! k) as [j |] eqn:E; simpl; [| done].
  destruct (proj1 (wf_slots s Hwf) k j E) as (st & -> & _). done.
Qed.

Lemma find_target_pos_Some s t i r :
  find_target_pos s t = Some (i, r) <-> im_target_index s !! t = Some i /\ im_targets s !! i = Some r.
Proof.
  unfold find_target_pos. destruct (im_target_index s !! t) as [j |]; simpl; [| naive_solver].
  destruct (im_targets s !! j) eqn:E; simpl; naive_solver.
Qed.

Lemma find_target_pos_id s t i r : impl_wf s -> find_target_pos s t = Some (i, r) -> tr_id r = t.
Proof.
  intros Hwf [Hi Hr]%find_target_pos_Some.
  destruct (proj1 (wf_targets s Hwf) t i Hi) as (r' & Hr' & <-). congruence.
Qed.

Lemma slot_current_Some s k a :
  slot_current s k = Some a <-> exists i st, find_slot_pos s k = Some (i, st) /\ ss_current st = Some a.
Proof.
  unfold slot_current, find_slot. destruct (find_slot_pos s k) as [[i st] |]; simpl; naive_solver.
Qed.

(** The current assignment of a slot is about that slot. *)
Lemma slot_current_ok s k a :
  impl_wf s -> slot_current s k = Some a ->
  asg_slot a = k /\ (asg_state a = AssignmentState.ACTIVE \/ asg_state a = AssignmentState.REVALIDATION_REQUIRED).
Proof.
  intros Hwf (i & st & [Hi Hst]%find_slot_pos_Some & Ha)%slot_current_Some.
  destruct (wf_slots s Hwf) as [Hidx Hok]. destruct (Hidx k i Hi) as (st' & Hst' & Hk).
  rewrite Forall_lookup in Hok. destruct (Hok i st Hst) as [Hcur _]. destruct (Hcur a Ha) as [-> Hs].
  split; [congruence | done].
Qed.

(** * Preservation, operation by operation *)

Lemma impl_init_wf cfg : impl_wf (impl_init cfg).
Proof.
  constructor; simpl.
  - intros id i. rewrite lookup_empty. split; [done | intros (d & Hd & _)]. by rewrite lookup_nil in Hd.
  - split; [intros k i; by rewrite lookup_empty | constructor].
  - split; [intros t i; by rewrite lookup_empty |]. split; [intros t ix i; by rewrite lookup_empty | constructor].
  - apply evidence_empty_wf.
  - constructor; simpl; [apply NoDup_nil_2 | apply not_elem_of_nil | apply NoDup_nil_2].
  - apply routes_empty_wf.
  - apply NoDup_nil_2.
Qed.

Lemma create_service_wf d s : impl_wf s -> impl_wf (create_service d s).1.
Proof.
  intros Hwf. unfold create_service. case_match; [done |].
  destruct (existsb _ _) eqn:E; [done |]. constructor; simpl; auto with fabric.
  apply services_wf_push; [auto with fabric |]. intros e He Heq.
  apply not_true_iff_false in E. apply E, existsb_exists. exists e.
  split; [by apply list_elem_of_In | by apply id_eqb_eq].
Qed.

Lemma push_slot_wf k s : impl_wf s -> impl_wf (push_slot k s).
Proof. intros Hwf. constructor; simpl; auto with fabric. apply slots_wf_push. auto with fabric. Qed.

Lemma write_slot_wf i f s :
  impl_wf s ->
  (forall st, im_slots s !! i = Some st -> slot_ok st -> ss_slot (f st) = ss_slot st /\ slot_ok (f st)) ->
  impl_wf (write_slot i f s).
Proof. intros Hwf Hf. constructor; simpl; auto with fabric. apply slots_wf_alter; auto with fabric. Qed.

Lemma write_target_wf i f s :
  impl_wf s ->
  (forall r, im_targets s !! i = Some r -> target_ok r -> tr_id (f r) = tr_id r /\ target_ok (f r)) ->
  impl_wf (write_target i f s).
Proof. intros Hwf Hf. constructor; simpl; auto with fabric. apply targets_wf_alter; auto with fabric. Qed.

(** Fields that no condition mentions. *)
Lemma bookkeeping_wf s p l f :
  impl_wf s ->
  impl_wf (s <| im_preferred := p |> <| im_last_transition := l |> <| im_failback_attempts := f |>).
Proof. solve_wf. Qed.

Lemma place_initial_wf now a s : impl_wf s -> impl_wf (place_initial now a s).
Proof.
  intros Hwf. unfold place_initial. simpl.
  destruct (im_slot_index s !! asg_slot a) as [i |] eqn:Ei; [| by apply bookkeeping_wf].
  apply write_slot_wf; [by apply bookkeeping_wf |]. simpl.
  intros st Hst [Hc Hh]. split; [done |]. split; [| done].
  destruct (proj1 (wf_slots s Hwf) (asg_slot a) i Ei) as (st' & Hst' & Hk).
  rewrite Hst in Hst'. injection Hst' as <-. simpl.
  intros a' [= <-]. destruct (gen_is_null _); (split; [done | by left]).
Qed.

Lemma set_initial_assignment_wf now a s : impl_wf s -> impl_wf (set_initial_assignment now a s).1.
Proof.
  intros Hwf. unfold set_initial_assignment. destruct (_ || _); [done |].
  destruct (find_slot s (asg_slot a)) as [[k [c |] h] |]; [done | |].
  - by apply place_initial_wf.
  - by apply place_initial_wf, push_slot_wf.
Qed.

Lemma register_target_wf t tr s : impl_wf s -> impl_wf (register_target t tr s).1.
Proof.
  intros Hwf. unfold register_target. case_match; [done |]. destruct (find_target s t); [done |].
  constructor; simpl; auto with fabric. apply targets_wf_push. auto with fabric.
Qed.

Lemma publish_candidate_facts_wf now f s : impl_wf s -> impl_wf (publish_candidate_facts now f s).1.
Proof.
  intros Hwf. unfold publish_candidate_facts.
  destruct (find_target_pos s (cf_target f)) as [[i t] |] eqn:E; [| done].
  pose proof (find_target_pos_id _ _ _ _ Hwf E) as Hid.
  apply find_target_pos_Some in E as [_ Ht]. pose proof (lookup_lt_Some _ _ _ Ht) as Hlt.
  destruct (match tr_facts t with None => true | Some old => _ end); [| done]. simpl.
  set (s1 := if negb (cf_service f =i id_null) && negb _ then _ else s).
  assert (impl_wf s1 /\ im_targets s1 = im_targets s) as [Hwf1 Et].
  { unfold s1. destruct (_ && _); [| done]. split; [| done]. constructor; simpl; auto with fabric.
    apply targets_wf_bind; [auto with fabric | done]. }
  clearbody s1. apply write_target_wf.
  - destruct (_ && _), (cf_ready f); solve_wf.
  - intros r. assert (forall x, im_targets (if cf_ready f then x <| im_ready_since := <[cf_target f:=now]> (im_ready_since x) |> else x) = im_targets x) as -> by (by intros; destruct (cf_ready f)).
    destruct (_ && _); simpl; rewrite Et, Ht; intros [= <-] _; (split; [done |]; intros f' [= <-]; done).
Qed.

Lemma publish_candidate_state_wf t st s : impl_wf s -> impl_wf (publish_candidate_state t st s).1.
Proof.
  intros Hwf. unfold publish_candidate_state. destruct (find_target_pos s t) as [[i r] |]; [| done].
  by apply write_target_wf.
Qed.

Lemma publish_candidate_resources_wf t rs s : impl_wf s -> impl_wf (publish_candidate_resources t rs s).1.
Proof.
  intros Hwf. unfold publish_candidate_resources. destruct (find_target_pos s t) as [[i r] |]; [| done].
  by apply write_target_wf.
Qed.

Lemma publish_failure_wf ev s : impl_wf s -> impl_wf (publish_failure ev s).
Proof.
  intros Hwf. unfold publish_failure.
  destruct (Z.eqb _ 0); simpl; destruct (fe_target ev); try destruct (_ || _); solve_wf.
Qed.

Lemma snapshot_locked_wf k s : impl_wf s -> impl_wf (snapshot_locked k s).1.
Proof. intros Hwf. unfold snapshot_locked. destruct (gen_next _); [solve_wf | done]. Qed.

Lemma classify_late_result_wf id auth s : impl_wf s -> impl_wf (classify_late_result id auth s).1.
Proof.
  intros Hwf. unfold classify_late_result, tracker_classify.
  repeat case_match; simplify_eq; simpl; (constructor; simpl; auto with fabric; apply (wf_requests s Hwf)).
Qed.

Lemma install_route_wf e b s : impl_wf s -> impl_wf (install_route e b s).1.
Proof.
  intros Hwf. unfold install_route. destruct (negb _); [done |].
  pose proof (install_wf (e <| re_state := RouteState.ACKNOWLEDGED |> <| re_gateway_boot := b |>) (im_routes s)
                (wf_routes s Hwf)) as H.
  destruct (install _ _) as [t ok]. simpl in *. constructor; simpl; auto with fabric.
Qed.

Lemma bind_route_gateway_wf k b s : impl_wf s -> impl_wf (bind_route_gateway k b s).1.
Proof.
  intros Hwf. unfold bind_route_gateway. pose proof (bind_gateway_wf k b (im_routes s) (wf_routes s Hwf)) as H.
  destruct (bind_gateway _ _ _) as [t ok]. simpl in *. constructor; simpl; auto with fabric.
Qed.

(** * Operations as data *)

(** One constructor per public operation that writes the state, other than
    [execute_plan], [execute_failback] and [load]. *)
Inductive FabricOp : Type :=
  | OpSetCoordinatorIdentity (id : CoordinatorId) (epoch : Z)
  | OpSetGatewayBoot (b : GatewayBootId)
  | OpCreateService (d : ServiceDefinition)
  | OpSetInitialAssignment (now : Z) (a : Assignment)
  | OpDeclareDomain (d : DomainDecl)
  | OpSetMembership (m : DomainMembership)
  | OpRegisterTarget (t : TargetId) (transport : string)
  | OpPublishFacts (now : Z) (f : CandidateFacts)
  | OpPublishState (t : TargetId) (st : CandidateState)
  | OpPublishResources (t : TargetId) (rs : list CandidateResource)
  | OpPublishFailure (ev : FailureEvent)
  | OpClearFailure (id : FailureEventId)
  | OpSnapshot (k : ServiceSlotKey)
  | OpPlanFailover (k : ServiceSlotKey) (pref : option TargetId)
  | OpSetCheckpointPath (p : string)
  | OpSetBarrier (m : Milestone)
  | OpClearBarrier
  | OpRecordRequest (r : RequestRecord)
  | OpClassifyLate (id : RequestId) (auth : WorkerAuthorization)
  | OpMarkUnknown (id : RequestId) (k : ServiceSlotKey)
  | OpRecordDispatch
  | OpInstallRoute (e : RouteEntry) (b : GatewayBootId)
  | OpBindRoute (k : ServiceSlotKey) (b : GatewayBootId)
  | OpMarkRoutes
  | OpAuthorizeFailback (k : ServiceSlotKey)
  | OpSettleFailback (k : ServiceSlotKey) (ar : AttemptResult) (now : Z).

(** The state an operation leaves, also when it throws. *)
Definition apply_op (o : FabricOp) (s : Impl) : Impl :=
  match o with
  | OpSetCoordinatorIdentity id e => set_coordinator_identity id e s
  | OpSetGatewayBoot b => set_gateway_boot b s
  | OpCreateService d => (create_service d s).1
  | OpSetInitialAssignment now a => (set_initial_assignment now a s).1
  | OpDeclareDomain d => declare_domain d s
  | OpSetMembership m => set_membership m s
  | OpRegisterTarget t tr => (register_target t tr s).1
  | OpPublishFacts now f => (publish_candidate_facts now f s).1
  | OpPublishState t st => (publish_candidate_state t st s).1
  | OpPublishResources t rs => (publish_candidate_resources t rs s).1
  | OpPublishFailure ev => publish_failure ev s
  | OpClearFailure id => clear_failure id s
  | OpSnapshot k => (snapshot_locked k s).1
  | OpPlanFailover k pref => (plan_failover_pref k pref s).1
  | OpSetCheckpointPath p => set_checkpoint_path p s
  | OpSetBarrier m => set_cutover_barrier m s
  | OpClearBarrier => clear_cutover_barrier s
  | OpRecordRequest r => record_request r s
  | OpClassifyLate id auth => (classify_late_result id auth s).1
  | OpMarkUnknown id k => mark_outcome_unknown id k s
  | OpRecordDispatch => record_dispatch s
  | OpInstallRoute e b => (install_route e b s).1
  | OpBindRoute k b => (bind_route_gateway k b s).1
  | OpMarkRoutes => mark_routes_revalidation s
  | OpAuthorizeFailback k => authorize_failback k s
  | OpSettleFailback k ar now => settle_failback k ar now s
  end.

(** Planning writes nothing but the snapshot counter. *)
Lemma plan_failover_pref_state k pref s :
  (plan_failover_pref k pref s).1 = s \/ (plan_failover_pref k pref s).1 = (snapshot_locked k s).1.
Proof.
  unfold plan_failover_pref. destruct (service_for_slot s k) as [svc |]; [| by left]. right.
  unfold mbind, st_bind. destruct (snapshot_locked k s) as [s1 [snap | e]]; simpl; [| done].
  destruct (sel_selected _) as [c |]; [| done]. unfold lift.
  destruct (gen_next (im_plan_gen_counter s1)); [| done]. by destruct (requested_route s1 k).
Qed.

Lemma settle_failback_wf k ar now s : impl_wf s -> impl_wf (settle_failback k ar now s).
Proof. intros Hwf. unfold settle_failback. case_bool_decide; solve_wf. Qed.

#[export] Hint Resolve create_service_wf set_initial_assignment_wf register_target_wf
  publish_candidate_facts_wf publish_candidate_state_wf publish_candidate_resources_wf publish_failure_wf
  snapshot_locked_wf classify_late_result_wf install_route_wf bind_route_gateway_wf settle_failback_wf : fabric.

Lemma apply_op_wf o s : impl_wf s -> impl_wf (apply_op o s).
Proof.
  intros Hwf. destruct o; simpl; try solve [auto with fabric]; try solve [solve_wf].
  destruct (plan_failover_pref_state k pref s) as [-> | ->]; auto with fabric.
Qed.

(** * The sections of the cutover *)

(** The attempt's replacement is for the attempt's slot. *)
Definition attempt_ok (a : Attempt) : Prop :=
  asg_slot (at_new a) = at_slot a /\ asg_state (at_new a) = AssignmentState.AUTHORIZED.

Lemma add_fenced_boot_wf b s : impl_wf s -> impl_wf (add_fenced_boot b s).
Proof. intros Hwf. unfold add_fenced_boot. destruct (_ && _); [solve_wf | done]. Qed.

Lemma push_attempt_state_wf st s : impl_wf s -> impl_wf (push_attempt_state st s).
Proof. solve_wf. Qed.
#[export] Hint Resolve add_fenced_boot_wf push_attempt_state_wf : fabric.

(** The outcomes of [prepare]: an invalid plan, an exhausted counter, or an attempt. *)
Lemma prepare_cases plan s :
  exists s0, (s0 = s \/ s0 = (snapshot_locked (pl_slot plan) s).1) /\
  match prepare plan s with
  | (s', Ok (inl r)) => s' = push_attempt_state AttemptState.FAILED s0 /\ ar_state r = AttemptState.FAILED /\
                        ar_committed_assignment r = None
  | (s', Ok (inr a)) =>
      s' = push_attempt_state AttemptState.EVALUATING
             (s0 <| im_assignment_counter := id_next (im_assignment_counter s0) |>) /\
      attempt_ok a /\ at_slot a = pl_slot plan /\ at_old a = slot_current s (pl_slot plan) /\
      source_unchanged plan (at_old a) = true /\ ar_committed_assignment (at_result a) = None /\ ar_detail (at_result a) = ""%string /\
      asg_id (at_new a) = im_assignment_counter s0 /\
      exists svc snap planned, service_for_slot s (pl_slot plan) = Some svc /\
        pl_selected plan = Some planned /\ revalidate s0 svc snap planned (pl_slot plan) = Some (at_selected a) /\
        snap_candidates snap = snapshot_candidates s0 (pl_slot plan) /\
        asg_worker_boot (at_new a) = cf_worker_boot (cand_facts (at_selected a)) /\
        asg_target (at_new a) = cf_target (cand_facts (at_selected a))
  | (s', Throw _) => s' = s0 \/ s' = s0 <| im_assignment_counter := id_next (im_assignment_counter s0) |>
  end.
Proof.
  unfold prepare, mbind, st_bind, get, lift. simpl.
  destruct (gen_next (im_attempt_gen_counter s)) as [ag | e]; [| exists s; by split; left].
  destruct (service_for_slot s (pl_slot plan)) as [svc |] eqn:Esvc; [| exists s; simpl; by split; [left |]].
  destruct (pl_selected plan) as [planned |] eqn:Epl; [| exists s; simpl; by split; [left |]].
  destruct (source_unchanged plan (slot_current s (pl_slot plan))) eqn:Esrc; simpl;
    [| exists s; simpl; by split; [left |]].
  exists (snapshot_locked (pl_slot plan) s).1. split; [by right |].
  destruct (snapshot_locked (pl_slot plan) s) as [s1 [snap | e]] eqn:Esn; simpl; [| by left].
  destruct (revalidate s1 svc snap planned (pl_slot plan)) as [c |] eqn:Er; simpl; [| done].
  destruct (gen_next _) as [g |]; [| by right]. destruct (gen_next _) as [aug |]; [| by right].
  destruct (gen_next _) as [acg |]; [| by right]. simpl.
  split_and!; try done. exists svc, snap, planned. split_and!; try done.
  unfold snapshot_locked in Esn. destruct (gen_next _); by simplify_eq.
Qed.

Lemma prepare_wf plan s : impl_wf s -> impl_wf (prepare plan s).1.
Proof.
  intros Hwf. destruct (prepare_cases plan s) as (s0 & Hs0 & H).
  assert (impl_wf s0) as Hwf0 by (destruct Hs0 as [-> | ->]; auto with fabric).
  assert (impl_wf (s0 <| im_assignment_counter := id_next (im_assignment_counter s0) |>)) as Hwf1 by solve_wf.
  destruct (prepare plan s) as [s' [[r | a] | e]]; simpl.
  - destruct H as (-> & _). auto with fabric.
  - destruct H as (-> & _). auto with fabric.
  - by destruct H as [-> | ->].
Qed.

Lemma record_txn_wf m p src rt s : impl_wf s -> impl_wf (record_txn m p src rt s).
Proof. solve_wf. Qed.

Lemma fence_section_wf a fo s : impl_wf s -> impl_wf (fence_section a fo s).1.
Proof.
  intros Hwf. unfold fence_section, stop. repeat case_match; simpl; auto with fabric.
Qed.

Lemma activate_section_wf a ao s : impl_wf s -> impl_wf (activate_section a ao s).1.
Proof. intros Hwf. unfold activate_section, stop. case_match; simpl; auto with fabric. Qed.

Lemma route_section_wf a re ro s : impl_wf s -> impl_wf (route_section a re ro s).1.
Proof. intros Hwf. unfold route_section, stop. case_match; simpl; [auto with fabric | solve_wf]. Qed.

Lemma commit_slot_ok a st :
  attempt_ok a -> ss_slot st = at_slot a -> slot_ok st ->
  ss_slot (commit_slot a st) = ss_slot st /\ slot_ok (commit_slot a st).
Proof.
  intros [Hs _] Hk [Hc Hh]. unfold commit_slot.
  destruct (ss_current st) as [c |], (at_old a) as [o |]; simpl; (split; [done |]); split; simpl.
  all: try (intros x [= <-]; simpl; split; [congruence | by left]).
  all: try done; apply Forall_app; (split; [done | by constructor]).
Qed.

(** The state in which a verified attempt finds or creates its slot. *)
Definition with_slot (a : Attempt) (s : Impl) : nat * Impl :=
  match find_slot_pos s (at_slot a) with
  | Some (i, _) => (i, s)
  | None => (length (im_slots s), s <| im_slots := im_slots s ++ [mkSlotState (at_slot a) None []] |>)
  end.

Lemma with_slot_ok a s :
  impl_wf s ->
  impl_wf (with_slot a s).2 /\ exists st, im_slots (with_slot a s).2 !! (with_slot a s).1 = Some st /\
    ss_slot st = at_slot a /\ ss_current st = slot_current s (at_slot a).
Proof.
  intros Hwf. unfold with_slot, slot_current, find_slot.
  destruct (find_slot_pos s (at_slot a)) as [[i st] |] eqn:E; simpl.
  - split; [done |]. exists st. apply find_slot_pos_Some in E as [Hi Hst].
    destruct (proj1 (wf_slots s Hwf) _ _ Hi) as (st' & Hst' & Hk). split_and!; congruence.
  - split.
    + constructor; simpl; auto with fabric. apply slots_wf_append. auto with fabric.
    + eexists. split; [by rewrite lookup_app_r, Nat.sub_diag by lia | done].
Qed.

(** [verify_section] in terms of the slot found: refused, superseded or committed. *)
Lemma verify_section_cases a vo now s :
  impl_wf s ->
  (vo_verified vo = false /\ verify_section a vo now s =
     stop (at_result a) AttemptState.RECOVERY_REQUIRED ("verification failed: " +:+ vo_detail vo) s) \/
  (vo_verified vo = true /\
   (exists o c, at_old a = Some o /\ slot_current s (at_slot a) = Some c /\
      ~ (asg_id c = asg_id o /\ asg_generation c = asg_generation o)) /\
   verify_section a vo now s =
     stop (at_result a) AttemptState.SUPERSEDED "attempt superseded by a newer promotion" s) \/
  (vo_verified vo = true /\
   (forall o c, at_old a = Some o -> slot_current s (at_slot a) = Some c ->
      asg_id c = asg_id o /\ asg_generation c = asg_generation o) /\
   exists s', s' = write_slot (with_slot a s).1 (commit_slot a) (with_slot a s).2 /\
     verify_section a vo now s =
       (push_attempt_state AttemptState.COMPLETED
          (match at_old a with Some o => add_fenced_boot (asg_worker_boot o) s' | None => s' end
             <| im_last_authority_gen := asg_authority_generation (at_new a) |>
             <| im_last_transition := <[ at_slot a := now ]> (im_last_transition s) |>
             <| im_has_txn := false |>),
        inl (at_result a <| ar_reached := Milestone.VERIFICATION_COMPLETE |>
               <| ar_state := AttemptState.COMPLETED |> <| ar_recovery_verified := true |>
               <| ar_committed_assignment := Some (activated (at_new a)) |>))).
Proof.
  intros Hwf. unfold verify_section, with_slot, slot_current, find_slot, superseded.
  destruct (vo_verified vo); [right | by left]. simpl.
  assert (forall x, im_last_transition (match at_old a with Some o => add_fenced_boot (asg_worker_boot o) x | None => x end)
            = im_last_transition x) as Hlt.
  { intros x. destruct (at_old a); [| done]. unfold add_fenced_boot. by destruct (_ && _). }
  destruct (find_slot_pos s (at_slot a)) as [[i st] |]; simpl.
  - destruct (at_old a) as [o |] eqn:Eo, (ss_current st) as [c |] eqn:Ec; simpl.
    2-4: right; split; [done |]; (split; [by intros |]); eexists; (split; [done |]);
         rewrite ?Eo; by rewrite ?(Hlt (write_slot _ _ _)).
    destruct ((asg_id c =i asg_id o) && (asg_generation c =g asg_generation o)) eqn:Es; simpl.
    + right. split; [done |]. apply andb_true_iff in Es as [H1%id_eqb_eq H2%gen_eqb_eq].
      split; [by intros ? ? [= <-] [= <-] |].
      eexists. split; [done |]. by rewrite (Hlt (write_slot _ _ _)).
    + left. split; [done |]. split; [| done]. exists o, c. split_and!; try done.
      rewrite <- id_eqb_eq, <- gen_eqb_eq. intros [H1 H2]. by rewrite H1, H2 in Es.
  - right. split; [done |]. split; [by intros |]. eexists. split; [done |].
    destruct (at_old a); by rewrite ?(Hlt (write_slot _ _ _)).
Qed.

Lemma commit_wf a s :
  attempt_ok a -> impl_wf s -> impl_wf (write_slot (with_slot a s).1 (commit_slot a) (with_slot a s).2).
Proof.
  intros Ha Hwf. destruct (with_slot_ok a s Hwf) as (Hwf' & st & Hst & Hk & _).
  apply write_slot_wf; [done |]. intros st' Hst' Hok. apply commit_slot_ok; [done | congruence | done].
Qed.

Lemma transition_wf s g l b :
  impl_wf s ->
  impl_wf (s <| im_last_authority_gen := g |> <| im_last_transition := l |> <| im_has_txn := b |>).
Proof. solve_wf. Qed.

Lemma verify_section_wf a vo now s :
  attempt_ok a -> impl_wf s -> impl_wf (verify_section a vo now s).1.
Proof.
  intros Ha Hwf.
  destruct (verify_section_cases a vo now s Hwf) as [[_ ->] | [(_ & _ & ->) | (_ & _ & s' & -> & ->)]]; simpl;
    auto with fabric.
  pose proof (commit_wf a s Ha Hwf). apply push_attempt_state_wf, transition_wf.
  destruct (at_old a); auto with fabric.
Qed.
#[export] Hint Resolve prepare_wf record_txn_wf fence_section_wf activate_section_wf route_section_wf
  verify_section_wf : fabric.

(** * What each step does to the current assignments *)

Lemma slot_current_ext s s' k :
  im_slot_index s' = im_slot_index s -> im_slots s' = im_slots s -> slot_current s' k = slot_current s k.
Proof. intros E1 E2. unfold slot_current, find_slot, find_slot_pos. by rewrite E1, E2. Qed.

Lemma add_fenced_boot_slots b s :
  im_slot_index (add_fenced_boot b s) = im_slot_index s /\ im_slots (add_fenced_boot b s) = im_slots s.
Proof. unfold add_fenced_boot. by destruct (_ && _). Qed.

(** No operation but [set_initial_assignment] touches the slots. *)
Lemma apply_op_slots o s :
  (exists now a, o = OpSetInitialAssignment now a) \/
  (im_slot_index (apply_op o s) = im_slot_index s /\ im_slots (apply_op o s) = im_slots s).
Proof.
  destruct o; simpl; eauto; right; try done.
  - unfold create_service. by repeat case_match.
  - unfold register_target. by repeat case_match.
  - unfold publish_candidate_facts. destruct (find_target_pos s (cf_target f)) as [[i r] |]; [| done].
    repeat case_match; done.
  - unfold publish_candidate_state. by repeat case_match.
  - unfold publish_candidate_resources. by repeat case_match.
  - unfold publish_failure. by repeat case_match.
  - unfold snapshot_locked. by destruct (gen_next _).
  - destruct (plan_failover_pref_state k pref s) as [-> | ->]; [done |].
    unfold snapshot_locked. by destruct (gen_next _).
  - unfold classify_late_result. by destruct (tracker_classify _ _ _).
  - unfold install_route. case_match; [done |]. by destruct (install _ _).
  - unfold bind_route_gateway. by destruct (bind_gateway _ _ _).
  - unfold settle_failback. by case_bool_decide.
Qed.

(** No operation takes an assignment identity. *)
Lemma apply_op_counter o s : im_assignment_counter (apply_op o s) = im_assignment_counter s.
Proof.
  destruct o; simpl; try done.
  - unfold create_service. by repeat case_match.
  - unfold set_initial_assignment, place_initial. by repeat case_match.
  - unfold register_target. by repeat case_match.
  - unfold publish_candidate_facts. destruct (find_target_pos s (cf_target f)) as [[i r] |]; [| done].
    repeat case_match; done.
  - unfold publish_candidate_state. by repeat case_match.
  - unfold publish_candidate_resources. by repeat case_match.
  - unfold publish_failure. by repeat case_match.
  - unfold snapshot_locked. by destruct (gen_next _).
  - destruct (plan_failover_pref_state k pref s) as [-> | ->]; [done |].
    unfold snapshot_locked. by destruct (gen_next _).
  - unfold classify_late_result. by destruct (tracker_classify _ _ _).
  - unfold install_route. case_match; [done |]. by destruct (install _ _).
  - unfold bind_route_gateway. by destruct (bind_gateway _ _ _).
  - unfold settle_failback. by case_bool_decide.
Qed.

(** The index maps different keys to different positions. *)
Lemma slot_index_inj s k k' i :
  impl_wf s -> im_slot_index s !! k = Some i -> im_slot_index s !! k' = Some i -> k = k'.
Proof.
  intros Hwf H1 H2. destruct (proj1 (wf_slots s Hwf) _ _ H1) as (st & Hst & <-).
  destruct (proj1 (wf_slots s Hwf) _ _ H2) as (st' & Hst' & <-). congruence.
Qed.

(** The current assignments after a commit: the attempt's own slot holds the
    replacement if it is indexed, the others are as before. *)
Lemma commit_slot_current a s k :
  impl_wf s ->
  slot_current (write_slot (with_slot a s).1 (commit_slot a) (with_slot a s).2) k =
  if decide (k = at_slot a)
  then (if find_slot_pos s k then Some (activated (at_new a)) else None)
  else slot_current s k.
Proof.
  intros Hwf. unfold with_slot, slot_current, find_slot.
  destruct (find_slot_pos s (at_slot a)) as [[i st] |] eqn:E; simpl.
  - apply find_slot_pos_Some in E as [Hi Hst]. case_decide as Hk.
    + subst k. unfold find_slot_pos. simpl. rewrite Hi. simpl. rewrite list_lookup_alter_eq, Hst. done.
    + unfold find_slot_pos. simpl. destruct (im_slot_index s !! k) as [j |] eqn:Ej; [| done]. simpl.
      destruct (decide (i = j)) as [-> | Hij]; [by destruct Hk; eapply slot_index_inj |].
      by rewrite list_lookup_alter_ne.
  - case_decide as Hk.
    + subst k. rewrite E. apply find_slot_pos_None in E; [| done].
      unfold find_slot_pos. simpl. by rewrite E.
    + unfold find_slot_pos. simpl. destruct (im_slot_index s !! k) as [j |] eqn:Ej; [| done]. simpl.
      destruct (proj1 (wf_slots s Hwf) _ _ Ej) as (st & Hst & _).
      pose proof (lookup_lt_Some _ _ _ Hst).
      rewrite list_lookup_alter_ne by lia. by rewrite lookup_app_l, Hst by done.
Qed.

Lemma slot_current_write s i f k0 k :
  impl_wf s -> im_slot_index s !! k0 = Some i ->
  slot_current (write_slot i f s) k =
  if decide (k = k0) then find_slot s k0 ≫= (fun st => ss_current (f st)) else slot_current s k.
Proof.
  intros Hwf Hi. unfold slot_current, find_slot, find_slot_pos. simpl. case_decide as Hk.
  - subst k. rewrite Hi. simpl. rewrite list_lookup_alter_eq. by destruct (im_slots s !! i).
  - destruct (im_slot_index s !! k) as [j |] eqn:Ej; [| done]. simpl.
    destruct (decide (i = j)) as [-> | Hij]; [by destruct Hk; eapply slot_index_inj |].
    by rewrite list_lookup_alter_ne.
Qed.

Lemma slot_current_push s k0 k :
  impl_wf s -> find_slot s k0 = None -> slot_current (push_slot k0 s) k = slot_current s k.
Proof.
  intros Hwf Hn.
  assert (im_slot_index s !! k0 = None) as Hi.
  { apply find_slot_pos_None; [done |]. unfold find_slot in Hn. by destruct (find_slot_pos s k0). }
  unfold slot_current, find_slot, find_slot_pos. simpl. rewrite lookup_insert. case_decide as Hk.
  - subst k. rewrite Hi. simpl. by rewrite lookup_app_r, Nat.sub_diag by lia.
  - destruct (im_slot_index s !! k) as [j |] eqn:Ej; [| done]. simpl.
    destruct (proj1 (wf_slots s Hwf) _ _ Ej) as (st & Hst & _). by erewrite lookup_app_l_Some, Hst.
Qed.

(** [set_initial_assignment] fills an empty slot with an ACTIVE assignment. *)
Lemma place_initial_current now a s k :
  impl_wf s ->
  slot_current (place_initial now a s) k = slot_current s k \/
  (k = asg_slot a /\ exists a', slot_current (place_initial now a s) k = Some a' /\
     asg_state a' = AssignmentState.ACTIVE /\ asg_id a' = asg_id a /\ asg_target a' = asg_target a).
Proof.
  intros Hwf. unfold place_initial. simpl. destruct (im_slot_index s !! asg_slot a) as [i |] eqn:Ei; [| by left].
  erewrite slot_current_write; [| by apply bookkeeping_wf | exact Ei].
  case_decide as Hk; [| by left]. right. split; [done |].
  destruct (proj1 (wf_slots s Hwf) _ _ Ei) as (st & Hst & _).
  unfold find_slot, find_slot_pos. simpl. rewrite Ei. simpl. rewrite Hst. simpl.
  eexists. split; [reflexivity |]. by destruct (gen_is_null _).
Qed.

Lemma set_initial_current now a s k :
  impl_wf s ->
  slot_current (set_initial_assignment now a s).1 k = slot_current s k \/
  (k = asg_slot a /\ slot_current s k = None /\
   exists a', slot_current (set_initial_assignment now a s).1 k = Some a' /\
     asg_state a' = AssignmentState.ACTIVE /\ asg_id a' = asg_id a /\ asg_target a' = asg_target a).
Proof.
  intros Hwf. unfold set_initial_assignment. destruct (_ || _); [by left |].
  destruct (find_slot s (asg_slot a)) as [[k' [c |] h] |] eqn:E; simpl; [by left | |].
  - destruct (place_initial_current now a s k Hwf) as [-> | [-> H]]; [by left |]. right.
    split; [done |]. split; [| done]. unfold slot_current. by rewrite E.
  - pose proof (push_slot_wf (asg_slot a) s Hwf) as Hwf'.
    destruct (place_initial_current now a (push_slot (asg_slot a) s) k Hwf') as [-> | [-> H]].
    + left. by apply slot_current_push.
    + right. split; [done |]. split; [| done]. unfold slot_current. by rewrite E.
Qed.

(** * Fences only accumulate *)

Lemma boot_fenced_true s b : boot_fenced s b = true <-> b ∈ im_fenced_boots s.
Proof. apply (mem_true _ id_eqb_eq). Qed.

Lemma elem_of_add_fenced b b' s :
  b' ∈ im_fenced_boots (add_fenced_boot b s) <->
  b' ∈ im_fenced_boots s \/ (b' = b /\ b <> id_null).
Proof.
  unfold add_fenced_boot. destruct (negb (id_is_null b)) eqn:En; simpl.
  - apply negb_true_iff, id_is_null_false in En. destruct (boot_fenced s b) eqn:Eb; simpl.
    + apply boot_fenced_true in Eb. naive_solver.
    + rewrite elem_of_app, list_elem_of_singleton. naive_solver.
  - apply negb_false_iff, id_is_null_true in En. naive_solver.
Qed.

Lemma apply_op_fenced o s : im_fenced_boots (apply_op o s) = im_fenced_boots s.
Proof.
  destruct o; simpl; try done.
  - unfold create_service. by repeat case_match.
  - unfold set_initial_assignment, place_initial. simpl. repeat case_match; done.
  - unfold register_target. by repeat case_match.
  - unfold publish_candidate_facts. destruct (find_target_pos s (cf_target f)) as [[i r] |]; [| done].
    repeat case_match; done.
  - unfold publish_candidate_state. by repeat case_match.
  - unfold publish_candidate_resources. by repeat case_match.
  - unfold publish_failure. by repeat case_match.
  - unfold snapshot_locked. by destruct (gen_next _).
  - destruct (plan_failover_pref_state k pref s) as [-> | ->]; [done |].
    unfold snapshot_locked. by destruct (gen_next _).
  - unfold classify_late_result. by destruct (tracker_classify _ _ _).
  - unfold install_route. case_match; [done |]. by destruct (install _ _).
  - unfold bind_route_gateway. by destruct (bind_gateway _ _ _).
  - unfold settle_failback. by case_bool_decide.
Qed.
