(* ===== verification/Readers.v ===== *)
(** The readers of the coordinator core (coordinator/fabric.cpp): [snapshot], [select] and
    [eligible_candidates] take the lock shared, so any number of them run at once, and each
    advances the mutable [snapshot_counter].

    [snapshot_reader] is [snapshot_locked] with the accesses to that counter as the actions
    they are; the rest of the state does not change while the lock is held shared.  Alone
    it is the operation of Fabric; two of them can be given the same generation. *)

From stdpp Require Import base list gmap strings.
From Stdlib Require Import ZArith Lia.
From S2P Require Import Prelude Threads Identities Types Double Model Domains Evidence Routes Requests.
From S2P Require Import Recovery Selection Persistence Fabric Invariant.

Open Scope Z_scope.

Section readers.
Context {M : Type -> Type} `{!MBind M, !MRet M, !Atomic Impl M}.

(** [snapshot_counter = snapshot_counter.next(); snap.generation = snapshot_counter;] *)
Definition snapshot_reader (k : ServiceSlotKey) : M CandidateSnapshot :=
  c ⇐ gets im_snapshot_counter;
  g ⇐ lift (gen_next c);
  _ ⇐ modify (fun s : Impl => s <| im_snapshot_counter := g |>);
  g' ⇐ gets im_snapshot_counter;
  cs ⇐ gets (fun s => snapshot_candidates s k);
  mret (mkSnapshot g' k timestamp_default cs).

Definition select_reader (k : ServiceSlotKey) : M SelectionResult :=
  svc ⇐ gets (fun s => service_for_slot s k);
  match svc with
  | None => mret selection_default
  | Some svc =>
    snap ← snapshot_reader k;
    s ⇐ get;
    mret (select snap svc (im_domains s) (build_context s k))
  end.
End readers.

(** * Lemmas *)

Lemma snapshot_reader_agrees k : agrees (snapshot_reader k) (snapshot_reader k).
Proof. unfold snapshot_reader. solve_agrees. Qed.

Lemma snapshot_reader_alone k (s : Impl) : (snapshot_reader k : ST Impl _) s = snapshot_locked k s.
Proof.
  unfold snapshot_reader, snapshot_locked. alone. unfold mbind, st_bind, gets, lift, modify.
  by destruct (gen_next (im_snapshot_counter s)).
Qed.

(** What a reader keeps: everything but the counter. *)
Definition same_but_counter (s s' : Impl) : Prop :=
  exists g, s' = s <| im_snapshot_counter := g |>.
#[export] Instance same_but_counter_preorder : PreOrder same_but_counter.
Proof.
  split; [intros s; exists (im_snapshot_counter s); by destruct s |]. intros s1 s2 s3 [g ->] [g' ->]. by exists g'.
Qed.

Lemma counter_keeps_candidates s s' k :
  same_but_counter s s' -> snapshot_candidates s' k = snapshot_candidates s k /\ build_context s' k = build_context s k /\
    service_for_slot s' k = service_for_slot s k /\ im_domains s' = im_domains s.
Proof. by intros [g ->]. Qed.

Lemma snapshot_reader_keeps k : guarantees same_but_counter (snapshot_reader k).
Proof.
  unfold snapshot_reader. repeat (apply guarantees_bind; [| intros ?]); try done;
    first [apply guarantees_reads; [apply _ | done] | apply guarantees_atomic; intros s; by eexists].
Qed.

(** A reader ends with the candidates of the state it began in, however many readers run. *)
Lemma snapshot_reader_ensures k s0 :
  ensures (same_but_counter s0) (fun x => forall snap, x = Ok snap ->
    snap_slot snap = k /\ snap_candidates snap = snapshot_candidates s0 k) (snapshot_reader k).
Proof.
  unfold snapshot_reader. apply ensures_bind, ensures_atomic. intros s1 _ _. cbn [gets snd].
  apply ensures_bind, ensures_atomic. intros s2 _ _. cbn [lift snd]. destruct (gen_next _); [| done].
  apply ensures_bind, ensures_atomic. intros s3 _ _. cbn [modify snd]. apply ensures_bind, ensures_atomic. intros s4 _ _. cbn [gets snd].
  apply ensures_bind, ensures_atomic. intros s5 Hs _. cbn [gets snd]. intros snap [= <-]. split; [done |].
  by destruct (counter_keeps_candidates _ _ k Hs).
Qed.

(** The first action of a reader, and the four that follow when the counter can advance. *)
Definition after_load (k : ServiceSlotKey) (c : CandidateSnapshotGeneration) : Prog Impl CandidateSnapshot :=
  g ⇐ lift (gen_next c);
  _ ⇐ modify (fun s : Impl => s <| im_snapshot_counter := g |>);
  g' ⇐ gets im_snapshot_counter;
  cs ⇐ gets (fun s => snapshot_candidates s k);
  mret (mkSnapshot g' k timestamp_default cs).
Lemma reader_loads k s : run_for 1 (snapshot_reader k) s = (s, after_load k (im_snapshot_counter s)).
Proof. reflexivity. Qed.
Lemma reader_stores k c g s :
  gen_next c = Ok g ->
  let s' := s <| im_snapshot_counter := g |> in
  run_for 4 (after_load k c) s = (s', Done (Ok (mkSnapshot g k timestamp_default (snapshot_candidates s' k)))).
Proof. intros Hg s'. unfold after_load. rewrite Hg. reflexivity. Qed.

(** * Theorems *)

(** Under the shared lock, whatever other readers run, a reader ends with the candidates of
    the moment it took the lock; and by itself it is the operation under the exclusive
    lock. *)
Theorem readers_see_one_state (k : ServiceSlotKey) (p : Z) (c : Crew Impl CandidateSnapshot) (es : list (CrewEvent Impl CandidateSnapshot))
    (snap : CandidateSnapshot) :
  (forall q t, crew_threads c !! q = Some t -> guarantees same_but_counter t) ->
  Forall (fun e => match e with Begin _ t => exists k', t = snapshot_reader k' | Outside _ => False | _ => True end) es ->
  finished p (snapshot_reader k) c es (Ok snap) ->
  snap_slot snap = k /\ snap_candidates snap = snapshot_candidates (crew_state c) k.
Proof.
  intros Hc Hes Hf. refine (finished_ensures (fun x => forall snap, x = Ok snap -> _) _ _ _ _ _ Hf _ snap eq_refl).
  eapply ensures_weaken; [| apply (snapshot_reader_ensures k (crew_state c))].
  intros s Hs. eapply (crew_visits_guarantees same_but_counter (Begin p (snapshot_reader k) :: es) c); [| done | by apply (crew_visits_app_r c [_])].
  constructor; [apply snapshot_reader_keeps |]. eapply Forall_impl; [exact Hes |]. intros [| | |]; try done.
  intros [k' ->]. apply snapshot_reader_keeps.
Qed.

(** The generations are not unique: two readers that both load the counter before either
    stores it are given the same one, in every state in which the counter can advance. *)
Theorem snapshots_can_share_a_generation (s : Impl) (k k' : ServiceSlotKey) (g : CandidateSnapshotGeneration) :
  gen_next (im_snapshot_counter s) = Ok g ->
  let es := [Begin 1 (snapshot_reader k); Begin 2 (snapshot_reader k')] ++ replicate 1 (Step 1) ++ replicate 1 (Step 2) ++
            replicate 4 (Step 1) ++ replicate 4 (Step 2) in
  let c := crew_run es (mkCrew s ∅) in
  exists a b, crew_threads c !! 1 = Some (Done (Ok a)) /\ crew_threads c !! 2 = Some (Done (Ok b)) /\
    snap_generation a = g /\ snap_generation b = g.
Proof.
  intros Hg es c. unfold c, es. rewrite !crew_run_app.
  assert (crew_run [Begin 1 (snapshot_reader k); Begin 2 (snapshot_reader k')] (mkCrew s ∅) =
          mkCrew s (<[ 2 := snapshot_reader k' ]> {[ 1 := snapshot_reader k ]})) as ->.
  { unfold crew_run. cbn [foldl]. rewrite (crew_begin 1) by apply lookup_empty. cbn [crew_state crew_threads].
    rewrite insert_empty. apply (crew_begin 2). cbn [crew_threads]. by rewrite lookup_singleton_ne. }
  erewrite (crew_run_for 1 1); [| cbn [crew_threads]; by rewrite lookup_insert_ne, lookup_singleton_eq].
  rewrite reader_loads. cbn [fst snd crew_state crew_threads].
  erewrite (crew_run_for 1 2); [| cbn [crew_threads]; by rewrite lookup_insert_ne, lookup_insert_eq].
  rewrite reader_loads. cbn [fst snd crew_state crew_threads].
  erewrite (crew_run_for 4 1); [| cbn [crew_threads]; by rewrite lookup_insert_ne, lookup_insert_eq].
  rewrite (reader_stores _ _ g) by done. cbn [fst snd crew_state crew_threads].
  erewrite (crew_run_for 4 2); [| cbn [crew_threads]; by rewrite lookup_insert_ne, lookup_insert_eq].
  rewrite (reader_stores _ _ g) by done. cbn [fst snd crew_state crew_threads].
  eexists _, _. split; [by rewrite lookup_insert_ne, lookup_insert_eq |]. split; [by rewrite lookup_insert_eq |]. done.
Qed.
