(* ===== verification/System.v ===== *)
(** Any number of cutovers and other operations, interleaved.

    A cutover runs outside the lock between its sections, so other operations and
    other cutovers can change the state there.  A configuration is the coordinator's
    state with the program counter of each attempt; a step is one operation, the
    start of an attempt, or the next locked section of one attempt with whatever
    answer its adapter gave.  The invariants are proved by induction on the steps.
    [load], which replaces the state, is no step: the process calls it once, before it
    accepts a connection, and Restart has what it does. *)

From stdpp Require Import base list gmap strings relations.
From Stdlib Require Import ZArith Lia.
From S2P Require Import Prelude Identities Types Double Model Domains Evidence Routes Requests Recovery.
From S2P Require Import Selection Fabric Cutover Failback Invariant.

Open Scope Z_scope.

(** * Attempts in flight *)

(** Where an attempt stands: before a checkpoint ([AtIntent], [AtFenced],
    [AtActivated], [AtRouted]) or before the locked section that follows an adapter
    call; [AtBuildRoute] is before the unlocked read of epoch and gateway boot. *)
Inductive Pc : Type :=
  | AtIntent (a : Attempt)
  | AtFence (a : Attempt)
  | AtFenced (a : Attempt)
  | AtActivate (a : Attempt)
  | AtActivated (a : Attempt)
  | AtBuildRoute (a : Attempt)
  | AtRoute (a : Attempt) (re : RouteEntry)
  | AtRouted (a : Attempt) (re : RouteEntry)
  | AtVerify (a : Attempt) (re : RouteEntry)
  | Finished (r : AttemptResult)
  | Aborted.

Definition continue_with (f : Attempt -> Pc) (x : AttemptResult + Attempt) : Pc :=
  match x with inl r => Finished r | inr a => f a end.

(** What may follow a checkpoint: the next section, the early return at the barrier,
    or the exception of a failed save. *)
Definition after_checkpoint (m : Milestone) (a : Attempt) (next pc : Pc) : Prop :=
  pc = next \/ pc = Finished (interrupted a m) \/ pc = Aborted.

Definition txn_of (m : Milestone) (a : Attempt) (rt : option RouteEntry) (s : Impl) : Impl :=
  record_txn m (Some (at_new a)) (at_old a) rt s.

Inductive pc_step (s : Impl) : Pc -> Impl -> Pc -> Prop :=
  | pc_intent a pc : after_checkpoint Milestone.INTENT_ONLY a (AtFence a) pc ->
      pc_step s (AtIntent a) (txn_of Milestone.INTENT_ONLY a None s) pc
  | pc_fence a fo s' x : fence_section a fo s = (s', x) ->
      pc_step s (AtFence a) s' (continue_with AtFenced x)
  | pc_fenced a pc : after_checkpoint Milestone.OLD_ADMISSION_FENCED a (AtActivate a) pc ->
      pc_step s (AtFenced a) (txn_of Milestone.OLD_ADMISSION_FENCED a None s) pc
  | pc_activate a ao s' x : activate_section a ao s = (s', x) ->
      pc_step s (AtActivate a) s' (continue_with AtActivated x)
  | pc_activated a pc : after_checkpoint Milestone.ACTIVATION_ACKNOWLEDGED a (AtBuildRoute a) pc ->
      pc_step s (AtActivated a) (txn_of Milestone.ACTIVATION_ACKNOWLEDGED a None s) pc
  | pc_build a : pc_step s (AtBuildRoute a) s (AtRoute a (route_for s a))
  | pc_route a re ro s' x : route_section a re ro s = (s', x) ->
      pc_step s (AtRoute a re) s' (continue_with (fun a => AtRouted a re) x)
  | pc_routed a re pc : after_checkpoint Milestone.ROUTE_INSTALLED a (AtVerify a re) pc ->
      pc_step s (AtRouted a re) (txn_of Milestone.ROUTE_INSTALLED a (Some re) s) pc
  | pc_verify a re vo now s' x : verify_section a vo now s = (s', x) ->
      pc_step s (AtVerify a re) s' (continue_with (fun a => AtVerify a re) x).

(** * Configurations *)

Record Config : Type := mkConfiguration { cf_impl : Impl; cf_attempts : list Pc }.

Definition started (x : result (AttemptResult + Attempt)) : Pc :=
  match x with Ok (inl r) => Finished r | Ok (inr a) => AtIntent a | Throw _ => Aborted end.

Inductive sys_step : Config -> Config -> Prop :=
  | sys_op o s ps : sys_step (mkConfiguration s ps) (mkConfiguration (apply_op o s) ps)
  | sys_start plan s ps s' x : prepare plan s = (s', x) ->
      sys_step (mkConfiguration s ps) (mkConfiguration s' (ps ++ [started x]))
  | sys_section s ps i pc s' pc' : ps !! i = Some pc -> pc_step s pc s' pc' ->
      sys_step (mkConfiguration s ps) (mkConfiguration s' (<[ i := pc' ]> ps)).

(** What a step was: an operation, the start of an attempt, a section of the attempt at a
    position, or its last section with what the verification and the clock had answered. *)
Inductive Label : Type :=
  | ByOp (o : FabricOp)
  | ByStart (plan : FailoverPlan)
  | BySection (i : nat)
  | ByVerify (i : nat) (vo : VerifyOutcome) (now : Z).

Inductive sys_does : Label -> Config -> Config -> Prop :=
  | does_op o s ps : sys_does (ByOp o) (mkConfiguration s ps) (mkConfiguration (apply_op o s) ps)
  | does_start plan s ps s' x : prepare plan s = (s', x) ->
      sys_does (ByStart plan) (mkConfiguration s ps) (mkConfiguration s' (ps ++ [started x]))
  | does_section s ps i pc s' pc' : ps !! i = Some pc -> (forall a re, pc <> AtVerify a re) -> pc_step s pc s' pc' ->
      sys_does (BySection i) (mkConfiguration s ps) (mkConfiguration s' (<[ i := pc' ]> ps))
  | does_verify s ps i a re vo now s' x : ps !! i = Some (AtVerify a re) -> verify_section a vo now s = (s', x) ->
      sys_does (ByVerify i vo now) (mkConfiguration s ps)
        (mkConfiguration s' (<[ i := continue_with (fun a => AtVerify a re) x ]> ps)).

(** A configuration reached from a new coordinator. *)
Definition reachable (cfg : RuntimeConfig) (c : Config) : Prop :=
  rtc sys_step (mkConfiguration (impl_init cfg) []) c.

(** * The invariant of a configuration *)

Definition pc_attempt (pc : Pc) : option Attempt :=
  match pc with
  | AtIntent a | AtFence a | AtFenced a | AtActivate a | AtActivated a | AtBuildRoute a => Some a
  | AtRoute a _ | AtRouted a _ | AtVerify a _ => Some a
  | Finished _ | Aborted => None
  end.

(** The attempt has passed its fence. *)
Definition past_fence (pc : Pc) : bool :=
  match pc with AtIntent _ | AtFence _ | Finished _ | Aborted => false | _ => true end.

(** The boot the attempt replaces is fenced. *)
Definition old_fenced (a : Attempt) (s : Impl) : Prop :=
  forall o, at_old a = Some o -> asg_worker_boot o <> id_null -> asg_worker_boot o ∈ im_fenced_boots s.

Definition pc_ok (s : Impl) (pc : Pc) : Prop :=
  forall a, pc_attempt pc = Some a -> attempt_ok a /\ (past_fence pc = true -> old_fenced a s).

Definition config_ok (c : Config) : Prop := impl_wf (cf_impl c) /\ Forall (pc_ok (cf_impl c)) (cf_attempts c).

(** The fenced boots of [s] are fenced in [s']. *)
Definition fences_kept (s s' : Impl) : Prop := forall b, b ∈ im_fenced_boots s -> b ∈ im_fenced_boots s'.

Lemma pc_ok_mono s s' pc : fences_kept s s' -> pc_ok s pc -> pc_ok s' pc.
Proof.
  intros Hk Hok a Ha. destruct (Hok a Ha) as [? Hf]. split; [done |]. intros Hp o Ho Hn. apply Hk. by apply Hf.
Qed.

Lemma prepare_fences plan s : im_fenced_boots (prepare plan s).1 = im_fenced_boots s.
Proof.
  destruct (prepare_cases plan s) as (s0 & Hs0 & H).
  assert (im_fenced_boots s0 = im_fenced_boots s) as E.
  { destruct Hs0 as [-> | ->]; [done |]. unfold snapshot_locked. by destruct (gen_next _). }
  destruct (prepare plan s) as [s' [[r | a] | e]]; simpl; rewrite <- E.
  - by destruct H as (-> & _).
  - by destruct H as (-> & _).
  - by destruct H as [-> | ->].
Qed.

Lemma old_boot_fences_kept (old : option Assignment) s :
  fences_kept s (match old with Some o => add_fenced_boot (asg_worker_boot o) s | None => s end).
Proof. intros b Hb. destruct old; [| done]. apply elem_of_add_fenced. by left. Qed.

Lemma verify_section_fences a vo now s : impl_wf s -> fences_kept s (verify_section a vo now s).1.
Proof.
  intros Hwf b Hb.
  destruct (verify_section_cases a vo now s Hwf) as [[_ ->] | [(_ & _ & ->) | (_ & _ & s' & -> & ->)]]; try done.
  set (s' := write_slot _ _ _).
  assert (b ∈ im_fenced_boots s') as Hs' by (unfold s', with_slot; by destruct (find_slot_pos _ _) as [[] |]).
  clearbody s'. by apply (old_boot_fences_kept (at_old a)) in Hs'.
Qed.

Lemma pc_step_fences s pc s' pc' : impl_wf s -> pc_step s pc s' pc' -> fences_kept s s'.
Proof.
  intros Hwf. destruct 1 as [| a fo s' x E | | a ao s' x E | | | a re ro s' x E | | a re vo now s' x E];
    try (by intros b Hb).
  - unfold fence_section, stop in E. repeat case_match; simplify_eq.
    + by intros b Hb.
    + by intros b Hb.
    + apply (old_boot_fences_kept (Some _)).
    + by intros b Hb.
  - unfold activate_section, stop in E. repeat case_match; simplify_eq; by intros b Hb.
  - unfold route_section, stop in E. repeat case_match; simplify_eq; by intros b Hb.
  - pose proof (verify_section_fences a vo now s Hwf) as H. by rewrite E in H.
Qed.

Lemma attempt_ok_advance m st a : attempt_ok a -> attempt_ok (advance m st a).
Proof. done. Qed.

(** A section that goes on keeps the replacement and the source of the attempt. *)
Lemma section_keeps_attempt a s s' a' :
  (exists fo, fence_section a fo s = (s', inr a')) \/ (exists ao, activate_section a ao s = (s', inr a')) \/
  (exists re ro, route_section a re ro s = (s', inr a')) ->
  at_new a' = at_new a /\ at_old a' = at_old a /\ at_slot a' = at_slot a /\ at_selected a' = at_selected a.
Proof.
  intros [[fo E] | [[ao E] | (re & ro & E)]]; unfold fence_section, activate_section, route_section, stop in E;
    repeat case_match; by simplify_eq.
Qed.

(** Passing the fence means the source's boot has been fenced. *)
Lemma fence_section_fences a fo s s' a' : fence_section a fo s = (s', inr a') -> old_fenced a' s'.
Proof.
  intros E o Ho Hn. destruct (section_keeps_attempt a s s' a') as (_ & Hold & _); [by left; exists fo |].
  unfold fence_section, stop in E. do 2 (case_match; [by simplify_eq |]). rewrite <- Hold, Ho in E.
  simplify_eq. apply elem_of_add_fenced. by right.
Qed.

Lemma verify_section_inr a vo now s s' a' : impl_wf s -> verify_section a vo now s <> (s', inr a').
Proof.
  intros Hwf. destruct (verify_section_cases a vo now s Hwf) as [[_ ->] | [(_ & _ & ->) | (_ & _ & ? & _ & ->)]]; done.
Qed.

Lemma pc_step_ok s pc s' pc' :
  impl_wf s -> pc_ok s pc -> pc_step s pc s' pc' -> impl_wf s' /\ pc_ok s' pc'.
Proof.
  intros Hwf Hok Hstep. pose proof (pc_step_fences _ _ _ _ Hwf Hstep) as Hk.
  assert (forall a, pc_attempt pc = Some a -> attempt_ok a) as Hat by (intros a Ha; by apply Hok).
  assert (forall a, pc_attempt pc = Some a -> past_fence pc = true -> old_fenced a s') as Hof.
  { intros a Ha Hp. destruct (pc_ok_mono _ _ _ Hk Hok a Ha). auto. }
  clear Hok. destruct Hstep as [a pc H | a fo s' x E | a pc H | a ao s' x E | a pc H | a | a re ro s' x E | a re pc H | a re vo now s' x E];
    simpl in *; specialize (Hat a eq_refl); specialize (Hof a eq_refl).
  - split; [apply (record_txn_wf _ _ _ _ _ Hwf) |]. destruct H as [-> | [-> | ->]]; by intros ? [= <-].
  - pose proof (fence_section_wf a fo s Hwf) as H. rewrite E in H. split; [done |].
    destruct x as [r | a']; [done |]. intros ? [= <-].
    pose proof (fence_section_fences _ _ _ _ _ E). destruct (section_keeps_attempt a s s' a') as (H1 & H2 & H3 & _); [eauto |].
    split; [| done]. unfold attempt_ok. by rewrite H1, H3.
  - split; [apply (record_txn_wf _ _ _ _ _ Hwf) |]. destruct H as [-> | [-> | ->]]; intros ? [= <-]; auto.
  - pose proof (activate_section_wf a ao s Hwf) as H. rewrite E in H. split; [done |].
    destruct x as [r | a']; [done |]. intros ? [= <-].
    destruct (section_keeps_attempt a s s' a') as (H1 & H2 & H3 & _); [eauto |].
    split; [unfold attempt_ok; by rewrite H1, H3 |]. intros _ o. rewrite H2. by apply Hof.
  - split; [apply (record_txn_wf _ _ _ _ _ Hwf) |]. destruct H as [-> | [-> | ->]]; intros ? [= <-]; auto.
  - split; [done |]. intros ? [= <-]. auto.
  - pose proof (route_section_wf a re ro s Hwf) as H. rewrite E in H. split; [done |].
    destruct x as [r | a']; [done |]. intros ? [= <-].
    destruct (section_keeps_attempt a s s' a') as (H1 & H2 & H3 & _); [eauto |].
    split; [unfold attempt_ok; by rewrite H1, H3 |]. intros _ o. rewrite H2. by apply Hof.
  - split; [apply (record_txn_wf _ _ _ _ _ Hwf) |]. destruct H as [-> | [-> | ->]]; intros ? [= <-]; auto.
  - pose proof (verify_section_wf a vo now s Hat Hwf) as H. rewrite E in H. split; [done |].
    destruct x as [r | a']; [done |]. by apply verify_section_inr in E.
Qed.

Lemma sys_step_ok c c' : config_ok c -> sys_step c c' -> config_ok c' /\ fences_kept (cf_impl c) (cf_impl c').
Proof.
  intros [Hwf Hps] Hstep. destruct Hstep as [o s ps | plan s ps s' x E | s ps i pc s' pc' Hi Hstep]; simpl in *.
  - assert (fences_kept s (apply_op o s)) as Hk by (intros b Hb; by rewrite apply_op_fenced).
    split; [| done]. split; [by apply apply_op_wf |]. eapply Forall_impl; [exact Hps |].
    intros pc Hpc. by eapply pc_ok_mono.
  - pose proof (prepare_fences plan s) as Hf. pose proof (prepare_wf plan s Hwf) as Hwf'.
    destruct (prepare_cases plan s) as (s0 & _ & H). rewrite E in Hf, Hwf', H. simpl in *.
    assert (fences_kept s s') as Hk by (intros b Hb; by rewrite Hf). split; [| done]. split; [done |].
    apply Forall_app. split; [eapply Forall_impl; [exact Hps |]; intros pc Hpc; by eapply pc_ok_mono |].
    constructor; [| constructor]. destruct x as [[r | a] | e]; [done | | done].
    destruct H as (_ & Ha & _). intros ? [= <-]. split; [done | done].
  - rewrite Forall_lookup in Hps. pose proof (pc_step_fences _ _ _ _ Hwf Hstep) as Hk.
    destruct (pc_step_ok _ _ _ _ Hwf (Hps i pc Hi) Hstep) as [Hwf' Hok']. split; [| done]. split; [done |].
    apply Forall_lookup. simpl. intros j pc''. destruct (decide (i = j)) as [<- | Hij].
    + rewrite list_lookup_insert_eq by (by eapply lookup_lt_Some). by intros [= <-].
    + rewrite list_lookup_insert_ne by done. intros Hj. eapply pc_ok_mono; [done | by eapply Hps].
Qed.

Lemma sys_steps_ok c c' : config_ok c -> rtc sys_step c c' -> config_ok c' /\ fences_kept (cf_impl c) (cf_impl c').
Proof.
  intros Hok Hs. revert Hok. induction Hs as [c | c1 c2 c3 Hstep _ IH]; intros Hok; [by split; [| intros b] |].
  destruct (sys_step_ok _ _ Hok Hstep) as [Hok2 Hk]. destruct (IH Hok2) as [Hok3 Hk']. split; [done |].
  intros b Hb. by apply Hk', Hk.
Qed.

Lemma init_config_ok cfg : config_ok (mkConfiguration (impl_init cfg) []).
Proof. split; [apply impl_init_wf | constructor]. Qed.

Lemma reachable_ok cfg c : reachable cfg c -> config_ok c.
Proof. intros Hr. by destruct (sys_steps_ok _ _ (init_config_ok cfg) Hr). Qed.

(** * The gate *)

(** The authorizations the gate lets through. *)
Record Authorized (s : Impl) (auth : WorkerAuthorization) (cur : Assignment) : Prop := {
  au_current : slot_current s (wa_slot auth) = Some cur;
  au_epoch : wa_epoch auth = im_epoch s;
  au_assignment : wa_assignment auth = asg_id cur /\ wa_assignment_generation auth = asg_generation cur;
  au_route : wa_route_generation auth = asg_route_generation cur;
  au_route_state : forall rt, route_current (im_routes s) (wa_slot auth) = Some rt ->
    re_state rt <> RouteState.REVALIDATION_REQUIRED /\ re_state rt <> RouteState.STALE;
  au_boot : wa_worker_boot auth = asg_worker_boot cur;
  au_not_fenced : wa_worker_boot auth ∉ im_fenced_boots s;
  au_active : asg_state cur = AssignmentState.ACTIVE }.

Lemma route_current_not_empty t k rt : route_current t k = Some rt -> re_state rt <> RouteState.EMPTY.
Proof.
  unfold route_current. destruct (route_find t k) as [sr |]; [| done]. unfold state_in.
  case_bool_decide as H; [done |]. intros [= <-] E. apply H. rewrite E. apply list_elem_of_here.
Qed.

Lemma gate_allowed_iff s auth :
  gd_allowed (dispatch_allowed_locked s auth) = true <-> exists cur, Authorized s auth cur.
Proof.
  unfold dispatch_allowed_locked.
  destruct (slot_current s (wa_slot auth)) as [cur |] eqn:Ec; [| split; [done | by intros [? []]; congruence]].
  destruct (wa_epoch auth =e im_epoch s) eqn:E1; simpl;
    [apply epoch_eqb_eq in E1 | split; [done | intros [c []]; apply epoch_eqb_eq in au_epoch0; congruence]].
  assert (forall c, slot_current s (wa_slot auth) = Some c -> c = cur) as Huniq by (intros c Hc; congruence).
  destruct (wa_assignment auth =i asg_id cur) eqn:E2; simpl;
    [apply id_eqb_eq in E2 | split; [done | intros [c []]; rewrite (Huniq c) in * by done;
       apply id_eqb_neq in E2; naive_solver]].
  destruct (wa_assignment_generation auth =g asg_generation cur) eqn:E3; simpl;
    [apply gen_eqb_eq in E3 | split; [done | intros [c []]; rewrite (Huniq c) in * by done;
       apply gen_eqb_neq in E3; naive_solver]].
  destruct (wa_route_generation auth =g asg_route_generation cur) eqn:E4; simpl;
    [apply gen_eqb_eq in E4 | split; [done | intros [c []]; rewrite (Huniq c) in * by done;
       apply gen_eqb_neq in E4; naive_solver]].
  destruct (match route_current (im_routes s) (wa_slot auth) with Some rt => _ | None => false end) eqn:E5; simpl.
  { split; [done |]. intros [c []]. destruct (route_current (im_routes s) (wa_slot auth)) as [rt |] eqn:Er; [| done].
    destruct (au_route_state0 rt eq_refl). apply route_current_not_empty in Er.
    apply bool_decide_eq_true in E5. rewrite !elem_of_cons, elem_of_nil in E5. naive_solver. }
  destruct (wa_worker_boot auth =i asg_worker_boot cur) eqn:E6; simpl;
    [apply id_eqb_eq in E6 | split; [done | intros [c []]; rewrite (Huniq c) in * by done;
       apply id_eqb_neq in E6; naive_solver]].
  destruct (boot_fenced s (wa_worker_boot auth)) eqn:E7.
  { split; [done |]. intros [c []]. by apply boot_fenced_true in E7. }
  case_bool_decide as E8; simpl.
  - split; [| done]. intros _. exists cur. split; try done.
    + intros rt Hrt. rewrite Hrt in E5. apply bool_decide_eq_false in E5.
      rewrite !elem_of_cons in E5. naive_solver.
    + intros H. apply boot_fenced_true in H. congruence.
  - split; [done |]. intros [c []]. rewrite (Huniq c) in * by done. done.
Qed.

Lemma result_allowed_iff s auth :
  gd_allowed (authorize_result s auth) = true <->
  (exists cur, Authorized s auth cur) /\
  exists r, request_find (im_requests s) (wa_request auth) = Some r /\
    rq_disposition r <> RequestDisposition.RESPONSE_COMMITTED.
Proof.
  rewrite <- gate_allowed_iff. unfold authorize_result.
  destruct (gd_allowed (dispatch_allowed_locked s auth)) eqn:Ea; simpl; [| rewrite Ea; naive_solver].
  destruct (request_find _ _) as [r |]; [| split; [done | by intros [_ (? & ? & _)]]].
  unfold disposition_is. case_bool_decide; simpl; naive_solver.
Qed.

Lemma gate_fails_closed s auth :
  gd_allowed (dispatch_allowed_locked s auth) = false -> gd_fail_closed (dispatch_allowed_locked s auth) = true.
Proof. unfold dispatch_allowed_locked. by repeat case_match. Qed.

(** The grants of a fenced boot are refused. *)
Lemma fenced_refused s auth :
  wa_worker_boot auth ∈ im_fenced_boots s ->
  gd_allowed (authorize_dispatch s auth) = false /\ gd_allowed (authorize_result s auth) = false.
Proof.
  intros Hb. assert (gd_allowed (dispatch_allowed_locked s auth) = false) as Hno.
  { apply not_true_iff_false. rewrite gate_allowed_iff. intros [cur []]. done. }
  split; [done |]. unfold authorize_result. by rewrite Hno.
Qed.

(** * Theorems *)

(** C1: The gate authorizes a dispatch exactly when the grant names the slot's current
    assignment (identity and generation), the current coordinator epoch, the
    assignment's route generation and worker boot, the boot is not fenced, the
    assignment is ACTIVE and the slot's route, if there is one, neither requires
    revalidation nor is stale; a result exactly when in addition its request is recorded
    and its response not committed.  Every refusal of either fails closed.  The other
    members of a grant are not among the conditions: [gate_ignores_incarnation]. *)
Theorem gate_authorizes_exactly (s : Impl) (auth : WorkerAuthorization) :
  (gd_allowed (authorize_dispatch s auth) = true <-> exists cur, Authorized s auth cur) /\
  (gd_allowed (authorize_result s auth) = true <->
     (exists cur, Authorized s auth cur) /\
     exists r, request_find (im_requests s) (wa_request auth) = Some r /\
       rq_disposition r <> RequestDisposition.RESPONSE_COMMITTED) /\
  (gd_allowed (authorize_dispatch s auth) = false -> gd_fail_closed (authorize_dispatch s auth) = true) /\
  (gd_allowed (authorize_result s auth) = false -> gd_fail_closed (authorize_result s auth) = true).
Proof.
  split; [apply gate_allowed_iff |]. split; [apply result_allowed_iff |]. split; [apply gate_fails_closed |].
  unfold authorize_result. destruct (gd_allowed (dispatch_allowed_locked s auth)) eqn:E; cbn [negb]; [by repeat case_match |].
  intros _. by apply gate_fails_closed.
Qed.

(** What the gate does not look at: the incarnation of the target, the execution and the
    operation of a grant.  Grants that differ in them are decided alike, although
    authority.hpp says a grant is bound to them. *)
Theorem gate_ignores_incarnation (s : Impl) (auth : WorkerAuthorization) (i : EngineIncarnationId) (x : ExecutionId) (op : string) :
  let auth' := mkAuth (wa_epoch auth) (wa_slot auth) (wa_assignment auth) (wa_assignment_generation auth)
                 (wa_route_generation auth) i (wa_request auth) x op (wa_worker_boot auth) in
  authorize_dispatch s auth' = authorize_dispatch s auth /\ authorize_result s auth' = authorize_result s auth.
Proof. done. Qed.

(** C3: Authority over a slot is exclusive: two grants for the same slot that the gate
    lets through in the same state are for the same epoch, assignment, generation,
    route generation and worker boot. *)
Theorem authority_is_exclusive (s : Impl) (a1 a2 : WorkerAuthorization) :
  wa_slot a1 = wa_slot a2 ->
  gd_allowed (authorize_dispatch s a1) = true -> gd_allowed (authorize_dispatch s a2) = true ->
  wa_epoch a1 = wa_epoch a2 /\ wa_assignment a1 = wa_assignment a2 /\
  wa_assignment_generation a1 = wa_assignment_generation a2 /\
  wa_route_generation a1 = wa_route_generation a2 /\ wa_worker_boot a1 = wa_worker_boot a2.
Proof.
  intros Hslot [c1 H1]%gate_allowed_iff [c2 H2]%gate_allowed_iff.
  destruct H1 as [C1 E1 [A1 G1] R1 _ B1 _ _], H2 as [C2 E2 [A2 G2] R2 _ B2 _ _].
  rewrite Hslot, C2 in C1. injection C1 as <-. split_and!; congruence.
Qed.

(** C19: The representation invariant holds in every reachable state: whatever
    operations and cutovers run, interleaved in any way and with any adapter answers,
    the indices agree with the vectors, a slot's current assignment is its own and
    ACTIVE or REVALIDATION_REQUIRED, no superseded assignment is ACTIVE, routes only
    advance, and the evidence, domain and request stores are consistent. *)
Theorem reachable_states_wf (cfg : RuntimeConfig) (c : Config) :
  reachable cfg c -> impl_wf (cf_impl c).
Proof. intros Hr. by destruct (reachable_ok cfg c Hr). Qed.

(** C2: A fence is forever: once a worker boot is fenced in a reachable state, no
    later operation or cutover unfences it, and from then on the gate refuses every
    dispatch and every result of that boot. *)
Theorem fenced_boot_never_serves (cfg : RuntimeConfig) (c c' : Config) (b : WorkerBootId)
    (auth : WorkerAuthorization) :
  reachable cfg c -> b ∈ im_fenced_boots (cf_impl c) -> rtc sys_step c c' -> wa_worker_boot auth = b ->
  b ∈ im_fenced_boots (cf_impl c') /\
  gd_allowed (authorize_dispatch (cf_impl c') auth) = false /\
  gd_allowed (authorize_result (cf_impl c') auth) = false.
Proof.
  intros Hr Hb Hs Hboot. destruct (sys_steps_ok c c' (reachable_ok cfg c Hr) Hs) as [_ Hk].
  apply Hk in Hb. split; [done |]. subst b. by apply fenced_refused.
Qed.

(** C4: No replacement is activated before the predecessor it was prepared on is fenced.
    In every reachable state, for every cutover that has passed its fence and was
    prepared on an assignment of a non-null worker boot, that boot is fenced, and the
    gate refuses its dispatches and results, while the replacement is being activated,
    routed and verified.  The two conditions are needed: a null boot is never fenced
    ([null_boot_escapes_fence]), and a cutover prepared on an empty slot fences nothing
    ([unsourced_cutover_displaces_current]). *)
Theorem fence_precedes_activation (cfg : RuntimeConfig) (c : Config) (pc : Pc) (a : Attempt) (o : Assignment)
    (auth : WorkerAuthorization) :
  reachable cfg c -> pc ∈ cf_attempts c -> past_fence pc = true -> pc_attempt pc = Some a ->
  at_old a = Some o -> asg_worker_boot o <> id_null -> wa_worker_boot auth = asg_worker_boot o ->
  asg_worker_boot o ∈ im_fenced_boots (cf_impl c) /\
  gd_allowed (authorize_dispatch (cf_impl c) auth) = false /\
  gd_allowed (authorize_result (cf_impl c) auth) = false.
Proof.
  intros Hr Hpc Hpast Ha Ho Hn Hboot. destruct (reachable_ok cfg c Hr) as [_ Hok].
  rewrite Forall_forall in Hok. destruct (Hok pc Hpc a Ha) as [_ Hf].
  pose proof (Hf Hpast o Ho Hn) as Hin. split; [done |]. rewrite <- Hboot in Hin. by apply fenced_refused.
Qed.

(** A worker registered with the boot 0 cannot be fenced: the fence of a cutover that
    replaces it is reported as applied and passed, and leaves the core as it was, with the
    grants of the old worker. *)
Theorem null_boot_escapes_fence (s : Impl) (a : Attempt) (fo : FenceOutcome) (o : Assignment) :
  at_old a = Some o -> asg_worker_boot o = id_null -> fo_fencing_unproven fo = false -> fo_applied fo = true ->
  fence_section a fo s = (s, inr (advance Milestone.OLD_ADMISSION_FENCED AttemptState.FENCING a)).
Proof. intros Ho Hn H1 H2. unfold fence_section. rewrite H1, H2, Ho, Hn. done. Qed.

(** * How the current assignment changes *)

Lemma section_slots s pc s' pc' :
  pc_step s pc s' pc' -> (forall a re, pc <> AtVerify a re) ->
  im_slot_index s' = im_slot_index s /\ im_slots s' = im_slots s.
Proof.
  intros Hstep Hnv. destruct Hstep as [| a fo s' x E | | a ao s' x E | | | a re ro s' x E | | a re vo now s' x E]; try done.
  - unfold fence_section, stop in E. repeat case_match; simplify_eq; try done. apply add_fenced_boot_slots.
  - unfold activate_section, stop in E. repeat case_match; by simplify_eq.
  - unfold route_section, stop in E. repeat case_match; by simplify_eq.
  - by destruct (Hnv a re).
Qed.

Lemma prepare_slots plan s s' x :
  prepare plan s = (s', x) -> im_slot_index s' = im_slot_index s /\ im_slots s' = im_slots s.
Proof.
  intros E. destruct (prepare_cases plan s) as (s0 & Hs0 & H). rewrite E in H.
  assert (im_slot_index s0 = im_slot_index s /\ im_slots s0 = im_slots s) as Hs.
  { destruct Hs0 as [-> | ->]; [done |]. unfold snapshot_locked. by destruct (gen_next _). }
  destruct x as [[r | a] | e]; [destruct H as (-> & _) | destruct H as (-> & _) | destruct H as [-> | ->]]; done.
Qed.

(** The bookkeeping of a commit leaves the slots alone. *)
Lemma slot_current_committed (old : option Assignment) x g l k :
  slot_current (push_attempt_state AttemptState.COMPLETED
    (match old with Some o => add_fenced_boot (asg_worker_boot o) x | None => x end
       <| im_last_authority_gen := g |> <| im_last_transition := l |> <| im_has_txn := false |>)) k =
  slot_current x k.
Proof. apply slot_current_ext; simpl; (destruct old; [apply add_fenced_boot_slots | done]). Qed.

(** The effect of the last section on the current assignment of any slot. *)
Lemma verify_section_current a vo now s k :
  impl_wf s ->
  slot_current (verify_section a vo now s).1 k = slot_current s k \/
  (k = at_slot a /\ vo_verified vo = true /\
   slot_current (verify_section a vo now s).1 k = Some (activated (at_new a)) /\
   forall o c, at_old a = Some o -> slot_current s k = Some c ->
     asg_id c = asg_id o /\ asg_generation c = asg_generation o).
Proof.
  intros Hwf. destruct (verify_section_cases a vo now s Hwf) as [[_ ->] | [(_ & _ & ->) | (Hv & Hg & s' & -> & ->)]];
    [by left | by left |]. simpl.
  set (s' := write_slot _ _ _).
  rewrite slot_current_committed. unfold s'. rewrite commit_slot_current by done. case_decide as Hk; [| by left]. subst k.
  destruct (find_slot_pos s (at_slot a)) as [[i st] |] eqn:E; [by right |]. left.
  unfold slot_current, find_slot. by rewrite E.
Qed.

(** The labels tell the steps apart. *)
Lemma sys_step_does c c' : sys_step c c' <-> exists l, sys_does l c c'.
Proof.
  split.
  - intros [o s ps | plan s ps s' x E | s ps i pc s' pc' Hi Hp].
    + by exists (ByOp o); constructor.
    + by exists (ByStart plan); constructor.
    + destruct Hp as [| | | | | | | | a re vo now s' x E];
        [.. | by exists (ByVerify i vo now); eapply does_verify]; exists (BySection i); (eapply does_section; [done | done |]); by econstructor.
  - intros [l [o s ps | plan s ps s' x E | s ps i pc s' pc' Hi _ Hp | s ps i a re vo now s' x Hi E]].
    + apply sys_op.
    + by eapply sys_start.
    + by eapply sys_section.
    + eapply sys_section; [done |]. by eapply pc_verify.
Qed.

(** What a step does to the current assignment of slot [k]. *)
Lemma does_current l c c' k :
  config_ok c -> sys_does l c c' ->
  slot_current (cf_impl c') k = slot_current (cf_impl c) k \/
  (exists now a a', l = ByOp (OpSetInitialAssignment now a) /\ asg_slot a = k /\ slot_current (cf_impl c) k = None /\
     slot_current (cf_impl c') k = Some a' /\ asg_state a' = AssignmentState.ACTIVE /\
     asg_id a' = asg_id a /\ asg_target a' = asg_target a) \/
  (exists i a re vo now, l = ByVerify i vo now /\ cf_attempts c !! i = Some (AtVerify a re) /\ at_slot a = k /\
     vo_verified vo = true /\ old_fenced a (cf_impl c) /\ slot_current (cf_impl c') k = Some (activated (at_new a)) /\
     forall o cur, at_old a = Some o -> slot_current (cf_impl c) k = Some cur -> asg_id cur = asg_id o /\ asg_generation cur = asg_generation o).
Proof.
  intros [Hwf Hok] Hd.
  destruct Hd as [o s ps | plan s ps s' x E | s ps i pc s' pc' Hi Hnv Hstep | s ps i a re vo now s' x Hi E]; simpl in *.
  - destruct (apply_op_slots o s) as [(now & a & ->) | [H1 H2]]; [| left; by apply slot_current_ext].
    destruct (set_initial_current now a s k Hwf) as [H | (-> & Hn & a' & H & Hact & Hid & Ht)]; [by left |].
    right; left. by exists now, a, a'.
  - left. apply slot_current_ext; by eapply prepare_slots.
  - left. destruct (section_slots _ _ _ _ Hstep Hnv). by apply slot_current_ext.
  - rewrite Forall_lookup in Hok. specialize (Hok i _ Hi).
    destruct (verify_section_current a vo now s k Hwf) as [H | (-> & Hv & H & Hg)]; rewrite E in H; simpl in H; [by left |].
    right; right. exists i, a, re, vo, now. split_and!; try done. by apply (Hok a).
Qed.

(** No step empties a slot, so the slot of an attempt that was prepared on an assignment
    has one. *)
Definition sourced (s : Impl) (pc : Pc) : Prop :=
  forall a o, pc_attempt pc = Some a -> at_old a = Some o -> is_Some (slot_current s (at_slot a)).

Lemma sourced_mono s s' pc :
  (forall k, is_Some (slot_current s k) -> is_Some (slot_current s' k)) -> sourced s pc -> sourced s' pc.
Proof. intros Hk Hs a o Ha Ho. by eapply Hk, Hs. Qed.

Lemma does_sourced l c c' :
  config_ok c -> sys_does l c c' -> Forall (sourced (cf_impl c)) (cf_attempts c) -> Forall (sourced (cf_impl c')) (cf_attempts c').
Proof.
  intros Hok Hd Hs.
  assert (forall k, is_Some (slot_current (cf_impl c) k) -> is_Some (slot_current (cf_impl c') k)) as Hk.
  { intros k [x Hx]. destruct (does_current l c c' k Hok Hd) as [-> | [(? & ? & ? & _ & _ & _ & -> & _) | (? & ? & ? & ? & ? & _ & _ & _ & _ & _ & -> & _)]]; by eexists. }
  assert (Forall (sourced (cf_impl c')) (cf_attempts c)) as Hs' by (eapply Forall_impl; [exact Hs | intros pc; by apply sourced_mono]).
  destruct Hd as [o s ps | plan s ps s' x E | s ps i pc s' pc' Hi Hnv Hstep | s ps i a re vo now s' x Hi E]; simpl in *.
  - done.
  - apply Forall_app. split; [done |]. constructor; [| constructor]. intros a o Ha Ho.
    destruct (prepare_cases plan s) as (s0 & _ & H). rewrite E in H. destruct x as [[r | b] | e]; [done | | done].
    injection Ha as <-. destruct H as (_ & _ & -> & Hold & _). apply Hk. rewrite <- Hold, Ho. by eexists.
  - apply Forall_insert; [done |]. rewrite Forall_lookup in Hs'. specialize (Hs' i pc Hi).
    assert (forall a', pc_attempt pc' = Some a' -> exists a, pc_attempt pc = Some a /\ at_old a' = at_old a /\ at_slot a' = at_slot a) as Ha.
    { clear -Hstep Hnv. intros a' Ha'.
      destruct Hstep as [a pc H | a fo s' x E | a pc H | a ao s' x E | a pc H | a | a re ro s' x E | a re pc H | a re vo now s' x E];
        try (destruct H as [-> | [-> | ->]]; try done; injection Ha' as <-; by exists a);
        [| | injection Ha' as <-; by exists a | | by destruct (Hnv a re)];
        (destruct x as [r | a1]; [done |]); injection Ha' as ->; exists a; (split; [done |]);
        destruct (section_keeps_attempt a s s' a') as (_ & ? & ? & _); eauto. }
    intros a' o (a & Hpc & Eo & Es)%Ha Ho. rewrite Es. apply (Hs' a o Hpc). by rewrite <- Eo.
  - apply Forall_insert; [done |]. destruct x as [r | a']; [done |]. by apply verify_section_inr in E; [| apply Hok].
Qed.

Lemma reachable_sourced cfg c : reachable cfg c -> Forall (sourced (cf_impl c)) (cf_attempts c).
Proof.
  unfold reachable. generalize (init_config_ok cfg). set (c0 := mkConfiguration _ _). intros Hok Hr.
  assert (Forall (sourced (cf_impl c0)) (cf_attempts c0)) as Hs by constructor. clearbody c0.
  induction Hr as [c0 | c0 c1 c2 Hstep _ IH]; [done |]. apply IH; [by destruct (sys_step_ok _ _ Hok Hstep) |].
  apply sys_step_does in Hstep as [l Hl]. by eapply does_sourced.
Qed.

(** C18: The current assignment of a slot changes in two ways only.  Either the step is the
    operation [set_initial_assignment] for that slot, and the slot was empty.  Or it is
    the last section of a cutover of that slot, whose verification was answered
    verified and whose source's boot, if there is a source with a non-null boot, is
    fenced; the replacement prepared for it becomes the ACTIVE assignment; and a cutover
    that was prepared on an assignment finds that assignment (identity and generation)
    still current.  Nothing is said of the assignment a cutover prepared on an empty slot
    displaces: [unsourced_cutover_displaces_current]. *)
Theorem current_assignment_transitions (cfg : RuntimeConfig) (c c' : Config) (l : Label) (k : ServiceSlotKey) :
  reachable cfg c -> sys_does l c c' -> slot_current (cf_impl c') k <> slot_current (cf_impl c) k ->
  (exists now a a', l = ByOp (OpSetInitialAssignment now a) /\ asg_slot a = k /\ slot_current (cf_impl c) k = None /\
     slot_current (cf_impl c') k = Some a' /\ asg_state a' = AssignmentState.ACTIVE /\
     asg_id a' = asg_id a /\ asg_target a' = asg_target a) \/
  (exists i a re vo now, l = ByVerify i vo now /\ cf_attempts c !! i = Some (AtVerify a re) /\ at_slot a = k /\
     vo_verified vo = true /\ old_fenced a (cf_impl c) /\ slot_current (cf_impl c') k = Some (activated (at_new a)) /\
     forall o, at_old a = Some o -> exists cur, slot_current (cf_impl c) k = Some cur /\
       asg_id cur = asg_id o /\ asg_generation cur = asg_generation o).
Proof.
  intros Hr Hd Hne. destruct (does_current l c c' k (reachable_ok cfg c Hr) Hd)
    as [? | [? | (i & a & re & vo & now & -> & Hi & Hk & Hv & Hf & Hc & Hg)]]; [done | by left |].
  right. exists i, a, re, vo, now. split_and!; try done. intros o Ho.
  pose proof (reachable_sourced cfg c Hr) as Hs. rewrite Forall_lookup in Hs.
  destruct (Hs i _ Hi a o eq_refl Ho) as [cur Hcur]. rewrite Hk in Hcur. exists cur. by destruct (Hg o cur Ho Hcur).
Qed.

(** Supersession: when another assignment than its source has become current on
    its slot, a cutover that gets to its commit, verified or not, changes no
    assignment of any slot and reports SUPERSEDED or the failed verification. *)
Theorem superseded_attempt_commits_nothing (s : Impl) (a : Attempt) (vo : VerifyOutcome) (now : Z)
    (o c : Assignment) :
  impl_wf s -> at_old a = Some o -> slot_current s (at_slot a) = Some c ->
  asg_id c <> asg_id o \/ asg_generation c <> asg_generation o ->
  exists r, (verify_section a vo now s).2 = inl r /\
    (ar_state r = AttemptState.SUPERSEDED \/ ar_state r = AttemptState.RECOVERY_REQUIRED) /\
    forall k, slot_current (verify_section a vo now s).1 k = slot_current s k.
Proof.
  intros Hwf Ho Hc Hne. destruct (verify_section_cases a vo now s Hwf) as [[_ ->] | [(_ & _ & ->) | (_ & Hg & _)]].
  - eexists. split; [done |]. split; [by right | done].
  - eexists. split; [done |]. split; [by left | done].
  - destruct (Hg o c Ho Hc). naive_solver.
Qed.

(** The supersession guard is skipped for a cutover without a source: if the slot
    got a current assignment after the cutover was prepared on the empty slot, the
    commit displaces it although its worker boot was never fenced, and the set of
    fenced boots stays as it was. *)
Theorem unsourced_cutover_displaces_current (s : Impl) (a : Attempt) (vo : VerifyOutcome) (now : Z)
    (c : Assignment) :
  impl_wf s -> at_old a = None -> slot_current s (at_slot a) = Some c -> vo_verified vo = true ->
  slot_current (verify_section a vo now s).1 (at_slot a) = Some (activated (at_new a)) /\
  im_fenced_boots (verify_section a vo now s).1 = im_fenced_boots s.
Proof.
  intros Hwf Ho Hc Hv.
  destruct (verify_section_cases a vo now s Hwf) as [[H _] | [(_ & (o & ? & ? & _) & _) | (_ & _ & s' & -> & E)]];
    [congruence | congruence |]. rewrite E, Ho. simpl. split.
  - pose proof (slot_current_committed None) as Hx. simpl in Hx. rewrite Hx, commit_slot_current by done.
    rewrite decide_True by done.
    apply slot_current_Some in Hc as (i & st & -> & _). done.
  - unfold with_slot. by destruct (find_slot_pos _ _) as [[] |].
Qed.

(** A committed cutover of a slot that is not indexed is lost: the section reports
    COMPLETED with its committed assignment, but no later lookup of the slot finds it. *)
Theorem unindexed_slot_commit_is_lost (s : Impl) (a : Attempt) (vo : VerifyOutcome) (now : Z) :
  impl_wf s -> im_slot_index s !! at_slot a = None -> vo_verified vo = true ->
  exists r, (verify_section a vo now s).2 = inl r /\ ar_state r = AttemptState.COMPLETED /\
    ar_committed_assignment r = Some (activated (at_new a)) /\
    slot_current (verify_section a vo now s).1 (at_slot a) = None.
Proof.
  intros Hwf Hi Hv.
  assert (find_slot_pos s (at_slot a) = None) as Hf by (by apply find_slot_pos_None).
  assert (slot_current s (at_slot a) = None) as Hc by (unfold slot_current, find_slot; by rewrite Hf).
  destruct (verify_section_cases a vo now s Hwf) as [[H _] | [(_ & (o & c & _ & ? & _) & _) | (_ & _ & s' & -> & E)]];
    [congruence | congruence |].
  rewrite E. eexists. split; [done |]. split; [done |]. split; [done |]. simpl.
  rewrite slot_current_committed, commit_slot_current by done. by rewrite decide_True, Hf by done.
Qed.

(** * Sequences of operations *)

Definition run_ops (ops : list FabricOp) (s : Impl) : Impl := foldl (fun s o => apply_op o s) s ops.

Lemma run_ops_wf ops s : impl_wf s -> impl_wf (run_ops ops s).
Proof. revert s. induction ops as [| o ops IH]; intros s Hwf; [done |]. by apply IH, apply_op_wf. Qed.

Lemma run_ops_steps ops s ps :
  rtc sys_step (mkConfiguration s ps) (mkConfiguration (run_ops ops s) ps).
Proof.
  revert s. induction ops as [| o ops IH]; intros s; [apply rtc_refl |].
  eapply rtc_l; [apply (sys_op o) | apply IH].
Qed.

Lemma run_ops_reachable cfg ops : reachable cfg (mkConfiguration (run_ops ops (impl_init cfg)) []).
Proof. apply run_ops_steps. Qed.

(** The first cutover of a coordinator gives its replacement the assignment identity 1,
    whatever operations came before; the coordinator process gives the same identity to
    the initial assignment of every service it registers, so the two differ by their
    generation only. *)
Theorem first_replacement_has_id_one (cfg : RuntimeConfig) (ops : list FabricOp) (plan : FailoverPlan) (s : Impl) (a : Attempt) :
  prepare plan (run_ops ops (impl_init cfg)) = (s, Ok (inr a)) -> asg_id (at_new a) = mkId 1.
Proof.
  intros E. assert (forall ops s0, im_assignment_counter (run_ops ops s0) = im_assignment_counter s0) as Hops.
  { clear. induction ops as [| o ops IH]; intros s0; [done |]. simpl. by rewrite IH, apply_op_counter. }
  destruct (prepare_cases plan (run_ops ops (impl_init cfg))) as (s0 & Hs0 & H). rewrite E in H.
  destruct H as (_ & _ & _ & _ & _ & _ & _ & -> & _).
  assert (im_assignment_counter s0 = im_assignment_counter (run_ops ops (impl_init cfg))) as ->; [| by rewrite Hops].
  destruct Hs0 as [-> | ->]; [done |]. unfold snapshot_locked. by destruct (gen_next _).
Qed.

(** * The reference scenario

    Service 1 with slot (1,1) served by target 1 (boot 11), target 2 (boot 22) warm. *)
Module Scenario.
Definition slot : ServiceSlotKey := mkSlotKey (mkId 1) (mkId 1).
Definition facts (t b : Z) : CandidateFacts :=
  facts_default <| cf_target := mkId t |> <| cf_service := mkId 1 |> <| cf_worker_boot := mkId b |>
    <| cf_ready := true |> <| cf_readiness_generation := mkGen 1 |>.
Definition initial : Assignment :=
  assignment_default <| asg_id := mkId 100 |> <| asg_slot := slot |> <| asg_target := mkId 1 |>
    <| asg_worker_boot := mkId 11 |>.
Definition ops : list FabricOp :=
  [OpSetCoordinatorIdentity (mkId 5) 1;
   OpCreateService (service_default <| svc_service := mkId 1 |> <| svc_failback := FailbackPolicy.RETURN_AFTER_VALIDATION |>);
   OpRegisterTarget (mkId 1) "pipes/1"; OpRegisterTarget (mkId 2) "pipes/2";
   OpPublishFacts 0 (facts 1 11); OpPublishFacts 0 (facts 2 22);
   OpSetInitialAssignment 0 initial].
Definition healthy : Impl := run_ops ops (impl_init config_default).
Definition failure : FailureEvent :=
  failure_event_default <| fe_event_id := mkId 1 |> <| fe_status := EvidenceStatus.CONFIRMED |>
    <| fe_category := FailureCategory.PROCESS_EXIT |> <| fe_target := Some (mkId 1) |>.
Definition failed : Impl := run_ops (ops ++ [OpPublishFailure failure]) (impl_init config_default).
Definition grant (b : Z) : WorkerAuthorization :=
  mkAuth (mkEpoch 1 (mkId 5) (mkId 5)) slot (mkId 100) gen_default gen_default (mkId 0) (mkId 1) (mkId 1) "serve" (mkId b).

Lemma failed_wf : impl_wf failed.
Proof. apply run_ops_wf, impl_init_wf. Qed.

(** The plan and the prepared attempt of a failover of the slot. *)
Definition plan : FailoverPlan :=
  match plan_failover slot failed with (_, Ok (Some p)) => p | _ => plan_default end.
Definition attempt : Attempt :=
  match prepare plan failed with
  | (_, Ok (inr a)) => a
  | _ => mkAttempt attempt_result_default slot None assignment_default candidate_default
  end.
Definition prepared : Impl := (prepare plan failed).1.
Definition fenced_attempt : Attempt := advance Milestone.OLD_ADMISSION_FENCED AttemptState.FENCING attempt.
Definition applied : FenceOutcome := fence_outcome_default <| fo_applied := true |>.
Definition after_fence : Impl := (fence_section attempt applied (txn_of Milestone.INTENT_ONLY attempt None prepared)).1.

Lemma attempt_prepared : prepare plan failed = (prepared, Ok (inr attempt)).
Proof. vm_compute. reflexivity. Qed.

Definition config : Config := mkConfiguration after_fence [AtFenced fenced_attempt].

(** The attempt, fenced and before its second checkpoint, is reachable. *)
Lemma after_fence_reachable : reachable config_default config.
Proof.
  unfold reachable, config. etrans; [apply (run_ops_reachable config_default (ops ++ [OpPublishFailure failure])) |].
  eapply rtc_l; [apply (sys_start plan _ _ _ _ attempt_prepared) |].
  eapply rtc_l.
  { apply (sys_section prepared [AtIntent attempt] 0 (AtIntent attempt)
             (txn_of Milestone.INTENT_ONLY attempt None prepared) (AtFence attempt)); [reflexivity |].
    apply pc_intent. by left. }
  eapply rtc_l; [| apply rtc_refl].
  apply (sys_section _ [AtFence attempt] 0 (AtFence attempt) after_fence (AtFenced fenced_attempt)); [reflexivity |].
  apply (pc_fence _ attempt applied _ (inr fenced_attempt)). vm_compute. reflexivity.
Qed.

(** The attempt goes on to its verification. *)
Definition activation_acked : ActivateOutcome := mkActivateOutcome true "" "".
Definition route_acked : RouteOutcome := mkRouteOutcome true (mkId 1) gen_default "".
Definition activation : Attempt := advance Milestone.ACTIVATION_ACKNOWLEDGED AttemptState.CUTTING_OVER fenced_attempt.
Definition routed : Attempt := advance Milestone.ROUTE_INSTALLED AttemptState.VERIFYING activation.
Definition acknowledged_at : Impl :=
  txn_of Milestone.ACTIVATION_ACKNOWLEDGED activation None (txn_of Milestone.OLD_ADMISSION_FENCED fenced_attempt None after_fence).
Definition route : RouteEntry := route_for acknowledged_at activation.
Definition after_route : Impl := (route_section activation route route_acked acknowledged_at).1.
Definition before_commit : Impl := txn_of Milestone.ROUTE_INSTALLED routed (Some route) after_route.
Definition verifying : Config := mkConfiguration before_commit [AtVerify routed route].

Ltac section_step pc s' pc' := eapply rtc_l; [apply (sys_section _ [pc] 0 pc s' pc'); [reflexivity |] |]; cbn [insert list_insert].
Lemma verifying_reachable : reachable config_default verifying.
Proof.
  unfold reachable. etrans; [exact after_fence_reachable |]. unfold config.
  section_step (AtFenced fenced_attempt) (txn_of Milestone.OLD_ADMISSION_FENCED fenced_attempt None after_fence) (AtActivate fenced_attempt);
    [apply pc_fenced; by left |].
  section_step (AtActivate fenced_attempt) (txn_of Milestone.OLD_ADMISSION_FENCED fenced_attempt None after_fence) (AtActivated activation);
    [by apply (pc_activate _ fenced_attempt activation_acked _ (inr activation)) |].
  section_step (AtActivated activation) acknowledged_at (AtBuildRoute activation); [apply pc_activated; by left |].
  section_step (AtBuildRoute activation) acknowledged_at (AtRoute activation route); [apply pc_build |].
  section_step (AtRoute activation route) after_route (AtRouted routed route);
    [by apply (pc_route _ activation route route_acked _ (inr routed)) |].
  section_step (AtRouted routed route) before_commit (AtVerify routed route); [apply pc_routed; by left |].
  apply rtc_refl.
Qed.
End Scenario.

(** * Witnesses *)

Lemma authority_is_exclusive_witness :
  gd_allowed (authorize_dispatch Scenario.healthy (Scenario.grant 11)) = true /\
  wa_worker_boot (Scenario.grant 11) = wa_worker_boot (Scenario.grant 11).
Proof.
  assert (H : gd_allowed (authorize_dispatch Scenario.healthy (Scenario.grant 11)) = true) by (vm_compute; reflexivity).
  split; [exact H |].
  exact (proj2 (proj2 (proj2 (proj2 (authority_is_exclusive Scenario.healthy _ _ eq_refl H H))))).
Defined.

Lemma reachable_states_wf_witness : impl_wf (cf_impl Scenario.config).
Proof. exact (reachable_states_wf config_default Scenario.config Scenario.after_fence_reachable). Defined.

Lemma fenced_boot_never_serves_witness :
  mkId 11 ∈ im_fenced_boots (cf_impl Scenario.config) /\
  gd_allowed (authorize_dispatch (cf_impl Scenario.config) (Scenario.grant 11)) = false.
Proof.
  destruct (fenced_boot_never_serves config_default Scenario.config Scenario.config (mkId 11) (Scenario.grant 11)
              Scenario.after_fence_reachable) as (H1 & H2 & _).
  - apply (bool_decide_eq_true (mkId 11 ∈ im_fenced_boots (cf_impl Scenario.config))). vm_compute. reflexivity.
  - apply rtc_refl.
  - reflexivity.
  - split; [exact H1 | exact H2].
Defined.

Lemma fence_precedes_activation_witness :
  asg_worker_boot (Scenario.initial <| asg_state := AssignmentState.ACTIVE |>) ∈ im_fenced_boots (cf_impl Scenario.config) /\
  gd_allowed (authorize_dispatch (cf_impl Scenario.config) (Scenario.grant 11)) = false /\
  gd_allowed (authorize_result (cf_impl Scenario.config) (Scenario.grant 11)) = false.
Proof.
  apply (fence_precedes_activation config_default Scenario.config (AtFenced Scenario.fenced_attempt) Scenario.fenced_attempt
           (Scenario.initial <| asg_state := AssignmentState.ACTIVE |>) (Scenario.grant 11)
           Scenario.after_fence_reachable).
  - apply list_elem_of_here.
  - reflexivity.
  - reflexivity.
  - vm_compute. reflexivity.
  - discriminate.
  - reflexivity.
Defined.

Lemma current_assignment_transitions_witness :
  let vo := mkVerifyOutcome true "" false "" in
  let c' := mkConfiguration (verify_section Scenario.routed vo 9 Scenario.before_commit).1
    [continue_with (fun a => AtVerify a Scenario.route) (verify_section Scenario.routed vo 9 Scenario.before_commit).2] in
  asg_worker_boot <$> slot_current (cf_impl Scenario.verifying) Scenario.slot = Some (mkId 11) /\
  slot_current (cf_impl c') Scenario.slot = Some (activated (at_new Scenario.routed)).
Proof.
  intros vo c'. split; [vm_compute; reflexivity |].
  destruct (current_assignment_transitions config_default Scenario.verifying c' (ByVerify 0 vo 9) Scenario.slot Scenario.verifying_reachable)
    as [(now & a & a' & H & _) | (i & a & re & vo' & now & _ & Hi & _ & _ & _ & H & _)].
  - apply (does_verify Scenario.before_commit [AtVerify Scenario.routed Scenario.route] 0 Scenario.routed Scenario.route vo 9); [reflexivity |].
    apply surjective_pairing.
  - vm_compute. discriminate.
  - discriminate.
  - rewrite H. apply list_lookup_singleton_Some in Hi as [_ Hi]. by apply (f_equal (fun pc => activated ∘ at_new <$> pc_attempt pc)) in Hi.
Defined.

Lemma null_boot_escapes_fence_witness :
  let a := Scenario.attempt <| at_old := Some (Scenario.initial <| asg_worker_boot := id_null |>) |> in
  fence_section a Scenario.applied Scenario.failed =
    (Scenario.failed, inr (advance Milestone.OLD_ADMISSION_FENCED AttemptState.FENCING a)).
Proof. intros a. by apply (null_boot_escapes_fence Scenario.failed a Scenario.applied (Scenario.initial <| asg_worker_boot := id_null |>)). Defined.

Lemma first_replacement_has_id_one_witness : asg_id (at_new Scenario.attempt) = mkId 1.
Proof.
  exact (first_replacement_has_id_one config_default (Scenario.ops ++ [OpPublishFailure Scenario.failure]) Scenario.plan
           Scenario.prepared Scenario.attempt Scenario.attempt_prepared).
Defined.

Module Section_witness.
Definition current : Assignment := Scenario.initial <| asg_state := AssignmentState.ACTIVE |>.
Definition replacement : Assignment :=
  assignment_default <| asg_id := mkId 1 |> <| asg_generation := mkGen 2 |> <| asg_slot := Scenario.slot |>
    <| asg_state := AssignmentState.AUTHORIZED |> <| asg_worker_boot := mkId 22 |>.
(** An attempt whose source is [old]. *)
Definition attempt (old : option Assignment) : Attempt :=
  mkAttempt attempt_result_default Scenario.slot old replacement candidate_default.
Definition verified : VerifyOutcome := mkVerifyOutcome true "" false "".
Lemma healthy_wf : impl_wf Scenario.healthy.
Proof. apply run_ops_wf, impl_init_wf. Qed.
End Section_witness.

Lemma superseded_attempt_commits_nothing_witness :
  let a := Section_witness.attempt (Some (Scenario.initial <| asg_id := mkId 7 |>)) in
  exists r, (verify_section a Section_witness.verified 5 Scenario.healthy).2 = inl r /\
    (ar_state r = AttemptState.SUPERSEDED \/ ar_state r = AttemptState.RECOVERY_REQUIRED) /\
    forall k, slot_current (verify_section a Section_witness.verified 5 Scenario.healthy).1 k =
              slot_current Scenario.healthy k.
Proof.
  intros a. apply (superseded_attempt_commits_nothing Scenario.healthy a Section_witness.verified 5
    (Scenario.initial <| asg_id := mkId 7 |>) Section_witness.current Section_witness.healthy_wf).
  - reflexivity.
  - vm_compute. reflexivity.
  - left. discriminate.
Defined.

Lemma unsourced_cutover_displaces_current_witness :
  let a := Section_witness.attempt None in
  slot_current (verify_section a Section_witness.verified 5 Scenario.healthy).1 (at_slot a) =
    Some (activated (at_new a)) /\
  im_fenced_boots (verify_section a Section_witness.verified 5 Scenario.healthy).1 = im_fenced_boots Scenario.healthy.
Proof.
  intros a. apply (unsourced_cutover_displaces_current Scenario.healthy a Section_witness.verified 5
    Section_witness.current Section_witness.healthy_wf).
  - reflexivity.
  - vm_compute. reflexivity.
  - reflexivity.
Defined.

Lemma unindexed_slot_commit_is_lost_witness :
  let a := Section_witness.attempt None in let s := impl_init config_default in
  exists r, (verify_section a Section_witness.verified 5 s).2 = inl r /\ ar_state r = AttemptState.COMPLETED /\
    ar_committed_assignment r = Some (activated (at_new a)) /\
    slot_current (verify_section a Section_witness.verified 5 s).1 (at_slot a) = None.
Proof.
  intros a s. apply (unindexed_slot_commit_is_lost s a Section_witness.verified 5).
  - apply impl_init_wf.
  - reflexivity.
  - reflexivity.
Defined.
