(* ===== verification/CutoverSpec.v ===== *)
(** What one uninterrupted [execute_plan] does, for any adapter: a weakest-precondition
    calculus for the computations of Cutover, and the transaction theorem. *)

From stdpp Require Import base list gmap strings.
From Stdlib Require Import ZArith Lia.
From S2P Require Import Prelude Identities Types Double Bytes Model Codec Domains Evidence Routes Requests.
From S2P Require Import Recovery Selection Persistence Fabric Cutover Failback Invariant System.

Open Scope Z_scope.

Section wp.
Context {S : Type}.

(** The result and final state of [m] from [s] satisfy [Q]. *)
Definition wp {A} (m : ST S A) (s : S) (Q : S -> result A -> Prop) : Prop := Q (m s).1 (m s).2.

Lemma wp_bind {A B} (m : ST S A) (k : A -> ST S B) s Q :
  wp m s (fun s' x => match x with Ok a => wp (k a) s' Q | Throw e => Q s' (Throw e) end) ->
  wp (m ≫= k) s Q.
Proof.
  unfold wp, mbind, st_bind. destruct (m s) as [s' [a | e]]; simpl; [| done]. by destruct (k a s').
Qed.

Lemma wp_ret {A} (a : A) s (Q : S -> result A -> Prop) : Q s (Ok a) -> wp (mret a) s Q.
Proof. done. Qed.

Lemma wp_gets {A} (f : S -> A) s (Q : S -> result A -> Prop) : Q s (Ok (f s)) -> wp (gets f) s Q.
Proof. done. Qed.
End wp.

Section spec.
Context {W : Type} `{Ops : CutoverOps W}.
Notation R := (Run W).
Implicit Types (r : R).

(** The state with the slots, the fences and the authority of [s0] or better. *)
Record Same (s0 s : Impl) : Prop := {
  same_wf : impl_wf s;
  same_index : im_slot_index s = im_slot_index s0;
  same_slots : im_slots s = im_slots s0;
  same_fences : fences_kept s0 s;
  same_authority : im_last_authority_gen s = im_last_authority_gen s0 }.

Lemma same_refl s : impl_wf s -> Same s s.
Proof. intros H. split; try done. by intros b. Qed.

Lemma same_trans s0 s1 s2 : Same s0 s1 -> Same s1 s2 -> Same s0 s2.
Proof.
  intros [_ I1 S1 F1 A1] [W2 I2 S2 F2 A2]. split; try congruence. intros b Hb. by apply F2, F1.
Qed.

Lemma same_current s0 s k : Same s0 s -> slot_current s k = slot_current s0 k.
Proof. intros [_ I S _ _]. by apply slot_current_ext. Qed.

Lemma same_stop s0 s st : Same s0 s -> Same s0 (push_attempt_state st s).
Proof. intros H. eapply same_trans; [exact H |]. destruct H. split; try done; [by apply push_attempt_state_wf | by intros b]. Qed.

(** How a transaction on slot [k0] that started in [s0] may end. *)
Definition Outcome (s0 : Impl) (k0 : ServiceSlotKey) (r : R) (x : result AttemptResult) : Prop :=
  match x with
  | Throw _ => Same s0 (run_impl r)
  | Ok ar =>
    (ar_state ar <> AttemptState.COMPLETED /\ ar_committed_assignment ar = None /\ Same s0 (run_impl r)) \/
    (ar_state ar = AttemptState.COMPLETED /\ impl_wf (run_impl r) /\ fences_kept s0 (run_impl r) /\
     exists n, ar_committed_assignment ar = Some n /\ asg_slot n = k0 /\
       asg_state n = AssignmentState.ACTIVE /\
       (forall k, slot_current (run_impl r) k =
          if decide (k = k0) then (if find_slot_pos s0 k then Some n else None) else slot_current s0 k) /\
       (forall o, slot_current s0 k0 = Some o -> asg_worker_boot o <> id_null ->
          asg_worker_boot o ∈ im_fenced_boots (run_impl r)) /\
       im_has_txn (run_impl r) = false /\ ar_recovery_verified ar = true)
  end.

(** Saving, alone, changes the directory only. *)
Lemma save_alone path (r : R) : exists fs, ((save path : ST R unit) r).1 = mkRun (run_impl r) fs (run_world r).
Proof. unfold save. alone. unfold mbind, st_bind, gets, write_snapshot. destruct (save_file _ _ _ _) as [fs x]. by exists fs. Qed.

Lemma record_txn_same s0 m p src rt s : Same s0 s -> Same s0 (record_txn m p src rt s).
Proof. intros H. eapply same_trans; [exact H |]. destruct H. split; try done; [by apply record_txn_wf | by intros b]. Qed.

(** A checkpoint and the continuation after it. *)
Lemma wp_at_milestone s0 k0 m a rt (k : ST R AttemptResult) r :
  Same s0 (run_impl r) -> ar_committed_assignment (at_result a) = None ->
  (forall r', Same s0 (run_impl r') -> wp k r' (Outcome s0 k0)) ->
  wp (at_milestone m a rt k) r (Outcome s0 k0).
Proof.
  intros Hs Hc Hk. unfold at_milestone, checkpoint. alone. apply wp_bind.
  apply wp_bind. unfold wp at 1. unfold locked. simpl.
  set (r1 := mkRun _ (run_fs r) (run_world r)).
  assert (Same s0 (run_impl r1)) as Hs1 by (by apply record_txn_same). clearbody r1.
  apply wp_bind, wp_gets. apply wp_bind.
  destruct (String.eqb (im_checkpoint_path (run_impl r1)) "").
  - apply wp_ret, wp_gets. case_bool_decide; [| by apply Hk]. apply wp_ret. left. done.
  - unfold wp at 1. destruct (save_alone (im_checkpoint_path (run_impl r1)) r1) as [fs Hfs].
    destruct ((save _ : ST R unit) r1) as [r2 [[] | e]]; simpl in *; subst r2; [| done].
    apply wp_gets. case_bool_decide; [| by apply Hk]. apply wp_ret. left. done.
Qed.

(** A locked section that stops or goes on. *)
Lemma wp_section s0 k0 (f : Impl -> Impl * (AttemptResult + Attempt)) (k : Attempt -> ST R AttemptResult) r :
  (forall s' x, f (run_impl r) = (s', x) ->
     match x with
     | inl ar => ar_state ar <> AttemptState.COMPLETED /\ ar_committed_assignment ar = None /\ Same s0 s'
     | inr a => forall r', run_impl r' = s' -> wp (k a) r' (Outcome s0 k0)
     end) ->
  wp (unless_done (locked f) k) r (Outcome s0 k0).
Proof.
  intros H. unfold unless_done. alone. apply wp_bind. unfold wp at 1, locked.
  destruct (f (run_impl r)) as [s' x] eqn:E. specialize (H s' x eq_refl). simpl.
  destruct x as [ar | a]; [| by apply H]. apply wp_ret. by left.
Qed.

(** A call of the adapter, which may throw, and the continuation after it. *)
Lemma wp_external {A B} (f : W -> W * result A) (k : A -> ST R B) r (Q : R -> result B -> Prop) :
  (forall w e, f (run_world r) = (w, Throw e) -> Q (mkRun (run_impl r) (run_fs r) w) (Throw e)) ->
  (forall w x, f (run_world r) = (w, Ok x) -> wp (k x) (mkRun (run_impl r) (run_fs r) w) Q) -> wp (external f ≫= k) r Q.
Proof.
  intros Ht H. apply wp_bind. unfold wp at 1, external. destruct (f (run_world r)) as [w [x | e]]; [by apply H | by apply Ht].
Qed.

(** The sections of the transaction, each against [Outcome]. *)
Lemma fence_section_spec s0 a fo s s' x :
  Same s0 s -> ar_committed_assignment (at_result a) = None -> fence_section a fo s = (s', x) ->
  match x with
  | inl ar => ar_state ar <> AttemptState.COMPLETED /\ ar_committed_assignment ar = None /\ Same s0 s'
  | inr a' => Same s0 s' /\ at_new a' = at_new a /\ at_old a' = at_old a /\ at_slot a' = at_slot a /\
              at_selected a' = at_selected a /\ ar_committed_assignment (at_result a') = None
  end.
Proof.
  intros Hs Hc E. pose proof (fence_section_wf a fo s (same_wf _ _ Hs)) as Hwf. rewrite E in Hwf.
  unfold fence_section, stop in E. repeat case_match; simplify_eq; try (split_and!; try done; by apply same_stop).
  split; [| done]. eapply same_trans; [exact Hs |]. split; [done | | | apply (old_boot_fences_kept (Some _)) |];
    unfold add_fenced_boot; by destruct (_ && _).
Qed.

Lemma activate_section_spec s0 a ao s s' x :
  Same s0 s -> ar_committed_assignment (at_result a) = None -> activate_section a ao s = (s', x) ->
  match x with
  | inl ar => ar_state ar <> AttemptState.COMPLETED /\ ar_committed_assignment ar = None /\ Same s0 s'
  | inr a' => Same s0 s' /\ at_new a' = at_new a /\ at_old a' = at_old a /\ at_slot a' = at_slot a /\
              at_selected a' = at_selected a /\ ar_committed_assignment (at_result a') = None
  end.
Proof.
  intros Hs Hc E. unfold activate_section, stop in E.
  repeat case_match; simplify_eq; split_and!; try done; by apply same_stop.
Qed.

Lemma route_section_spec s0 a re ro s s' x :
  Same s0 s -> ar_committed_assignment (at_result a) = None -> route_section a re ro s = (s', x) ->
  match x with
  | inl ar => ar_state ar <> AttemptState.COMPLETED /\ ar_committed_assignment ar = None /\ Same s0 s'
  | inr a' => Same s0 s' /\ at_new a' = at_new a /\ at_old a' = at_old a /\ at_slot a' = at_slot a /\
              at_selected a' = at_selected a /\ ar_committed_assignment (at_result a') = None
  end.
Proof.
  intros Hs Hc E. pose proof (route_section_wf a re ro s (same_wf _ _ Hs)) as Hwf. rewrite E in Hwf.
  unfold route_section, stop in E.
  repeat case_match; simplify_eq; split_and!; try done; [by apply same_stop |].
  eapply same_trans; [exact Hs |]. split; try done. by intros b.
Qed.

(** The last section: nothing happened, or the replacement is the slot's assignment. *)
Lemma verify_section_spec s0 a vo now s :
  Same s0 s -> attempt_ok a -> at_old a = slot_current s0 (at_slot a) ->
  ar_committed_assignment (at_result a) = None ->
  exists ar, (verify_section a vo now s).2 = inl ar /\
    forall fs (w : W) e,
      Outcome s0 (at_slot a) (mkRun (verify_section a vo now s).1 fs w)
        (Ok (if bool_decide (ar_state ar = AttemptState.COMPLETED) then ar <| ar_elapsed_ms := e |> else ar)).
Proof.
  intros Hs [Hslot Hst] Hold Hc. pose proof (same_wf _ _ Hs) as Hwf.
  destruct (verify_section_cases a vo now s Hwf) as [[_ ->] | [(_ & _ & ->) | (Hv & Hg & s' & Es' & E)]].
  - eexists. split; [done |]. intros fs w e. left. split; [done |]. split; [done |]. by apply same_stop.
  - eexists. split; [done |]. intros fs w e. left. split; [done |]. split; [done |]. by apply same_stop.
  - pose proof (verify_section_wf a vo now s (conj Hslot Hst) Hwf) as Hwf'.
    pose proof (verify_section_fences a vo now s Hwf) as Hk. rewrite E in *.
    eexists. split; [done |]. intros fs w e. right. split; [done |]. split; [done |].
    split; [intros b Hb; by apply Hk, Hs |]. exists (activated (at_new a)).
    split; [done |]. split; [done |]. split; [done |]. split; [| split; [| by split]].
    + intros k. cbn [run_impl fst]. rewrite slot_current_committed, Es', commit_slot_current by done.
      rewrite (same_current s0 s k Hs). unfold find_slot_pos. by rewrite (same_index _ _ Hs), (same_slots _ _ Hs).
    + intros o Ho Hn. rewrite <- Hold in Ho. rewrite Ho. simpl. apply elem_of_add_fenced. by right.
Qed.

(** Preparing an attempt changes no slot, fence or authority generation. *)
Lemma prepare_same plan s0 s' x :
  impl_wf s0 -> prepare plan s0 = (s', x) ->
  Same s0 s' /\ im_checkpoint_path s' = im_checkpoint_path s0 /\ im_barrier_milestone s' = im_barrier_milestone s0 /\
  im_gateway_boot s' = im_gateway_boot s0.
Proof.
  intros Hwf E. pose proof (prepare_wf plan s0 Hwf) as Hwf'. pose proof (prepare_fences plan s0) as Hf.
  destruct (prepare_slots plan s0 s' x E) as [Hi Hsl]. destruct (prepare_cases plan s0) as (s1 & Hs1 & H).
  rewrite E in *. simpl in Hf, Hwf'.
  assert (im_last_authority_gen s1 = im_last_authority_gen s0 /\ im_checkpoint_path s1 = im_checkpoint_path s0 /\
          im_barrier_milestone s1 = im_barrier_milestone s0 /\ im_gateway_boot s1 = im_gateway_boot s0) as Ha1.
  { destruct Hs1 as [-> | ->]; [done |]. unfold snapshot_locked. by destruct (gen_next _). }
  assert (im_last_authority_gen s' = im_last_authority_gen s0 /\ im_checkpoint_path s' = im_checkpoint_path s0 /\
          im_barrier_milestone s' = im_barrier_milestone s0 /\ im_gateway_boot s' = im_gateway_boot s0) as [Ha Hrest].
  { destruct x as [[ar | a] | e]; [destruct H as (-> & _) | destruct H as (-> & _) | destruct H as [-> | ->]]; done. }
  split; [| done]. split; try done. intros b Hb. by rewrite Hf.
Qed.

Lemma wp_prepare s0 plan (k : Attempt -> ST R AttemptResult) r :
  run_impl r = s0 -> impl_wf s0 ->
  (forall a r', Same s0 (run_impl r') -> attempt_ok a -> at_slot a = pl_slot plan ->
     at_old a = slot_current s0 (at_slot a) -> ar_committed_assignment (at_result a) = None ->
     wp (k a) r' (Outcome s0 (pl_slot plan))) ->
  wp (unless_done (locked_st (prepare plan)) k) r (Outcome s0 (pl_slot plan)).
Proof.
  intros Er Hwf Hk. unfold unless_done. alone. apply wp_bind. unfold wp at 1, locked_st. rewrite Er.
  destruct (prepare_cases plan s0) as (s1 & _ & H).
  destruct (prepare plan s0) as [s' x] eqn:E. destruct (prepare_same plan s0 s' x Hwf E) as [Hsame _].
  simpl. destruct x as [[ar | a] | e]; [| | done].
  - destruct H as (_ & Hst & Hc). apply wp_ret. left. split; [congruence | done].
  - destruct H as (_ & Hok & Hslot & Hold & _ & Hc & _). apply Hk; try done. simpl in Hold. by rewrite Hold, Hslot.
Qed.

Lemma promote_outcome s0 a t0 r :
  Same s0 (run_impl r) -> attempt_ok a -> at_old a = slot_current s0 (at_slot a) ->
  ar_committed_assignment (at_result a) = None -> wp (promote t0 a) r (Outcome s0 (at_slot a)).
Proof.
  intros Hs5 Hok Hold Hc4. unfold promote. alone.
  apply wp_bind, wp_gets. apply wp_external; [done |]. intros w6 ao _. apply wp_section. simpl. intros s7 x7 E7.
  pose proof (activate_section_spec _ _ _ _ _ _ Hs5 Hc4 E7) as H7. destruct x7 as [ar | a7]; [done |].
  destruct H7 as (Hs7 & Hn7 & Ho7 & Hk7 & _ & Hc7). intros r7 <-. apply wp_at_milestone; [done | done |]. intros r8 Hs8.
  apply wp_bind, wp_gets. apply wp_external; [done |]. intros w9 ro _. apply wp_section. simpl. intros s10 x10 E10.
  pose proof (route_section_spec _ _ _ _ _ _ _ Hs8 Hc7 E10) as H10. destruct x10 as [ar | a10]; [done |].
  destruct H10 as (Hs10 & Hn10 & Ho10 & Hk10 & _ & Hc10). intros r10 <-. apply wp_at_milestone; [done | done |]. intros r11 Hs11.
  apply wp_external; [done |]. intros w12 vo _. apply wp_bind, wp_gets. apply wp_bind. unfold wp at 1, locked. simpl.
  assert (at_slot a10 = at_slot a) as Hslot10 by congruence.
  destruct (verify_section_spec s0 a10 vo (clock_now w12) (run_impl r11) Hs11) as (ar & Har & Hout);
    [unfold attempt_ok; by rewrite Hn10, Hn7, Hslot10 | by rewrite Ho10, Ho7, Hold, Hslot10 | done |].
  destruct (verify_section a10 vo (clock_now w12) (run_impl r11)) as [s13 x13]. simpl in *. subst x13.
  rewrite Hslot10 in Hout. revert Hout. case_bool_decide; intros Hout.
  - apply wp_bind, wp_gets. apply wp_ret. exact (Hout (run_fs r11) w12 0).
  - apply wp_ret. exact (Hout (run_fs r11) w12 0).
Qed.

Lemma execute_plan_outcome plan r :
  impl_wf (run_impl r) -> wp (execute_plan plan) r (Outcome (run_impl r) (pl_slot plan)).
Proof.
  intros Hwf. unfold execute_plan, run_plan. alone. apply wp_prepare; [done | done |].
  intros a1 r1 Hs1 Hok Hslot Hold Hc1. apply wp_at_milestone; [done | done |]. intros r2 Hs2.
  apply wp_bind, wp_gets. apply wp_bind.
  assert (exists fo r3, fence_call a1 r2 = (r3, fo) /\ run_impl r3 = run_impl r2) as (fo & r3 & E3 & H3).
  { unfold fence_call. destruct (at_old a1); [| by eexists _, _]. unfold external.
    destruct (fence_old _ _ _); by eexists _, _. }
  unfold wp at 1. rewrite E3. simpl. destruct fo as [fo | e]; [| simpl; by rewrite H3]. apply wp_section. rewrite H3. intros s4 x4 E4.
  pose proof (fence_section_spec _ _ _ _ _ _ Hs2 Hc1 E4) as H4. destruct x4 as [ar | a4]; [done |].
  destruct H4 as (Hs4 & Hn4 & Ho4 & Hk4 & _ & Hc4). intros r4 <-. apply wp_at_milestone; [done | done |]. intros r5 Hs5.
  rewrite <- Hslot, <- Hk4. apply promote_outcome; [done | unfold attempt_ok; by rewrite Hn4, Hk4 | by rewrite Ho4, Hk4 | done].
Qed.

(** The milestones a cutover checkpoints at. *)
Definition checkpointed (m : Milestone) : bool :=
  match m with
  | Milestone.INTENT_ONLY | Milestone.OLD_ADMISSION_FENCED | Milestone.ACTIVATION_ACKNOWLEDGED | Milestone.ROUTE_INSTALLED => true
  | Milestone.REPLACEMENT_AUTHORIZED | Milestone.VERIFICATION_COMPLETE => false
  end.

Definition not_completed (_ : R) (x : result AttemptResult) : Prop := forall ar, x = Ok ar -> ar_state ar <> AttemptState.COMPLETED.

(** Past the checkpoint [m] the barrier, unchanged, is another milestone. *)
Lemma wp_blocked_milestone b m a rt (k : ST R AttemptResult) r :
  im_barrier_milestone (run_impl r) = b ->
  (forall r', im_barrier_milestone (run_impl r') = b -> m <> b -> wp k r' not_completed) ->
  wp (at_milestone m a rt k) r not_completed.
Proof.
  intros Hb Hk. unfold at_milestone, checkpoint. alone. apply wp_bind, wp_bind. unfold wp at 1, locked. simpl.
  set (r1 := mkRun _ _ _). assert (im_barrier_milestone (run_impl r1) = b) as Hb1 by done. clearbody r1.
  apply wp_bind, wp_gets, wp_bind.
  assert (forall r2, run_impl r2 = run_impl r1 ->
    wp (gets (fun r => bool_decide (im_barrier_milestone (run_impl r) = m))) r2
      (fun s' x => match x with Ok a0 => wp (if (a0 : bool) then mret (interrupted a m) else k) s' not_completed
                              | Throw e => not_completed s' (Throw e) end)) as Hgo.
  { intros r2 E2. apply wp_gets. rewrite E2, Hb1. case_bool_decide as Hbm; [apply wp_ret; by intros ? [= <-] |].
    apply Hk; [by rewrite E2 | congruence]. }
  destruct (String.eqb _ ""); [by apply wp_ret, Hgo |].
  unfold wp at 1. destruct (save_alone (im_checkpoint_path (run_impl r1)) r1) as [fs Hfs].
  destruct ((save _ : ST R unit) r1) as [r2 [u | e]]; simpl in *; subst r2; [by apply Hgo | done].
Qed.

(** A locked section that keeps the barrier. *)
Lemma wp_blocked_section b (f : Impl -> Impl * (AttemptResult + Attempt)) (k : Attempt -> ST R AttemptResult) r :
  im_barrier_milestone (run_impl r) = b ->
  (forall s' x, f (run_impl r) = (s', x) -> im_barrier_milestone s' = im_barrier_milestone (run_impl r) /\
     match x with inl ar => ar_state ar <> AttemptState.COMPLETED | inr _ => True end) ->
  (forall a r', im_barrier_milestone (run_impl r') = b -> wp (k a) r' not_completed) ->
  wp (unless_done (locked f) k) r not_completed.
Proof.
  intros Hb Hf Hk. unfold unless_done. alone. apply wp_bind. unfold wp at 1, locked.
  destruct (f (run_impl r)) as [s' x] eqn:E. destruct (Hf s' x eq_refl) as [Hs Hx]. simpl.
  destruct x as [ar | a]; [apply wp_ret; by intros ? [= <-] |]. apply Hk. simpl. congruence.
Qed.

Lemma barrier_blocks plan r :
  checkpointed (im_barrier_milestone (run_impl r)) = true -> wp (execute_plan plan) r not_completed.
Proof.
  intros Hc. unfold execute_plan, run_plan, unless_done at 1. alone. apply wp_bind. unfold wp at 1, locked_st.
  destruct (prepare_cases plan (run_impl r)) as (s1 & Hs1 & H).
  assert (im_barrier_milestone s1 = im_barrier_milestone (run_impl r)) as Hb1.
  { destruct Hs1 as [-> | ->]; [done |]. unfold snapshot_locked. by destruct (gen_next _). }
  destruct (prepare plan (run_impl r)) as [s' [[ar | a] | e]]; simpl; [| | by intros ? [=]].
  { apply wp_ret. destruct H as (_ & Hst & _). intros ? [= <-]. congruence. }
  destruct H as (-> & _). revert Hc. set (b := im_barrier_milestone (run_impl r)). intros Hc.
  eapply (wp_blocked_milestone b); [exact Hb1 |]. intros r2 Hb2 H1. apply wp_bind, wp_gets. apply wp_bind.
  assert (exists fo r3, fence_call a r2 = (r3, fo) /\ run_impl r3 = run_impl r2) as (fo & r3 & E3 & H3).
  { unfold fence_call. destruct (at_old a); [| by eexists _, _]. unfold external. destruct (fence_old _ _ _); by eexists _, _. }
  unfold wp at 1. rewrite E3. simpl. destruct fo as [fo | e]; [| by intros ? [=]].
  apply (wp_blocked_section b); [by rewrite H3 | |].
  { intros s4 x. unfold fence_section, stop, add_fenced_boot. intros E. repeat case_match; by simplify_eq. }
  intros a4 r4 Hb4. apply (wp_blocked_milestone b); [done |]. intros r5 Hb5 H2. unfold promote. alone.
  apply wp_bind, wp_gets. apply wp_external; [by intros ? ? _ ? [=] |]. intros w6 ao _. apply (wp_blocked_section b); [done | |].
  { intros s7 x. unfold activate_section, stop. intros E. repeat case_match; by simplify_eq. }
  intros a7 r7 Hb7. apply (wp_blocked_milestone b); [done |]. intros r8 Hb8 H4.
  apply wp_bind, wp_gets. apply wp_external; [by intros ? ? _ ? [=] |]. intros w9 ro _. apply (wp_blocked_section b); [done | |].
  { intros s10 x. unfold route_section, stop. intros E. repeat case_match; by simplify_eq. }
  intros a10 r10 Hb10. apply (wp_blocked_milestone b); [done |]. intros r11 Hb11 H5. by destruct b.
Qed.
End spec.

(** * The adapter calls *)

(** A call of the adapter and whether it succeeded. *)
Inductive Call : Type := CallFence (ok : bool) | CallActivate (ok : bool) | CallInstall (ok : bool) | CallVerify (ok : bool).

(** A call that throws did not succeed. *)
Definition succeeded {A} (p : A -> bool) (x : result A) : bool := match x with Ok a => p a | Throw _ => false end.

(** Any adapter, with a log of the calls the coordinator makes. *)
#[export] Instance logged_ops {W} (Ops : CutoverOps W) : CutoverOps (W * list Call) := {|
  fence_old o b w := let '(w', x) := fence_old o b w.1 in
    ((w', w.2 ++ [CallFence (succeeded (fun x => fo_applied x && negb (fo_fencing_unproven x)) x)]), x);
  activate c auth g w := let '(w', x) := activate c auth g w.1 in
    ((w', w.2 ++ [CallActivate (succeeded ao_acknowledged x)]), x);
  ops_install_route re b w := let '(w', x) := ops_install_route re b w.1 in
    ((w', w.2 ++ [CallInstall (succeeded rto_acknowledged x)]), x);
  verify re auth w := let '(w', x) := verify re auth w.1 in ((w', w.2 ++ [CallVerify (succeeded vo_verified x)]), x);
  clock_now w := clock_now w.1;
  save_io w := save_io w.1 |}.

(** The calls of a complete transaction, in order; a slot without an assignment has
    nothing to fence. *)
Definition full_calls (old : option Assignment) : list Call :=
  (match old with Some _ => [CallFence true] | None => [] end) ++
  [CallActivate true; CallInstall true; CallVerify true].

(** A call that failed in place of the one expected. *)
Definition refused_call (c : Call) : Call :=
  match c with
  | CallFence _ => CallFence false
  | CallActivate _ => CallActivate false
  | CallInstall _ => CallInstall false
  | CallVerify _ => CallVerify false
  end.

(** The calls made are a prefix of the full sequence, in which only the last can have
    failed. *)
Definition in_order (old : option Assignment) (l : list Call) : Prop :=
  exists n, l = take n (full_calls old) \/
    exists c, full_calls old !! n = Some c /\ l = take n (full_calls old) ++ [refused_call c].

Lemma in_order_split old q c rest :
  full_calls old = q ++ c :: rest -> in_order old q /\ in_order old (q ++ [refused_call c]).
Proof.
  intros E. unfold in_order. rewrite E. split; exists (length q).
  - left. by rewrite take_app_length.
  - right. exists c. rewrite take_app_length. split; [by rewrite lookup_app_r, Nat.sub_diag by lia | done].
Qed.

Section order.
Context {W : Type} (Ops : CutoverOps W) (old : option Assignment) (log0 : list Call).
Notation R := (Run (W * list Call)).
Implicit Types r : R.

Definition log_is (l : list Call) r : Prop := (run_world r).2 = log0 ++ l.

Definition Ordered r (x : result AttemptResult) : Prop :=
  exists l, log_is l r /\ in_order old l /\
    forall ar, x = Ok ar -> ar_state ar = AttemptState.COMPLETED -> l = full_calls old.

Lemma ordered_stop l r ar :
  log_is l r -> in_order old l -> ar_state ar <> AttemptState.COMPLETED -> Ordered r (Ok ar).
Proof. intros Hl Hi Hs. exists l. split; [done |]. split; [done |]. by intros ? [= <-]. Qed.

Lemma ordered_throw l r e : log_is l r -> in_order old l -> Ordered r (Throw e).
Proof. intros Hl Hi. exists l. by split_and!. Qed.

(** A checkpoint makes no call. *)
Lemma wp_ordered_milestone l m a rt (k : ST R AttemptResult) r :
  log_is l r -> in_order old l -> (forall r', log_is l r' -> wp k r' Ordered) ->
  wp (at_milestone m a rt k) r Ordered.
Proof.
  intros Hl Hi Hk. unfold at_milestone, checkpoint. alone. apply wp_bind. apply wp_bind. unfold wp at 1, locked. simpl.
  apply wp_bind, wp_gets, wp_bind. simpl. set (r1 := mkRun _ _ _).
  assert (log_is l r1) as Hl1 by done. clearbody r1.
  destruct (String.eqb _ "").
  - apply wp_ret, wp_gets. case_bool_decide; [| by apply Hk]. apply wp_ret. by eapply ordered_stop.
  - unfold save. alone. apply wp_bind, wp_gets. unfold wp at 1, write_snapshot. destruct (save_file _ _ _ _) as [fs [[] | e]]; simpl.
    + apply wp_gets. case_bool_decide; [| by apply Hk]. apply wp_ret. by eapply ordered_stop.
    + exists l. by split_and!.
Qed.

(** A section makes no call; when it stops, the transaction is not complete. *)
Lemma wp_ordered_section l (f : Impl -> Impl * (AttemptResult + Attempt)) (k : Attempt -> ST R AttemptResult) r :
  log_is l r ->
  (forall s' x, f (run_impl r) = (s', x) ->
     match x with
     | inl ar => ar_state ar <> AttemptState.COMPLETED /\ in_order old l
     | inr a => forall r', log_is l r' -> wp (k a) r' Ordered
     end) ->
  wp (unless_done (locked f) k) r Ordered.
Proof.
  intros Hl H. unfold unless_done. alone. apply wp_bind. unfold wp at 1, locked.
  destruct (f (run_impl r)) as [s' x] eqn:E. specialize (H s' x eq_refl). simpl.
  destruct x as [ar | a]; [| by apply H]. apply wp_ret. destruct H. by eapply ordered_stop.
Qed.

(** The part of the transaction after the fence, with [q] the calls so far. *)
Lemma ordered_tail q a r t0 :
  full_calls old = q ++ [CallActivate true; CallInstall true; CallVerify true] -> log_is q r ->
  wp (promote t0 a) r Ordered.
Proof.
  intros Hfull Hq.
  destruct (in_order_split old q _ _ Hfull) as [_ H1r].
  pose proof (in_order_split old (q ++ [CallActivate true]) (CallInstall true) [CallVerify true]) as H2.
  destruct H2 as [H2 H2r]; [by rewrite Hfull, <- app_assoc |].
  pose proof (in_order_split old (q ++ [CallActivate true; CallInstall true]) (CallVerify true) []) as H3.
  destruct H3 as [H3 H3r]; [by rewrite Hfull, <- app_assoc |].
  unfold promote. alone. apply wp_bind, wp_gets. apply wp_external.
  { intros w e Ee. simpl in Ee. destruct (activate _ _ _ _) as [w' x]. simplify_eq. apply (ordered_throw (q ++ [CallActivate false])); [| done].
    unfold log_is in *. simpl. by rewrite Hq, app_assoc. }
  intros w ao Eao.
  assert (w.2 = log0 ++ q ++ [CallActivate (ao_acknowledged ao)]) as Hw.
  { unfold log_is in Hq. simpl in Eao. destruct (activate _ _ _ _) as [w' x]. simplify_eq. simpl. by rewrite Hq, app_assoc. }
  apply (wp_ordered_section (q ++ [CallActivate (ao_acknowledged ao)])); [done |]. simpl. intros s2 x2 E2.
  unfold activate_section, stop in E2. destruct (ao_acknowledged ao) eqn:Eack; simpl in E2; simplify_eq; [| done].
  intros r2 Hl2. apply (wp_ordered_milestone (q ++ [CallActivate true])); [done | done |]. intros r3 Hl3.
  apply wp_bind, wp_gets. apply wp_external.
  { intros w3 e Ee. simpl in Ee. destruct (ops_install_route _ _ _) as [w' x]. simplify_eq.
    apply (ordered_throw ((q ++ [CallActivate true]) ++ [CallInstall false])); [| done].
    unfold log_is in *. simpl. by rewrite Hl3, <- !app_assoc. }
  intros w3 ro Ero.
  assert (w3.2 = log0 ++ q ++ [CallActivate true; CallInstall (rto_acknowledged ro)]) as Hw3.
  { unfold log_is in Hl3. simpl in Ero. destruct (ops_install_route _ _ _) as [w' x]. simplify_eq. simpl.
    by rewrite Hl3, <- !app_assoc. }
  apply (wp_ordered_section (q ++ [CallActivate true; CallInstall (rto_acknowledged ro)])); [done |]. simpl.
  intros s4 x4 E4. unfold route_section, stop in E4.
  destruct (rto_acknowledged ro) eqn:Erk; simpl in E4; simplify_eq;
    [| split; [done | by rewrite <- app_assoc in H2r]].
  intros r4 Hl4. apply (wp_ordered_milestone (q ++ [CallActivate true; CallInstall true])); [done | done |]. intros r5 Hl5.
  apply wp_external.
  { intros w6 e Ee. simpl in Ee. destruct (verify _ _ _) as [w' x]. simplify_eq.
    apply (ordered_throw ((q ++ [CallActivate true; CallInstall true]) ++ [CallVerify false])); [| done].
    unfold log_is in *. simpl. by rewrite Hl5, <- !app_assoc. }
  intros w6 vo Evo.
  assert (w6.2 = log0 ++ q ++ [CallActivate true; CallInstall true; CallVerify (vo_verified vo)]) as Hw6.
  { unfold log_is in Hl5. simpl in Evo. destruct (verify _ _ _) as [w' x]. simplify_eq. simpl.
    by rewrite Hl5, <- !app_assoc. }
  apply wp_bind, wp_gets. apply wp_bind. unfold wp at 1, locked.
  destruct (verify_section _ vo _ _) as [s7 x7] eqn:E7. cbn [fst snd].
  simpl. set (r7 := mkRun s7 (run_fs r5) w6).
  assert (log_is (q ++ [CallActivate true; CallInstall true; CallVerify (vo_verified vo)]) r7) as Hl7 by done.
  clearbody r7. destruct (vo_verified vo) eqn:Ev.
  - assert (forall x, Ordered r7 x) as Hall.
    { intros x. exists (full_calls old). rewrite Hfull. split; [done |]. split; [| done].
      exists (length (full_calls old)). left. by rewrite take_ge, Hfull by lia. }
    destruct x7 as [ar | ?]; [| by apply wp_ret]. case_bool_decide; [apply wp_bind, wp_gets |]; by apply wp_ret.
  - unfold verify_section in E7. rewrite Ev in E7. simpl in E7. unfold stop in E7. simplify_eq.
    rewrite bool_decide_eq_false_2 by done. apply wp_ret. eapply ordered_stop; [done | | done].
    by rewrite <- app_assoc in H3r.
Qed.
End order.

(** * Theorems *)

(** C5: A cutover is all or nothing, whatever the adapter answers and wherever it stops
    (an invalid plan, a failed or unproven fence, a refused activation, route or
    verification, an exception from the adapter, supersession, a barrier, a failed save
    or an exhausted counter):
    either it reports COMPLETED with an ACTIVE assignment of its slot, which is then
    the slot's current assignment if the slot is indexed, the boot it replaced is fenced
    if there was an assignment and its boot is not null, and no transaction is open; or
    no slot's assignment and no authority generation has changed.  The conditions are
    needed: [unindexed_slot_commit_is_lost], [null_boot_escapes_fence].  In both cases other slots keep their assignment and no fence is
    lost. *)
Theorem cutover_all_or_nothing {W} `{Ops : CutoverOps W} (plan : FailoverPlan) (r : Run W) :
  impl_wf (run_impl r) ->
  let s := run_impl r in
  let s' := run_impl (execute_plan plan r).1 in
  impl_wf s' /\ fences_kept s s' /\
  ((forall k, slot_current s' k = slot_current s k) /\ im_last_authority_gen s' = im_last_authority_gen s /\
     (forall ar, (execute_plan plan r).2 = Ok ar ->
        ar_state ar <> AttemptState.COMPLETED /\ ar_committed_assignment ar = None) \/
   exists ar n, (execute_plan plan r).2 = Ok ar /\ ar_state ar = AttemptState.COMPLETED /\
     ar_committed_assignment ar = Some n /\ asg_slot n = pl_slot plan /\
     asg_state n = AssignmentState.ACTIVE /\ im_has_txn s' = false /\
     (forall st, find_slot s (pl_slot plan) = Some st -> slot_current s' (pl_slot plan) = Some n) /\
     (forall k, k <> pl_slot plan -> slot_current s' k = slot_current s k) /\
     (forall o, slot_current s (pl_slot plan) = Some o -> asg_worker_boot o <> id_null ->
        asg_worker_boot o ∈ im_fenced_boots s')).
Proof.
  intros Hwf s s'. pose proof (execute_plan_outcome plan r Hwf) as H. unfold wp in H. fold s in H.
  unfold s'. destruct (execute_plan plan r) as [r' [ar | e]]; simpl in *.
  - destruct H as [(Hst & Hc & Hs) | (Hst & Hwf' & Hk & n & Hc & Hsl & Hact & Hcur & Hf & Htx & _)].
    + split; [apply Hs |]. split; [apply Hs |]. left. split; [intros k; by apply same_current |].
      split; [apply Hs |]. by intros ? [= <-].
    + split; [done |]. split; [done |]. right. exists ar, n. split_and!; try done.
      * intros st Hst'. rewrite Hcur, decide_True by done. unfold find_slot in Hst'.
        by destruct (find_slot_pos s (pl_slot plan)).
      * intros k Hk'. by rewrite Hcur, decide_False.
  - split; [apply H |]. split; [apply H |]. left. split; [intros k; by apply same_current |].
    split; [apply H | done].
Qed.

(** C8: The adapter is called in the order of the transaction and no further than it
    may go: fence (when there is an assignment to fence), activate, install the route,
    verify; each call is made only if every earlier one succeeded, none is repeated,
    and a COMPLETED transaction has made them all successfully. *)
Theorem cutover_calls_in_order {W} (Ops : CutoverOps W) (plan : FailoverPlan) (r : Run (W * list Call)) :
  let old := slot_current (run_impl r) (pl_slot plan) in
  exists l, (run_world (execute_plan plan r).1).2 = (run_world r).2 ++ l /\ in_order old l /\
    forall ar, (execute_plan plan r).2 = Ok ar -> ar_state ar = AttemptState.COMPLETED -> l = full_calls old.
Proof.
  intros old. change (wp (execute_plan plan) r (Ordered old (run_world r).2)).
  assert (in_order old []) as Hnil by (exists 0%nat; by left).
  unfold execute_plan, run_plan, unless_done at 1. alone. apply wp_bind. unfold wp at 1, locked_st.
  destruct (prepare_cases plan (run_impl r)) as (s0 & _ & H).
  destruct (prepare plan (run_impl r)) as [s1 [[ar | a] | e]]; cbn [fst snd].
  - destruct H as (_ & Hst & _). apply wp_ret. apply (ordered_stop _ _ []); [unfold log_is; by rewrite app_nil_r | done | by rewrite Hst].
  - destruct H as (_ & _ & _ & Hold & _). fold old in Hold.
    apply (wp_ordered_milestone _ _ _ []); [unfold log_is; by rewrite app_nil_r | done |]. intros r2 Hl2.
    apply wp_bind, wp_gets. unfold fence_call. rewrite Hold.
    destruct old as [o |] eqn:Eold.
    + assert (in_order (Some o) [CallFence false]) as Href by (by exists 0%nat; right; exists (CallFence true)).
      apply wp_external.
      { intros w e Ee. simpl in Ee. destruct (fence_old _ _ _) as [w' x]. simplify_eq. apply (ordered_throw _ _ [CallFence false]); [| done].
        unfold log_is in *. rewrite app_nil_r in Hl2. simpl. by rewrite Hl2. }
      intros w fo Efo.
      assert (w.2 = (run_world r).2 ++ [CallFence (fo_applied fo && negb (fo_fencing_unproven fo))]) as Hw.
      { unfold log_is in Hl2. rewrite app_nil_r in Hl2. simpl in Efo. destruct (fence_old _ _ _) as [w' x].
        simplify_eq. simpl. by rewrite Hl2. }
      apply (wp_ordered_section _ _ [CallFence (fo_applied fo && negb (fo_fencing_unproven fo))]); [done |].
      simpl. intros s3 x3 E3. unfold fence_section, stop in E3.
      destruct (fo_fencing_unproven fo), (fo_applied fo); simpl in E3; simplify_eq; try done.
      intros r3 Hl3. eapply wp_ordered_milestone; [exact Hl3 | by exists 1%nat; left |]. intros r4 Hl4.
      by apply (ordered_tail _ _ _ [CallFence true]).
    + apply wp_bind, wp_ret. apply (wp_ordered_section _ _ []); [done |]. intros s3 x3 E3.
      unfold fence_section in E3. simpl in E3. simplify_eq. intros r3 Hl3.
      eapply wp_ordered_milestone; [exact Hl3 | done |]. intros r4 Hl4.
      by apply (ordered_tail _ _ _ []).
  - exists []. split; [unfold log_is; by rewrite app_nil_r |]. by split.
Qed.

(** * Progress *)

(** An adapter that does what it is asked, over the worlds [I], for the replacement [cand]
    and the gateway [gb]. *)
Record Cooperative {W} (Ops : CutoverOps W) (I : W -> Prop) (cand : Candidate) (gb : GatewayBootId) : Prop := {
  coop_fence : forall o b w, I w ->
    exists w' x, fence_old o b w = (w', Ok x) /\ I w' /\ fo_applied x = true /\ fo_fencing_unproven x = false;
  coop_activate : forall auth g w, I w -> exists w' x, activate cand auth g w = (w', Ok x) /\ I w' /\ ao_acknowledged x = true;
  coop_install : forall re w, I w -> exists w' x, ops_install_route re gb w = (w', Ok x) /\ I w' /\ rto_acknowledged x = true;
  coop_verify : forall re auth w, I w -> exists w' x, verify re auth w = (w', Ok x) /\ I w' /\ vo_verified x = true }.

(** No checkpoint file and no barrier: the checkpoints only record the milestone. *)
Definition unattended (s : Impl) : Prop :=
  im_checkpoint_path s = ""%string /\ im_barrier_milestone s = Milestone.VERIFICATION_COMPLETE.

Section progress.
Context {W : Type} {Ops : CutoverOps W} (I : W -> Prop) (cand : Candidate) (gb : GatewayBootId) (Hcoop : Cooperative Ops I cand gb).
Notation R := (Run W).

(** The run may go on unattended, with the gateway it has, in a world the adapter works in. *)
Definition on_course (r : R) : Prop := unattended (run_impl r) /\ im_gateway_boot (run_impl r) = gb /\ I (run_world r).
Definition Completes (r : R) (x : result AttemptResult) : Prop :=
  I (run_world r) /\
  exists ar, x = Ok ar /\ ar_state ar = AttemptState.COMPLETED /\ ar_recovery_verified ar = true /\ ar_detail ar = ""%string.

Lemma wp_unattended_milestone s0 m a rt (k : ST R AttemptResult) (r : R) :
  m <> Milestone.VERIFICATION_COMPLETE -> Same s0 (run_impl r) -> on_course r ->
  (forall r', Same s0 (run_impl r') -> on_course r' -> wp k r' Completes) ->
  wp (at_milestone m a rt k) r Completes.
Proof.
  intros Hm Hs ([Hp Hb] & Hg & Hi) Hk. unfold at_milestone, checkpoint. alone. apply wp_bind, wp_bind. unfold wp at 1, locked. simpl.
  apply wp_bind, wp_gets, wp_bind. simpl. rewrite Hp. simpl. apply wp_ret, wp_gets. simpl.
  rewrite Hb, bool_decide_eq_false_2 by congruence. apply Hk; [by apply record_txn_same | done].
Qed.

(** A call that is answered. *)
Lemma wp_cooperative {A B} (f : W -> W * result A) (p : A -> bool) (k : A -> ST R B) (r : R) (Q : R -> result B -> Prop) :
  (exists w' x, f (run_world r) = (w', Ok x) /\ I w' /\ p x = true) ->
  (forall w' x, I w' -> p x = true -> wp (k x) (mkRun (run_impl r) (run_fs r) w') Q) -> wp (external f ≫= k) r Q.
Proof. intros (w' & x & E & Hi & Hp) H. apply wp_external; rewrite E; [done |]. intros ? ? [= <- <-]. by apply H. Qed.

Lemma promote_completes s0 a t0 (r : R) :
  Same s0 (run_impl r) -> on_course r -> at_old a = slot_current s0 (at_slot a) -> at_selected a = cand ->
  ar_committed_assignment (at_result a) = None -> ar_detail (at_result a) = ""%string -> wp (promote t0 a) r Completes.
Proof.
  intros Hs5 Hu5 Hold Hsel Hc Hd. unfold promote. alone. apply wp_bind, wp_gets. rewrite Hsel.
  apply (wp_cooperative _ ao_acknowledged); [apply Hcoop, Hu5 |]. intros w6 ao Hi6 Hao.
  unfold unless_done at 1. alone. apply wp_bind. unfold wp at 1, locked, activate_section. rewrite Hao. cbn [negb fst snd run_impl].
  eapply wp_unattended_milestone; [done | exact Hs5 | by destruct Hu5 as (? & ? & _) |]. intros r8 Hs8 Hu8.
  apply wp_bind, wp_gets. rewrite (proj1 (proj2 Hu8)). apply (wp_cooperative _ rto_acknowledged); [apply Hcoop, Hu8 |]. intros w9 ro Hi9 Hro.
  unfold unless_done at 1. alone. apply wp_bind. unfold wp at 1, locked. set (re := route_for _ _).
  match goal with |- context [route_section ?a ?re ?ro ?s] =>
    pose proof (route_section_spec s0 a re ro s) as H10 end.
  unfold route_section in *. rewrite Hro in *. cbn [negb fst snd run_impl] in *.
  specialize (H10 _ _ Hs8 Hc eq_refl). simpl in H10. destruct H10 as (Hs10 & _).
  eapply wp_unattended_milestone; [done | exact Hs10 | by destruct Hu8 as (? & ? & _) |]. intros r11 Hs11 Hu11.
  apply (wp_cooperative _ vo_verified); [apply Hcoop, Hu11 |]. intros w12 vo Hi12 Hvo.
  apply wp_bind, wp_gets. apply wp_bind. unfold wp at 1, locked. cbn [run_impl run_world run_fs].
  set (a' := advance _ _ _). change (at_old a) with (at_old a') in Hold.
  destruct (verify_section_cases a' vo (clock_now w12) (run_impl r11) (same_wf _ _ Hs11))
    as [[H _] | [(_ & (o & c & Ho & Hcur & Hne) & _) | (_ & _ & s' & _ & ->)]].
  - congruence.
  - exfalso. apply Hne. rewrite (same_current _ _ _ Hs11) in Hcur. change (at_slot a') with (at_slot a) in Hcur.
    rewrite <- Hold, Ho in Hcur. by simplify_eq.
  - cbn [fst snd]. rewrite bool_decide_eq_true_2 by done. apply wp_bind, wp_gets, wp_ret. split; [done |]. by eexists.
Qed.

Lemma fence_call_cooperates a (r : R) :
  I (run_world r) ->
  exists fo r', fence_call a r = (r', Ok fo) /\ run_impl r' = run_impl r /\ I (run_world r') /\
    fo_applied fo = true /\ fo_fencing_unproven fo = false.
Proof.
  intros Hi. unfold fence_call. destruct (at_old a) as [o |]; [| by eexists _, r]. unfold external.
  destruct (coop_fence _ _ _ _ Hcoop o (cf_worker_boot (cand_facts (at_selected a))) (run_world r) Hi) as (w' & x & -> & ? & ? & ?).
  by eexists _, (mkRun (run_impl r) (run_fs r) w').
Qed.

Lemma fence_on_course a (r : R) : on_course r -> on_course (mkRun (match at_old a with Some o => add_fenced_boot (asg_worker_boot o) (run_impl r) | None => run_impl r end) (run_fs r) (run_world r)).
Proof. intros ([Hp Hb] & Hg & Hi). destruct (at_old a); [| done]. unfold on_course, unattended, add_fenced_boot. cbn. by destruct (_ && _). Qed.

Lemma cooperative_completes plan (r : R) s1 a :
  impl_wf (run_impl r) -> on_course r -> prepare plan (run_impl r) = (s1, Ok (inr a)) -> at_selected a = cand ->
  wp (execute_plan plan) r Completes.
Proof.
  intros Hwf ([Hp Hb] & Hg & Hi) E Hsel. destruct (prepare_cases plan (run_impl r)) as (s0 & Hs0 & H). rewrite E in H.
  destruct H as (Hs1 & Hok & Hslot & Hold & _ & Hc & Hd & _).
  destruct (prepare_same _ _ _ _ Hwf E) as (Hsame1 & Hp1 & Hb1 & Hg1).
  unfold execute_plan, run_plan, unless_done at 1. alone. apply wp_bind. unfold wp at 1, locked_st. rewrite E. cbn [fst snd].
  eapply wp_unattended_milestone; [done | exact Hsame1 | split_and!; [split | |]; cbn; congruence |]. intros r2 Hs2 Hu2.
  apply wp_bind, wp_gets. apply wp_bind. destruct (fence_call_cooperates a r2) as (fo & r3 & E3 & H3 & Hi3 & Hfo & Hfu); [apply Hu2 |].
  unfold wp at 1. rewrite E3. cbn [fst snd]. unfold unless_done at 1. alone. apply wp_bind. unfold wp at 1, locked.
  rewrite H3. pose proof (fence_section_spec (run_impl r) a fo (run_impl r2)) as H4.
  unfold fence_section in *. rewrite Hfo, Hfu in *. simpl in H4. cbn [negb fst snd].
  specialize (H4 _ _ Hs2 Hc eq_refl). simpl in H4. destruct H4 as (Hs4 & _).
  eapply wp_unattended_milestone; [done | exact Hs4 | |].
  - destruct Hu2 as (Hu & Hg2 & _). assert (on_course r3) as Hon by (unfold on_course; by rewrite H3).
    apply (fence_on_course a) in Hon. rewrite H3 in Hon. exact Hon.
  - intros r5 Hs5 Hu5. eapply promote_completes; [exact Hs5 | done | | done | done | done]. simpl. by rewrite Hslot.
Qed.
End progress.

(** C9: Progress: when the plan still passes its revalidation, no barrier and no
    checkpoint file is configured and the adapter does what it is asked, the cutover
    runs to its end and reports COMPLETED, with the recovery verified. *)
Theorem cutover_completes {W} {Ops : CutoverOps W} (I : W -> Prop) (plan : FailoverPlan) (r : Run W) (s1 : Impl) (a : Attempt) :
  Cooperative Ops I (at_selected a) (im_gateway_boot (run_impl r)) -> I (run_world r) ->
  impl_wf (run_impl r) -> unattended (run_impl r) ->
  prepare plan (run_impl r) = (s1, Ok (inr a)) ->
  exists r' ar, execute_plan plan r = (r', Ok ar) /\ ar_state ar = AttemptState.COMPLETED /\ ar_recovery_verified ar = true.
Proof.
  intros Hcoop Hi Hwf Hun E.
  destruct (cooperative_completes I _ _ Hcoop plan r s1 a Hwf (conj Hun (conj eq_refl Hi)) E eq_refl) as (_ & ar & Hx & Hst & Hv & _).
  exists (execute_plan plan r).1, ar. split; [| done]. rewrite <- Hx. by destruct (execute_plan plan r).
Qed.

(** * Failback *)

Lemma plan_failover_pref_slot k pref s p : (plan_failover_pref k pref s).2 = Ok (Some p) -> pl_slot p = k.
Proof.
  unfold plan_failover_pref. destruct (service_for_slot s k) as [svc |]; [| done].
    unfold mbind, st_bind. destruct (snapshot_locked k s) as [s1 [snap | e]]; [| done]. cbn [get].
    destruct (sel_selected _) as [c |]; [| done]. unfold lift.
    destruct (gen_next (im_plan_gen_counter s1)) as [g |]; [| done]. destruct (requested_route s1 k); [| done].
    intros [= <-]. done.
Qed.

Lemma plan_failover_pref_same k pref s0 s :
  Same s0 s -> Same s0 (plan_failover_pref k pref s).1 /\
  (forall p, (plan_failover_pref k pref s).2 = Ok (Some p) -> pl_slot p = k).
Proof.
  intros H. split.
  - eapply same_trans; [exact H |].
    destruct (plan_failover_pref_state k pref s) as [-> | ->]; [apply same_refl, H |].
    assert (impl_wf (snapshot_locked k s).1) as Hwf by (apply snapshot_locked_wf, H).
    unfold snapshot_locked in *. destruct (gen_next _); simpl in *; split; try done; by intros b.
  - intros p. apply plan_failover_pref_slot.
Qed.

Lemma settle_failback_slots k ar now s :
  im_slots (settle_failback k ar now s) = im_slots s /\ im_slot_index (settle_failback k ar now s) = im_slot_index s /\
  im_fenced_boots (settle_failback k ar now s) = im_fenced_boots s.
Proof. unfold settle_failback. by case_bool_decide. Qed.

(** How a failback of slot [k] that started in [s0] may end. *)
Definition FailbackOutcome {W} (s0 : Impl) (k : ServiceSlotKey) (r : Run W) (x : result AttemptResult) : Prop :=
  impl_wf (run_impl r) /\ fences_kept s0 (run_impl r) /\
  ((forall k', slot_current (run_impl r) k' = slot_current s0 k') \/
   exists ar, x = Ok ar /\ ar_state ar = AttemptState.COMPLETED /\
     (forall k', k' <> k -> slot_current (run_impl r) k' = slot_current s0 k') /\
     im_failback_attempts (run_impl r) !! k = Some 0).

Lemma same_failback {W} s0 k (r : Run W) x : Same s0 (run_impl r) -> FailbackOutcome s0 k r x.
Proof. intros H. split; [apply H |]. split; [apply H |]. left. intros k'. by apply same_current. Qed.

Lemma execute_failback_outcome {W} `{Ops : CutoverOps W} k r :
  impl_wf (run_impl r) -> wp (execute_failback k) r (FailbackOutcome (run_impl r) k).
Proof.
  intros Hwf. set (s0 := run_impl r). assert (Same s0 (run_impl r)) as Hs by by apply same_refl.
  unfold execute_failback, failback_run. alone. apply wp_bind, wp_gets. apply wp_bind, wp_gets. apply wp_bind, wp_gets.
  destruct (negb _); [by apply wp_ret, same_failback |].
  apply wp_bind, wp_gets. destruct (im_preferred (run_impl r) !! k) as [pref |]; [| by apply wp_ret, same_failback].
  apply wp_bind. unfold wp at 1, locked_st.
  destruct (plan_failover_pref_same k (Some pref) s0 _ Hs) as [Hs1 Hk].
  destruct (plan_failover_pref k (Some pref) (run_impl r)) as [s1 [[p |] | e]]; simpl in *;
    [| by apply wp_ret, same_failback | by apply same_failback].
  specialize (Hk p eq_refl). destruct (pl_selected p); [| by apply wp_ret, same_failback].
  apply wp_bind. set (r1 := mkRun s1 (run_fs r) (run_world r)).
  pose proof (execute_plan_outcome p r1 (same_wf _ _ Hs1)) as Hout. rewrite Hk in Hout. unfold wp in *.
  change (run_plan p) with (execute_plan p). destruct (execute_plan p r1) as [r2 [ar | e]]; simpl in *; [| by eapply same_failback, same_trans].
  destruct (settle_failback_slots k ar (clock_now (run_world r2)) (run_impl r2)) as (E1 & E2 & E3).
  assert (forall k', slot_current (settle_failback k ar (clock_now (run_world r2)) (run_impl r2)) k' =
            slot_current (run_impl r2) k') as Hc by (intros k'; by apply slot_current_ext).
  unfold FailbackOutcome. simpl. unfold fences_kept. rewrite E3.
  destruct Hout as [(Hne & _ & Hs2) | (Hst & Hwf2 & Hf & n & _ & _ & _ & Hcur & _)].
  - pose proof (same_trans _ _ _ Hs1 Hs2) as Hs3. split; [apply settle_failback_wf, Hs3 |].
    split; [apply Hs3 |]. left. intros k'. rewrite Hc. by apply same_current.
  - split; [by apply settle_failback_wf |]. split; [intros b Hb; by apply Hf, (same_fences _ _ Hs1) |]. right.
    exists ar. split_and!; [done | done | |].
    + intros k' Hk'. rewrite Hc, Hcur, decide_False by done. by apply same_current.
    + unfold settle_failback. rewrite bool_decide_true by done. apply lookup_insert_eq.
Qed.

(** C31: A failback moves a slot only with permission and only as a completed cutover.
    [execute_failback] that is not authorized calls no adapter operation, writes no
    file, leaves the coordinator as it was and returns FAILED.  Whatever the adapter
    answers, it keeps the invariant and every fence, and if any slot's current
    assignment changed then the return was authorized, the slot is the one asked
    for, the attempt COMPLETED and the attempt budget is reset. *)
Theorem failback_moves_only_when_authorized {W} `{Ops : CutoverOps W} (r : Run W) (k : ServiceSlotKey) :
  impl_wf (run_impl r) ->
  let s := run_impl r in
  let t := clock_now (run_world r) in
  let r' := (execute_failback k r).1 in
  let s' := run_impl r' in
  (fd_authorized (evaluate_failback t t s k) = false ->
     r' = r /\ exists ar, (execute_failback k r).2 = Ok ar /\ ar_state ar = AttemptState.FAILED) /\
  impl_wf s' /\ fences_kept s s' /\
  (forall k', slot_current s' k' <> slot_current s k' ->
     fd_authorized (evaluate_failback t t s k) = true /\ k' = k /\ im_failback_attempts s' !! k = Some 0 /\
     exists ar, (execute_failback k r).2 = Ok ar /\ ar_state ar = AttemptState.COMPLETED).
Proof.
  intros Hwf s t r' s'.
  assert (fd_authorized (evaluate_failback t t s k) = false ->
     r' = r /\ exists ar, (execute_failback k r).2 = Ok ar /\ ar_state ar = AttemptState.FAILED) as Hno.
  { intros Hd. unfold r', execute_failback, failback_run, now, gets, mbind, st_bind. alone. simpl. fold s t. rewrite Hd. simpl.
    split; [done | by eexists]. }
  destruct (execute_failback_outcome k r Hwf) as (Hwf' & Hf & Hmove). split_and!; [done | done | done |].
  intros k' Hk'. destruct Hmove as [H | (ar & Har & Hst & Hother & Hz)]; [by destruct Hk' |].
  destruct (fd_authorized (evaluate_failback t t s k)) eqn:Ed.
  - split_and!; [done | | done | by exists ar]. destruct (decide (k' = k)) as [| Hne]; [done |]. by destruct Hk'; apply Hother.
  - destruct (Hno eq_refl) as [E _]. destruct Hk'. unfold s'. by rewrite E.
Qed.

(** * Witnesses *)

Module CutoverWitness.
(** An adapter over a one-point world that succeeds at every call. *)
#[export] Instance ops : CutoverOps unit := {|
  fence_old _ _ w := (w, Ok Scenario.applied);
  activate _ _ _ w := (w, Ok (mkActivateOutcome true "" ""));
  ops_install_route re _ w := (w, Ok (mkRouteOutcome true (re_route re) (re_generation re) ""));
  verify _ _ w := (w, Ok (mkVerifyOutcome true "" false ""));
  clock_now _ := 0;
  save_io _ := mkSaveIo true None true |}.
Definition run : Run unit := mkRun Scenario.failed ∅ tt.

Lemma cooperative c gb : Cooperative ops (fun _ => True) c gb.
Proof. split; intros; by eexists _, _. Qed.
End CutoverWitness.

Lemma cutover_all_or_nothing_witness :
  impl_wf (run_impl CutoverWitness.run) /\
  impl_wf (run_impl (execute_plan (Ops := CutoverWitness.ops) Scenario.plan CutoverWitness.run).1).
Proof.
  assert (H : impl_wf (run_impl CutoverWitness.run)) by exact Scenario.failed_wf.
  split; [exact H |]. exact (proj1 (cutover_all_or_nothing (Ops := CutoverWitness.ops) Scenario.plan CutoverWitness.run H)).
Defined.

Lemma cutover_completes_witness :
  exists r' ar, execute_plan (Ops := CutoverWitness.ops) Scenario.plan CutoverWitness.run = (r', Ok ar) /\
    ar_state ar = AttemptState.COMPLETED /\ ar_recovery_verified ar = true.
Proof.
  apply (cutover_completes (fun _ => True) Scenario.plan CutoverWitness.run Scenario.prepared Scenario.attempt (CutoverWitness.cooperative _ _)).
  - exact Logic.I.
  - exact Scenario.failed_wf.
  - split; vm_compute; reflexivity.
  - exact Scenario.attempt_prepared.
Defined.

Lemma failback_moves_only_when_authorized_witness :
  impl_wf Scenario.failed /\
  fd_authorized (evaluate_failback 0 0 Scenario.failed Scenario.slot) = false /\
  (execute_failback (Ops := CutoverWitness.ops) Scenario.slot CutoverWitness.run).1 = CutoverWitness.run.
Proof.
  assert (H : fd_authorized (evaluate_failback 0 0 Scenario.failed Scenario.slot) = false) by (vm_compute; reflexivity).
  split; [exact Scenario.failed_wf |]. split; [exact H |].
  exact (proj1 (proj1 (failback_moves_only_when_authorized (Ops := CutoverWitness.ops) CutoverWitness.run Scenario.slot
           Scenario.failed_wf) H)).
Defined.

Lemma failback_budget_enforced_witness :
  let failed_once := attempt_result_default <| ar_state := AttemptState.FAILED |> in
  let s := Nat.iter 2 (settle_failback Scenario.slot failed_once 0) Scenario.failed in
  im_failback_attempts s !! Scenario.slot = Some 2 /\
  fd_authorized (evaluate_failback 900000000000 900000000000 (settle_failback Scenario.slot failed_once 0 s) Scenario.slot) = false.
Proof.
  intros failed_once s. assert (H : im_failback_attempts s !! Scenario.slot = Some 2) by (vm_compute; reflexivity).
  split; [exact H |].
  apply (failback_budget_enforced s Scenario.slot failed_once 0 900000000000 900000000000
           (service_default <| svc_service := mkId 1 |> <| svc_failback := FailbackPolicy.RETURN_AFTER_VALIDATION |>) 2).
  - vm_compute. reflexivity.
  - exact H.
  - lia.
  - vm_compute. discriminate.
  - discriminate.
Defined.
