(* ===== verification/Restart.v ===== *)
(** Restart (fabric.cpp: [load], lines 919-968): rebuilding the coordinator from a
    decoded snapshot, marking every route for revalidation, distrusting every
    readiness report and reconciling an interrupted cutover. *)

From stdpp Require Import base list gmap strings.
From Stdlib Require Import ZArith Lia.
From S2P Require Import Prelude Identities Types Double StableSort Bytes Model Codec Domains Evidence Routes.
From S2P Require Import Requests Recovery Selection Persistence Fabric Cutover Failback Invariant System.

Open Scope Z_scope.

(** [for (si ...) service_index[services[si].service] = si]. *)
Fixpoint index_services (i : nat) (l : list ServiceDefinition) (m : gmap ServiceId nat) : gmap ServiceId nat :=
  match l with
  | [] => m
  | d :: l' => index_services (S i) l' (<[ svc_service d := i ]> m)
  end.

(** The loop over the assignments: an ACTIVE one becomes current, any other history. *)
Definition load_assignment (s : Impl) (a : Assignment) : Impl :=
  let s := match find_slot s (asg_slot a) with None => push_slot (asg_slot a) s | Some _ => s end in
  match im_slot_index s !! asg_slot a with
  | Some i => write_slot i (fun st => if is_active a then st <| ss_current := Some a |>
                                      else st <| ss_history := ss_history st ++ [a] |>) s
  | None => s
  end.

Definition distrust (t : TargetRecord) : TargetRecord :=
  t <| tr_facts := (fun f => f <| cf_ready := false |> <| cf_evidence_fresh := false |>) <$> tr_facts t |>.

(** The reconciliation of one slot (lines 958-964). *)
Definition reconcile_assignment (fenced : WorkerBootId -> bool) (pending : bool) (a : Assignment) : Assignment :=
  if is_active a && (fenced (asg_worker_boot a) || pending)
  then a <| asg_state := AssignmentState.REVALIDATION_REQUIRED |> else a.
Definition reconcile_slot (fenced : WorkerBootId -> bool) (pending : bool) (st : SlotState) : SlotState :=
  st <| ss_current := reconcile_assignment fenced pending <$> ss_current st |>.

Definition reconcile (s : Impl) : Impl :=
  if has_incomplete_cutover s
  then s <| im_slots := reconcile_slot (boot_fenced s) (bool_decide (im_pending_assignment s <> None)) <$> im_slots s |>
  else s.

(** Lines 922-932: the fields copied or cleared before the loops. *)
Definition reset_from (snap : PersistenceSnapshot) (s : Impl) : Impl :=
  s <| im_services := ps_services snap |> <| im_service_index := index_services 0 (ps_services snap) ∅ |>
    <| im_epoch := ps_epoch snap |> <| im_policy_gen := ps_policy_generation snap |>
    <| im_last_authority_gen := ps_last_authority_gen snap |> <| im_fenced_boots := ps_fenced_boots snap |>
    <| im_slots := [] |> <| im_slot_index := ∅ |> <| im_target_index := ∅ |> <| im_targets_by_service := ∅ |>.

Definition load_domains (snap : PersistenceSnapshot) : DomainRegistry :=
  foldl (fun r m => registry_set_membership m r)
    (foldl (fun r d => declare d r) registry_empty (ps_domains snap)) (ps_memberships snap).
Definition load_evidence (snap : PersistenceSnapshot) : EvidenceStore :=
  foldl (fun st e => (publish e st).1) evidence_empty (ps_evidence snap).
Definition load_routes (snap : PersistenceSnapshot) : RouteTable :=
  mark_revalidation_required (foldl (fun t r => (install r t).1) routes_empty (ps_routes snap)).

(** [load] after the file has been read and decoded. *)
Definition load_snapshot (snap : PersistenceSnapshot) (s : Impl) : Impl :=
  let s := foldl load_assignment (reset_from snap s) (ps_assignments snap) in
  let s := s <| im_domains := load_domains snap |> <| im_evidence := load_evidence snap |>
             <| im_routes := load_routes snap |> <| im_targets := distrust <$> im_targets s |>
             <| im_has_txn := ps_has_txn snap |> <| im_txn_milestone := ps_txn_milestone snap |>
             <| im_pending_assignment := ps_pending_assignment snap |>
             <| im_source_assignment := ps_source_assignment snap |>
             <| im_pending_route := ps_pending_route snap |> in
  reconcile s.

(** [FailoverFabric::load]: nothing is touched when the file does not decode. *)
Definition load `{EvalOrder} (path : string) (fs : FileSystem) : ST Impl unit := fun s =>
  match load_file path fs with
  | Throw e => (s, Throw e)
  | Ok snap => (load_snapshot snap s, Ok tt)
  end.

(** * Lemmas *)

Lemma index_services_lookup i l m id j :
  NoDup (svc_service <$> l) ->
  index_services i l m !! id = Some j <->
  (exists d n, l !! n = Some d /\ svc_service d = id /\ j = (i + n)%nat) \/
  (m !! id = Some j /\ id ∉ svc_service <$> l).
Proof.
  revert i m. induction l as [| d l IH]; intros i m; simpl.
  { intros _. split; [intros; right; split; [done | apply not_elem_of_nil] |].
    intros [(d & n & Hd & _) | [? _]]; [by rewrite lookup_nil in Hd | done]. }
  intros [Hd Hnd]%NoDup_cons. rewrite (IH (S i) _ Hnd), lookup_insert, not_elem_of_cons. split.
  - intros [(e & n & He & Hid & ->) | [Hm Hn]].
    + left. exists e, (S n). split; [done |]. split; [done | lia].
    + case_decide as Hk; [| by right]. left. injection Hm as <-. exists d, O. split; [done |]. split; [done | lia].
  - intros [(e & [| n] & He & Hid & ->) | (Hm & Hne & Hn)].
    + right. injection He as <-. rewrite decide_True by done. split; [f_equal; lia | by rewrite <- Hid].
    + left. exists e, n. split; [done |]. split; [done | lia].
    + right. rewrite decide_False by congruence. done.
Qed.

Lemma index_services_wf l : NoDup (svc_service <$> l) -> services_wf (index_services 0 l ∅) l.
Proof.
  intros Hnd id i. rewrite (index_services_lookup _ _ _ _ _ Hnd). split.
  - intros [(d & n & Hd & Hid & ->) | [He _]]; [by exists d | by rewrite lookup_empty in He].
  - intros (d & Hd & Hid). left. by exists d, i.
Qed.

(** The slots of the state while the assignments are loaded. *)
Lemma load_assignment_wf s a : impl_wf s -> impl_wf (load_assignment s a).
Proof.
  intros Hwf. unfold load_assignment.
  set (s1 := match find_slot s (asg_slot a) with None => push_slot (asg_slot a) s | Some _ => s end).
  assert (impl_wf s1) as Hwf1 by (unfold s1; destruct (find_slot _ _); [done | by apply push_slot_wf]).
  clearbody s1. destruct (im_slot_index s1 !! asg_slot a) as [i |] eqn:Ei; [| done].
  apply write_slot_wf; [done |]. intros st Hst [Hc Hh].
  destruct (proj1 (wf_slots s1 Hwf1) _ _ Ei) as (st' & Hst' & Hk). rewrite Hst in Hst'. injection Hst' as <-.
  unfold is_active. case_bool_decide as Ha; (split; [done |]); split; simpl; try done.
  - intros a' [= <-]. split; [done | by left].
  - apply Forall_app. split; [done | by constructor].
Qed.

Lemma load_assignment_current s a k :
  impl_wf s ->
  slot_current (load_assignment s a) k =
  if is_active a && (asg_slot a =k k) then Some a else slot_current s k.
Proof.
  intros Hwf. unfold load_assignment.
  set (s1 := match find_slot s (asg_slot a) with None => push_slot (asg_slot a) s | Some _ => s end).
  assert (impl_wf s1 /\ forall k, slot_current s1 k = slot_current s k) as [Hwf1 Hs1].
  { unfold s1. destruct (find_slot s (asg_slot a)) eqn:E; [done |].
    split; [by apply push_slot_wf |]. intros k'. by apply slot_current_push. }
  assert (exists i, im_slot_index s1 !! asg_slot a = Some i) as [i Hi].
  { unfold s1. destruct (find_slot s (asg_slot a)) eqn:E; [| exists (length (im_slots s)); simpl; apply lookup_insert_eq].
    unfold find_slot, find_slot_pos in E. destruct (im_slot_index s !! asg_slot a) as [i |]; [by exists i | done]. }
  clearbody s1. rewrite Hi, (slot_current_write _ _ _ _ _ Hwf1 Hi), <- Hs1.
  destruct (proj1 (wf_slots s1 Hwf1) _ _ Hi) as (st & Hst & _).
  assert (find_slot s1 (asg_slot a) = Some st) as Hf by (unfold find_slot, find_slot_pos; rewrite Hi; simpl; by rewrite Hst).
  case_decide as Hk.
  - subst k. rewrite slotkey_eqb_refl, andb_true_r, Hf. simpl. unfold slot_current. rewrite Hf. simpl.
    by destruct (is_active a).
  - assert ((asg_slot a =k k) = false) as -> by (apply slotkey_eqb_neq; congruence). by rewrite andb_false_r.
Qed.

Lemma load_assignments_wf l s : impl_wf s -> impl_wf (foldl load_assignment s l).
Proof. revert s. induction l as [| a l IH]; intros s Hwf; [done |]. by apply IH, load_assignment_wf. Qed.

(** Loading makes exactly the ACTIVE assignments current, given one per slot. *)
Lemma load_assignments_current l s k a :
  impl_wf s -> NoDup (asg_slot <$> List.filter is_active l) ->
  slot_current (foldl load_assignment s l) k = Some a <->
  (a ∈ l /\ asg_slot a = k /\ asg_state a = AssignmentState.ACTIVE) \/
  (slot_current s k = Some a /\ k ∉ asg_slot <$> List.filter is_active l).
Proof.
  revert s. induction l as [| b l IH]; intros s Hwf Hnd.
  { simpl. split; [intros; right; split; [done | apply not_elem_of_nil] |].
    intros [(Ha & _) | [? _]]; [by apply elem_of_nil in Ha | done]. }
  assert (NoDup (asg_slot <$> List.filter is_active l)) as Hnd'.
  { simpl in Hnd. destruct (is_active b); [by apply NoDup_cons in Hnd as [_ ?] | done]. }
  assert (is_active b = true <-> asg_state b = AssignmentState.ACTIVE) as Hact by apply bool_decide_eq_true.
  cbn [foldl]. rewrite (IH _ (load_assignment_wf _ _ Hwf) Hnd'), load_assignment_current by done.
  rewrite elem_of_cons. cbn [List.filter] in Hnd |- *.
  destruct (is_active b) eqn:Eb; simpl in *.
  - apply NoDup_cons in Hnd as [Hb _]. rewrite not_elem_of_cons.
    destruct (asg_slot b =k k) eqn:Ek.
    + apply slotkey_eqb_eq in Ek. subst k. split.
      * intros [(Ha & Hs & Hst) | [[= <-] _]]; left; [split; [by right | done] |].
        split; [by left |]. split; [done | by apply Hact].
      * intros [([-> | Ha] & Hs & Hst) | (_ & Hne & _)]; [by right | by left | done].
    + apply slotkey_eqb_neq in Ek. split.
      * intros [(Ha & Hs & Hst) | [Hc Hn]]; [left; split; [by right | done] |]. right. split; [done |]. split; [congruence | done].
      * intros [([-> | Ha] & Hs & Hst) | (Hc & Hne & Hn)]; [congruence | by left | by right].
  - split.
    + intros [(Ha & Hs & Hst) | [Hc Hn]]; [left; split; [by right | done] | by right].
    + intros [([-> | Ha] & Hs & Hst) | [Hc Hn]]; [apply Hact in Hst; done | by left | by right].
Qed.

(** The interrupted-cutover test of [load], on the snapshot. *)
Definition incomplete (snap : PersistenceSnapshot) : bool :=
  ps_has_txn snap && milestone_ltb (ps_txn_milestone snap) Milestone.VERIFICATION_COMPLETE.

(** What the reconciliation makes of an assignment of the snapshot. *)
Definition reconciled (snap : PersistenceSnapshot) (a : Assignment) : Assignment :=
  if incomplete snap
  then reconcile_assignment (fun b => mem id_eqb b (ps_fenced_boots snap))
         (bool_decide (ps_pending_assignment snap <> None)) a
  else a.

Lemma foldl_inv {A B} (P : A -> Prop) (f : A -> B -> A) (l : list B) (a : A) :
  (forall a b, P a -> P (f a b)) -> P a -> P (foldl f a l).
Proof. intros Hf. revert a. induction l as [| b l IH]; intros a Ha; simpl; auto. Qed.

Lemma load_domains_wf snap : registry_wf (load_domains snap).
Proof.
  unfold load_domains. apply foldl_inv; [intros; by apply set_membership_wf |].
  apply foldl_inv; [intros; by apply declare_wf |]. constructor; [apply NoDup_nil_2 | apply not_elem_of_nil | apply NoDup_nil_2].
Qed.
Lemma load_evidence_wf snap : evidence_wf (load_evidence snap).
Proof. unfold load_evidence. apply foldl_inv; [intros; by apply publish_wf | apply evidence_empty_wf]. Qed.
Lemma load_routes_wf snap : routes_wf (load_routes snap).
Proof. apply mark_revalidation_wf, foldl_inv; [intros; by apply install_wf | apply routes_empty_wf]. Qed.

Lemma distrust_targets_wf idx by_svc l : targets_wf idx by_svc l -> targets_wf idx by_svc (distrust <$> l).
Proof.
  intros (Hi & Hb & Hok). split; [| split].
  - intros t i (r & Hr & Ht)%Hi. exists (distrust r). by rewrite list_lookup_fmap, Hr.
  - intros k ix i. rewrite length_fmap. apply Hb.
  - apply Forall_fmap. eapply Forall_impl; [exact Hok |]. intros r Hr f. simpl.
    destruct (tr_facts r) as [g |] eqn:E; simpl; [| done]. intros [= <-]. exact (Hr g E).
Qed.

Lemma reset_from_wf snap s : impl_wf s -> NoDup (svc_service <$> ps_services snap) -> impl_wf (reset_from snap s).
Proof.
  intros Hwf Hnd. constructor; simpl; try by destruct Hwf.
  - by apply index_services_wf.
  - split; [intros t i; by rewrite lookup_empty |]. split; [intros k ix i; by rewrite lookup_empty |].
    apply (wf_targets s Hwf).
Qed.

Lemma reconcile_slots_wf idx l f p : slots_wf idx l -> slots_wf idx (reconcile_slot f p <$> l).
Proof.
  intros [Hi Hok]. split.
  - intros k i (st & Hst & Hk)%Hi. exists (reconcile_slot f p st). by rewrite list_lookup_fmap, Hst.
  - apply Forall_fmap. eapply Forall_impl; [exact Hok |]. intros st [Hc Hh]. split; [| done]. simpl.
    destruct (ss_current st) as [a |]; [| done]. intros a' [= <-]. unfold reconcile_assignment.
    destruct (Hc a eq_refl) as [Hs Ha]. case_match; simpl; [split; [done | by right] | done].
Qed.

Lemma reconcile_wf s : impl_wf s -> impl_wf (reconcile s).
Proof.
  intros Hwf. unfold reconcile. destruct (has_incomplete_cutover s); [| done].
  constructor; simpl; try by destruct Hwf. apply reconcile_slots_wf, (wf_slots s Hwf).
Qed.

Lemma load_snapshot_wf snap s :
  impl_wf s -> NoDup (svc_service <$> ps_services snap) -> impl_wf (load_snapshot snap s).
Proof.
  intros Hwf Hnd. apply reconcile_wf.
  destruct (load_assignments_wf (ps_assignments snap) _ (reset_from_wf snap s Hwf Hnd)).
  constructor; simpl; auto using load_domains_wf, load_evidence_wf, load_routes_wf, distrust_targets_wf.
Qed.

Lemma slot_current_reconcile s k :
  slot_current (reconcile s) k =
  if has_incomplete_cutover s
  then reconcile_assignment (boot_fenced s) (bool_decide (im_pending_assignment s <> None)) <$> slot_current s k
  else slot_current s k.
Proof.
  unfold reconcile. destruct (has_incomplete_cutover s); [| done].
  unfold slot_current, find_slot, find_slot_pos. simpl.
  destruct (im_slot_index s !! k) as [i |]; [| done]. simpl. rewrite list_lookup_fmap.
  by destruct (im_slots s !! i) as [st |].
Qed.

Lemma load_assignments_fenced l s : im_fenced_boots (foldl load_assignment s l) = im_fenced_boots s.
Proof.
  revert s. induction l as [| a l IH]; intros s; [done |]. simpl. rewrite IH.
  unfold load_assignment. repeat case_match; done.
Qed.
Lemma load_assignments_epoch l s : im_epoch (foldl load_assignment s l) = im_epoch s.
Proof.
  revert s. induction l as [| a l IH]; intros s; [done |]. simpl. rewrite IH.
  unfold load_assignment. repeat case_match; done.
Qed.
Lemma load_snapshot_fenced snap s : im_fenced_boots (load_snapshot snap s) = ps_fenced_boots snap.
Proof.
  unfold load_snapshot, reconcile. destruct (has_incomplete_cutover _); simpl; by rewrite load_assignments_fenced.
Qed.
Lemma load_snapshot_epoch snap s : im_epoch (load_snapshot snap s) = ps_epoch snap.
Proof.
  unfold load_snapshot, reconcile. destruct (has_incomplete_cutover _); simpl; by rewrite load_assignments_epoch.
Qed.
Lemma load_snapshot_routes snap s : im_routes (load_snapshot snap s) = load_routes snap.
Proof. unfold load_snapshot, reconcile. by destruct (has_incomplete_cutover _). Qed.

(** The current assignments of the restarted coordinator. *)
Lemma load_snapshot_current snap s k a :
  impl_wf s -> NoDup (svc_service <$> ps_services snap) ->
  NoDup (asg_slot <$> List.filter is_active (ps_assignments snap)) ->
  slot_current (load_snapshot snap s) k = Some a <->
  exists b, b ∈ ps_assignments snap /\ asg_slot b = k /\ asg_state b = AssignmentState.ACTIVE /\ a = reconciled snap b.
Proof.
  intros Hwf Hsvc Hact. unfold load_snapshot. rewrite slot_current_reconcile.
  set (s1 := foldl load_assignment (reset_from snap s) (ps_assignments snap)).
  assert (forall b, slot_current s1 k = Some b <->
    b ∈ ps_assignments snap /\ asg_slot b = k /\ asg_state b = AssignmentState.ACTIVE) as Hcur.
  { intros b. unfold s1. rewrite load_assignments_current by (done || by apply reset_from_wf).
    split; [| by left]. intros [? | [Hn _]]; [done |].
    unfold slot_current, find_slot, find_slot_pos in Hn. simpl in Hn. by rewrite lookup_empty in Hn. }
  assert (im_fenced_boots s1 = ps_fenced_boots snap) as Hf by apply load_assignments_fenced.
  match goal with |- context [has_incomplete_cutover ?t] => set (s2 := t) end.
  assert (slot_current s2 k = slot_current s1 k) as -> by done.
  assert (has_incomplete_cutover s2 = incomplete snap) as -> by done.
  assert (boot_fenced s2 = fun b => mem id_eqb b (ps_fenced_boots snap)) as Hb
    by (unfold boot_fenced; change (im_fenced_boots s2) with (im_fenced_boots s1); by rewrite Hf).
  unfold reconciled. change (im_pending_assignment s2) with (ps_pending_assignment snap). rewrite Hb. clear s2 Hb Hf.
  clearbody s1. destruct (incomplete snap).
  - rewrite fmap_Some. setoid_rewrite Hcur. naive_solver.
  - rewrite Hcur. naive_solver.
Qed.

Lemma load_snapshot_scalars snap s :
  im_services (load_snapshot snap s) = ps_services snap /\
  im_policy_gen (load_snapshot snap s) = ps_policy_generation snap /\
  im_last_authority_gen (load_snapshot snap s) = ps_last_authority_gen snap.
Proof.
  assert (forall l s, im_services (foldl load_assignment s l) = im_services s /\
    im_policy_gen (foldl load_assignment s l) = im_policy_gen s /\
    im_last_authority_gen (foldl load_assignment s l) = im_last_authority_gen s) as H.
  { induction l as [| a l IH]; intros s'; [done |]. simpl. destruct (IH (load_assignment s' a)) as (-> & -> & ->).
    unfold load_assignment. repeat case_match; done. }
  destruct (H (ps_assignments snap) (reset_from snap s)) as (H1 & H2 & H3).
  unfold load_snapshot, reconcile. destruct (has_incomplete_cutover _); simpl; by rewrite H1, H2, H3.
Qed.

Lemma load_snapshot_counters snap s :
  im_assignment_counter (load_snapshot snap s) = im_assignment_counter s /\
  im_attempt_counter (load_snapshot snap s) = im_attempt_counter s /\
  im_activation_counter (load_snapshot snap s) = im_activation_counter s.
Proof.
  assert (forall l s, im_assignment_counter (foldl load_assignment s l) = im_assignment_counter s /\
    im_attempt_counter (foldl load_assignment s l) = im_attempt_counter s /\
    im_activation_counter (foldl load_assignment s l) = im_activation_counter s) as H.
  { induction l as [| a l IH]; intros s'; [done |]. simpl. destruct (IH (load_assignment s' a)) as (-> & -> & ->).
    unfold load_assignment. repeat case_match; done. }
  destruct (H (ps_assignments snap) (reset_from snap s)) as (H1 & H2 & H3).
  unfold load_snapshot, reconcile. destruct (has_incomplete_cutover _); simpl; by rewrite H1, H2, H3.
Qed.

Lemma load_snapshot_targets snap s : im_targets (load_snapshot snap s) = distrust <$> im_targets s.
Proof.
  assert (forall l s, im_targets (foldl load_assignment s l) = im_targets s) as H.
  { induction l as [| a l IH]; intros s'; [done |]. simpl. rewrite IH. unfold load_assignment. repeat case_match; done. }
  unfold load_snapshot, reconcile. destruct (has_incomplete_cutover _); simpl; by rewrite H.
Qed.

(** A candidate carries the facts of a registered target. *)
Lemma elem_of_snapshot_candidates s k c :
  c ∈ snapshot_candidates s k -> exists t, t ∈ im_targets s /\ tr_facts t = Some (cand_facts c).
Proof.
  assert (forall t, emit s t = Some c -> tr_facts t = Some (cand_facts c)) as He.
  { intros t. unfold emit. destruct (tr_facts t) as [f |]; [| done]. by intros [= <-]. }
  intros Hc. unfold snapshot_candidates in Hc.
  eapply elem_of_prefix in Hc; [| apply truncate_prefix].
  assert (c ∈ omap (emit s) (List.filter (scan_matches
            match service_for_slot s k with Some d => cr_model_key (svc_compatibility d) | None => ""%string end
            match service_for_slot s k with Some d => cr_runtime_abi (svc_compatibility d) | None => ""%string end)
            (im_targets s)) -> exists t, t ∈ im_targets s /\ tr_facts t = Some (cand_facts c)) as Hscan.
  { intros (t & [Ht _]%list_elem_of_In%filter_In & Hm)%list_elem_of_omap. exists t. split; [by apply list_elem_of_In | auto]. }
  destruct (im_targets_by_service s !! sk_service k) as [[| i ix] |]; [by apply Hscan | | by apply Hscan].
  apply list_elem_of_omap in Hc as (j & _ & Hj). apply bind_Some in Hj as (t & Ht & Hm).
  exists t. split; [by eapply list_elem_of_lookup_2 | auto].
Qed.

(** No failover is planned while no target is ready. *)
Lemma no_plan_without_reports s k pref p :
  (forall t f, t ∈ im_targets s -> tr_facts t = Some f -> cf_ready f = false /\ cf_evidence_fresh f = false) ->
  (plan_failover_pref k pref s).2 <> Ok (Some p).
Proof.
  intros Hd. unfold plan_failover_pref. destruct (service_for_slot s k) as [svc |]; [| done].
  unfold snapshot_locked, mbind, st_bind, get. destruct (gen_next (im_snapshot_counter s)) as [g | e]; [| done].
  set (s1 := s <| im_snapshot_counter := g |>). cbv beta iota zeta.
  match goal with |- context [sel_selected ?r] => destruct (sel_selected r) as [b |] eqn:E; [| done] end. exfalso.
  apply selected_eligible in E as (c & Hc & [_ _ _ Hr _ _ _ _ _ _] & _).
  apply elem_of_snapshot_candidates in Hc as (t & Ht & Hf). destruct (Hd t _ Ht Hf), (Hr eq_refl). congruence.
Qed.

(** The routes a table holds after installing a list: each from the list or there
    before, and one for every slot of the list whose service is not null. *)
Lemma install_find r t k sr :
  route_find (install r t).1 k = Some sr ->
  (slr_current sr = r /\ re_slot r = k /\ sk_service k <> id_null) \/ route_find t k = Some sr.
Proof.
  destruct (install_cases r t) as (_ & Hno & Hok). intros Hf.
  destruct (decide (sk_service (re_slot r) <> id_null)) as [Hs | Hs];
    [| right; rewrite <- Hno; [done | by intros [? _]]].
  destruct (route_find t (re_slot r)) as [s |] eqn:Es.
  - destruct (decide (gen_value (re_generation (slr_current s)) < gen_value (re_generation r) /\
               ep_epoch (re_epoch (slr_current s)) <= ep_epoch (re_epoch r))) as [Hg | Hg].
    + rewrite Hok in Hf by (split; [done | by intros ? [= <-]]). case_decide; [left; subst k; by injection Hf as <- | by right].
    + right. rewrite <- Hno; [done |]. intros [_ H]. by apply Hg, H.
  - rewrite Hok in Hf by (split; [done | by intros ? [=]]). case_decide; [left; subst k; by injection Hf as <- | by right].
Qed.

Lemma install_all_current l t k sr :
  route_find (foldl (fun t r => (install r t).1) t l) k = Some sr ->
  (slr_current sr ∈ l /\ re_slot (slr_current sr) = k /\ sk_service k <> id_null) \/ route_find t k = Some sr.
Proof.
  revert t. induction l as [| r l IH]; intros t; simpl; [by right |].
  intros [[H1 H2] | H]%IH; [left; split; [by apply list_elem_of_further | done] |].
  apply install_find in H as [(<- & H) | H]; [left; split; [apply list_elem_of_here | done] | by right].
Qed.

Lemma install_all_kept l t k :
  is_Some (route_find t k) -> is_Some (route_find (foldl (fun t r => (install r t).1) t l) k).
Proof.
  revert t. induction l as [| r l IH]; intros t; simpl; [done |]. intros [s Hs]. apply IH.
  destruct (run_op_advances t (OpInstall r) k s Hs) as (s' & Hs' & _). by exists s'.
Qed.

Lemma install_all_total l t r :
  r ∈ l -> sk_service (re_slot r) <> id_null ->
  is_Some (route_find (foldl (fun t r => (install r t).1) t l) (re_slot r)).
Proof.
  intros Hr Hs. revert t. induction Hr as [r l | r x l Hr IH]; intros t; simpl; [| by apply IH].
  apply install_all_kept. destruct (route_find t (re_slot r)) as [s |] eqn:Es.
  - destruct (run_op_advances t (OpInstall r) _ s Es) as (s' & Hs' & _). by exists s'.
  - destruct (install_cases r t) as (_ & _ & Hok). rewrite Hok by (split; [done | intros ?; by rewrite Es]).
    rewrite decide_True by done. by eexists.
Qed.

(** A slot with a route in the snapshot has an unusable route after the restart. *)
Lemma load_routes_unusable snap r :
  Forall (fun r => re_state r <> RouteState.EMPTY) (ps_routes snap) ->
  r ∈ ps_routes snap -> sk_service (re_slot r) <> id_null ->
  exists e, route_current (load_routes snap) (re_slot r) = Some e /\
    (re_state e = RouteState.REVALIDATION_REQUIRED \/ re_state e = RouteState.STALE).
Proof.
  intros Hne Hr Hs. destruct (install_all_total (ps_routes snap) routes_empty r Hr Hs) as [sr Hsr].
  assert (exists e, route_current (load_routes snap) (re_slot r) = Some e) as [e He].
  { unfold route_current, load_routes, mark_revalidation_required.
    rewrite route_find_fmap, Hsr by (intros; apply revalidate_same_position). simpl.
    apply install_all_current in Hsr as [[Hin _] | Hn]; [| done]. rewrite Forall_forall in Hne. apply Hne in Hin.
    unfold state_in, revalidate_entry. rewrite bool_decide_false; [by eexists |].
    destruct (revalidatable _); simpl; intros [H | H%elem_of_nil]%elem_of_cons; done. }
  exists e. split; [done |]. by eapply revalidated_current.
Qed.

(** A slot without a route in the snapshot has none after the restart. *)
Lemma load_routes_none snap k :
  (forall r, r ∈ ps_routes snap -> re_slot r = k -> sk_service k = id_null) -> route_current (load_routes snap) k = None.
Proof.
  intros Hn. unfold route_current, load_routes, mark_revalidation_required.
  rewrite route_find_fmap by (intros; apply revalidate_same_position).
  destruct (route_find _ k) as [sr |] eqn:E; [| done]. apply install_all_current in E as [(Hin & Hk & Hs) | E]; [| done].
  by destruct Hs; eapply Hn.
Qed.

(** Every slot of the vector can be found through the index. *)
Definition slots_indexed (s : Impl) : Prop :=
  forall i st, im_slots s !! i = Some st -> im_slot_index s !! ss_slot st = Some i.

Lemma services_nodup s : impl_wf s -> NoDup (svc_service <$> im_services s).
Proof.
  intros Hwf. apply NoDup_alt. intros i j id. rewrite !list_lookup_fmap.
  intros (d & Hd & ->)%fmap_Some (e & He & Hid)%fmap_Some.
  assert (im_service_index s !! svc_service d = Some i) as H1 by (apply (wf_services s Hwf); eauto).
  assert (im_service_index s !! svc_service d = Some j) as H2 by (apply (wf_services s Hwf); eauto).
  congruence.
Qed.

(** The active assignments [save] writes are the slots' active current ones, in slot
    order. *)
Definition active_of (st : SlotState) : list Assignment :=
  match ss_current st with Some a => if is_active a then [a] else [] | None => [] end.

Lemma saved_active l :
  Forall slot_ok l ->
  List.filter is_active (flat_map (fun st => match ss_current st with Some a => [a] | None => [] end ++ ss_history st) l)
  = flat_map active_of l.
Proof.
  induction 1 as [| st l [Hc Hh] _ IH]; [done |]. cbn [flat_map].
  rewrite List.filter_app, List.filter_app, IH. f_equal.
  replace (List.filter is_active (ss_history st)) with ([] : list Assignment).
  - rewrite app_nil_r. unfold active_of. by destruct (ss_current st).
  - clear -Hh. induction Hh as [| a h Ha _ IHh]; [done |]. simpl. unfold is_active at 1.
    by rewrite bool_decide_false.
Qed.

Lemma elem_of_active_of l a :
  a ∈ flat_map active_of l <->
  exists i st, l !! i = Some st /\ ss_current st = Some a /\ asg_state a = AssignmentState.ACTIVE.
Proof.
  rewrite list_elem_of_In, in_flat_map. split.
  - intros (st & [i Hi]%list_elem_of_In%list_elem_of_lookup & Ha). exists i, st. unfold active_of in Ha.
    destruct (ss_current st) as [b |]; [| done]. unfold is_active in Ha. case_bool_decide; [| done].
    by destruct Ha as [<- | []].
  - intros (i & st & Hi & Hc & Ha). exists st. split; [by apply list_elem_of_In, list_elem_of_lookup; exists i |].
    unfold active_of, is_active. rewrite Hc, bool_decide_true by done. by left.
Qed.

Lemma active_nodup l :
  Forall slot_ok l -> NoDup (ss_slot <$> l) -> NoDup (asg_slot <$> flat_map active_of l).
Proof.
  induction 1 as [| st l Hst Hl IH]; [intros _; apply NoDup_nil_2 |]. intros [Hn Hnd]%NoDup_cons. cbn [flat_map].
  unfold active_of at 1. destruct (ss_current st) as [a |] eqn:Ea; [| by apply IH].
  destruct (is_active a); [| by apply IH]. simpl. apply NoDup_cons. split; [| by apply IH].
  destruct (proj1 Hst a Ea) as [Hs _]. rewrite Hs.
  intros (b & Hk & (i & st' & Hi & Hc & _)%elem_of_active_of)%list_elem_of_fmap. apply Hn.
  rewrite Forall_lookup in Hl. destruct (proj1 (Hl i st' Hi) b Hc) as [Hb _]. rewrite Hk, Hb.
  apply list_elem_of_fmap. exists st'. split; [done | by eapply list_elem_of_lookup_2].
Qed.

Lemma slots_nodup s : slots_indexed s -> NoDup (ss_slot <$> im_slots s).
Proof.
  intros Hidx. apply NoDup_alt. intros i j k. rewrite !list_lookup_fmap.
  intros (d & Hd & ->)%fmap_Some (e & He & Hk)%fmap_Some. apply Hidx in Hd, He. congruence.
Qed.

Lemma elem_of_saved_active s k a :
  impl_wf s -> slots_indexed s ->
  (a ∈ ps_assignments (snapshot_of s) /\ asg_slot a = k /\ asg_state a = AssignmentState.ACTIVE) <->
  slot_current s k = Some a /\ asg_state a = AssignmentState.ACTIVE.
Proof.
  intros Hwf Hidx. destruct (wf_slots s Hwf) as [Hi Hok].
  assert (a ∈ ps_assignments (snapshot_of s) /\ asg_state a = AssignmentState.ACTIVE <->
          a ∈ flat_map active_of (im_slots s)) as Hin.
  { rewrite <- saved_active by done. rewrite !list_elem_of_In, filter_In. unfold is_active. by rewrite bool_decide_eq_true. }
  rewrite elem_of_active_of in Hin. rewrite slot_current_Some. split.
  - intros (Ha & Hk & Hst). destruct (proj1 Hin (conj Ha Hst)) as (i & st & Hi' & Hc & _). split; [| done].
    exists i, st. split; [| done]. apply find_slot_pos_Some. split; [| done].
    rewrite Forall_lookup in Hok. destruct (proj1 (Hok i st Hi') a Hc) as [Hs _].
    rewrite <- Hk, Hs. by apply Hidx.
  - intros [(i & st & [Hx Hst]%find_slot_pos_Some & Hc) Ha].
    destruct (proj2 Hin) as [H1 _]; [by exists i, st |]. split; [done |]. split; [| done].
    destruct (Hi k i Hx) as (st' & Hst' & Hk). rewrite Forall_lookup in Hok.
    destruct (proj1 (Hok i st Hst) a Hc) as [Hs _]. congruence.
Qed.

(** * Theorems *)

#[local] Opaque load_snapshot.

(** What a restored assignment is after the reconciliation. *)
Lemma reconciled_active snap a :
  asg_state a = AssignmentState.ACTIVE ->
  asg_state (reconciled snap a) = AssignmentState.ACTIVE <->
  (incomplete snap = true -> asg_worker_boot a ∉ ps_fenced_boots snap /\ ps_pending_assignment snap = None).
Proof.
  intros Hst. unfold reconciled, reconcile_assignment, is_active. rewrite Hst, bool_decide_true by done.
  destruct (incomplete snap); [cbn [andb] | by split].
  destruct (mem id_eqb (asg_worker_boot a) (ps_fenced_boots snap)) eqn:Em; cbn [orb].
  - apply (mem_true id_eqb id_eqb_eq) in Em. split; [done |]. intros H. by destruct (H eq_refl).
  - assert (asg_worker_boot a ∉ ps_fenced_boots snap) by (by intros Hin%(mem_true id_eqb id_eqb_eq); congruence).
    destruct (ps_pending_assignment snap) as [p |]; simpl; [split; [done | intros Hx; by destruct (Hx eq_refl)] | by split].
Qed.
Lemma reconciled_same snap a : asg_state (reconciled snap a) = AssignmentState.ACTIVE -> reconciled snap a = a.
Proof. unfold reconciled, reconcile_assignment. destruct (incomplete snap); [| done]. by case_match. Qed.

(** C20: The authority right after [load], exactly.  The gate accepts a grant if and only if
    the snapshot has its epoch, an ACTIVE assignment of its slot with its identity,
    generation, route generation and worker boot, that boot is not fenced there, the
    snapshot records no interrupted cutover with a pending replacement, and no route
    for the slot (of a non-null service), since every restored route waits for
    revalidation.  So a restart adds nothing to what was saved; but a saved ACTIVE
    assignment of a slot without a route is authority at once.  The routes of the
    snapshot are taken not to be EMPTY, the state of no route. *)
Theorem restart_authority_exact (snap : PersistenceSnapshot) (s : Impl) (auth : WorkerAuthorization) :
  impl_wf s -> SnapshotValid snap -> Forall (fun r => re_state r <> RouteState.EMPTY) (ps_routes snap) ->
  gd_allowed (authorize_dispatch (load_snapshot snap s) auth) = true <->
  wa_epoch auth = ps_epoch snap /\ wa_worker_boot auth ∉ ps_fenced_boots snap /\
  (incomplete snap = true -> ps_pending_assignment snap = None) /\
  (forall r, r ∈ ps_routes snap -> re_slot r = wa_slot auth -> sk_service (wa_slot auth) = id_null) /\
  exists a, a ∈ ps_assignments snap /\ asg_state a = AssignmentState.ACTIVE /\ asg_slot a = wa_slot auth /\
    asg_id a = wa_assignment auth /\ asg_generation a = wa_assignment_generation auth /\
    asg_route_generation a = wa_route_generation auth /\ asg_worker_boot a = wa_worker_boot auth.
Proof.
  intros Hwf Hv Hne. pose proof (load_snapshot_epoch snap s) as Hep. pose proof (load_snapshot_fenced snap s) as Hfe.
  pose proof (load_snapshot_routes snap s) as Hro.
  pose proof (fun k a => load_snapshot_current snap s k a Hwf (sv_services _ Hv) (sv_exclusive _ Hv)) as Hcu.
  revert Hep Hfe Hro Hcu. generalize (load_snapshot snap s) as s'. intros s' Hep Hfe Hro Hcu.
  unfold authorize_dispatch. rewrite gate_allowed_iff. split.
  - intros [cur [Hc He [Ha Hg] Hrg Hr Hb Hf Hact]]. rewrite Hep in He. rewrite Hfe in Hf. rewrite Hro in Hr.
    apply Hcu in Hc as (a & Hin & Hs & Hst & ->). pose proof (reconciled_same _ _ Hact) as E.
    rewrite (reconciled_active _ _ Hst) in Hact. rewrite E in *. split_and!; [done | done | intros Hi; by apply Hact | |].
    + intros r Hr' Hk. destruct (decide (sk_service (re_slot r) = id_null)) as [H | Hn]; [by rewrite <- Hk |].
      destruct (load_routes_unusable snap r Hne Hr' Hn) as (e & He' & Hu). rewrite Hk in He'.
      destruct (Hr e He'). naive_solver.
    + by exists a.
  - intros (He & Hf & Hi & Hr & a & Hin & Hst & Hk & Ha & Hg & Hrg & Hb).
    assert (reconciled snap a = a) as E.
    { apply reconciled_same, reconciled_active; [done |]. intros H. rewrite Hb. split; [done | by apply Hi]. }
    exists a. split; rewrite ?Hep, ?Hfe, ?Hro; try done.
    + apply Hcu. exists a. by rewrite E.
    + intros rt Hrt. rewrite load_routes_none in Hrt; [done | exact Hr].
Qed.

Lemma interrupted_current snap s k a :
  impl_wf s -> SnapshotValid snap -> incomplete snap = true -> is_Some (ps_pending_assignment snap) ->
  slot_current (load_snapshot snap s) k = Some a <->
  exists b, b ∈ ps_assignments snap /\ asg_slot b = k /\ asg_state b = AssignmentState.ACTIVE /\
    a = b <| asg_state := AssignmentState.REVALIDATION_REQUIRED |>.
Proof.
  intros Hwf Hv Hi [p Hp]. rewrite (load_snapshot_current snap s k a Hwf (sv_services _ Hv) (sv_exclusive _ Hv)).
  assert (forall b, asg_state b = AssignmentState.ACTIVE ->
    reconciled snap b = b <| asg_state := AssignmentState.REVALIDATION_REQUIRED |>) as Hb.
  { intros b Hb. unfold reconciled, reconcile_assignment, is_active. rewrite Hi, Hp, Hb. simpl.
    by rewrite orb_true_r. }
  split; intros (b & ? & ? & Hst & ->); exists b; by rewrite (Hb b Hst).
Qed.

(** C21: A cutover interrupted with a pending replacement leaves no slot in service: after
    the restart the gate refuses every grant; the slots whose assignment was saved as
    ACTIVE report REVALIDATION_REQUIRED, every other slot UNAVAILABLE; and the current
    assignment of a slot is one that was saved as ACTIVE for it, now marked
    REVALIDATION_REQUIRED, so the pending replacement, which is saved apart, is current
    nowhere. *)
Theorem interrupted_cutover_revalidates (snap : PersistenceSnapshot) (s : Impl) :
  impl_wf s -> SnapshotValid snap -> incomplete snap = true -> is_Some (ps_pending_assignment snap) ->
  let s' := load_snapshot snap s in
  (forall auth, gd_allowed (authorize_dispatch s' auth) = false) /\
  (forall k, service_outcome s' k =
     if existsb (fun a => is_active a && (asg_slot a =k k)) (ps_assignments snap)
     then ServiceOutcome.REVALIDATION_REQUIRED else ServiceOutcome.UNAVAILABLE) /\
  (forall k a, slot_current s' k = Some a <->
     exists b, b ∈ ps_assignments snap /\ asg_slot b = k /\ asg_state b = AssignmentState.ACTIVE /\
       a = b <| asg_state := AssignmentState.REVALIDATION_REQUIRED |>).
Proof.
  intros Hwf Hv Hi Hp s'.
  assert (forall k a, slot_current s' k = Some a <-> _) as Hc by exact (fun k a => interrupted_current snap s k a Hwf Hv Hi Hp).
  clearbody s'.
  assert (forall k a, slot_current s' k = Some a -> asg_state a = AssignmentState.REVALIDATION_REQUIRED) as Hr
    by (intros k a (b & _ & _ & _ & ->)%Hc; done).
  split_and!; [| | exact Hc].
  - intros auth. apply not_true_iff_false. intros [cur [Hcur _ _ _ _ _ _ Hact]]%gate_allowed_iff.
    specialize (Hr _ _ Hcur). congruence.
  - intros k. unfold service_outcome. destruct (slot_current s' k) as [a |] eqn:Ea.
    + assert (existsb (fun a => is_active a && (asg_slot a =k k)) (ps_assignments snap) = true) as ->.
      { apply Hc in Ea as (b & Hb & Hk & Hs & _). apply existsb_exists. exists b. split; [by apply list_elem_of_In |].
        unfold is_active. rewrite Hk, slotkey_eqb_refl, bool_decide_true by done. done. }
      rewrite (Hr k a Ea). simpl. by destruct (match _ with Some e => _ | None => _ end).
    + destruct (existsb _ _) eqn:Ex; [| done]. apply existsb_exists in Ex as (b & Hb%list_elem_of_In & [Hs Hk]%andb_prop).
      apply slotkey_eqb_eq in Hk. apply bool_decide_eq_true in Hs.
      assert (is_Some (slot_current s' k)) as [? ?] by (eexists; apply Hc; eauto). congruence.
Qed.

(** C22: What [save] captures, a restart restores.  A coordinator [s0] that loads the
    snapshot of a state [s] all of whose slots are indexed has the services, epoch, policy
    generation, authority generation and fenced boots of [s]; a slot's current
    assignment is the one it had in [s], if that was ACTIVE, as the reconciliation leaves
    it; and in particular the ACTIVE assignments are restored unchanged when no cutover
    was in flight.  A commit on a slot that is not indexed breaks the condition
    ([unindexed_slot_commit_is_lost]), and the counters of assignments, activations and
    attempts are not saved ([load_forgets_counters]). *)
Theorem restart_restores_saved (s s0 : Impl) :
  impl_wf s -> impl_wf s0 -> slots_indexed s ->
  let s' := load_snapshot (snapshot_of s) s0 in
  im_services s' = im_services s /\ im_epoch s' = im_epoch s /\ im_fenced_boots s' = im_fenced_boots s /\
  im_policy_gen s' = im_policy_gen s /\ im_last_authority_gen s' = im_last_authority_gen s /\
  (forall k a, slot_current s' k = Some a <->
     exists b, slot_current s k = Some b /\ asg_state b = AssignmentState.ACTIVE /\
       a = reconciled (snapshot_of s) b) /\
  (has_incomplete_cutover s = false -> forall k a, asg_state a = AssignmentState.ACTIVE ->
     slot_current s k = Some a <-> slot_current s' k = Some a).
Proof.
  intros Hwf Hwf0 Hidx s'. destruct (load_snapshot_scalars (snapshot_of s) s0) as (Hs & Hp & Hg).
  assert (forall k a, slot_current s' k = Some a <->
     exists b, slot_current s k = Some b /\ asg_state b = AssignmentState.ACTIVE /\ a = reconciled (snapshot_of s) b) as Hc.
  { intros k a. etransitivity.
    - apply load_snapshot_current; [done | exact (services_nodup s Hwf) |]. simpl.
      rewrite saved_active by apply (wf_slots s Hwf). apply active_nodup; [apply (wf_slots s Hwf) | by apply slots_nodup].
    - split; intros (b & H); exists b.
      + destruct H as (H1 & H2 & H3 & H4). by destruct (proj1 (elem_of_saved_active s k b Hwf Hidx) (conj H1 (conj H2 H3))).
      + destruct H as (H1 & H2 & H3). by destruct (proj2 (elem_of_saved_active s k b Hwf Hidx) (conj H1 H2)) as (? & ? & ?). }
  split_and!; [exact Hs | exact (load_snapshot_epoch _ s0) | exact (load_snapshot_fenced _ s0) | exact Hp | exact Hg | exact Hc |].
  intros Hn k a Ha. rewrite Hc. assert (forall b, reconciled (snapshot_of s) b = b) as Hr.
  { intros b. unfold reconciled. change (incomplete (snapshot_of s)) with (has_incomplete_cutover s). by rewrite Hn. }
  split; [intros Hk; exists a; by rewrite Hr | intros (b & Hb & _ & ->); by rewrite Hr].
Qed.

(** The counters are not part of the snapshot: [load] leaves them as they are, so a restarted
    coordinator hands out the assignment identities of its predecessor again. *)
Theorem load_forgets_counters (snap : PersistenceSnapshot) (s : Impl) :
  im_assignment_counter (load_snapshot snap s) = im_assignment_counter s /\
  im_attempt_counter (load_snapshot snap s) = im_attempt_counter s /\
  im_activation_counter (load_snapshot snap s) = im_activation_counter s.
Proof. apply load_snapshot_counters. Qed.

(** [load] is all or nothing and distrusts what it kept.  When the file is missing or
    does not decode the coordinator is unchanged; otherwise its representation
    invariant holds, no retained target counts as ready or fresh, and no failover
    can be planned for any slot until a readiness report arrives. *)
Theorem load_distrusts_targets `{EO : EvalOrder} (path : string) (fs : FileSystem) (s : Impl) :
  impl_wf s ->
  match load path fs s with
  | (s', Throw _) => s' = s
  | (s', Ok _) => impl_wf s' /\
      (forall t f, t ∈ im_targets s' -> tr_facts t = Some f -> cf_ready f = false /\ cf_evidence_fresh f = false) /\
      (forall k pref p, (plan_failover_pref k pref s').2 <> Ok (Some p))
  end.
Proof.
  intros Hwf. unfold load. destruct (load_file path fs) as [snap | e] eqn:El; [| done].
  assert (SnapshotValid snap) as Hv.
  { unfold load_file in El. destruct (fs !! path); [| done]. by apply decode_ok in El as (_ & _ & _ & ?). }
  pose proof (load_snapshot_wf snap s Hwf (sv_services _ Hv)) as Hwf'.
  pose proof (load_snapshot_targets snap s) as Ht. revert Hwf' Ht. generalize (load_snapshot snap s) as s'.
  intros s' Hwf' Ht. assert (forall t f, t ∈ im_targets s' -> tr_facts t = Some f ->
    cf_ready f = false /\ cf_evidence_fresh f = false) as Hd.
  { rewrite Ht. intros t f (t0 & -> & _)%list_elem_of_fmap. simpl. destruct (tr_facts t0); [| done]. by intros [= <-]. }
  split; [done |]. split; [done |]. intros k pref p. by apply no_plan_without_reports.
Qed.

(** * Witnesses *)

Module RestartWitness.
#[local] Transparent load_snapshot.
(** The state checkpointed before the fence, its snapshot, and a new coordinator. *)
Definition saved : Impl := txn_of Milestone.INTENT_ONLY Scenario.attempt None Scenario.prepared.
Definition healthy_snap : PersistenceSnapshot := snapshot_of Scenario.healthy.
Definition fresh : Impl := impl_init config_default.

Lemma valid_healthy : SnapshotValid healthy_snap.
Proof. apply check_snapshot_ok. vm_compute. reflexivity. Qed.
Lemma valid_saved : SnapshotValid (snapshot_of saved).
Proof. apply check_snapshot_ok. vm_compute. reflexivity. Qed.
Lemma healthy_indexed : slots_indexed Scenario.healthy.
Proof. intros [| [| i]] st H; vm_compute in H; [| discriminate H | discriminate H]. injection H as <-. vm_compute. reflexivity. Qed.

(** A directory with the healthy state saved in it. *)
Definition blob : bytes := match encode healthy_snap with Ok b => b | Throw _ => [] end.
Definition disk : FileSystem := {[ "state"%string := blob ]}.
End RestartWitness.

Lemma restart_authority_exact_witness :
  gd_allowed (authorize_dispatch (load_snapshot RestartWitness.healthy_snap RestartWitness.fresh) (Scenario.grant 11)) = true /\
  mkId 11 ∉ ps_fenced_boots RestartWitness.healthy_snap.
Proof.
  assert (H : gd_allowed (authorize_dispatch (load_snapshot RestartWitness.healthy_snap RestartWitness.fresh)
                            (Scenario.grant 11)) = true) by (vm_compute; reflexivity).
  split; [exact H |].
  refine (proj1 (proj2 (proj1 (restart_authority_exact RestartWitness.healthy_snap RestartWitness.fresh (Scenario.grant 11) _ _ _) H))).
  - apply impl_init_wf.
  - exact RestartWitness.valid_healthy.
  - vm_compute. constructor.
Defined.

Lemma interrupted_cutover_revalidates_witness :
  gd_allowed (authorize_dispatch (load_snapshot (snapshot_of RestartWitness.saved) RestartWitness.fresh)
                (Scenario.grant 11)) = false.
Proof.
  apply (interrupted_cutover_revalidates (snapshot_of RestartWitness.saved) RestartWitness.fresh).
  - apply impl_init_wf.
  - exact RestartWitness.valid_saved.
  - vm_compute. reflexivity.
  - by exists (at_new Scenario.attempt).
Defined.

Lemma restart_restores_saved_witness :
  exists a, slot_current Scenario.healthy Scenario.slot = Some a /\
    slot_current (load_snapshot (snapshot_of Scenario.healthy) RestartWitness.fresh) Scenario.slot = Some a.
Proof.
  destruct (restart_restores_saved Scenario.healthy RestartWitness.fresh) as (_ & _ & _ & _ & _ & _ & H).
  - apply run_ops_wf, impl_init_wf.
  - apply impl_init_wf.
  - exact RestartWitness.healthy_indexed.
  - exists (Scenario.initial <| asg_state := AssignmentState.ACTIVE |> <| asg_provisory := false |>).
    assert (E : slot_current Scenario.healthy Scenario.slot =
      Some (Scenario.initial <| asg_state := AssignmentState.ACTIVE |> <| asg_provisory := false |>)) by (vm_compute; reflexivity).
    assert (N : has_incomplete_cutover Scenario.healthy = false) by (vm_compute; reflexivity).
    split; [exact E |]. refine (proj1 (H N Scenario.slot
      (Scenario.initial <| asg_state := AssignmentState.ACTIVE |> <| asg_provisory := false |>) _) E). reflexivity.
Defined.

Lemma load_distrusts_targets_witness :
  (load (H := PersistWitness.left_to_right) "state" RestartWitness.disk Scenario.healthy).2 = Ok tt /\
  forall k pref p, (plan_failover_pref k pref
    (load (H := PersistWitness.left_to_right) "state" RestartWitness.disk Scenario.healthy).1).2 <> Ok (Some p).
Proof.
  assert (Hwf : impl_wf Scenario.healthy) by (apply run_ops_wf, impl_init_wf).
  pose proof (load_distrusts_targets (EO := PersistWitness.left_to_right) "state" RestartWitness.disk Scenario.healthy Hwf) as H.
  assert (E : (load (H := PersistWitness.left_to_right) "state" RestartWitness.disk Scenario.healthy).2 = Ok tt)
    by (vm_compute; reflexivity).
  split; [exact E |].
  destruct (load (H := PersistWitness.left_to_right) "state" RestartWitness.disk Scenario.healthy) as [s' [[] | e]];
    [exact (proj2 (proj2 H)) | discriminate E].
Defined.
