(* ===== verification/Protocol.v ===== *)
(** The control protocol (protocol.hpp, protocol.cpp) and its framing on a stream
    (socket_util.hpp: [send_frame], [recv_frame]): CRC-protected frames and the
    bounded type-length-value payload.

    A socket is here the bytes that arrive on it until it is closed; Sockets has the
    loops that send and receive them piece by piece. *)

From stdpp Require Import base list gmap strings.
From Stdlib Require Import ZArith Lia.
From S2P Require Import Prelude Types Double Bytes Codec.

Open Scope Z_scope.

Module MsgType.
Inductive MsgType : Type :=
  | HELLO
  | REGISTER
  | PUBLISH_TARGET
  | PUBLISH_READINESS
  | PUBLISH_FAILURE
  | PUBLISH_CAPACITY
  | PLAN_FAILOVER
  | EXECUTE_FAILOVER
  | PREPARE_TARGET
  | PREPARE_RESULT
  | FENCE_ASSIGNMENT
  | ACTIVATE_TARGET
  | ACTIVATE_RESULT
  | INSTALL_ROUTE
  | ROUTE_ACK
  | QUERY_ROUTE
  | AUTHORIZE_REQUEST
  | AUTHORIZE_RESULT
  | EXECUTION_RESULT
  | VERIFY_SERVICE
  | REQUEST_FAILBACK
  | REVALIDATE
  | SAVE
  | SHUTDOWN
  | CHECK_ROUTE_ACK
  | CLASSIFY_REQUEST
  | ERROR_MSG.

#[export] Instance MsgType_eq_dec : EqDecision MsgType.
Proof. solve_decision. Defined.

#[export] Program Instance MsgType_enum : Enum MsgType :=
  {| enum_all := [HELLO; REGISTER; PUBLISH_TARGET; PUBLISH_READINESS; PUBLISH_FAILURE; PUBLISH_CAPACITY; PLAN_FAILOVER; EXECUTE_FAILOVER; PREPARE_TARGET; PREPARE_RESULT; FENCE_ASSIGNMENT; ACTIVATE_TARGET; ACTIVATE_RESULT; INSTALL_ROUTE; ROUTE_ACK; QUERY_ROUTE; AUTHORIZE_REQUEST; AUTHORIZE_RESULT; EXECUTION_RESULT; VERIFY_SERVICE; REQUEST_FAILBACK; REVALIDATE; SAVE; SHUTDOWN; CHECK_ROUTE_ACK; CLASSIFY_REQUEST; ERROR_MSG];
     enum_index x := match x with HELLO => 0 | REGISTER => 1 | PUBLISH_TARGET => 2 | PUBLISH_READINESS => 3 | PUBLISH_FAILURE => 4 | PUBLISH_CAPACITY => 5 | PLAN_FAILOVER => 6 | EXECUTE_FAILOVER => 7 | PREPARE_TARGET => 8 | PREPARE_RESULT => 9 | FENCE_ASSIGNMENT => 10 | ACTIVATE_TARGET => 11 | ACTIVATE_RESULT => 12 | INSTALL_ROUTE => 13 | ROUTE_ACK => 14 | QUERY_ROUTE => 15 | AUTHORIZE_REQUEST => 16 | AUTHORIZE_RESULT => 17 | EXECUTION_RESULT => 18 | VERIFY_SERVICE => 19 | REQUEST_FAILBACK => 20 | REVALIDATE => 21 | SAVE => 22 | SHUTDOWN => 23 | CHECK_ROUTE_ACK => 24 | CLASSIFY_REQUEST => 25 | ERROR_MSG => 26 end |}.
Next Obligation. solve_enum. Qed.
Next Obligation. solve_enum_total. Qed.

Definition to_string_MsgType (x : MsgType) : string :=
  match x with
  | HELLO => "HELLO"
  | REGISTER => "REGISTER"
  | PUBLISH_TARGET => "PUBLISH_TARGET"
  | PUBLISH_READINESS => "PUBLISH_READINESS"
  | PUBLISH_FAILURE => "PUBLISH_FAILURE"
  | PUBLISH_CAPACITY => "PUBLISH_CAPACITY"
  | PLAN_FAILOVER => "PLAN_FAILOVER"
  | EXECUTE_FAILOVER => "EXECUTE_FAILOVER"
  | PREPARE_TARGET => "PREPARE_TARGET"
  | PREPARE_RESULT => "PREPARE_RESULT"
  | FENCE_ASSIGNMENT => "FENCE_ASSIGNMENT"
  | ACTIVATE_TARGET => "ACTIVATE_TARGET"
  | ACTIVATE_RESULT => "ACTIVATE_RESULT"
  | INSTALL_ROUTE => "INSTALL_ROUTE"
  | ROUTE_ACK => "ROUTE_ACK"
  | QUERY_ROUTE => "QUERY_ROUTE"
  | AUTHORIZE_REQUEST => "AUTHORIZE_REQUEST"
  | AUTHORIZE_RESULT => "AUTHORIZE_RESULT"
  | EXECUTION_RESULT => "EXECUTION_RESULT"
  | VERIFY_SERVICE => "VERIFY_SERVICE"
  | REQUEST_FAILBACK => "REQUEST_FAILBACK"
  | REVALIDATE => "REVALIDATE"
  | SAVE => "SAVE"
  | SHUTDOWN => "SHUTDOWN"
  | CHECK_ROUTE_ACK => "CHECK_ROUTE_ACK"
  | CLASSIFY_REQUEST => "CLASSIFY_REQUEST"
  | ERROR_MSG => "ERROR"
  end.

End MsgType.
Notation MsgType := MsgType.MsgType.
Export (hints) MsgType.

(** The enumerators start at [HELLO = 1]. *)
Definition msg_code (m : MsgType) : Z := 1 + enum_index m.
Definition msg_of_code (t : Z) : option MsgType := enum_of_u8 (t - 1).

Definition kMaxFramePayload : Z := Z.shiftl 16 20.

(** [struct Frame]. *)
Record Frame : Type := mkFrame { fr_type : MsgType; fr_msg_id : Z; fr_epoch : Z; fr_payload : bytes }.

(** * Checksum *)

(** [crc = (crc >> 1) ^ (0xEDB88320u & (~((crc & 1u) - 1u)))], at 32 bits. *)
Definition crc_shift (crc : Z) : Z :=
  Z.lxor (Z.shiftr crc 1) (Z.land 0xEDB88320 (Z.lxor (wrap32 (Z.land crc 1 - 1)) 0xFFFFFFFF)).
Definition crc_byte (crc b : Z) : Z := Nat.iter 8 crc_shift (Z.lxor crc b).
Definition crc32 (data : bytes) : Z := Z.lxor (foldl crc_byte 0xFFFFFFFF data) 0xFFFFFFFF.

(** * Frames *)

Definition kFrameMagic : bytes := [70; 70; 80; 49].
Definition kFrameVersion : Z := 1.

(** The bytes before the checksum. *)
Definition frame_body (f : Frame) : bytes :=
  kFrameMagic ++ [kFrameVersion; msg_code (fr_type f)] ++ le_bytes 4 (fr_msg_id f) ++ le_bytes 8 (fr_epoch f) ++
  le_bytes 4 (Z.of_nat (length (fr_payload f))) ++ fr_payload f.

Definition encode_frame (f : Frame) : result bytes :=
  if Z.ltb kMaxFramePayload (Z.of_nat (length (fr_payload f))) then Throw (ProtocolError "frame payload too large")
  else Ok (frame_body f ++ le_bytes 4 (crc32 (frame_body f))).

(** [data[off]] and [n] bytes from [off]. *)
Definition byte_at (data : bytes) (off : nat) : Z := default 0 (data !! off).
Definition slice (data : bytes) (off n : nat) : bytes := take n (drop off data).

Definition decode_frame (data : bytes) : result Frame :=
  if Nat.ltb (length data) 31 then Throw (ProtocolError "frame too short")
  else if negb (bool_decide (take 4 data = kFrameMagic)) then Throw (ProtocolError "bad frame magic")
  else if negb (Z.eqb (byte_at data 4) kFrameVersion) then Throw (ProtocolError "unsupported frame version")
  else match msg_of_code (byte_at data 5) with
  | None => Throw (ProtocolError "invalid message type")
  | Some t =>
    let msg_id := le_read 0 0 (slice data 6 4) in
    let epoch := le_read 0 0 (slice data 10 8) in
    let plen := le_read 0 0 (slice data 18 4) in
    if Z.ltb kMaxFramePayload plen then Throw (ProtocolError "frame payload too large")
    else if negb (Z.eqb (22 + plen + 4) (Z.of_nat (length data))) then Throw (ProtocolError "frame length mismatch")
    else
      let stored := le_read 0 0 (slice data (22 + Z.to_nat plen) 4) in
      if negb (Z.eqb (crc32 (take (22 + Z.to_nat plen) data)) stored)
      then Throw (ProtocolError "frame checksum mismatch")
      else Ok (mkFrame t msg_id epoch (slice data 22 (Z.to_nat plen)))
  end.

(** [send_frame] on a socket that takes every byte: what it puts on the stream. *)
Definition send_frame (f : Frame) : result bytes :=
  b ← encode_frame f; Ok (le_bytes 4 (wrap32 (Z.of_nat (length b))) ++ b).

(** [recv_frame]: the bytes left on the stream, and the frame if there is one. *)
Definition recv_frame (s : bytes) : bytes * option Frame :=
  if Nat.ltb (length s) 4 then ([], None) else
  let len := le_read 0 0 (take 4 s) in
  let s := drop 4 s in
  if Z.ltb (kMaxFramePayload + 64) len then (s, None)
  else if Z.ltb (Z.of_nat (length s)) len then ([], None)
  else (drop (Z.to_nat len) s,
        match decode_frame (take (Z.to_nat len) s) with Ok f => Some f | Throw _ => None end).

(** * Payloads *)

(** [class PayloadWriter]: the state is [buf_].  A header that does not fit is written
    before the exception leaves. *)
Notation Writer := (ST bytes).
Definition field_header (id type size : Z) : Writer unit := fun b =>
  let b := b ++ [id; type] ++ le_bytes 4 size in
  if Z.ltb kMaxFramePayload (Z.of_nat (length b)) then (b, Throw (ProtocolError "payload too large")) else (b, Ok tt).
Definition w_append (bs : bytes) : Writer unit := modify (fun b => b ++ bs).

Definition w_u8 (field v : Z) : Writer unit := _ ← field_header field 0 1; w_append [v].
Definition w_u32 (field v : Z) : Writer unit := _ ← field_header field 1 4; w_append (le_bytes 4 v).
Definition w_u64 (field v : Z) : Writer unit := _ ← field_header field 2 8; w_append (le_bytes 8 v).
Definition w_bool (field : Z) (v : bool) : Writer unit := _ ← field_header field 3 1; w_append [if v then 1 else 0].
Definition w_i64 (field v : Z) : Writer unit := _ ← field_header field 4 8; w_append (le_bytes 8 (wrap64 v)).
Definition w_f64 (field : Z) (v : double) : Writer unit := _ ← field_header field 5 8; w_append (le_bytes 8 v).
Definition w_str (field : Z) (v : string) : Writer unit :=
  if Z.ltb kMaxFramePayload (Z.of_nat (String.length v)) then throw (ProtocolError "string too large")
  else _ ← field_header field 6 (Z.of_nat (String.length v)); w_append (string_bytes v).
Definition w_bytes (field : Z) (v : bytes) : Writer unit :=
  if Z.ltb kMaxFramePayload (Z.of_nat (length v)) then throw (ProtocolError "bytes too large")
  else _ ← field_header field 7 (Z.of_nat (length v)); w_append v.

(** [PayloadReader::Field]. *)
Record Field : Type := mkField { fld_id : Z; fld_type : Z; fld_value : bytes }.

(** The loop of the [PayloadReader] constructor; each turn consumes at least six bytes,
    so the length of the data bounds the number of turns. *)
Fixpoint parse_fields (fuel : nat) (data : bytes) : result (list Field) :=
  match data, fuel with
  | [], _ => Ok []
  | _, O => Throw (LogicError "out of fuel")
  | id :: _, S fuel' =>
    if Nat.ltb (length data) 6 then Throw (ProtocolError "truncated TLV field") else
    let type := byte_at data 1 in
    let size := le_read 0 0 (slice data 2 4) in
    if Z.ltb 7 type then Throw (ProtocolError "invalid TLV field type")
    else if Z.ltb kMaxFramePayload size then Throw (ProtocolError "TLV field too large")
    else if Z.ltb (Z.of_nat (length (drop 6 data))) size then Throw (ProtocolError "TLV field length exceeds payload")
    else rest ← parse_fields fuel' (drop (6 + Z.to_nat size) data);
         Ok (mkField id type (slice data 6 (Z.to_nat size)) :: rest)
  end.
Definition payload_reader (data : bytes) : result (list Field) := parse_fields (length data) data.

Definition find_field (fields : list Field) (field : Z) : option Field :=
  find_first (fun f => Z.eqb (fld_id f) field) fields.
Definition has_field (fields : list Field) (field : Z) : bool := bool_decide (find_field fields field <> None).

(** [if (!f || f->type != type || !size_ok) throw ProtocolError(what)]. *)
Definition field_value (fields : list Field) (field type : Z) (size : option nat) (what : string) : result bytes :=
  match find_field fields field with
  | Some f => if negb (Z.eqb (fld_type f) type) || match size with Some n => negb (Nat.eqb (length (fld_value f)) n) | None => false end
              then Throw (ProtocolError what) else Ok (fld_value f)
  | None => Throw (ProtocolError what)
  end.

Definition p_u8 (fs : list Field) (field : Z) : result Z :=
  v ← field_value fs field 0 (Some 1%nat) "missing/incorrect u8 field"; Ok (byte_at v 0).
Definition p_u32 (fs : list Field) (field : Z) : result Z :=
  v ← field_value fs field 1 (Some 4%nat) "missing/incorrect u32 field"; Ok (le_read 0 0 v).
Definition p_u64 (fs : list Field) (field : Z) : result Z :=
  v ← field_value fs field 2 (Some 8%nat) "missing/incorrect u64 field"; Ok (le_read 0 0 v).
Definition p_bool (fs : list Field) (field : Z) : result bool :=
  v ← field_value fs field 3 (Some 1%nat) "missing/incorrect bool field";
  if Z.ltb 1 (byte_at v 0) then Throw (ProtocolError "invalid bool value") else Ok (Z.eqb (byte_at v 0) 1).
Definition p_i64 (fs : list Field) (field : Z) : result Z :=
  v ← field_value fs field 4 (Some 8%nat) "missing/incorrect i64 field"; Ok (to_int64 (le_read 0 0 v)).
Definition p_f64 (fs : list Field) (field : Z) : result double :=
  v ← field_value fs field 5 (Some 8%nat) "missing/incorrect f64 field"; Ok (le_read 0 0 v).
Definition p_str (fs : list Field) (field : Z) : result string :=
  v ← field_value fs field 6 None "missing/incorrect string field"; Ok (string_of_bytes v).
Definition p_bytes (fs : list Field) (field : Z) : result bytes :=
  field_value fs field 7 None "missing/incorrect bytes field".

(** * Lemmas: the checksum detects a changed byte *)

Lemma lxor_range n a b : 0 <= n -> 0 <= a < 2 ^ n -> 0 <= b < 2 ^ n -> 0 <= Z.lxor a b < 2 ^ n.
Proof.
  intros Hn Ha Hb. assert (0 <= Z.lxor a b) as H0 by (apply Z.lxor_nonneg; lia). split; [done |].
  destruct (decide (Z.lxor a b = 0)) as [-> | Hnz]; [lia |]. apply Z.log2_lt_pow2; [lia |].
  eapply Z.le_lt_trans; [apply Z.log2_lxor; lia |].
  assert (forall c, 0 <= c < 2 ^ n -> Z.log2 c < n \/ c = 0) as Hl
    by (intros c Hc; destruct (decide (c = 0)); [by right | left; apply Z.log2_lt_pow2; lia]).
  pose proof (Z.log2_nonneg a). pose proof (Z.log2_nonneg b).
  destruct (Hl a Ha) as [? | ->], (Hl b Hb) as [? | ->]; change (Z.log2 0) with 0 in *; try lia. done.
Qed.

Lemma crc_shift_odd x : crc_shift x = Z.lxor (Z.shiftr x 1) (if Z.odd x then 0xEDB88320 else 0).
Proof.
  unfold crc_shift. f_equal. change 1 with (Z.ones 1). rewrite Z.land_ones by lia. rewrite Zmod_odd.
  by destruct (Z.odd x).
Qed.

Lemma shiftr1_range x : u32 x -> 0 <= Z.shiftr x 1 < 2 ^ 31.
Proof. unfold u32. intros Hx. rewrite Z.shiftr_div_pow2 by lia. change (2 ^ 1) with 2. split; [apply Z.div_pos | apply Z.div_lt_upper_bound]; lia. Qed.

Lemma crc_shift_u32 x : u32 x -> u32 (crc_shift x).
Proof.
  intros Hx. rewrite crc_shift_odd. apply lxor_range; [lia | pose proof (shiftr1_range x Hx); lia |].
  destruct (Z.odd x); lia.
Qed.

Lemma crc_shift_inj x y : u32 x -> u32 y -> crc_shift x = crc_shift y -> x = y.
Proof.
  intros Hx Hy. rewrite !crc_shift_odd. intros H.
  assert (forall z, u32 z -> Z.testbit (Z.lxor (Z.shiftr z 1) (if Z.odd z then 0xEDB88320 else 0)) 31 = Z.odd z) as Htop.
  { intros z Hz. rewrite Z.lxor_spec. assert (Z.testbit (Z.shiftr z 1) 31 = false) as ->; [| by destruct (Z.odd z)].
    apply Z.testbit_false; [lia |]. rewrite Z.div_small; [done |]. by apply shiftr1_range. }
  assert (Z.odd x = Z.odd y) as Ho by (rewrite <- (Htop x Hx), <- (Htop y Hy); by f_equal).
  rewrite Ho in H. apply lxor_inj_r in H. rewrite (Z.div2_odd x), (Z.div2_odd y), Ho, !Z.div2_spec. by rewrite H.
Qed.

Lemma crc_iter_u32 n x : u32 x -> u32 (Nat.iter n crc_shift x).
Proof. intros Hx. induction n as [| n IH]; [done |]. by apply crc_shift_u32. Qed.

Lemma crc_iter_inj n x y : u32 x -> u32 y -> Nat.iter n crc_shift x = Nat.iter n crc_shift y -> x = y.
Proof.
  intros Hx Hy. induction n as [| n IH]; [done |]. intros H. apply IH.
  by apply crc_shift_inj; [apply crc_iter_u32 | apply crc_iter_u32 |].
Qed.

Lemma crc_xor_u32 c b : u32 c -> u8 b -> u32 (Z.lxor c b).
Proof. unfold u32, u8. intros. apply lxor_range; lia. Qed.

Lemma crc_byte_u32 c b : u32 c -> u8 b -> u32 (crc_byte c b).
Proof. intros. by apply crc_iter_u32, crc_xor_u32. Qed.

Lemma crc_byte_iter c b : crc_byte c b = Nat.iter 8 crc_shift (Z.lxor c b).
Proof. reflexivity. Qed.

Lemma crc_byte_xor_inj c b c' b' :
  u32 c -> u8 b -> u32 c' -> u8 b' -> crc_byte c b = crc_byte c' b' -> Z.lxor c b = Z.lxor c' b'.
Proof.
  intros Hc Hb Hc' Hb' H. rewrite !crc_byte_iter in H.
  exact (crc_iter_inj 8 _ _ (crc_xor_u32 c b Hc Hb) (crc_xor_u32 c' b' Hc' Hb') H).
Qed.

Lemma crc_fold_u32 d c : are_bytes d -> u32 c -> u32 (foldl crc_byte c d).
Proof. intros Hd. revert c. induction Hd as [| b d Hb _ IH]; intros c Hc; [done |]. by apply IH, crc_byte_u32. Qed.

Lemma crc_fold_inj d c c' :
  are_bytes d -> u32 c -> u32 c' -> foldl crc_byte c d = foldl crc_byte c' d -> c = c'.
Proof.
  intros Hd. revert c c'. induction Hd as [| b d Hb _ IH]; intros c c' Hc Hc' H; [done |].
  cbn [foldl] in H. apply IH in H; [| by apply crc_byte_u32 ..]. apply crc_byte_xor_inj in H; [| done ..].
  by eapply lxor_inj_r.
Qed.

Lemma crc32_u32 d : are_bytes d -> u32 (crc32 d).
Proof.
  intros Hd. assert (u32 (foldl crc_byte 0xFFFFFFFF d)) by (apply crc_fold_u32; [done | unfold u32; lia]).
  unfold u32 in *. apply lxor_range; lia.
Qed.

Lemma crc32_detects_byte d1 b b' d2 :
  are_bytes d1 -> are_bytes d2 -> u8 b -> u8 b' -> b <> b' -> crc32 (d1 ++ b :: d2) <> crc32 (d1 ++ b' :: d2).
Proof.
  intros Hd1 Hd2 Hb Hb' Hne H. apply lxor_inj_r in H. rewrite !foldl_app in H. cbn [foldl] in H.
  assert (u32 (foldl crc_byte 0xFFFFFFFF d1)) as H1 by (apply crc_fold_u32; [done | unfold u32; lia]).
  apply (crc_fold_inj d2) in H; [| done | by apply crc_byte_u32 ..].
  apply crc_byte_xor_inj in H; [| done ..]. by apply lxor_inj_l in H.
Qed.

(** * Lemmas: the layout of a frame *)

Lemma le_bytes_le_read n bs : are_bytes bs -> length bs = n -> le_bytes n (le_read 0 0 bs) = bs.
Proof.
  intros Hb Hn. apply (le_read_inj 0 0 0); [apply le_bytes_are_bytes | done | by rewrite le_bytes_length | simpl; lia | simpl; lia |].
  rewrite le_read_le_bytes. apply Z.mod_small. rewrite <- Hn. apply (le_read_range 0); [done | simpl; lia].
Qed.

Lemma msg_of_code_ok t m : msg_of_code t = Some m <-> t = msg_code m.
Proof.
  unfold msg_of_code, msg_code, enum_of_u8. split.
  - destruct (Z.ltb_spec (t - 1) 0) as [Hn | Hp]; [done |]. intros H%enum_lookup_index. lia.
  - intros ->. replace (1 + enum_index m - 1) with (enum_index m) by lia.
    destruct (enum_index_lookup m) as [H0 Hm]. destruct (Z.ltb_spec (enum_index m) 0); [lia | done].
Qed.

Lemma msg_code_u8 m : u8 (msg_code m).
Proof. destruct m; unfold u8, msg_code; simpl; lia. Qed.

(** The values the fields of a frame hold in C++. *)
Record frame_typed (f : Frame) : Prop := {
  ft_msg_id : u32 (fr_msg_id f); ft_epoch : u64 (fr_epoch f); ft_payload : are_bytes (fr_payload f) }.

Lemma frame_body_bytes f : frame_typed f -> are_bytes (frame_body f).
Proof.
  intros [_ _ Hp]. unfold frame_body, are_bytes. rewrite !Forall_app.
  split_and!; try apply le_bytes_are_bytes; [repeat constructor; unfold u8; lia | | done].
  constructor; [unfold u8, kFrameVersion; lia |]. constructor; [apply msg_code_u8 | constructor].
Qed.

Lemma frame_body_length f : length (frame_body f) = (22 + length (fr_payload f))%nat.
Proof. unfold frame_body. rewrite !length_app, !le_bytes_length. simpl. lia. Qed.

Lemma slice_tail f c :
  slice (frame_body f ++ c) 22 (length (fr_payload f)) = fr_payload f /\
  slice (frame_body f ++ c) (22 + length (fr_payload f)) (length c) = c /\
  take (22 + length (fr_payload f)) (frame_body f ++ c) = frame_body f.
Proof.
  split_and!.
  - change (slice (frame_body f ++ c) 22 (length (fr_payload f))) with (take (length (fr_payload f)) (fr_payload f ++ c)).
    by rewrite take_app_length.
  - unfold slice. rewrite <- frame_body_length, drop_app_length. apply take_ge. done.
  - rewrite <- frame_body_length. apply take_app_length.
Qed.

Lemma frame_fields f c :
  take 4 (frame_body f ++ c) = kFrameMagic /\ byte_at (frame_body f ++ c) 4 = kFrameVersion /\
  byte_at (frame_body f ++ c) 5 = msg_code (fr_type f) /\ slice (frame_body f ++ c) 6 4 = le_bytes 4 (fr_msg_id f) /\
  slice (frame_body f ++ c) 10 8 = le_bytes 8 (fr_epoch f) /\
  slice (frame_body f ++ c) 18 4 = le_bytes 4 (Z.of_nat (length (fr_payload f))).
Proof. split_and!; reflexivity. Qed.

(** Decoding what [encode_frame] writes, for a payload of at least 5 bytes. *)
Lemma decode_frame_body f :
  frame_typed f -> Z.of_nat (length (fr_payload f)) <= kMaxFramePayload -> (5 <= length (fr_payload f))%nat ->
  decode_frame (frame_body f ++ le_bytes 4 (crc32 (frame_body f))) = Ok f.
Proof.
  intros Ht Hmax Hmin. set (c := le_bytes 4 (crc32 (frame_body f))).
  assert (length c = 4%nat) as Hc by apply le_bytes_length.
  destruct (frame_fields f c) as (H1 & H2 & H3 & H4 & H5 & H6). destruct (slice_tail f c) as (H7 & H8 & H9). rewrite Hc in H8.
  assert (length (frame_body f ++ c) = (26 + length (fr_payload f))%nat) as Hlen
    by (rewrite length_app, frame_body_length, Hc; lia).
  assert (le_read 0 0 c = crc32 (frame_body f)) as Hcrc.
  { unfold c. rewrite le_read_le_bytes. apply Z.mod_small, crc32_u32. by apply frame_body_bytes. }
  clearbody c. unfold decode_frame. rewrite Hlen, H1, H2, H3, H4, H5, H6, !le_read_le_bytes.
  destruct (Nat.ltb_spec (26 + length (fr_payload f)) 31); [lia |]. rewrite bool_decide_true by done. rewrite Z.eqb_refl.
  cbn [negb]. rewrite (proj2 (msg_of_code_ok _ (fr_type f)) eq_refl).
  assert (Z.of_nat (length (fr_payload f)) < 2 ^ 32) as Hlt by (change kMaxFramePayload with 16777216 in Hmax; lia).
  rewrite (Z.mod_small (Z.of_nat (length (fr_payload f)))) by (simpl; lia).
  destruct (Z.ltb_spec kMaxFramePayload (Z.of_nat (length (fr_payload f)))); [lia |].
  rewrite (proj2 (Z.eqb_eq _ _)) by lia. rewrite Nat2Z.id, H7, H8, H9, Hcrc, Z.eqb_refl. cbn [negb].
  destruct Ht as [Hm He _]. unfold u32, u64 in *. rewrite !Z.mod_small by (simpl; lia). by destruct f.
Qed.

(** A frame [decode_frame] accepts is what [encode_frame] writes for the result. *)
Lemma decode_frame_ok data f :
  are_bytes data -> decode_frame data = Ok f ->
  frame_typed f /\ Z.of_nat (length (fr_payload f)) <= kMaxFramePayload /\ (5 <= length (fr_payload f))%nat /\
  data = frame_body f ++ le_bytes 4 (crc32 (frame_body f)).
Proof.
  intros Hb. unfold decode_frame. destruct (Nat.ltb_spec (length data) 31) as [| Hmin]; [done |].
  destruct (bool_decide (take 4 data = kFrameMagic)) eqn:E1; [apply bool_decide_eq_true in E1 | done].
  destruct (Z.eqb_spec (byte_at data 4) kFrameVersion) as [E2 |]; [| done]. cbn [negb].
  destruct (msg_of_code (byte_at data 5)) as [t |] eqn:E3; [apply msg_of_code_ok in E3 | done].
  set (plen := le_read 0 0 (slice data 18 4)).
  destruct (Z.ltb_spec kMaxFramePayload plen) as [| Hmax]; [done |].
  destruct (Z.eqb_spec (22 + plen + 4) (Z.of_nat (length data))) as [Hlen |]; [| done]. cbn [negb].
  destruct (Z.eqb_spec (crc32 (take (22 + Z.to_nat plen) data))
              (le_read 0 0 (slice data (22 + Z.to_nat plen) 4))) as [Hcrc |]; [| done]. cbn [negb].
  intros [= <-].
  assert (forall off n, (off + n <= length data)%nat -> are_bytes (slice data off n) /\ length (slice data off n) = n) as Hsl.
  { intros off n Hn. split; [by apply Forall_take, Forall_drop |]. unfold slice. rewrite length_take, length_drop. lia. }
  destruct (Hsl 6 4)%nat as [B1 L1]; [lia |]. destruct (Hsl 10 8)%nat as [B2 L2]; [lia |].
  destruct (Hsl 18 4)%nat as [B3 L3]; [lia |].
  assert (0 <= plen) as Hp by (apply (le_read_range 0); [done | simpl; lia]).
  destruct (Hsl 22%nat (Z.to_nat plen)) as [B4 L4]; [lia |]. destruct (Hsl (22 + Z.to_nat plen) 4)%nat as [B5 L5]; [lia |].
  assert (take (22 + Z.to_nat plen) data = frame_body (mkFrame t (le_read 0 0 (slice data 6 4)) (le_read 0 0 (slice data 10 8))
            (slice data 22 (Z.to_nat plen)))) as Hbody.
  { unfold frame_body. cbn [fr_type fr_msg_id fr_epoch fr_payload]. rewrite L4, Z2Nat.id by done. unfold plen at 2.
    rewrite !le_bytes_le_read by done. rewrite <- E1, <- E2, <- E3. clear -Hmin Hlen Hp.
    assert (length data = 26 + Z.to_nat plen)%nat as Hl by lia. clear Hlen Hmin.
    do 22 (destruct data as [| ? data]; [simpl in Hl; lia |]). cbv [byte_at slice]. simpl. by rewrite drop_0. }
  split; [split | split_and!]; cbn [fr_type fr_msg_id fr_epoch fr_payload].
  - pose proof (le_read_range 0 0 _ B1) as H. rewrite L1 in H. apply H. simpl. lia.
  - pose proof (le_read_range 0 0 _ B2) as H. rewrite L2 in H. apply H. simpl. lia.
  - done.
  - rewrite L4. lia.
  - rewrite L4. lia.
  - rewrite <- Hbody, Hcrc, le_bytes_le_read by done. unfold slice.
    rewrite (take_ge (drop _ _)) by (rewrite length_drop; lia). by rewrite take_drop.
Qed.

(** * Lemmas: payloads *)

Definition field_bytes (f : Field) : bytes :=
  [fld_id f; fld_type f] ++ le_bytes 4 (Z.of_nat (length (fld_value f))) ++ fld_value f.
Record field_ok (f : Field) : Prop := {
  fo_id : u8 (fld_id f); fo_type : 0 <= fld_type f <= 7; fo_value : are_bytes (fld_value f);
  fo_size : Z.of_nat (length (fld_value f)) <= kMaxFramePayload }.

(** What the reader needs of a field to find its end. *)
Definition field_shape (f : Field) : Prop :=
  0 <= fld_type f <= 7 /\ Z.of_nat (length (fld_value f)) <= kMaxFramePayload.

Lemma parse_field_bytes fuel f rest :
  field_shape f ->
  parse_fields (S fuel) (field_bytes f ++ rest) = fs ← parse_fields fuel rest; Ok (f :: fs).
Proof.
  intros [Hty Hsz]. set (d := field_bytes f ++ rest).
  assert (length d = 6 + length (fld_value f) + length rest)%nat as Hlen
    by (unfold d, field_bytes; rewrite !length_app, le_bytes_length; simpl; lia).
  assert (slice d 2 4 = le_bytes 4 (Z.of_nat (length (fld_value f)))) as H2 by reflexivity.
  assert (byte_at d 1 = fld_type f) as H1 by reflexivity.
  assert (drop 6 d = fld_value f ++ rest) as H6 by reflexivity.
  assert (drop (6 + length (fld_value f)) d = rest) as H7 by (rewrite <- drop_drop, H6; apply drop_app_length).
  change d with (fld_id f :: tail d). cbn [parse_fields]. change (fld_id f :: tail d) with d. clearbody d.
  rewrite Hlen, H1, H2, H6, le_read_le_bytes. change kMaxFramePayload with 16777216 in *.
  rewrite Z.mod_small by (simpl; lia). rewrite Nat2Z.id, H7. unfold slice. rewrite H6, take_app_length.
  destruct (Nat.ltb_spec (6 + length (fld_value f) + length rest) 6); [lia |].
  destruct (Z.ltb_spec 7 (fld_type f)); [lia |].
  destruct (Z.ltb_spec 16777216 (Z.of_nat (length (fld_value f)))); [lia |].
  destruct (Z.ltb_spec (Z.of_nat (length (fld_value f ++ rest))) (Z.of_nat (length (fld_value f)))) as [Hlt |];
    [rewrite length_app in Hlt; lia |]. by destruct f.
Qed.

Lemma parse_fields_shape fuel fs :
  (length (flat_map field_bytes fs) <= fuel)%nat -> Forall field_shape fs -> parse_fields fuel (flat_map field_bytes fs) = Ok fs.
Proof.
  intros Hf Hok. revert fuel Hf. induction Hok as [| f fs Hfo _ IH]; intros fuel Hf; [by destruct fuel |].
  cbn [flat_map] in *. rewrite length_app in Hf.
  assert (6 <= length (field_bytes f))%nat as H6 by (unfold field_bytes; rewrite !length_app, le_bytes_length; simpl; lia).
  destruct fuel as [| fuel]; [lia |]. rewrite parse_field_bytes by done. rewrite IH by lia. done.
Qed.

Lemma parse_fields_complete fuel fs :
  (length (flat_map field_bytes fs) <= fuel)%nat -> Forall field_ok fs -> parse_fields fuel (flat_map field_bytes fs) = Ok fs.
Proof. intros Hf Hok. apply parse_fields_shape; [done |]. eapply Forall_impl; [exact Hok |]. intros f [_ ? _ ?]. by split. Qed.

Lemma parse_fields_sound fuel data :
  are_bytes data -> (length data <= fuel)%nat ->
  match parse_fields fuel data with
  | Ok fs => Forall field_ok fs /\ data = flat_map field_bytes fs
  | Throw e => exists w, e = ProtocolError w
  end.
Proof.
  revert data. induction fuel as [| fuel IH]; intros data Hb Hf.
  { destruct data; [done | simpl in Hf; lia]. }
  destruct data as [| id data']; [done |]. cbn [parse_fields]. set (d := id :: data') in *.
  destruct (Nat.ltb_spec (length d) 6) as [| H6]; [by eexists |].
  assert (are_bytes (slice d 2 4) /\ length (slice d 2 4) = 4%nat) as [Bs Ls].
  { split; [by apply Forall_take, Forall_drop |]. unfold slice. rewrite length_take, length_drop. lia. }
  set (size := le_read 0 0 (slice d 2 4)) in *.
  assert (0 <= size) as Hs by (apply (le_read_range 0); [done | simpl; lia]).
  destruct (Z.ltb_spec 7 (byte_at d 1)) as [| H7]; [by eexists |].
  destruct (Z.ltb_spec kMaxFramePayload size) as [| Hmax]; [by eexists |].
  destruct (Z.ltb_spec (Z.of_nat (length (drop 6 d))) size) as [| Hle]; [by eexists |].
  rewrite length_drop in Hle. specialize (IH (drop (6 + Z.to_nat size) d)).
  unfold mbind, result_bind. destruct (parse_fields fuel _) as [fs | e]; cycle 1.
  { apply IH; [by apply Forall_drop |]. rewrite length_drop. lia. }
  destruct IH as [Hfs Hd]; [by apply Forall_drop | rewrite length_drop; lia |].
  assert (length (slice d 6 (Z.to_nat size)) = Z.to_nat size) as Lv by (unfold slice; rewrite length_take, length_drop; lia).
  split.
  - constructor; [| done]. split; cbn [fld_id fld_type fld_value].
    + by inversion Hb.
    + split; [| done]. unfold byte_at. destruct (d !! 1%nat) as [b |] eqn:E; [| done].
      assert (u8 b) as [? _]; [| done]. unfold are_bytes in Hb. rewrite Forall_lookup in Hb. by apply (Hb 1%nat).
    + by apply Forall_take, Forall_drop.
    + rewrite Lv. lia.
  - cbn [flat_map]. rewrite <- Hd. unfold field_bytes. cbn [fld_id fld_type fld_value].
    rewrite Lv, Z2Nat.id by done. unfold size at 1. rewrite le_bytes_le_read by done.
    change (drop (6 + Z.to_nat size) d) with (drop (6 + Z.to_nat size) d).
    rewrite <- drop_drop, <- app_assoc, <- app_assoc. unfold slice at 2. rewrite take_drop.
    clear -H6. unfold d in *. do 5 (destruct data' as [| ? data']; [simpl in H6; lia |]). done.
Qed.

(** A typed value and its field, as the writer lays it out. *)
Inductive Value : Type :=
  | VU8 (v : Z) | VU32 (v : Z) | VU64 (v : Z) | VBool (v : bool) | VI64 (v : Z) | VF64 (v : double)
  | VStr (v : string) | VBytes (v : bytes).

Definition write_value (field : Z) (v : Value) : Writer unit :=
  match v with
  | VU8 z => w_u8 field z | VU32 z => w_u32 field z | VU64 z => w_u64 field z | VBool b => w_bool field b
  | VI64 z => w_i64 field z | VF64 z => w_f64 field z | VStr s => w_str field s | VBytes bs => w_bytes field bs
  end.
Fixpoint write_values (l : list (Z * Value)) : Writer unit :=
  match l with
  | [] => mret tt
  | (field, v) :: l' => _ ← write_value field v; write_values l'
  end.

Definition value_typed (v : Value) : Prop :=
  match v with
  | VU8 z => u8 z | VU32 z => u32 z | VU64 z | VF64 z => u64 z | VI64 z => - 2 ^ 63 <= z < 2 ^ 63
  | VBytes bs => are_bytes bs | VBool _ | VStr _ => True
  end.

(** The accessor of the value's type returns it. *)
Definition reads (fs : list Field) (field : Z) (v : Value) : Prop :=
  match v with
  | VU8 z => p_u8 fs field = Ok z | VU32 z => p_u32 fs field = Ok z | VU64 z => p_u64 fs field = Ok z
  | VBool b => p_bool fs field = Ok b | VI64 z => p_i64 fs field = Ok z | VF64 z => p_f64 fs field = Ok z
  | VStr s => p_str fs field = Ok s | VBytes bs => p_bytes fs field = Ok bs
  end.

Definition field_of (p : Z * Value) : Field :=
  let '(id, v) := p in
  match v with
  | VU8 z => mkField id 0 [z] | VU32 z => mkField id 1 (le_bytes 4 z) | VU64 z => mkField id 2 (le_bytes 8 z)
  | VBool b => mkField id 3 [if b then 1 else 0] | VI64 z => mkField id 4 (le_bytes 8 (wrap64 z))
  | VF64 z => mkField id 5 (le_bytes 8 z) | VStr s => mkField id 6 (string_bytes s) | VBytes bs => mkField id 7 bs
  end.

Lemma field_of_id p : fld_id (field_of p) = p.1.
Proof. by destruct p as [id []]. Qed.

Lemma field_of_ok id v :
  u8 id -> value_typed v -> Z.of_nat (length (field_bytes (field_of (id, v)))) <= kMaxFramePayload ->
  field_ok (field_of (id, v)).
Proof.
  intros Hid Ht Hsz. assert (Z.of_nat (length (fld_value (field_of (id, v)))) <= kMaxFramePayload) as Hs.
  { revert Hsz. unfold field_bytes. rewrite !length_app, le_bytes_length. lia. }
  split; [by rewrite field_of_id | by destruct v; simpl | | done].
  destruct v as [z | z | z | [] | z | z | s | bs]; simpl in *; auto using le_bytes_are_bytes, string_bytes_are_bytes;
    (apply Forall_cons_2; [| apply Forall_nil_2]); try done; unfold u8; lia.
Qed.

(** Every typed [put] method appends its field, when the result fits. *)
Lemma write_value_ok b id v :
  Z.of_nat (length (b ++ field_bytes (field_of (id, v)))) <= kMaxFramePayload ->
  write_value id v b = (b ++ field_bytes (field_of (id, v)), Ok tt).
Proof.
  intros Hsz.
  assert (forall ty n bs, Z.of_nat (length bs) = n -> field_of (id, v) = mkField id ty bs ->
    (_ ← field_header id ty n; w_append bs) b = (b ++ field_bytes (field_of (id, v)), Ok tt)) as Hf.
  { intros ty n bs <- E. rewrite E in *. unfold field_header, w_append, modify, mbind, st_bind. cbv beta zeta.
    unfold field_bytes in *. cbn [fld_id fld_type fld_value] in *.
    rewrite !length_app, le_bytes_length in Hsz. rewrite !length_app, le_bytes_length.
    destruct (Z.ltb_spec kMaxFramePayload (Z.of_nat (length b + (length [id; ty] + 4)))); [lia |].
    by rewrite <- !app_assoc. }
  assert (forall n, (n <= length (fld_value (field_of (id, v))))%nat -> Z.ltb kMaxFramePayload (Z.of_nat n) = false) as Hn.
  { intros n Hle. apply Z.ltb_ge. revert Hsz. unfold field_bytes. rewrite !length_app. lia. }
  destruct v; cbn [write_value]; try (apply Hf; [by rewrite ?le_bytes_length | done]).
  - unfold w_str. rewrite Hn by (simpl; by rewrite string_bytes_length). apply Hf; [by rewrite string_bytes_length | done].
  - unfold w_bytes. rewrite Hn by done. by apply Hf.
Qed.

Lemma write_values_ok l b :
  Z.of_nat (length (b ++ flat_map field_bytes (field_of <$> l))) <= kMaxFramePayload ->
  write_values l b = (b ++ flat_map field_bytes (field_of <$> l), Ok tt).
Proof.
  revert b. induction l as [| [id v] l IH]; intros b Hsz; simpl; [by rewrite app_nil_r |].
  rewrite fmap_cons in Hsz. cbn [flat_map] in Hsz. rewrite app_assoc in Hsz.
  unfold mbind, st_bind. rewrite write_value_ok by (rewrite length_app in Hsz; lia).
  rewrite IH by done. by rewrite <- app_assoc.
Qed.

Lemma find_field_of l id v : NoDup l.*1 -> (id, v) ∈ l -> find_field (field_of <$> l) id = Some (field_of (id, v)).
Proof.
  intros Hnd Hin. unfold find_field. induction l as [| [id' v'] l IH]; [by apply elem_of_nil in Hin |].
  rewrite fmap_cons. apply NoDup_cons in Hnd as [Hn Hnd]. cbn [find_first]. rewrite field_of_id. cbn [fst] in *.
  apply elem_of_cons in Hin as [[= <- <-] | Hin]; [by rewrite Z.eqb_refl |].
  destruct (Z.eqb_spec id' id) as [-> |]; [| by apply IH]. destruct Hn. apply list_elem_of_fmap. by exists (id, v).
Qed.

Lemma reads_field_of fs id v : value_typed v -> find_field fs id = Some (field_of (id, v)) -> reads fs id v.
Proof.
  intros Ht Hf. destruct v as [z | z | z | [] | z | z | s | bs]; cbn [reads value_typed field_of] in *;
    unfold p_u8, p_u32, p_u64, p_bool, p_i64, p_f64, p_str, p_bytes, field_value; rewrite Hf; cbn [fld_type fld_value];
    rewrite ?le_bytes_length; cbn [Z.eqb Nat.eqb Pos.eqb negb orb length]; unfold mbind, result_bind; try done;
    f_equal; rewrite ?le_read_le_bytes.
  - apply Z.mod_small. unfold u32 in Ht. simpl. lia.
  - apply Z.mod_small. unfold u64 in Ht. simpl. lia.
  - change (2 ^ (8 * Z.of_nat 8)) with (2 ^ 64). unfold wrap64. rewrite Z.mod_mod by lia. by apply to_int64_wrap.
  - apply Z.mod_small. unfold u64 in Ht. simpl. lia.
  - apply string_bytes_roundtrip.
Qed.

Lemma fields_of_ok l :
  Forall (fun p => u8 p.1 /\ value_typed p.2) l ->
  Z.of_nat (length (flat_map field_bytes (field_of <$> l))) <= kMaxFramePayload -> Forall field_ok (field_of <$> l).
Proof.
  induction 1 as [| [id v] l [Hid Ht] _ IH]; [constructor |]. rewrite fmap_cons. cbn [flat_map]. rewrite length_app.
  intros Hsz. constructor; [apply field_of_ok; [done | done | lia] | apply IH; lia].
Qed.

(** Receiving a length-prefixed byte string. *)
Lemma recv_sent (b rest : bytes) :
  Z.of_nat (length b) <= kMaxFramePayload + 64 ->
  recv_frame ((le_bytes 4 (wrap32 (Z.of_nat (length b))) ++ b) ++ rest) =
  (rest, match decode_frame b with Ok f => Some f | Throw _ => None end).
Proof.
  intros Hb. unfold recv_frame. change kMaxFramePayload with 16777216 in *.
  rewrite <- app_assoc. rewrite length_app, le_bytes_length.
  destruct (Nat.ltb_spec (4 + length (b ++ rest)) 4); [lia |].
  rewrite (take_app_length' (le_bytes 4 _)), (drop_app_length' (le_bytes 4 _)) by (by rewrite le_bytes_length).
  rewrite le_read_le_bytes. unfold wrap32. change (2 ^ (8 * Z.of_nat 4)) with (2 ^ 32). rewrite Z.mod_mod, Z.mod_small by lia.
  destruct (Z.ltb_spec (16777216 + 64) (Z.of_nat (length b))); [lia |]. rewrite length_app.
  destruct (Z.ltb_spec (Z.of_nat (length b + length rest)) (Z.of_nat (length b))); [lia |].
  by rewrite Nat2Z.id, take_app_length, drop_app_length.
Qed.

Lemma decode_frame_throws data :
  (exists f, decode_frame data = Ok f) \/ exists w, decode_frame data = Throw (ProtocolError w).
Proof. unfold decode_frame. repeat case_match; eauto. Qed.

(** The byte at a position inside the first of two concatenated strings. *)
Lemma split_at_byte (d1 d2 : bytes) b (l1 l2 : bytes) :
  (length d1 < length l1)%nat -> d1 ++ b :: d2 = l1 ++ l2 -> exists r, l1 = d1 ++ b :: r /\ d2 = r ++ l2.
Proof.
  intros Hlt E. apply app_eq_inv in E as [(k & -> & E) | (k & -> & E)]; [rewrite length_app in Hlt; lia |].
  destruct k as [| x k]; [rewrite app_nil_r in Hlt; lia |]. injection E as <- ->. by exists k.
Qed.

(** * Theorems *)

(** C39: [decode_frame] and [encode_frame] are inverse, and the format is canonical: a byte
    string decodes to a frame exactly when it is the encoding of that frame and the
    payload has at least five bytes.  So such frames survive the round trip, and no
    other byte string (another magic, version, length, checksum, an unknown message
    type, trailing bytes) is ever accepted. *)
Theorem frame_roundtrip (data : bytes) (f : Frame) :
  are_bytes data ->
  decode_frame data = Ok f <->
  frame_typed f /\ (5 <= length (fr_payload f))%nat /\ encode_frame f = Ok data.
Proof.
  intros Hb. unfold encode_frame. split.
  - intros (Ht & Hmax & Hmin & Hd)%decode_frame_ok; [| done].
    destruct (Z.ltb_spec kMaxFramePayload (Z.of_nat (length (fr_payload f)))); [lia |]. by rewrite <- Hd.
  - intros (Ht & Hmin & He). destruct (Z.ltb_spec kMaxFramePayload (Z.of_nat (length (fr_payload f)))); [done |].
    injection He as <-. by apply decode_frame_body.
Qed.

(** Any single corrupted byte of a frame is detected, wherever it is: in the header,
    the payload or the checksum itself. *)
Theorem frame_detects_corrupt_byte (d1 d2 : bytes) (b b' : Z) (f : Frame) :
  are_bytes d1 -> are_bytes d2 -> u8 b -> u8 b' -> b <> b' ->
  decode_frame (d1 ++ b :: d2) = Ok f -> exists w, decode_frame (d1 ++ b' :: d2) = Throw (ProtocolError w).
Proof.
  intros H1 H2 Hb Hb' Hne Hd.
  destruct (decode_frame_throws (d1 ++ b' :: d2)) as [[f' Hd'] | ?]; [exfalso | done].
  assert (forall c, u8 c -> are_bytes (d1 ++ c :: d2)) as Hall by (intros; apply Forall_app; split; [done | by constructor]).
  apply decode_frame_ok in Hd as (Ht & _ & _ & E); [| by apply Hall].
  apply decode_frame_ok in Hd' as (Ht' & _ & _ & E'); [| by apply Hall].
  assert (length (frame_body f) = length (frame_body f')) as Hlen.
  { apply (f_equal length) in E, E'. rewrite !length_app, le_bytes_length in E, E'.
    rewrite length_cons in E, E'. lia. }
  destruct (decide (length d1 < length (frame_body f))%nat) as [Hin | Hout].
  - destruct (split_at_byte d1 d2 b _ _ Hin E) as (r & Er & Ec).
    rewrite Hlen in Hin. destruct (split_at_byte d1 d2 b' _ _ Hin E') as (r' & Er' & Ec').
    assert (r' = r /\ crc32 (frame_body f) = crc32 (frame_body f')) as [-> Hcrc].
    { rewrite Ec in Ec'. apply app_inj_2 in Ec' as [-> Hc]; [| by rewrite !le_bytes_length]. split; [done |].
      apply (f_equal (le_read 0 0)) in Hc. rewrite !le_read_le_bytes in Hc.
      rewrite !Z.mod_small in Hc by (apply crc32_u32; by apply frame_body_bytes). done. }
    rewrite Er, Er' in Hcrc. revert Hcrc. apply crc32_detects_byte; try done.
    apply (f_equal are_bytes) in Er. pose proof (frame_body_bytes f Ht) as Hfb. rewrite Er in Hfb.
    apply Forall_app in Hfb as [_ Hfb]. by inversion Hfb.
  - assert (frame_body f = frame_body f') as Hbody.
    { rewrite <- (take_app_length (frame_body f) (le_bytes 4 (crc32 (frame_body f)))), <- E.
      rewrite <- (take_app_length (frame_body f') (le_bytes 4 (crc32 (frame_body f')))), <- E'.
      rewrite Hlen, !take_app_le by lia. done. }
    rewrite Hbody in E. rewrite <- E' in E. apply app_inv_head in E. congruence.
Qed.

(** Frames sent one after another on a stream arrive one by one, in order and
    unchanged, and nothing of the stream is lost. *)
Theorem stream_delivers_in_order (f : Frame) (rest : bytes) :
  frame_typed f -> (5 <= length (fr_payload f))%nat -> Z.of_nat (length (fr_payload f)) <= kMaxFramePayload ->
  exists bs, send_frame f = Ok bs /\ recv_frame (bs ++ rest) = (rest, Some f).
Proof.
  intros Ht Hmin Hmax. unfold send_frame, encode_frame.
  destruct (Z.ltb_spec kMaxFramePayload (Z.of_nat (length (fr_payload f)))); [lia |].
  set (b := frame_body f ++ le_bytes 4 (crc32 (frame_body f))).
  assert (length b = 26 + length (fr_payload f))%nat as Hlen
    by (unfold b; rewrite length_app, frame_body_length, le_bytes_length; lia).
  assert (decode_frame b = Ok f) as Hd by by apply decode_frame_body.
  eexists. split; [reflexivity |]. rewrite recv_sent by (change kMaxFramePayload with 16777216 in *; lia). by rewrite Hd.
Qed.

(** A frame with a payload of fewer than five bytes, which [encode_frame] accepts, is
    never received: [decode_frame] refuses it as too short and [recv_frame] reports
    no frame, although the smallest frame has 26 bytes and not 31. *)
Theorem short_frames_are_lost (f : Frame) (rest : bytes) :
  (length (fr_payload f) < 5)%nat ->
  exists b bs, encode_frame f = Ok b /\ decode_frame b = Throw (ProtocolError "frame too short") /\
    send_frame f = Ok bs /\ recv_frame (bs ++ rest) = (rest, None).
Proof.
  intros Hs. unfold send_frame, encode_frame. change kMaxFramePayload with 16777216 in *.
  destruct (Z.ltb_spec 16777216 (Z.of_nat (length (fr_payload f)))); [lia |].
  set (b := frame_body f ++ le_bytes 4 (crc32 (frame_body f))).
  assert (length b = 26 + length (fr_payload f))%nat as Hlen
    by (unfold b; rewrite length_app, frame_body_length, le_bytes_length; lia).
  clearbody b. assert (decode_frame b = Throw (ProtocolError "frame too short")) as Hd.
  { unfold decode_frame. destruct (Nat.ltb_spec (length b) 31); [done | lia]. }
  eexists _, _. split; [reflexivity |]. split; [done |]. split; [reflexivity |].
  rewrite recv_sent by (change kMaxFramePayload with 16777216; lia). by rewrite Hd.
Qed.

(** The payload reader accepts exactly the byte strings that are a sequence of
    well-formed fields (type at most 7, size within the bound, nothing left over) and
    returns those fields in order; on any other input it throws [ProtocolError], and
    its loop always ends. *)
Theorem payload_reader_exact (data : bytes) (fs : list Field) :
  are_bytes data ->
  (payload_reader data = Ok fs <-> Forall field_ok fs /\ data = flat_map field_bytes fs) /\
  (forall e, payload_reader data = Throw e -> exists w, e = ProtocolError w).
Proof.
  intros Hb. pose proof (parse_fields_sound (length data) data Hb (le_n _)) as H. fold (payload_reader data) in H. split.
  - split; [intros E; by rewrite E in H |]. intros [Hok ->]. by apply parse_fields_complete.
  - intros e E. by rewrite E in H.
Qed.

(** C40: What a [PayloadWriter] writes a [PayloadReader] reads: for any sequence of typed
    fields with distinct numbers whose encoding fits in a frame, writing succeeds,
    the reader accepts the bytes, and each accessor returns the value written under
    its number. *)
Theorem payload_roundtrip (l : list (Z * Value)) :
  NoDup l.*1 -> Forall (fun p => u8 p.1 /\ value_typed p.2) l ->
  Z.of_nat (length (flat_map field_bytes (field_of <$> l))) <= kMaxFramePayload ->
  exists data fs, write_values l [] = (data, Ok tt) /\ payload_reader data = Ok fs /\
    forall id v, (id, v) ∈ l -> reads fs id v /\ has_field fs id = true.
Proof.
  intros Hnd Ht Hsz. exists (flat_map field_bytes (field_of <$> l)), (field_of <$> l). split_and!.
  - by rewrite write_values_ok.
  - apply parse_fields_complete; [done |]. by apply fields_of_ok.
  - intros id v Hin. pose proof (find_field_of l id v Hnd Hin) as Hf. rewrite Forall_forall in Ht. split.
    + apply reads_field_of; [by apply (Ht (id, v)) | done].
    + unfold has_field. rewrite Hf. by apply bool_decide_true.
Qed.

(** * Witnesses *)

Module ProtocolWitness.
Definition hello : Frame := mkFrame MsgType.HELLO 7 3 [1; 2; 3; 4; 5].
Definition wire : bytes := match encode_frame hello with Ok b => b | Throw _ => [] end.
Definition shutdown : Frame := mkFrame MsgType.SHUTDOWN 8 3 [].
Definition fields : list (Z * Value) := [(1, VU64 42); (2, VStr "gpu0"); (3, VBool true); (4, VI64 (-5))].

Lemma hello_typed : frame_typed hello.
Proof. split; unfold u32, u64; simpl; [lia | lia |]. repeat constructor; unfold u8; lia. Qed.
Lemma wire_bytes : are_bytes wire.
Proof. vm_compute. repeat constructor; discriminate. Qed.
End ProtocolWitness.

Lemma frame_roundtrip_witness : decode_frame ProtocolWitness.wire = Ok ProtocolWitness.hello.
Proof.
  apply (frame_roundtrip ProtocolWitness.wire ProtocolWitness.hello ProtocolWitness.wire_bytes). split_and!.
  - exact ProtocolWitness.hello_typed.
  - simpl. lia.
  - vm_compute. reflexivity.
Defined.

Lemma frame_detects_corrupt_byte_witness :
  exists w, decode_frame (take 23 ProtocolWitness.wire ++ 99 :: drop 24 ProtocolWitness.wire) = Throw (ProtocolError w).
Proof.
  apply (frame_detects_corrupt_byte (take 23 ProtocolWitness.wire) (drop 24 ProtocolWitness.wire) 2 99 ProtocolWitness.hello).
  - apply Forall_take, ProtocolWitness.wire_bytes.
  - apply Forall_drop, ProtocolWitness.wire_bytes.
  - unfold u8; lia.
  - unfold u8; lia.
  - lia.
  - vm_compute. reflexivity.
Defined.

Lemma stream_delivers_in_order_witness :
  exists bs, send_frame ProtocolWitness.hello = Ok bs /\ recv_frame (bs ++ [9; 9]) = ([9; 9], Some ProtocolWitness.hello).
Proof.
  apply (stream_delivers_in_order ProtocolWitness.hello [9; 9] ProtocolWitness.hello_typed).
  - simpl. lia.
  - vm_compute. discriminate.
Defined.

Lemma short_frames_are_lost_witness :
  exists b bs, encode_frame ProtocolWitness.shutdown = Ok b /\
    decode_frame b = Throw (ProtocolError "frame too short") /\
    send_frame ProtocolWitness.shutdown = Ok bs /\ recv_frame (bs ++ []) = ([], None).
Proof. apply (short_frames_are_lost ProtocolWitness.shutdown []). simpl. lia. Defined.

Lemma payload_reader_exact_witness : payload_reader [1; 0; 1; 0; 0; 0; 77] = Ok [mkField 1 0 [77]].
Proof.
  apply (payload_reader_exact [1; 0; 1; 0; 0; 0; 77] [mkField 1 0 [77]]).
  - repeat constructor; unfold u8; lia.
  - split; [| vm_compute; reflexivity]. constructor; [| constructor].
    split; simpl; [unfold u8; lia | lia | repeat constructor; unfold u8; lia | vm_compute; discriminate].
Defined.

Lemma payload_roundtrip_witness :
  exists data fs, write_values ProtocolWitness.fields [] = (data, Ok tt) /\ payload_reader data = Ok fs /\
    forall id v, (id, v) ∈ ProtocolWitness.fields -> reads fs id v /\ has_field fs id = true.
Proof.
  apply (payload_roundtrip ProtocolWitness.fields).
  - apply (bool_decide_eq_true (NoDup ProtocolWitness.fields.*1)). vm_compute. reflexivity.
  - repeat constructor; simpl; unfold u8, u64; try lia.
  - vm_compute. discriminate.
Defined.
