(* ===== verification/Sockets.v ===== *)
(** The socket helpers (net/socket_util.hpp): the loops that send and receive every byte of a
    buffer through an operating system that takes and gives any number of bytes at a time,
    frames over them, and the opening of sockets.

    The operating system is a parameter, the class [SocketApi]: its calls on a world [W],
    with the integers they return.  [StreamLaws] and [FdLaws] state what is relied on of
    it: a stream socket appends a prefix of what it is given to the outgoing stream and
    gives a prefix of the incoming one; sockets are open from [socket] to [close]. *)

From Equations Require Import Equations.
From stdpp Require Import base list gmap strings.
From Stdlib Require Import ZArith Lia.
From S2P Require Import Prelude Bytes Codec Protocol.

Open Scope Z_scope.

(** * The operating system *)

(** [sockaddr_in]: the address in host byte order and the port. *)
Record SockAddr : Type := mkSockAddr { sin_addr : Z; sin_port : Z }.
Definition INADDR_LOOPBACK : Z := 0x7F000001.
Definition kInvalidSocket : Z := -1.

Class SocketApi (W : Type) := {
  sys_socket : W -> W * Z;
  sys_setsockopt_reuseaddr : Z -> W -> W;
  sys_bind : Z -> SockAddr -> W -> W * Z;
  sys_listen : Z -> Z -> W -> W * Z;
  sys_connect : Z -> SockAddr -> W -> W * Z;
  sys_accept : Z -> W -> W * Z;
  sys_getsockname_port : Z -> W -> option Z;
  sys_inet_pton : string -> option Z;
  sys_close : Z -> W -> W;
  (** The number of the offered bytes that were taken, as it is returned. *)
  sys_send : Z -> bytes -> W -> W * Z;
  (** The bytes given, at most the number asked for; the call returns their number, so
      [Some []] is the end of the stream, and -1 for [None]. *)
  sys_recv : Z -> nat -> W -> W * option bytes }.

(** * The loops *)

Section sockets.
Context {W : Type} `{Api : SocketApi W}.

Equations? send_from (s : Z) (data : bytes) (off : nat) (w : W) : W * bool by wf (length data - off)%nat lt :=
  send_from s data off w with lt_dec off (length data) => {
    | right _ := (w, true);
    | left _ with sys_send s (drop off data) w => {
      | (w', n) with Z_le_dec n 0 => {
        | left _ := (w', false);
        | right _ := send_from s data (off + Z.to_nat n) w' } } }.
Proof. lia. Qed.
Definition send_all (s : Z) (data : bytes) : W -> W * bool := send_from s data 0.

(** The bytes received so far; the result is the buffer, when it is full. *)
Definition returned (x : option bytes) : Z := match x with Some b => Z.of_nat (length b) | None => -1 end.
Equations? recv_from (s : Z) (n : nat) (got : bytes) (w : W) : W * option bytes by wf (n - length got)%nat lt :=
  recv_from s n got w with lt_dec (length got) n => {
    | right _ := (w, Some got);
    | left _ with sys_recv s (n - length got) w => {
      | (w', x) with Z_le_dec (returned x) 0 => {
        | left _ := (w', None);
        | right _ := recv_from s n (got ++ default [] x) w' } } }.
Proof. rewrite length_app. destruct x as [b |]; simpl in *; lia. Qed.
Definition recv_all (s : Z) (n : nat) : W -> W * option bytes := recv_from s n [].

(** * Frames *)

Definition net_send_frame (s : Z) (f : Frame) : ST W bool := fun w =>
  match encode_frame f with
  | Throw e => (w, Throw e)
  | Ok b =>
    let hdr := le_bytes 4 (wrap32 (Z.of_nat (length b))) in
    match send_all s hdr w with
    | (w, false) => (w, Ok false)
    | (w, true) => let '(w, ok) := send_all s b w in (w, Ok ok)
    end
  end.

Definition net_recv_frame (s : Z) (w : W) : W * option Frame :=
  match recv_all s 4 w with
  | (w, None) => (w, None)
  | (w, Some hdr) =>
    let len := le_read 0 0 hdr in
    if Z.ltb (kMaxFramePayload + 64) len then (w, None)
    else match recv_all s (Z.to_nat len) w with
    | (w, None) => (w, None)
    | (w, Some b) => (w, match decode_frame b with Ok f => Some f | Throw _ => None end)
    end
  end.

(** * Opening *)

Definition close_socket (s : Z) : W -> W := sys_close s.

Definition tcp_listen (port : Z) (w : W) : W * Z :=
  let '(w, s) := sys_socket w in
  if Z.eqb s kInvalidSocket then (w, kInvalidSocket)
  else
    let w := sys_setsockopt_reuseaddr s w in
    let addr := mkSockAddr INADDR_LOOPBACK port in
    let '(w, r) := sys_bind s addr w in
    if negb (Z.eqb r 0) then (close_socket s w, kInvalidSocket)
    else
      let '(w, r) := sys_listen s 16 w in
      if negb (Z.eqb r 0) then (close_socket s w, kInvalidSocket)
      else (w, s).

(** The zero of the address when [getsockname] fails. *)
Definition tcp_listen_port (s : Z) (w : W) : Z := default 0 (sys_getsockname_port s w).
Definition tcp_accept (s : Z) : W -> W * Z := sys_accept s.

(** The result of [inet_pton] is not looked at: a host that is no address is 0.0.0.0. *)
Definition tcp_connect (host : string) (port : Z) (w : W) : W * Z :=
  let '(w, s) := sys_socket w in
  if Z.eqb s kInvalidSocket then (w, kInvalidSocket)
  else
    let addr := mkSockAddr (default 0 (sys_inet_pton host)) port in
    let '(w, r) := sys_connect s addr w in
    if negb (Z.eqb r 0) then (close_socket s w, kInvalidSocket)
    else (w, s).
End sockets.

(** * What is relied on *)

(** The two streams of a socket.  [incoming] is everything the peer will ever send. *)
Class StreamLaws (W : Type) `{Api : SocketApi W} := {
  outgoing : Z -> W -> bytes;
  incoming : Z -> W -> bytes;
  law_send s d w w' n : sys_send s d w = (w', n) ->
    n <= Z.of_nat (length d) /\ outgoing s w' = outgoing s w ++ take (Z.to_nat n) d /\ incoming s w' = incoming s w;
  law_recv s n w w' x : sys_recv s n w = (w', x) ->
    let b := default [] x in (length b <= n)%nat /\ incoming s w = b ++ incoming s w' /\ outgoing s w' = outgoing s w }.

(** The receiver gets something as long as there is something. *)
Definition reliable {W} `{StreamLaws W} (s : Z) : Prop :=
  forall n w, (0 < n)%nat -> incoming s w <> [] -> 0 < returned (sys_recv s n w).2.

(** The open sockets. *)
Class FdLaws (W : Type) `{Api : SocketApi W} := {
  open_fds : W -> gset Z;
  law_socket w w' s : sys_socket w = (w', s) ->
    (s = kInvalidSocket /\ open_fds w' = open_fds w) \/
    (s <> kInvalidSocket /\ s ∉ open_fds w /\ open_fds w' = {[ s ]} ∪ open_fds w);
  law_setsockopt s w : open_fds (sys_setsockopt_reuseaddr s w) = open_fds w;
  law_bind s a w w' r : sys_bind s a w = (w', r) -> open_fds w' = open_fds w;
  law_listen s n w w' r : sys_listen s n w = (w', r) -> open_fds w' = open_fds w;
  law_connect s a w w' r : sys_connect s a w = (w', r) -> open_fds w' = open_fds w;
  law_close s w : open_fds (sys_close s w) = open_fds w ∖ {[ s ]} }.

(** * Lemmas *)

Section streams.
Context {W : Type} `{Laws : StreamLaws W}.
Implicit Types (w : W).

(** Sending: a prefix of the data is on the stream, and all of it if the loop says so. *)
Lemma send_from_spec s data off w w' ok :
  (off <= length data)%nat -> send_from s data off w = (w', ok) ->
  exists n, (off <= n <= length data)%nat /\ outgoing s w' = outgoing s w ++ take (n - off) (drop off data) /\
    incoming s w' = incoming s w /\ (ok = true -> n = length data).
Proof.
  funelim (send_from s data off w); intros Hoff Hr; clear Heqcall;
    try match goal with H : sys_send _ _ _ = _ |- _ => apply law_send in H as (Hn & Ho & Hi); rewrite length_drop in Hn end.
  - injection Hr as <- <-. exists off. rewrite Nat.sub_diag, take_0, app_nil_r. split_and!; try done; lia.
  - injection Hr as <- <-. exists off. rewrite Nat.sub_diag. replace (Z.to_nat n) with 0%nat in Ho by lia. split_and!; try done; lia.
  - match goal with IH : forall _ _, _ -> _ -> exists _, _ |- _ => destruct (IH _ _ ltac:(lia) Hr) as (m & Hm & Ho' & Hi' & Hok) end.
    exists m. split_and!; try lia; [| congruence | done].
    rewrite Ho', Ho, <- app_assoc. f_equal. rewrite <- drop_drop. set (d := drop off data).
    replace (m - off)%nat with (Z.to_nat n + (m - (off + Z.to_nat n)))%nat by lia. apply take_take_drop.
Qed.

Lemma send_all_spec s data w w' ok :
  send_all s data w = (w', ok) ->
  exists n, outgoing s w' = outgoing s w ++ take n data /\ incoming s w' = incoming s w /\ (n <= length data)%nat /\
    (ok = true -> n = length data).
Proof.
  intros (n & Hn & Ho & Hi & Hok)%send_from_spec; [| lia]. exists n. rewrite Nat.sub_0_r in Ho. split_and!; try done; lia.
Qed.

(** Receiving: the bytes in the buffer are those that left the stream. *)
Lemma recv_from_spec s n got w w' x :
  recv_from s n got w = (w', x) ->
  exists b, incoming s w = b ++ incoming s w' /\ outgoing s w' = outgoing s w /\ ((length got <= n)%nat -> (length (got ++ b) <= n)%nat) /\
    match x with Some g => g = got ++ b /\ ((length got <= n)%nat -> length g = n) | None => (length (got ++ b) < n)%nat end.
Proof.
  funelim (recv_from s n got w); intros Hr; clear Heqcall;
    try match goal with H : sys_recv _ _ _ = _ |- _ => apply law_recv in H as (Hn & Hi & Ho) end.
  - injection Hr as <- <-. exists []. rewrite app_nil_r. split_and!; try done. lia.
  - injection Hr as <- <-. exists (default [] x). rewrite length_app. split_and!; try done; [lia |]. destruct x as [b |]; simpl in *; lia.
  - match goal with IH : forall _ _, _ -> exists _, _ |- _ => destruct (IH _ _ Hr) as (b & Hi' & Ho' & Hl & Hx) end.
    rewrite length_app in Hl. exists (default [] x ++ b). rewrite Hi, Hi', Ho', Ho, !app_assoc. split_and!; try done.
    + rewrite length_app in *. intros Hg. apply Hl. lia.
    + destruct x0 as [g |]; [| done]. destruct Hx as [-> Hg]. split; [done |]. intros Hle. apply Hg. rewrite length_app. lia.
Qed.

Lemma recv_all_spec s n w w' x :
  recv_all s n w = (w', x) ->
  exists b, incoming s w = b ++ incoming s w' /\ outgoing s w' = outgoing s w /\ (length b <= n)%nat /\
    match x with Some g => g = b /\ length b = n | None => (length b < n)%nat end.
Proof.
  intros (b & Hi & Ho & Hl & Hx)%recv_from_spec. cbn [app length] in *. exists b. split_and!; try done; [apply Hl; lia |].
  destruct x as [g |]; [| done]. destruct Hx as [-> Hg]. split; [done |]. apply Hg. lia.
Qed.

(** A receiver that fails has the whole stream, when the socket is reliable. *)
Lemma recv_from_reliable s n got w w' :
  reliable s -> recv_from s n got w = (w', None) -> incoming s w' = [].
Proof.
  intros Hrel. funelim (recv_from s n got w); intros Hr; clear Heqcall; [done | | by eauto].
  injection Hr as <-. destruct (incoming s w') as [| z zs] eqn:E; [done | exfalso].
  match goal with H : sys_recv _ _ _ = _ |- _ => pose proof H as Hc; apply law_recv in H as (_ & Hi & _) end.
  assert (incoming s w <> []) as Hne by (rewrite Hi, E; destruct (default [] x); done).
  specialize (Hrel (n - length got)%nat w ltac:(lia) Hne). rewrite Hc in Hrel. simpl in Hrel. lia.
Qed.
End streams.

(** Sending a frame puts a prefix of its bytes on the stream, all of them on success. *)
Lemma net_send_frame_spec {W} `{Laws : StreamLaws W} s f (w w' : W) ok :
  net_send_frame s f w = (w', Ok ok) ->
  exists bs n, send_frame f = Ok bs /\ outgoing s w' = outgoing s w ++ take n bs /\ incoming s w' = incoming s w /\
    (ok = true -> take n bs = bs).
Proof.
  unfold net_send_frame, send_frame, mbind, result_bind. destruct (encode_frame f) as [b | e]; [| done].
  set (hdr := le_bytes 4 (wrap32 (Z.of_nat (length b)))).
  destruct (send_all s hdr w) as [w1 ok1] eqn:E1. destruct (send_all_spec _ _ _ _ _ E1) as (n1 & Ho1 & Hi1 & Hn1 & Hok1).
  destruct ok1; cycle 1.
  { intros [= <- <-]. exists (hdr ++ b), n1. split; [done |]. rewrite take_app_le by done. by split_and!. }
  destruct (send_all s b w1) as [w2 ok2] eqn:E2. destruct (send_all_spec _ _ _ _ _ E2) as (n2 & Ho2 & Hi2 & Hn2 & Hok2).
  intros [= <- <-]. specialize (Hok1 eq_refl). subst n1. exists (hdr ++ b), (length hdr + n2)%nat. split; [done |].
  rewrite take_app_add. split_and!.
  - by rewrite Ho2, Ho1, (take_ge hdr), app_assoc by done.
  - congruence.
  - intros Hok. rewrite take_ge by (specialize (Hok2 Hok); lia). done.
Qed.

(** Receiving a frame is [recv_frame] on the stream. *)
Lemma net_recv_frame_spec {W} `{Laws : StreamLaws W} s (w w' : W) x :
  net_recv_frame s w = (w', x) -> reliable s \/ is_Some x -> recv_frame (incoming s w) = (incoming s w', x).
Proof.
  intros Hr Hcond. unfold net_recv_frame in Hr. destruct (recv_all s 4 w) as [w1 x1] eqn:E1.
  destruct (recv_all_spec _ _ _ _ _ E1) as (b1 & Hi1 & _ & Hl1 & Hx1). unfold recv_frame. rewrite Hi1.
  destruct x1 as [hdr |]; cycle 1.
  { injection Hr as <- <-. destruct Hcond as [Hrel | [? [=]]]. rewrite (recv_from_reliable _ _ _ _ _ Hrel E1), app_nil_r.
    by rewrite (proj2 (Nat.ltb_lt _ _) Hx1). }
  destruct Hx1 as [-> Hlen]. rewrite <- Hlen, take_app_length, drop_app_length, length_app, Hlen.
  destruct (Nat.ltb_spec (4 + length (incoming s w1)) 4); [lia |]. cbv zeta in *.
  set (len := le_read 0 0 b1) in *. destruct (Z.ltb (kMaxFramePayload + 64) len); [by injection Hr as <- <- |].
  destruct (recv_all s (Z.to_nat len) w1) as [w2 x2] eqn:E2. destruct (recv_all_spec _ _ _ _ _ E2) as (b2 & Hi2 & _ & Hl2 & Hx2).
  rewrite Hi2. destruct x2 as [b |]; cycle 1.
  - injection Hr as <- <-. destruct Hcond as [Hrel | [? [=]]]. rewrite (recv_from_reliable _ _ _ _ _ Hrel E2), app_nil_r.
    destruct (Z.ltb_spec (Z.of_nat (length b2)) len); [done | lia].
  - injection Hr as <- <-. destruct Hx2 as [-> Hb]. rewrite length_app.
    destruct (Z.ltb_spec (Z.of_nat (length b2 + length (incoming s w2))) len); [lia |].
    by rewrite <- Hb, drop_app_length, take_app_length.
Qed.

(** * Theorems *)

(** C35: However the operating system cuts the streams into pieces, a frame of at least five
    payload bytes (at most [kMaxFramePayload], and whose fields fit their types) crosses
    the network whole.  When [send_frame] says it was sent, and the bytes that it appended
    to the outgoing stream are at the head of what a socket will receive that does not
    fail, [recv_frame] returns that frame, and leaves on the stream exactly what follows
    it.  A shorter frame is sent and never received: [short_frames_are_lost]. *)
Theorem frames_cross_the_network {W1 W2 : Type} `{L1 : StreamLaws W1} `{L2 : StreamLaws W2} (s r : Z) (f : Frame)
    (w w' : W1) (v : W2) (sent rest : bytes) :
  frame_typed f -> (5 <= length (fr_payload f))%nat -> Z.of_nat (length (fr_payload f)) <= kMaxFramePayload -> reliable (W := W2) r ->
  net_send_frame s f w = (w', Ok true) -> outgoing s w' = outgoing s w ++ sent -> incoming r v = sent ++ rest ->
  exists v', net_recv_frame r v = (v', Some f) /\ incoming r v' = rest.
Proof.
  intros Ht Hmin Hmax Hrel Hs Ho Hi. destruct (net_send_frame_spec _ _ _ _ _ Hs) as (bs & n & Hbs & Ho' & _ & Hall).
  rewrite (Hall eq_refl), Ho in Ho'. apply app_inv_head in Ho' as ->.
  destruct (stream_delivers_in_order f rest Ht Hmin Hmax) as (bs' & Hbs' & Hr). rewrite Hbs in Hbs'. injection Hbs' as <-.
  destruct (net_recv_frame r v) as [v' x] eqn:E. pose proof (net_recv_frame_spec _ _ _ _ E (or_introl Hrel)) as Hspec.
  rewrite Hi, Hr in Hspec. exists v'. injection Hspec as Hrest <-. by split.
Qed.

(** [recv_frame] returns nothing the peer did not send: on any socket, reliable or not,
    a frame it returns is the first frame of the stream, as [Protocol.recv_frame] reads
    it, and what it consumed is exactly that frame's bytes.  On a reliable socket the two
    agree on failures too. *)
Theorem received_frame_was_sent {W : Type} `{Laws : StreamLaws W} (s : Z) (w w' : W) (x : option Frame) :
  net_recv_frame s w = (w', x) ->
  (is_Some x -> recv_frame (incoming s w) = (incoming s w', x)) /\
  (reliable s -> recv_frame (incoming s w) = (incoming s w', x)).
Proof. intros H. split; intros; apply net_recv_frame_spec; auto. Qed.

(** Opening a socket leaks none: [tcp_listen] and [tcp_connect] return an open socket that was
    not open before, and then nothing else is opened, or they return the invalid socket
    and every socket they opened is closed; and a socket [tcp_listen] returns is bound to
    the loopback address, and listens. *)
Theorem opening_leaks_nothing {W : Type} `{Laws : FdLaws W} (host : string) (port s : Z) (w w' : W) :
  tcp_listen port w = (w', s) \/ tcp_connect host port w = (w', s) ->
  ((s = kInvalidSocket /\ open_fds w' = open_fds w) \/
   (s <> kInvalidSocket /\ s ∉ open_fds w /\ open_fds w' = {[ s ]} ∪ open_fds w)) /\
  (tcp_listen port w = (w', s) -> s <> kInvalidSocket ->
     exists w1 w2, sys_bind s (mkSockAddr INADDR_LOOPBACK port) w1 = (w2, 0) /\ sys_listen s 16 w2 = (w', 0)).
Proof.
  intros H. unfold tcp_listen, tcp_connect in *.
  destruct (sys_socket w) as [w0 s0] eqn:E0. destruct (law_socket _ _ _ E0) as [[-> Ho] | (Hs & Hn & Ho)].
  { rewrite Z.eqb_refl in *. split; [left; destruct H as [[= <- <-] | [= <- <-]]; done | by intros [= _ <-]]. }
  rewrite (proj2 (Z.eqb_neq _ _) Hs) in *. cbv zeta in *.
  assert (forall v, open_fds v = open_fds w0 -> open_fds (sys_close s0 v) = open_fds w) as Hclose.
  { intros v Hv. rewrite law_close, Hv, Ho. set_solver. }
  pose proof (law_setsockopt s0 w0) as Hso.
  destruct (sys_bind s0 (mkSockAddr INADDR_LOOPBACK port) (sys_setsockopt_reuseaddr s0 w0)) as [w1 r1] eqn:E1. pose proof (law_bind _ _ _ _ _ E1) as H1.
  destruct (sys_listen s0 16 w1) as [w2 r2] eqn:E2. pose proof (law_listen _ _ _ _ _ E2) as H2.
  destruct (sys_connect s0 (mkSockAddr (default 0 (sys_inet_pton host)) port) w0) as [w3 r3] eqn:E3. pose proof (law_connect _ _ _ _ _ E3) as H3.
  destruct (Z.eqb_spec r1 0) as [-> | Hr1], (Z.eqb_spec r2 0) as [-> | Hr2], (Z.eqb_spec r3 0) as [-> | Hr3]; cbn [negb] in *;
    (split; [destruct H as [[= <- <-] | [= <- <-]]; first [left; split; [done |]; apply Hclose; congruence
                                                         | right; split_and!; [done | done |]; congruence]
            | intros [= <- <-] Hv; try done; by eauto]).
Qed.

(** * Witnesses *)

Module SocketWitness.
(** A host that takes three bytes at a time and gives two: the streams of its sockets and
    the open ones; it refuses connections. *)
Record Host : Type := mkHost { h_out : bytes; h_in : bytes; h_fds : gset Z }.
Definition new_fd (h : Host) : Z := fresh ({[ kInvalidSocket ]} ∪ h_fds h).
#[export] Instance host_api : SocketApi Host := {|
  sys_socket h := (mkHost (h_out h) (h_in h) ({[ new_fd h ]} ∪ h_fds h), new_fd h);
  sys_setsockopt_reuseaddr _ h := h;
  sys_bind _ _ h := (h, 0);
  sys_listen _ _ h := (h, 0);
  sys_connect _ _ h := (h, -1);
  sys_accept _ h := (h, kInvalidSocket);
  sys_getsockname_port _ _ := Some 4000;
  sys_inet_pton _ := Some INADDR_LOOPBACK;
  sys_close s h := mkHost (h_out h) (h_in h) (h_fds h ∖ {[ s ]});
  sys_send _ d h := (mkHost (h_out h ++ take 3 d) (h_in h) (h_fds h), Z.of_nat (length (take 3 d)));
  sys_recv _ n h := (mkHost (h_out h) (drop (n `min` 2) (h_in h)) (h_fds h), Some (take (n `min` 2) (h_in h))) |}.
#[export] Program Instance host_streams : StreamLaws Host := {| outgoing _ := h_out; incoming _ := h_in |}.
Next Obligation.
  intros s d w w' n [= <- <-]. rewrite Nat2Z.id. cbn [h_out h_in]. split; [rewrite length_take; lia |]. split; [| done].
  f_equal. by destruct d as [| b1 [| b2 [| b3 d]]].
Qed.
Next Obligation.
  intros s n w w' x [= <- <-]. cbn. split; [rewrite length_take; lia |]. split; [by rewrite take_drop | done].
Qed.
#[export] Program Instance host_fds : FdLaws Host := {| open_fds := h_fds |}.
Next Obligation.
  intros w w' s [= <- <-]. right. assert (new_fd w ∉ {[ kInvalidSocket ]} ∪ h_fds w) as H by exact (is_fresh ({[ kInvalidSocket ]} ∪ h_fds w)). cbn [h_fds]. set_solver.
Qed.
Next Obligation. done. Qed.
Next Obligation. by intros s a w w' r [= <- _]. Qed.
Next Obligation. by intros s a w w' r [= <- _]. Qed.
Next Obligation. by intros s a w w' r [= <- _]. Qed.
Next Obligation. done. Qed.

Definition idle : Host := mkHost [] [] ∅.
Definition sender : Host := (net_send_frame 3 ProtocolWitness.hello idle).1.
Definition receiver : Host := mkHost [] (h_out sender ++ [9; 9]) ∅.
Lemma reliable_host s : reliable (W := Host) s.
Proof.
  intros n [o i fds] Hn Hi. cbn in *. rewrite length_take. destruct i as [| b i]; [done |]. cbn [length]. lia.
Qed.
End SocketWitness.
#[local] Existing Instances SocketWitness.host_api SocketWitness.host_streams SocketWitness.host_fds.

Lemma frames_cross_the_network_witness :
  exists v, net_recv_frame 4 SocketWitness.receiver = (v, Some ProtocolWitness.hello) /\ incoming 4 v = [9; 9].
Proof.
  apply (frames_cross_the_network 3 4 ProtocolWitness.hello SocketWitness.idle SocketWitness.sender SocketWitness.receiver
           (SocketWitness.h_out SocketWitness.sender) [9; 9]).
  - exact ProtocolWitness.hello_typed.
  - vm_compute. lia.
  - vm_compute. discriminate.
  - apply SocketWitness.reliable_host.
  - vm_compute. reflexivity.
  - reflexivity.
  - reflexivity.
Defined.

Lemma received_frame_was_sent_witness :
  recv_frame (incoming 4 SocketWitness.receiver) = ([9; 9], Some ProtocolWitness.hello).
Proof.
  destruct (received_frame_was_sent 4 SocketWitness.receiver (SocketWitness.mkHost [] [9; 9] ∅) (Some ProtocolWitness.hello)) as [_ H].
  - vm_compute. reflexivity.
  - apply H. apply SocketWitness.reliable_host.
Defined.

Lemma opening_leaks_nothing_witness :
  open_fds (tcp_connect "127.0.0.1" 4000 SocketWitness.idle).1 = ∅.
Proof.
  destruct (opening_leaks_nothing "127.0.0.1" 4000 kInvalidSocket SocketWitness.idle (tcp_connect "127.0.0.1" 4000 SocketWitness.idle).1)
    as [[[_ H] | [H _]] _].
  - right. vm_compute. reflexivity.
  - exact H.
  - destruct (H eq_refl).
Defined.
