(* ===== verification/Conn.v ===== *)
(** The connection of the coordinator to a peer (net/conn.hpp, class [Conn]): one reader
    thread that decodes inbound frames, and any number of callers of [request], which
    wait for the frame with their message id.

    Each critical section of the source is one function on the state [Conn] and one step;
    [conn_step] interleaves the steps of the reader, of the callers and of [shutdown].
    The [Pending] objects are shared between a caller and the map, so they live in a heap
    and the map holds their addresses.  What the operating system answers (whether a send
    succeeds, the next inbound frame) is left open: every answer is a step. *)

From stdpp Require Import base list gmap strings relations.
From Stdlib Require Import ZArith Lia.
From S2P Require Import Prelude Types Bytes Protocol.

Open Scope Z_scope.

Definition kMaxPending : nat := 64.

(** [struct Pending]. *)
Record Pending : Type := mkPending { pd_done : bool; pd_response : option Frame }.

(** [class Conn].  [cn_valid] is [s_ != kInvalidSocket]; the unsolicited frames are kept
    in the order they were dispatched, or counted when there is no handler. *)
Record Conn : Type := mkConn
  { cn_gen : Z; cn_handler : bool; cn_valid : bool; cn_dead : bool; cn_stop : bool; cn_already_shutdown : bool;
    cn_frames_sent : Z; cn_frames_recv : Z; cn_dropped : Z; cn_dispatched : list Frame;
    cn_pending : gmap Z nat; cn_heap : gmap nat Pending; cn_next : nat }.
#[export] Instance Conn_eta : Eta Conn := fun c => mkConn
  (cn_gen c) (cn_handler c) (cn_valid c) (cn_dead c) (cn_stop c) (cn_already_shutdown c) (cn_frames_sent c)
  (cn_frames_recv c) (cn_dropped c) (cn_dispatched c) (cn_pending c) (cn_heap c) (cn_next c).

Definition conn_new (gen : Z) (handler valid : bool) : Conn :=
  mkConn gen handler valid false false false 0 0 0 [] ∅ ∅ 0.

Definition alive (c : Conn) : bool := negb (cn_dead c).

(** * Critical sections *)

(** Completes the object at an address. *)
Definition complete (r : option Frame) (a : nat) (h : gmap nat Pending) : gmap nat Pending :=
  <[ a := mkPending true r ]> h.

(** Sets [done] and keeps the response. *)
Definition mark_done (a : nat) (h : gmap nat Pending) : gmap nat Pending :=
  alter (fun p => mkPending true (pd_response p)) a h.

(** [send_frame]: [sent] is the answer of the socket. *)
Definition conn_send_frame (sent : bool) (c : Conn) : Conn * bool :=
  if negb (cn_valid c) || cn_dead c then (c, false)
  else if sent then (c <| cn_frames_sent := wrap64 (cn_frames_sent c + 1) |>, true) else (c, false).

(** [send]: the frame is built by the caller. *)
Definition conn_send_message (sent : Frame -> bool) (type : MsgType) (msg_id epoch : Z) (payload : bytes) (c : Conn) : Conn * bool :=
  conn_send_frame (sent (mkFrame type msg_id epoch payload)) c.

(** [request], first section: [None] when too many requests are pending, otherwise the
    new object is registered under the message id. *)
Definition request_register (msg_id : Z) (c : Conn) : option (Conn * nat) :=
  if Nat.leb kMaxPending (size (cn_pending c)) then None
  else
    let a := cn_next c in
    Some (c <| cn_pending := <[ msg_id := a ]> (cn_pending c) |>
            <| cn_heap := <[ a := mkPending false None ]> (cn_heap c) |> <| cn_next := S a |>, a).

(** After a failed send: whatever is registered under the id is completed and erased. *)
Definition request_abort (msg_id : Z) (c : Conn) : Conn :=
  match cn_pending c !! msg_id with
  | Some a => c <| cn_heap := mark_done a (cn_heap c) |> <| cn_pending := delete msg_id (cn_pending c) |>
  | None => c
  end.

(** After the wait: the response of the caller's own object, and the entry is erased. *)
Definition request_finish (msg_id : Z) (a : nat) (c : Conn) : option (Conn * option Frame) :=
  p ← cn_heap c !! a;
  if pd_done p then Some (c <| cn_pending := delete msg_id (cn_pending c) |>, pd_response p) else None.

(** [resolve_pending]. *)
Definition resolve_pending (r : option Frame) (c : Conn) : Conn :=
  c <| cn_heap := map_fold (fun _ a h => complete r a h) (cn_heap c) (cn_pending c) |> <| cn_pending := ∅ |>.

(** [read_loop], one inbound frame. *)
Definition deliver (f : Frame) (c : Conn) : Conn :=
  let c := c <| cn_frames_recv := wrap64 (cn_frames_recv c + 1) |> in
  match cn_pending c !! fr_msg_id f with
  | Some a => c <| cn_heap := complete (Some f) a (cn_heap c) |>
  | None => if cn_handler c then c <| cn_dispatched := cn_dispatched c ++ [f] |>
            else c <| cn_dropped := wrap64 (cn_dropped c + 1) |>
  end.

(** * Threads *)

(** Where a call of [request] is. *)
Inductive CallPc : Type :=
  | CallEntry
  | CallChecked
  | CallRegistered (a : nat)
  | CallWaiting (a : nat)
  | CallSendFailed
  | CallReturned (r : option Frame)
  | CallThrew.

Record RequestCall : Type := mkCall { cl_msg_id : Z; cl_pc : CallPc }.

(** Where the reader thread is: in its loop, past [dead_.store(true)], past
    [resolve_pending]. *)
Inductive ReaderPc : Type := ReaderLoop | ReaderDead | ReaderDone.
(** Where [shutdown] is: not called, past the close of the socket, past
    [resolve_pending]. *)
Inductive ShutdownPc : Type := ShutdownIdle | ShutdownClosed | ShutdownDone.

Record ConnSys : Type := mkConnSys
  { cs_conn : Conn; cs_calls : gmap nat RequestCall; cs_reader : ReaderPc; cs_shutdown : ShutdownPc }.
#[export] Instance ConnSys_eta : Eta ConnSys := fun s => mkConnSys (cs_conn s) (cs_calls s) (cs_reader s) (cs_shutdown s).

Definition set_call (t : nat) (m : Z) (pc : CallPc) (s : ConnSys) : ConnSys :=
  s <| cs_calls := <[ t := mkCall m pc ]> (cs_calls s) |>.

(** The steps.  [allowed s m] says which message ids a new call may use. *)
Inductive conn_step (allowed : ConnSys -> Z -> Prop) (s : ConnSys) : ConnSys -> Prop :=
  | step_call t m :
      cs_calls s !! t = None -> allowed s m -> conn_step allowed s (set_call t m CallEntry s)
  | step_check t m :
      cs_calls s !! t = Some (mkCall m CallEntry) ->
      conn_step allowed s (set_call t m (if cn_dead (cs_conn s) || negb (cn_valid (cs_conn s))
                                       then CallReturned None else CallChecked) s)
  | step_full t m :
      cs_calls s !! t = Some (mkCall m CallChecked) -> request_register m (cs_conn s) = None ->
      conn_step allowed s (set_call t m (CallReturned None) s)
  | step_register t m c a :
      cs_calls s !! t = Some (mkCall m CallChecked) -> request_register m (cs_conn s) = Some (c, a) ->
      conn_step allowed s (set_call t m (CallRegistered a) (s <| cs_conn := c |>))
  | step_send t m a sent c ok :
      cs_calls s !! t = Some (mkCall m (CallRegistered a)) -> conn_send_frame sent (cs_conn s) = (c, ok) ->
      conn_step allowed s (set_call t m (if ok then CallWaiting a else CallSendFailed) (s <| cs_conn := c |>))
  | step_throw t m a :
      cs_calls s !! t = Some (mkCall m (CallRegistered a)) ->
      cn_valid (cs_conn s) = true -> cn_dead (cs_conn s) = false ->
      conn_step allowed s (set_call t m CallThrew s)
  | step_abort t m :
      cs_calls s !! t = Some (mkCall m CallSendFailed) ->
      conn_step allowed s (set_call t m (CallReturned None) (s <| cs_conn := request_abort m (cs_conn s) |>))
  | step_finish t m a c r :
      cs_calls s !! t = Some (mkCall m (CallWaiting a)) -> request_finish m a (cs_conn s) = Some (c, r) ->
      conn_step allowed s (set_call t m (CallReturned r) (s <| cs_conn := c |>))
  | step_deliver f :
      cs_reader s = ReaderLoop ->
      conn_step allowed s (s <| cs_conn := deliver f (cs_conn s) |>)
  | step_reader_exit :
      cs_reader s = ReaderLoop ->
      conn_step allowed s (s <| cs_conn := cs_conn s <| cn_dead := true |> |> <| cs_reader := ReaderDead |>)
  | step_reader_resolve :
      cs_reader s = ReaderDead ->
      conn_step allowed s (s <| cs_conn := resolve_pending None (cs_conn s) |> <| cs_reader := ReaderDone |>)
  | step_shutdown :
      cn_already_shutdown (cs_conn s) = false ->
      conn_step allowed s (s <| cs_conn := cs_conn s <| cn_already_shutdown := true |> <| cn_stop := true |>
                                                   <| cn_valid := false |> |> <| cs_shutdown := ShutdownClosed |>)
  | step_shutdown_resolve :
      cs_shutdown s = ShutdownClosed ->
      conn_step allowed s (s <| cs_conn := resolve_pending None (cs_conn s) |> <| cs_shutdown := ShutdownDone |>).

(** Every message id is admitted, and only those no outstanding call uses. *)
Definition any_id (s : ConnSys) (m : Z) : Prop := True.
Definition outstanding (c : RequestCall) : bool := match cl_pc c with CallReturned _ | CallThrew => false | _ => true end.
Definition unused_id (s : ConnSys) (m : Z) : Prop :=
  forall t c, cs_calls s !! t = Some c -> outstanding c = true -> cl_msg_id c <> m.

Definition conn_init (gen : Z) (handler : bool) : ConnSys :=
  mkConnSys (conn_new gen handler true) ∅ ReaderLoop ShutdownIdle.

Definition conn_reachable (allowed : ConnSys -> Z -> Prop) (s : ConnSys) : Prop :=
  exists gen handler, rtc (conn_step allowed) (conn_init gen handler) s.

(** * Lemmas: the heap *)

Lemma resolve_heap r (pend : gmap Z nat) h a :
  map_fold (fun _ a h => complete r a h) h pend !! a = Some (mkPending true r) /\ (exists m, pend !! m = Some a) \/
  map_fold (fun _ a h => complete r a h) h pend !! a = h !! a /\ (forall m, pend !! m <> Some a).
Proof.
  apply (map_fold_weak_ind (fun h' pend =>
    h' !! a = Some (mkPending true r) /\ (exists m, pend !! m = Some a) \/
    h' !! a = h !! a /\ (forall m, pend !! m <> Some a))).
  - right. split; [done |]. intros m. by rewrite lookup_empty.
  - intros i x m' h' Hi IH. unfold complete. destruct (decide (x = a)) as [-> | Hne].
    + left. rewrite lookup_insert_eq. split; [done |]. exists i. apply lookup_insert_eq.
    + rewrite lookup_insert_ne by done. destruct IH as [[H1 [m Hm]] | [H1 Hm]].
      * left. split; [done |]. exists m. rewrite lookup_insert_ne; [done |]. intros ->. congruence.
      * right. split; [done |]. intros m. destruct (decide (m = i)) as [-> | ?].
        { rewrite lookup_insert_eq. congruence. }
        { by rewrite lookup_insert_ne. }
Qed.

(** * The invariant

    [owner a] is the message id the object at [a] was created for. *)

Definition call_ok (owner : nat -> Z) (c : Conn) (m : Z) (pc : CallPc) : Prop :=
  match pc with
  | CallRegistered a | CallWaiting a => owner a = m /\ is_Some (cn_heap c !! a)
  | CallReturned (Some f) => fr_msg_id f = m
  | _ => True
  end.

Record conn_wf (owner : nat -> Z) (s : ConnSys) : Prop := {
  wf_bounded : (size (cn_pending (cs_conn s)) <= kMaxPending)%nat;
  wf_pending : forall m a, cn_pending (cs_conn s) !! m = Some a -> owner a = m /\ is_Some (cn_heap (cs_conn s) !! a);
  wf_fresh : forall a, is_Some (cn_heap (cs_conn s) !! a) -> (a < cn_next (cs_conn s))%nat;
  wf_response : forall a p f, cn_heap (cs_conn s) !! a = Some p -> pd_response p = Some f -> fr_msg_id f = owner a;
  wf_calls : forall t m pc, cs_calls s !! t = Some (mkCall m pc) -> call_ok owner (cs_conn s) m pc }.

(** Moving one call, with a connection whose heap only grows. *)
Lemma wf_calls_step owner s t m pc c :
  (forall t m pc, cs_calls s !! t = Some (mkCall m pc) -> call_ok owner (cs_conn s) m pc) ->
  (forall a, is_Some (cn_heap (cs_conn s) !! a) -> is_Some (cn_heap c !! a)) -> call_ok owner c m pc ->
  forall t' m' pc', <[ t := mkCall m pc ]> (cs_calls s) !! t' = Some (mkCall m' pc') -> call_ok owner c m' pc'.
Proof.
  intros Hc Hh Hok t' m' pc'. destruct (decide (t' = t)) as [-> | Hne].
  - rewrite lookup_insert_eq. by intros [= <- <-].
  - rewrite lookup_insert_ne by done. intros Hl%Hc. destruct pc'; try done; destruct Hl; split; auto.
Qed.

Lemma wf_calls_same owner s c :
  (forall t m pc, cs_calls s !! t = Some (mkCall m pc) -> call_ok owner (cs_conn s) m pc) ->
  (forall a, is_Some (cn_heap (cs_conn s) !! a) -> is_Some (cn_heap c !! a)) ->
  forall t m pc, cs_calls s !! t = Some (mkCall m pc) -> call_ok owner c m pc.
Proof. intros Hc Hh t m pc Hl%Hc. destruct pc; try done; destruct Hl; split; auto. Qed.

(** The sections that change the heap. *)
Lemma deliver_wf owner s f : conn_wf owner s -> conn_wf owner (s <| cs_conn := deliver f (cs_conn s) |>).
Proof.
  intros [Hb Hp Hf Hr Hc]. unfold deliver. cbv zeta.
  destruct (cn_pending (cs_conn s) !! fr_msg_id f) as [a |] eqn:E.
  - change (cn_pending (cs_conn s <| cn_frames_recv := _ |>)) with (cn_pending (cs_conn s)). rewrite E.
    destruct (Hp _ _ E) as [Ho Hs]. unfold complete.
    assert (forall b, is_Some (cn_heap (cs_conn s) !! b) ->
      is_Some (<[a := mkPending true (Some f)]> (cn_heap (cs_conn s)) !! b)) as Hh.
    { intros b Hb'. destruct (decide (b = a)) as [-> | ?]; [rewrite lookup_insert_eq; by eexists | by rewrite lookup_insert_ne]. }
    split; simpl.
    + done.
    + intros m b Hm. destruct (Hp m b Hm). auto.
    + intros b Hb'. destruct (decide (b = a)) as [-> | ?]; [by apply Hf |]. rewrite lookup_insert_ne in Hb' by done. by apply Hf.
    + intros b p g. destruct (decide (b = a)) as [-> | ?].
      * rewrite lookup_insert_eq. intros [= <-] [= <-]. by symmetry.
      * rewrite lookup_insert_ne by done. apply Hr.
    + apply (wf_calls_same owner s _ Hc). exact Hh.
  - change (cn_pending (cs_conn s <| cn_frames_recv := _ |>)) with (cn_pending (cs_conn s)). rewrite E.
    destruct (cn_handler _); split; simpl; auto; apply (wf_calls_same owner s); auto.
Qed.

Lemma resolve_pending_wf owner s rd sh :
  conn_wf owner s -> conn_wf owner (s <| cs_conn := resolve_pending None (cs_conn s) |> <| cs_reader := rd |> <| cs_shutdown := sh |>).
Proof.
  intros [Hb Hp Hf Hr Hc]. unfold resolve_pending.
  assert (forall b, is_Some (cn_heap (cs_conn s) !! b) <->
    is_Some (map_fold (fun _ a h => complete None a h) (cn_heap (cs_conn s)) (cn_pending (cs_conn s)) !! b)) as Hh.
  { intros b. destruct (resolve_heap None (cn_pending (cs_conn s)) (cn_heap (cs_conn s)) b) as [[-> [m Hm]] | [-> _]]; [| done].
    split; [by eexists |]. intros _. by apply (Hp m). }
  split; simpl.
  - rewrite map_size_empty. unfold kMaxPending. lia.
  - intros m a. by rewrite lookup_empty.
  - intros a Ha. apply Hf. by apply Hh.
  - intros a p f Ha Hres. destruct (resolve_heap None (cn_pending (cs_conn s)) (cn_heap (cs_conn s)) a) as [[E _] | [E _]];
      rewrite E in Ha; [by injection Ha as <- | by eapply Hr].
  - apply (wf_calls_same owner s _ Hc). intros a Ha. by apply Hh.
Qed.

Lemma register_wf owner s t m c a :
  conn_wf owner s -> request_register m (cs_conn s) = Some (c, a) ->
  exists owner', conn_wf owner' (set_call t m (CallRegistered a) (s <| cs_conn := c |>)).
Proof.
  intros [Hb Hp Hf Hr Hc]. unfold request_register. destruct (Nat.leb_spec kMaxPending (size (cn_pending (cs_conn s)))); [done |].
  intros [= <- <-]. set (a := cn_next (cs_conn s)).
  assert (forall b, is_Some (cn_heap (cs_conn s) !! b) -> b <> a) as Hne by (intros b Hs%Hf; unfold a; lia).
  exists (fun b => if decide (b = a) then m else owner b). split; simpl.
  - rewrite map_size_insert. destruct (cn_pending (cs_conn s) !! m); simpl; lia.
  - intros m' b. destruct (decide (m' = m)) as [-> | ?].
    + rewrite lookup_insert_eq. intros [= <-]. rewrite decide_True by done. split; [done |]. rewrite lookup_insert_eq. by eexists.
    + rewrite lookup_insert_ne by done. intros Hl. destruct (Hp _ _ Hl) as [Ho Hs]. pose proof (Hne b Hs).
      rewrite decide_False, lookup_insert_ne by done. done.
  - intros b. destruct (decide (b = a)) as [-> | ?]; [lia |]. rewrite lookup_insert_ne by done. intros Hs%Hf. lia.
  - intros b p f. destruct (decide (b = a)) as [-> | ?]; [rewrite lookup_insert_eq; by intros [= <-] |].
    rewrite lookup_insert_ne by done. apply Hr.
  - intros t' m' pc'. destruct (decide (t' = t)) as [-> | ?].
    + rewrite lookup_insert_eq. intros [= <- <-]. simpl. rewrite decide_True by done. split; [done |].
      rewrite lookup_insert_eq. by eexists.
    + rewrite lookup_insert_ne by done. intros Hl%Hc. destruct pc'; try done; destruct Hl as [Ho Hs]; pose proof (Hne _ Hs);
        simpl; rewrite decide_False, lookup_insert_ne by done; done.
Qed.

Lemma abort_wf owner s t m :
  conn_wf owner s -> conn_wf owner (set_call t m (CallReturned None) (s <| cs_conn := request_abort m (cs_conn s) |>)).
Proof.
  intros [Hb Hp Hf Hr Hc]. unfold request_abort. destruct (cn_pending (cs_conn s) !! m) as [a |] eqn:E; cycle 1.
  { split; simpl; auto. by apply (wf_calls_step owner s). }
  assert (forall b, is_Some (mark_done a (cn_heap (cs_conn s)) !! b) <-> is_Some (cn_heap (cs_conn s) !! b)) as Hh.
  { intros b. unfold mark_done. destruct (decide (b = a)) as [-> | ?]; [rewrite lookup_alter_eq; apply fmap_is_Some | by rewrite lookup_alter_ne]. }
  split; simpl.
  - rewrite map_size_delete. destruct (cn_pending (cs_conn s) !! m); simpl; lia.
  - intros m' b Hl. apply lookup_delete_Some in Hl as [_ Hl]. rewrite Hh. by apply Hp.
  - intros b. rewrite Hh. apply Hf.
  - intros b p f. unfold mark_done. destruct (decide (b = a)) as [-> | ?]; [| rewrite lookup_alter_ne by done; apply Hr].
    rewrite lookup_alter_eq. destruct (cn_heap (cs_conn s) !! a) as [q |] eqn:Ea; [| done]. intros [= <-]. by apply (Hr _ _ _ Ea).
  - apply (wf_calls_step owner s); [done | | done]. intros b. by rewrite <- Hh.
Qed.

Lemma finish_wf owner s t m a c r :
  conn_wf owner s -> cs_calls s !! t = Some (mkCall m (CallWaiting a)) -> request_finish m a (cs_conn s) = Some (c, r) ->
  conn_wf owner (set_call t m (CallReturned r) (s <| cs_conn := c |>)).
Proof.
  intros [Hb Hp Hf Hr Hc] Hl. destruct (Hc _ _ _ Hl) as [Ho _]. unfold request_finish.
  destruct (cn_heap (cs_conn s) !! a) as [p |] eqn:Ea; [| done]. simpl. destruct (pd_done p); [| done]. intros [= <- <-].
  split; simpl; auto.
  - rewrite map_size_delete. destruct (cn_pending (cs_conn s) !! m); simpl; lia.
  - intros m' b Hd. apply lookup_delete_Some in Hd as [_ Hd]. by apply Hp.
  - apply (wf_calls_step owner s); [done | done |]. destruct (pd_response p) as [f |] eqn:Ef; [| done]. simpl.
    by rewrite (Hr _ _ _ Ea Ef).
Qed.

(** A step of a caller that leaves the maps of the connection alone. *)
Lemma set_call_wf owner s t m pc c :
  conn_wf owner s -> cn_pending c = cn_pending (cs_conn s) -> cn_heap c = cn_heap (cs_conn s) ->
  cn_next c = cn_next (cs_conn s) -> call_ok owner c m pc -> conn_wf owner (set_call t m pc (s <| cs_conn := c |>)).
Proof.
  intros [Hb Hp Hf Hr Hc] E1 E2 E3 Hok. split; simpl; rewrite ?E1, ?E2, ?E3; auto.
  apply (wf_calls_step owner s); [done | | done]. by rewrite E2.
Qed.

Lemma conn_step_wf allowed owner s s' :
  conn_wf owner s -> conn_step allowed s s' -> exists owner', conn_wf owner' s'.
Proof.
  intros Hwf Hs. pose proof Hwf as [Hb Hp Hf Hr Hc].
  assert (forall t m pc, call_ok owner (cs_conn s) m pc -> exists o, conn_wf o (set_call t m pc s)) as Hset.
  { intros t m pc Hok. exists owner. pose proof (set_call_wf owner s t m pc (cs_conn s) Hwf eq_refl eq_refl eq_refl Hok) as H.
    by destruct s. }
  destruct Hs as [t m Hn _ | t m Hl | t m Hl Hn | t m c a Hl Hg | t m a sent c ok Hl Hg | t m a Hl _ _ | t m Hl
                 | t m a c r Hl Hg | f Hl | Hl | Hl | Hl | Hl].
  - by apply Hset.
  - apply Hset. by destruct (_ || _).
  - by apply Hset.
  - by apply (register_wf owner).
  - exists owner. unfold conn_send_frame in Hg. destruct (_ || _); [| destruct sent]; injection Hg as <- <-;
      apply set_call_wf; try done; apply (Hc _ _ _ Hl).
  - by apply Hset.
  - exists owner. by apply abort_wf.
  - exists owner. by eapply finish_wf.
  - exists owner. by apply deliver_wf.
  - exists owner. by split.
  - exists owner. apply (resolve_pending_wf owner s ReaderDone (cs_shutdown s) Hwf).
  - exists owner. by split.
  - exists owner. apply (resolve_pending_wf owner s (cs_reader s) ShutdownDone Hwf).
Qed.

Lemma conn_reachable_wf allowed s : conn_reachable allowed s -> exists owner, conn_wf owner s.
Proof.
  intros (gen & handler & Hs). remember (conn_init gen handler) as s0 eqn:E0.
  assert (exists owner, conn_wf owner s0) as [o Ho].
  { exists (fun _ => 0). subst. split; simpl.
    - rewrite map_size_empty. unfold kMaxPending. lia.
    - intros m a. by rewrite lookup_empty.
    - intros a [? Ha]. by rewrite lookup_empty in Ha.
    - intros a p f. by rewrite lookup_empty.
    - intros t m pc. by rewrite lookup_empty. }
  clear E0. revert o Ho. induction Hs as [s | s s1 s2 H1 _ IH]; intros o Ho; [by exists o |].
  destruct (conn_step_wf allowed o s s1 Ho H1) as [o1 Ho1]. by apply (IH o1).
Qed.

(** * Progress of the callers, when no two outstanding calls share a message id *)

Definition done_at (h : gmap nat Pending) (a : nat) : Prop := exists p, h !! a = Some p /\ pd_done p = true.

Lemma done_complete r b h a : done_at h a -> done_at (complete r b h) a.
Proof.
  intros (p & Hp & Hd). unfold complete, done_at. destruct (decide (a = b)) as [-> | ?].
  - rewrite lookup_insert_eq. by eexists.
  - rewrite lookup_insert_ne by done. eauto.
Qed.
Lemma done_mark b h a : done_at h a -> done_at (mark_done b h) a.
Proof.
  intros (p & Hp & Hd). unfold mark_done, done_at. destruct (decide (a = b)) as [-> | ?].
  - rewrite lookup_alter_eq, Hp. by eexists.
  - rewrite lookup_alter_ne by done. eauto.
Qed.
Lemma done_resolve r (pend : gmap Z nat) h a :
  done_at h a \/ (exists m, pend !! m = Some a) -> done_at (map_fold (fun _ a h => complete r a h) h pend) a.
Proof.
  intros Hd. destruct (resolve_heap r pend h a) as [[E _] | [E Hn]]; [by eexists |].
  destruct Hd as [(p & Hp & Hd) | [m Hm]]; [| by apply Hn in Hm]. exists p. by rewrite E.
Qed.

(** The object of a registered or waiting call can still be reached, or is done. *)
Definition tracked (c : Conn) (m : Z) (a : nat) : Prop := cn_pending c !! m = Some a \/ done_at (cn_heap c) a.
Definition closed (s : ConnSys) : Prop := cs_reader s = ReaderDone \/ cs_shutdown s = ShutdownDone.
Definition address (pc : CallPc) : option nat :=
  match pc with CallRegistered a | CallWaiting a => Some a | _ => None end.

Record conn_live (s : ConnSys) : Prop := {
  lv_distinct : forall t t' c c', cs_calls s !! t = Some c -> cs_calls s !! t' = Some c' -> outstanding c = true ->
    outstanding c' = true -> cl_msg_id c = cl_msg_id c' -> t = t';
  lv_tracked : forall t c a, cs_calls s !! t = Some c -> address (cl_pc c) = Some a -> tracked (cs_conn s) (cl_msg_id c) a;
  lv_dead : cs_reader s <> ReaderLoop -> cn_dead (cs_conn s) = true;
  lv_closed : cs_shutdown s <> ShutdownIdle -> cn_valid (cs_conn s) = false;
  lv_done : closed s -> forall t m a, cs_calls s !! t = Some (mkCall m (CallWaiting a)) -> done_at (cn_heap (cs_conn s)) a }.

(** One call [t] moves from [m, pc0] to [m, pc]; the connection changes to [c]. *)
Lemma live_call s t m pc c :
  conn_live s ->
  (outstanding (mkCall m pc) = true -> forall t' c', cs_calls s !! t' = Some c' -> outstanding c' = true -> cl_msg_id c' = m -> t' = t) ->
  (forall a, address pc = Some a -> tracked c m a) ->
  (forall t' c' a, t' <> t -> cs_calls s !! t' = Some c' -> address (cl_pc c') = Some a -> tracked (cs_conn s) (cl_msg_id c') a ->
     tracked c (cl_msg_id c') a) ->
  (forall a, done_at (cn_heap (cs_conn s)) a -> done_at (cn_heap c) a) ->
  (forall a, pc = CallWaiting a -> closed s -> done_at (cn_heap c) a) ->
  cn_dead c = cn_dead (cs_conn s) -> cn_valid c = cn_valid (cs_conn s) ->
  conn_live (set_call t m pc (s <| cs_conn := c |>)).
Proof.
  intros [Hd Ht Hde Hcl Hdo] Hu Ha Htr Hm Hw E1 E2. split; simpl.
  - intros t1 t2 c1 c2 H1 H2 O1 O2 E.
    destruct (decide (t1 = t)) as [-> | N1], (decide (t2 = t)) as [-> | N2]; try done.
    + rewrite lookup_insert_eq in H1. rewrite lookup_insert_ne in H2 by done. injection H1 as <-. symmetry. by apply (Hu O1 t2 c2).
    + rewrite lookup_insert_eq in H2. rewrite lookup_insert_ne in H1 by done. injection H2 as <-. by apply (Hu O2 t1 c1).
    + rewrite lookup_insert_ne in H1, H2 by done. by eapply Hd.
  - intros t1 c1 a H1 Haddr. destruct (decide (t1 = t)) as [-> | N1].
    + rewrite lookup_insert_eq in H1. injection H1 as <-. by apply Ha.
    + rewrite lookup_insert_ne in H1 by done. eapply Htr; eauto.
  - by rewrite E1.
  - by rewrite E2.
  - intros Hclo t1 m1 a H1. destruct (decide (t1 = t)) as [-> | N1].
    + rewrite lookup_insert_eq in H1. injection H1 as -> ->. by apply Hw.
    + rewrite lookup_insert_ne in H1 by done. by eapply Hm, Hdo.
Qed.

Lemma live_other s t m c :
  conn_live s -> cs_calls s !! t = Some c -> outstanding c = true -> cl_msg_id c = m ->
  forall t' c', cs_calls s !! t' = Some c' -> outstanding c' = true -> cl_msg_id c' = m -> t' = t.
Proof. intros Hl H1 O1 <- t' c' H2 O2 E. by eapply (lv_distinct s Hl). Qed.

Lemma address_outstanding c a : address (cl_pc c) = Some a -> outstanding c = true.
Proof. unfold outstanding. by destruct (cl_pc c). Qed.

(** Erasing the entry of the moving call leaves the entries of the others. *)
Lemma tracked_delete s t m c0 c h :
  conn_live s -> cs_calls s !! t = Some c0 -> outstanding c0 = true -> cl_msg_id c0 = m ->
  cn_pending c = delete m (cn_pending (cs_conn s)) -> cn_heap c = h -> (forall a, done_at (cn_heap (cs_conn s)) a -> done_at h a) ->
  forall t' c' a, t' <> t -> cs_calls s !! t' = Some c' -> address (cl_pc c') = Some a ->
    tracked (cs_conn s) (cl_msg_id c') a -> tracked c (cl_msg_id c') a.
Proof.
  intros Hl Hc O Hm Ep Eh Hd t' c' a Hne Hc' Ha [Hp | Hp]; [left | right; rewrite Eh; by apply Hd].
  rewrite Ep, lookup_delete_ne; [done |]. intros E. apply Hne.
  eapply (live_other s t m c0); eauto using address_outstanding.
Qed.

(** A step of the reader or of [shutdown]: no call moves. *)
Lemma live_conn s c rd sh :
  conn_live s -> (forall m a, tracked (cs_conn s) m a -> tracked c m a) ->
  (rd <> ReaderLoop -> cn_dead c = true) -> (sh <> ShutdownIdle -> cn_valid c = false) ->
  (rd = ReaderDone \/ sh = ShutdownDone -> forall m a, tracked (cs_conn s) m a ->
     (exists t, cs_calls s !! t = Some (mkCall m (CallWaiting a))) -> done_at (cn_heap c) a) ->
  conn_live (mkConnSys c (cs_calls s) rd sh).
Proof.
  intros [Hd Ht Hde Hcl Hdo] Htr H1 H2 Hdn. split; simpl; auto.
  - intros t c0 a Hc Ha. apply Htr. by eapply Ht.
  - intros Hclo t m a Hc. eapply Hdn; [done | | by exists t]. by apply (Ht t (mkCall m (CallWaiting a))).
Qed.

Lemma tracked_resolve c m a : tracked c m a -> done_at (cn_heap (resolve_pending None c)) a.
Proof. intros [Hp | Hd]; apply done_resolve; [right; by exists m | by left]. Qed.

Lemma conn_step_live owner s s' : conn_wf owner s -> conn_live s -> conn_step unused_id s s' -> conn_live s'.
Proof.
  intros Hwf Hl Hs.
  assert (forall t m pc0 pc, cs_calls s !! t = Some (mkCall m pc0) -> outstanding (mkCall m pc0) = true ->
    address pc = None -> conn_live (set_call t m pc s)) as Hmove.
  { intros t m pc0 pc Hc O Hn. assert (conn_live (set_call t m pc (s <| cs_conn := cs_conn s |>))) as H; [| by destruct s].
    apply live_call; try done; [intros _; by apply (live_other s t m (mkCall m pc0)) | by rewrite Hn |].
    intros a ->. done. }
  destruct Hs as [t m Hn Hu | t m Hc | t m Hc Hn | t m c a Hc Hg | t m a sent c ok Hc Hg | t m a Hc _ _ | t m Hc
                 | t m a c r Hc Hg | f Hr | Hr | Hr | Hr | Hr].
  - assert (conn_live (set_call t m CallEntry (s <| cs_conn := cs_conn s |>))) as H; [| by destruct s].
    apply live_call; try done. intros _ t' c' Hc' O' E. by destruct (Hu t' c' Hc' O').
  - destruct (_ || _); by eapply Hmove.
  - by eapply Hmove.
  - unfold request_register in Hg. destruct (Nat.leb _ _); [done |]. injection Hg as <- <-.
    assert (forall b, done_at (cn_heap (cs_conn s)) b ->
      done_at (<[cn_next (cs_conn s) := mkPending false None]> (cn_heap (cs_conn s))) b) as Hd.
    { intros b (p & Hp & Hpd). exists p. rewrite lookup_insert_ne; [done |].
      assert (b < cn_next (cs_conn s))%nat by (apply (wf_fresh _ _ Hwf); by eexists). lia. }
    apply live_call; try done.
    + intros _. by apply (live_other s t m (mkCall m CallChecked)).
    + intros a [= <-]. left. apply lookup_insert_eq.
    + intros t' c' b Hne Hc' Ha [Hp | Hp]; [left | right; by apply Hd]. simpl. rewrite lookup_insert_ne; [done |].
      intros E. apply Hne. eapply (live_other s t m (mkCall m CallChecked)); eauto using address_outstanding.
  - assert (cn_pending c = cn_pending (cs_conn s) /\ cn_heap c = cn_heap (cs_conn s) /\ cn_dead c = cn_dead (cs_conn s) /\
            cn_valid c = cn_valid (cs_conn s) /\ (ok = true -> cn_valid (cs_conn s) = true /\ cn_dead (cs_conn s) = false))
      as (E1 & E2 & E3 & E4 & Hok).
    { unfold conn_send_frame in Hg. destruct (cn_valid (cs_conn s)) eqn:?, (cn_dead (cs_conn s)) eqn:?, sent;
        injection Hg as <- <-; split_and!; done. }
    apply live_call; try done; unfold tracked; rewrite ?E1, ?E2; try done.
    + intros _. by apply (live_other s t m (mkCall m (CallRegistered a))).
    + intros b. destruct ok; [| done]. intros [= <-]. by apply (lv_tracked s Hl t (mkCall m (CallRegistered a))).
    + intros b Hb Hclo. destruct ok; [| done]. destruct (Hok eq_refl) as [Hv Hd].
      destruct Hclo as [Hrd | Hsh]; [rewrite (lv_dead s Hl) in Hd by (by rewrite Hrd); done |].
      rewrite (lv_closed s Hl) in Hv by (by rewrite Hsh). done.
  - by eapply Hmove.
  - unfold request_abort. destruct (cn_pending (cs_conn s) !! m) as [a |] eqn:Ep.
    + apply live_call; try done; [| intros b; apply done_mark].
      apply (tracked_delete s t m (mkCall m CallSendFailed) _ (mark_done a (cn_heap (cs_conn s)))); try done.
      intros b. apply done_mark.
    + by apply live_call.
  - unfold request_finish in Hg. destruct (cn_heap (cs_conn s) !! a) as [p |]; [| done]. simpl in Hg.
    destruct (pd_done p); [| done]. injection Hg as <- <-. apply live_call; try done.
    by apply (tracked_delete s t m (mkCall m (CallWaiting a)) _ (cn_heap (cs_conn s))).
  - assert (forall b, done_at (cn_heap (cs_conn s)) b -> done_at (cn_heap (deliver f (cs_conn s))) b) as Hd.
    { intros b Hb. unfold deliver. cbv zeta. destruct (cn_pending _ !! _); [by apply done_complete |]. by destruct (cn_handler _). }
    assert (cn_pending (deliver f (cs_conn s)) = cn_pending (cs_conn s) /\ cn_dead (deliver f (cs_conn s)) = cn_dead (cs_conn s) /\
            cn_valid (deliver f (cs_conn s)) = cn_valid (cs_conn s)) as (E1 & E2 & E3).
    { unfold deliver. cbv zeta. destruct (cn_pending _ !! _); [done |]. by destruct (cn_handler _). }
    apply (live_conn s (deliver f (cs_conn s)) (cs_reader s) (cs_shutdown s)); try done.
    + intros m a [Hp | Hp]; [left; by rewrite E1 | right; by apply Hd].
    + rewrite E3. apply (lv_closed s Hl).
    + intros Hclo m a _ [t Hc]. by eapply Hd, (lv_done s Hl).
  - apply (live_conn s (cs_conn s <| cn_dead := true |>) ReaderDead (cs_shutdown s)); try done; [apply (lv_closed s Hl) |].
    intros [? | Hsh] m a _ [t Hc]; [done |]. eapply (lv_done s Hl); [by right | done].
  - apply (live_conn s (resolve_pending None (cs_conn s)) ReaderDone (cs_shutdown s)); try done.
    + intros m a Hp. right. by eapply tracked_resolve.
    + intros _. apply (lv_dead s Hl). by rewrite Hr.
    + apply (lv_closed s Hl).
    + intros _ m a Hp _. by eapply tracked_resolve.
  - apply (live_conn s (cs_conn s <| cn_already_shutdown := true |> <| cn_stop := true |> <| cn_valid := false |>)
             (cs_reader s) ShutdownClosed); try done; [apply (lv_dead s Hl) |].
    intros [Hrd | ?] m a _ [t Hc]; [| done]. eapply (lv_done s Hl); [by left | done].
  - apply (live_conn s (resolve_pending None (cs_conn s)) (cs_reader s) ShutdownDone); try done.
    + intros m a Hp. right. by eapply tracked_resolve.
    + apply (lv_dead s Hl).
    + intros _. apply (lv_closed s Hl). by rewrite Hr.
    + intros _ m a Hp _. by eapply tracked_resolve.
Qed.

Lemma conn_reachable_live s : conn_reachable unused_id s -> conn_live s.
Proof.
  intros (gen & handler & Hs). remember (conn_init gen handler) as s0 eqn:E0.
  assert (conn_reachable unused_id s0) as Hr by (exists gen, handler; subst; apply rtc_refl).
  assert (conn_live s0) as Hl.
  { subst. by split; simpl. }
  clear E0. induction Hs as [s | s s1 s2 H1 _ IH]; [done |]. destruct (conn_reachable_wf _ _ Hr) as [o Ho].
  apply IH; [| by eapply conn_step_live]. destruct Hr as (g & h & Hr). exists g, h. by eapply rtc_r.
Qed.

(** A step of the thread of call [t]: one that moves it. *)
Definition own_step (t : nat) (s s' : ConnSys) : Prop := conn_step unused_id s s' /\ cs_calls s' !! t <> cs_calls s !! t.
(** The steps a call can still make. *)
Definition steps_left (c : RequestCall) : nat :=
  match cl_pc c with
  | CallEntry => 4 | CallChecked => 3 | CallRegistered _ => 2 | CallWaiting _ | CallSendFailed => 1
  | CallReturned _ | CallThrew => 0
  end.

Lemma step_moves_call allowed s s' t c :
  conn_step allowed s s' -> cs_calls s !! t = Some c ->
  exists c', cs_calls s' !! t = Some c' /\ cl_msg_id c' = cl_msg_id c /\ (c' = c \/ (steps_left c' < steps_left c)%nat).
Proof.
  intros Hs Hc. assert (forall u t' m' pc0 pc, cs_calls u = cs_calls s -> cs_calls s !! t' = Some (mkCall m' pc0) ->
    (steps_left (mkCall m' pc) < steps_left (mkCall m' pc0))%nat ->
    exists c', cs_calls (set_call t' m' pc u) !! t = Some c' /\ cl_msg_id c' = cl_msg_id c /\ (c' = c \/ (steps_left c' < steps_left c)%nat)) as Hmove.
  { intros u t' m' pc0 pc Hu Ht Hlt. simpl. rewrite Hu. destruct (decide (t' = t)) as [-> | Hne].
    - rewrite lookup_insert_eq. eexists. split; [done |]. rewrite Hc in Ht. injection Ht as ->. split; [done | by right].
    - rewrite lookup_insert_ne by done. exists c. split; [done | split; [done | by left]]. }
  destruct Hs as [t' m' Hn _ | t' m' Hl | t' m' Hl Hn | t' m' cn a Hl Hg | t' m' a sent cn ok Hl Hg | t' m' a Hl _ _ | t' m' Hl
                 | t' m' a cn r Hl Hg | f Hr | Hr | Hr | Hr | Hr]; try (exists c; split; [done | split; [done | by left]]);
    try (eapply Hmove; [done | exact Hl | unfold steps_left; simpl; lia]).
  - simpl. rewrite lookup_insert_ne by congruence. exists c. split; [done | split; [done | by left]].
  - eapply Hmove; [done | exact Hl | destruct (_ || _); unfold steps_left; simpl; lia].
  - eapply Hmove; [done | exact Hl | destruct ok; unfold steps_left; simpl; lia].
Qed.

(** [shutdown] acts once. *)
Lemma step_shutdown_once allowed s s' :
  (cs_shutdown s <> ShutdownIdle -> cn_already_shutdown (cs_conn s) = true) -> conn_step allowed s s' ->
  cs_shutdown s' <> ShutdownIdle -> cn_already_shutdown (cs_conn s') = true.
Proof.
  intros H Hs. destruct Hs as [| | | t m c a _ Hg | t m a sent c ok _ Hg | | t m _ | t m a c r _ Hg | f _ | | | | Hc]; simpl; try done.
  - unfold request_register in Hg. destruct (Nat.leb _ _); [done |]. by injection Hg as <- <-.
  - unfold conn_send_frame in Hg. destruct (_ || _); [| destruct sent]; by injection Hg as <- <-.
  - unfold request_abort. by destruct (cn_pending _ !! _).
  - unfold request_finish in Hg. destruct (cn_heap _ !! _) as [p |]; [| done]. simpl in Hg. destruct (pd_done p); [| done]. by injection Hg as <- <-.
  - unfold deliver. cbv zeta. destruct (cn_pending _ !! _); [done |]. by destruct (cn_handler _).
  - intros _. apply H. by rewrite Hc.
Qed.

Lemma closed_later s s' : conn_reachable unused_id s -> closed s -> rtc (conn_step unused_id) s s' -> conn_reachable unused_id s' /\ closed s'.
Proof.
  intros (g & h & Hr) Hclo Hs. split; [exists g, h; by etrans |].
  assert (cs_shutdown s <> ShutdownIdle -> cn_already_shutdown (cs_conn s) = true) as Hsd.
  { assert (cs_shutdown (conn_init g h) <> ShutdownIdle -> cn_already_shutdown (cs_conn (conn_init g h)) = true) as H0 by done.
    clear Hclo Hs. induction Hr as [| s0 s1 s2 H1 _ IH]; [done |]. apply IH. by eapply step_shutdown_once. }
  clear Hr. induction Hs as [| s s1 s2 H1 _ IH]; [done |]. apply IH; [| by eapply step_shutdown_once].
  destruct Hclo as [Hrd | Hsh]; [left; destruct H1; simpl; congruence |]. right. rewrite Hsh in Hsd.
  destruct H1; simpl; try congruence. by rewrite Hsd in *.
Qed.

(** A call that is outstanding on a closed connection is not blocked. *)
Lemma own_step_enabled s t c :
  conn_reachable unused_id s -> closed s -> cs_calls s !! t = Some c -> outstanding c = true -> exists s', own_step t s s'.
Proof.
  intros Hr Hclo Hc Ho. pose proof (conn_reachable_live s Hr) as Hl.
  assert (forall m pc0 pc u, c = mkCall m pc0 -> pc <> pc0 -> cs_calls u = cs_calls s -> cs_calls (set_call t m pc u) !! t <> cs_calls s !! t) as Hne.
  { intros m pc0 pc u -> Hp Hu. simpl. rewrite Hu, lookup_insert_eq, Hc. congruence. }
  destruct c as [m [| | a | a | | r |]]; try done.
  - eexists. split; [apply (step_check unused_id s t m Hc) |]. eapply Hne; [done | by destruct (_ || _) | done].
  - destruct (request_register m (cs_conn s)) as [[c a] |] eqn:Eg.
    + eexists. split; [apply (step_register unused_id s t m c a Hc Eg) |]. by eapply Hne.
    + eexists. split; [apply (step_full unused_id s t m Hc Eg) |]. by eapply Hne.
  - destruct (conn_send_frame true (cs_conn s)) as [c ok] eqn:Es. eexists. split; [apply (step_send unused_id s t m a true c ok Hc Es) |].
    eapply Hne; [done | by destruct ok | done].
  - destruct (lv_done s Hl Hclo t m a Hc) as (p & Hp & Hd). eexists. split.
    + apply (step_finish unused_id s t m a (cs_conn s <| cn_pending := delete m (cn_pending (cs_conn s)) |>) (pd_response p) Hc).
      unfold request_finish. rewrite Hp. simpl. by rewrite Hd.
    + by eapply Hne.
  - eexists. split; [apply (step_abort unused_id s t m Hc) |]. by eapply Hne.
Qed.

Lemma own_steps_end k s t c :
  (steps_left c <= k)%nat -> conn_reachable unused_id s -> closed s -> cs_calls s !! t = Some c ->
  exists n s' c', (n <= k)%nat /\ nsteps (own_step t) n s s' /\ cs_calls s' !! t = Some c' /\ cl_msg_id c' = cl_msg_id c /\ outstanding c' = false.
Proof.
  revert s c. induction k as [| k IH]; intros s c Hk Hr Hclo Hc; (destruct (outstanding c) eqn:Ho; [| exists 0%nat, s, c; split_and!; [lia | constructor | done..]]).
  - destruct c as [m []]; unfold steps_left in *; simpl in *; done || lia.
  - destruct (own_step_enabled s t c Hr Hclo Hc Ho) as (s1 & H1 & Hne). destruct (closed_later s s1 Hr Hclo (rtc_once _ _ H1)) as [Hr1 Hclo1].
    destruct (step_moves_call _ _ _ t c H1 Hc) as (c1 & Hc1 & Hm & [-> | Hlt]); [congruence |].
    destruct (IH s1 c1) as (n & s' & c' & Hn & Hs & Hc' & Hm' & Ho'); try done; [lia |].
    exists (S n), s', c'. split_and!; [lia | by eapply nsteps_l | done | congruence | done].
Qed.

(** * A call whose object no longer can be reached *)

Record stranded (t : nat) (m : Z) (a : nat) (s : ConnSys) : Prop := {
  sr_call : cs_calls s !! t = Some (mkCall m (CallWaiting a));
  sr_heap : cn_heap (cs_conn s) !! a = Some (mkPending false None);
  sr_pending : forall m', cn_pending (cs_conn s) !! m' <> Some a;
  sr_next : (a < cn_next (cs_conn s))%nat }.

Lemma stranded_call t m a s t' m' pc c :
  stranded t m a s -> t' <> t -> cn_heap c !! a = Some (mkPending false None) ->
  (forall m', cn_pending c !! m' <> Some a) -> (a < cn_next c)%nat ->
  stranded t m a (set_call t' m' pc (s <| cs_conn := c |>)).
Proof. intros [Hc Hh Hp Hn] Hne H1 H2 H3. split; simpl; auto. by rewrite lookup_insert_ne. Qed.

Lemma stranded_step t m a s s' : stranded t m a s -> conn_step any_id s s' -> stranded t m a s'.
Proof.
  intros Hst Hs. pose proof Hst as [Hc Hh Hp Hn].
  assert (forall t' m' pc, t' <> t -> stranded t m a (set_call t' m' pc s)) as Hmove.
  { intros t' m' pc Hne. pose proof (stranded_call t m a s t' m' pc (cs_conn s) Hst Hne Hh Hp Hn) as H. by destruct s. }
  destruct Hs as [t' m' Hl _ | t' m' Hl | t' m' Hl Hg | t' m' c b Hl Hg | t' m' b sent c ok Hl Hg | t' m' b Hl _ _ | t' m' Hl
                 | t' m' b c r Hl Hg | f Hr | Hr | Hr | Hr | Hr];
    try (apply Hmove; intros ->; congruence).
  - assert (t' <> t) as Hne by (intros ->; congruence). unfold request_register in Hg. destruct (Nat.leb _ _); [done |].
    injection Hg as <- <-. apply stranded_call; try done; simpl.
    + rewrite lookup_insert_ne; [done | lia].
    + intros m''. destruct (decide (m'' = m')) as [-> | ?]; [rewrite lookup_insert_eq; intros [= E]; lia | by rewrite lookup_insert_ne].
    + lia.
  - assert (t' <> t) as Hne by (intros ->; congruence). unfold conn_send_frame in Hg.
    destruct (_ || _); [| destruct sent]; injection Hg as <- <-; by apply stranded_call.
  - assert (t' <> t) as Hne by (intros ->; congruence). unfold request_abort.
    destruct (cn_pending (cs_conn s) !! m') as [b |] eqn:E; [| by apply stranded_call].
    apply stranded_call; try done; simpl.
    + unfold mark_done. rewrite lookup_alter_ne; [done |]. intros ->. by apply Hp in E.
    + intros m'' H. apply lookup_delete_Some in H as [_ H]. by apply Hp in H.
  - destruct (decide (t' = t)) as [-> | Hne].
    + rewrite Hc in Hl. injection Hl as <- <-. unfold request_finish in Hg. by rewrite Hh in Hg.
    + unfold request_finish in Hg. destruct (cn_heap (cs_conn s) !! b) as [p |]; [| done]. simpl in Hg.
      destruct (pd_done p); [| done]. injection Hg as <- <-. apply stranded_call; try done. simpl.
      intros m'' H. apply lookup_delete_Some in H as [_ H]. by apply Hp in H.
  - unfold deliver. cbv zeta. change (cn_pending (cs_conn s <| cn_frames_recv := _ |>)) with (cn_pending (cs_conn s)).
    destruct (cn_pending (cs_conn s) !! fr_msg_id f) as [b |] eqn:E.
    + split; simpl; try done. unfold complete. rewrite lookup_insert_ne; [done |]. intros ->. by apply Hp in E.
    + by destruct (cn_handler _).
  - done.
  - split; simpl; try done. destruct (resolve_heap None (cn_pending (cs_conn s)) (cn_heap (cs_conn s)) a) as [[_ [m' H]] | [-> _]];
      [by apply Hp in H | done].
  - done.
  - split; simpl; try done. destruct (resolve_heap None (cn_pending (cs_conn s)) (cn_heap (cs_conn s)) a) as [[_ [m' H]] | [-> _]];
      [by apply Hp in H | done].
Qed.

(** * Theorems *)

(** C34: Responses are matched to requests by message id, and the pending requests are
    bounded: in every reachable state, however the reader, the callers and a shutdown
    interleave and even when callers share a message id, at most [kMaxPending] requests
    are pending, and a call that returned a frame returned one with its own id. *)
Theorem response_matches_request (s : ConnSys) :
  conn_reachable any_id s ->
  (size (cn_pending (cs_conn s)) <= kMaxPending)%nat /\
  forall t m f, cs_calls s !! t = Some (mkCall m (CallReturned (Some f))) -> fr_msg_id f = m.
Proof.
  intros [o [Hb _ _ _ Hc]]%conn_reachable_wf. split; [done |]. intros t m f Hl. by apply (Hc _ _ _ Hl).
Qed.

(** C33: Every request completes when the connection is lost, whatever the other threads do.
    Once the reader has resolved the pending requests at its exit (or a shutdown has), at
    every later moment [s1]: a call of [request], wherever it is, can go on to its return
    with at most four steps of its own thread, no other thread moving; and a step of any
    thread leaves the call where it is or brings it nearer to its end ([steps_left]).
    This is so if no two outstanding calls use the same message id. *)
Theorem request_completes_on_disconnect (s s1 : ConnSys) (t : nat) (c : RequestCall) :
  conn_reachable unused_id s -> closed s -> rtc (conn_step unused_id) s s1 -> cs_calls s1 !! t = Some c ->
  (exists n s2 c', (n <= 4)%nat /\ nsteps (own_step t) n s1 s2 /\ cs_calls s2 !! t = Some c' /\
     cl_msg_id c' = cl_msg_id c /\ outstanding c' = false) /\
  (forall s2, conn_step unused_id s1 s2 -> exists c', cs_calls s2 !! t = Some c' /\ cl_msg_id c' = cl_msg_id c /\
     (c' = c \/ (steps_left c' < steps_left c)%nat)).
Proof.
  intros Hr Hclo Hs Hc. destruct (closed_later s s1 Hr Hclo Hs) as [Hr1 Hclo1].
  split; [| intros s2 H2; by eapply step_moves_call]. destruct (own_steps_end (steps_left c) s1 t c) as (n & s2 & c' & Hn & H); try done.
  exists n, s2, c'. split; [| done]. etransitivity; [exact Hn |]. destruct c as [m []]; unfold steps_left; simpl; lia.
Qed.

(** A concrete run: [n] callers with the same id register and send, then the peer goes
    away. *)
Module ConnRun.
Definition sent (t : nat) (m : Z) (a : nat) (s : ConnSys) : ConnSys :=
  let s1 := set_call t m CallChecked (set_call t m CallEntry s) in
  let c := default (cs_conn s1, a) (request_register m (cs_conn s1)) in
  let s2 := set_call t m (CallRegistered a) (s1 <| cs_conn := c.1 |>) in
  set_call t m (CallWaiting a) (s2 <| cs_conn := (conn_send_frame true (cs_conn s2)).1 |>).
Definition lost (s : ConnSys) : ConnSys :=
  let s1 := s <| cs_conn := cs_conn s <| cn_dead := true |> |> <| cs_reader := ReaderDead |> in
  s1 <| cs_conn := resolve_pending None (cs_conn s1) |> <| cs_reader := ReaderDone |>.

Lemma sent_steps allowed t m s :
  cs_calls s !! t = None -> allowed s m -> cn_dead (cs_conn s) = false -> cn_valid (cs_conn s) = true ->
  (size (cn_pending (cs_conn s)) < kMaxPending)%nat -> rtc (conn_step allowed) s (sent t m (cn_next (cs_conn s)) s).
Proof.
  intros Hn Ha Hd Hv Hsz. eapply rtc_l; [by apply (step_call allowed s t m) |]. eapply rtc_l.
  { apply (step_check allowed _ t m). apply lookup_insert_eq. }
  change (cs_conn (set_call t m CallEntry s)) with (cs_conn s). rewrite Hd, Hv. cbn [orb negb]. unfold sent.
  set (s1 := set_call t m CallChecked (set_call t m CallEntry s)).
  assert (exists c, request_register m (cs_conn s1) = Some (c, cn_next (cs_conn s)) /\ cn_valid c = true /\ cn_dead c = false)
    as (c & Hc & Hcv & Hcd).
  { unfold request_register. change (cs_conn s1) with (cs_conn s).
    destruct (Nat.leb_spec kMaxPending (size (cn_pending (cs_conn s)))); [lia |]. by eexists. }
  eapply rtc_l; [by apply (step_register allowed s1 t m c (cn_next (cs_conn s))); [apply lookup_insert_eq |] |].
  cbv zeta. rewrite Hc. cbn [default fst]. set (s2 := set_call t m (CallRegistered _) _). apply rtc_once.
  apply (step_send allowed s2 t m (cn_next (cs_conn s)) true _ true); [apply lookup_insert_eq |].
  unfold conn_send_frame. change (cs_conn s2) with c. by rewrite Hcv, Hcd.
Qed.

Lemma lost_steps allowed s : cs_reader s = ReaderLoop -> rtc (conn_step allowed) s (lost s).
Proof.
  intros Hr. eapply rtc_l; [by apply step_reader_exit |]. eapply rtc_l; [by apply step_reader_resolve |]. apply rtc_refl.
Qed.

Definition one : ConnSys := sent 0 9101 0 (conn_init 1 true).
Definition two : ConnSys := sent 1 9102 1 (sent 0 9102 0 (conn_init 1 true)).

Lemma lost_one : conn_reachable unused_id (lost one).
Proof.
  exists 1, true. etrans; [| by apply lost_steps].
  apply (sent_steps unused_id 0 9101 (conn_init 1 true)); try done. vm_compute. lia.
Qed.
End ConnRun.

(** Two concurrent calls with the same message id strand one of them: the second
    registration replaces the first, so when the connection is lost only the second is
    resolved, and the first waits for ever, whatever happens next. *)
Theorem shared_id_strands_caller :
  exists s t m a, conn_reachable any_id s /\ closed s /\ cs_calls s !! t = Some (mkCall m (CallWaiting a)) /\
    forall s', rtc (conn_step any_id) s s' -> cs_calls s' !! t = Some (mkCall m (CallWaiting a)).
Proof.
  exists (ConnRun.lost ConnRun.two), 0%nat, 9102, 0%nat.
  assert (stranded 0 9102 0 (ConnRun.lost ConnRun.two)) as Hst.
  { split; try (vm_compute; reflexivity); [| vm_compute; lia]. intros m'. change (cn_pending _) with (∅ : gmap Z nat). by rewrite lookup_empty. }
  split_and!.
  - exists 1, true. etrans; [| by apply ConnRun.lost_steps].
    etrans; [by apply (ConnRun.sent_steps any_id 0 9102 (conn_init 1 true)); try done; vm_compute; lia |].
    apply (ConnRun.sent_steps any_id 1 9102 (ConnRun.sent 0 9102 0 (conn_init 1 true))); try (vm_compute; reflexivity); try done; vm_compute; lia.
  - by left.
  - apply Hst.
  - intros s' Hs'. apply (sr_call 0 9102 0). induction Hs' as [| s s1 s2 H1 _ IH]; [done |]. by apply IH, (stranded_step _ _ _ s).
Qed.

(** * Witnesses *)

Lemma response_matches_request_witness : (size (cn_pending (cs_conn (ConnRun.sent 0 9101 0 (conn_init 1 true)))) <= kMaxPending)%nat.
Proof.
  apply (response_matches_request (ConnRun.sent 0 9101 0 (conn_init 1 true))). exists 1, true.
  apply (ConnRun.sent_steps any_id 0 9101 (conn_init 1 true)); try done. vm_compute. lia.
Defined.

Lemma request_completes_on_disconnect_witness :
  let s := ConnRun.lost ConnRun.one in let s1 := s <| cs_conn := cs_conn s <| cn_already_shutdown := true |> <| cn_stop := true |>
                                                   <| cn_valid := false |> |> <| cs_shutdown := ShutdownClosed |> in
  exists n s2 c', (n <= 4)%nat /\ nsteps (own_step 0) n s1 s2 /\ cs_calls s2 !! 0%nat = Some c' /\
    cl_msg_id c' = 9101 /\ outstanding c' = false.
Proof.
  intros s s1. apply (request_completes_on_disconnect s s1 0 (mkCall 9101 (CallWaiting 0)) ConnRun.lost_one).
  - by left.
  - apply rtc_once, step_shutdown. reflexivity.
  - vm_compute. reflexivity.
Defined.
