(* ===== verification/Wire.v ===== *)
(** What the three processes share (net/common.hpp): the field numbers of their
    messages, the reference workload, the transport strings, and the route entry
    carried by INSTALL_ROUTE.

    A [PayloadWriter] and the calls on it are the list of the fields written, in
    order ([payload]); [PayloadWriter::finish] is the bytes. *)

From stdpp Require Import base list gmap strings pretty.
From Stdlib Require Import ZArith Lia.
From S2P Require Import Prelude Identities Types Double Bytes Model Codec Protocol.

Open Scope Z_scope.

(** * Field numbers *)

Definition fid_role : Z := 1.
Definition fid_boot : Z := 2.
Definition fid_target : Z := 3.
Definition fid_service : Z := 4.
Definition fid_slot : Z := 5.
Definition fid_seq : Z := 6.
Definition fid_ready : Z := 7.
Definition fid_model : Z := 8.
Definition fid_abi : Z := 9.
Definition fid_capacity : Z := 11.
Definition fid_category : Z := 12.
Definition fid_ok : Z := 15.
Definition fid_detail : Z := 16.
Definition fid_epoch : Z := 17.
Definition fid_route_gen : Z := 18.
Definition fid_assignment_gen : Z := 19.
Definition fid_request_id : Z := 20.
Definition fid_execution_id : Z := 21.
Definition fid_payload : Z := 22.
Definition fid_state : Z := 23.
Definition fid_operation : Z := 25.
Definition fid_incarnation : Z := 26.
Definition fid_assignment_id : Z := 28.
Definition fid_req_port : Z := 30.
Definition fid_input_a : Z := 31.
Definition fid_input_b : Z := 32.
Definition fid_epoch_id : Z := 33.
Definition fid_epoch_boot : Z := 34.
Definition fid_failback : Z := 35.
Definition fid_cooldown_ms : Z := 36.
Definition fid_max_auto_attempts : Z := 37.
Definition fid_authorize : Z := 38.
Definition fid_withheld : Z := 42.
Definition fid_idempotent : Z := 44.
Definition fid_externally_effectful : Z := 45.
Definition fid_txn_incomplete : Z := 46.
Definition fid_state_avail : Z := 48.
Definition fid_checkpoint_gen : Z := 49.
Definition fid_committed_seq : Z := 50.
Definition fid_session_ok : Z := 51.
Definition fid_tenant_ok : Z := 52.
Definition fid_model_ok : Z := 53.
Definition fid_format_ok : Z := 54.
Definition fid_integrity_ok : Z := 55.
Definition fid_replay_safe : Z := 56.
Definition fid_continuity : Z := 57.
Definition fid_min_checkpoint : Z := 58.
Definition fid_dispatch_count : Z := 59.
Definition fid_hysteresis_ms : Z := 60.

Definition fid_route_id : Z := 40.
Definition fid_route_generation : Z := 41.
Definition fid_route_target : Z := 42.
Definition fid_route_tgtgen : Z := 43.
Definition fid_route_inc : Z := 44.
Definition fid_route_boot : Z := 45.
Definition fid_route_assign : Z := 46.
Definition fid_route_assigngen : Z := 47.
Definition fid_route_routegen : Z := 48.
Definition fid_route_slot_service : Z := 49.
Definition fid_route_slot_id : Z := 50.
Definition fid_route_transport : Z := 51.
Definition fid_route_state : Z := 52.

Definition kRoleWorker : Z := 1.
Definition kRoleGateway : Z := 2.
Definition kRoleClient : Z := 3.

(** * Payloads and messages *)

(** [PayloadWriter w; w.u64(...); ...; w.finish()]. *)
Definition payload (l : list (Z * Value)) : result bytes :=
  match write_values l [] with (b, Ok _) => Ok b | (_, Throw e) => Throw e end.

(** [r.has(f) ? r.get(f) : d]. *)
Definition opt_field {A} (get : list Field -> Z -> result A) (fs : list Field) (field : Z) (d : A) : result A :=
  if has_field fs field then get fs field else Ok d.

(** [r.has(f) && r.bool_(f)]. *)
Definition flag (fs : list Field) (field : Z) : result bool := opt_field p_bool fs field false.

(** [send_msg(s, type, id, epoch, w.finish())]: the frame that is sent, unless building
    the payload or encoding the frame throws. *)
Definition message (type : MsgType) (msg_id epoch : Z) (l : list (Z * Value)) : result Frame :=
  b ← payload l;
  let f := mkFrame type msg_id epoch b in
  _ ← encode_frame f;
  Ok f.

(** * The reference workload *)

(** [std::to_string] of an unsigned integer. *)
Definition to_string_u64 (v : Z) : string := pretty (Z.to_N v).

Definition encode_workload (a b : Z) : string :=
  to_string_u64 a +:+ ":" +:+ to_string_u64 b +:+ ":" +:+ to_string_u64 (wrap64 (Z.lxor a b * 2654435761)).

(** One turn of the loop, at 64 bits. *)
Definition reference_step (a b acc i : Z) : Z :=
  Z.land (wrap64 (wrap64 (wrap64 (acc * 31) + wrap64 (a * i)) + wrap64 (b * wrap64 (i + 1)))) 0x3FFFFFFF.
Definition reference_result (a b : Z) : Z := foldl (reference_step a b) 0 (seqZ 0 32).

(** * Transport strings *)

(** [isspace] in the "C" locale. *)
Definition is_space (b : Z) : bool := Z.eqb b 32 || (Z.leb 9 b && Z.leb b 13).
Definition is_digit (b : Z) : bool := Z.leb 48 b && Z.leb b 57.

Fixpoint skip_spaces (s : bytes) : bytes :=
  match s with b :: s' => if is_space b then skip_spaces s' else s | [] => [] end.
Fixpoint digits_value (acc : Z) (s : bytes) : Z :=
  match s with b :: s' => if is_digit b then digits_value (acc * 10 + (b - 48)) s' else acc | [] => acc end.

(** [std::strtoull(s, nullptr, 10)]: white space, a sign, digits; the value saturates
    at [ULLONG_MAX] and a minus sign negates modulo [2 ^ 64]. *)
Definition strtoull (s : bytes) : Z :=
  let s := skip_spaces s in
  let '(neg, s) := match s with
                   | 45 :: s' => (true, s')
                   | 43 :: s' => (false, s')
                   | _ => (false, s)
                   end in
  let v := digits_value 0 s in
  if Z.ltb (2 ^ 64 - 1) v then 2 ^ 64 - 1 else if (neg : bool) then wrap64 (- v) else v.

(** [s.rfind(c)]. *)
Fixpoint rfind_byte (c : Z) (s : bytes) : option nat :=
  match s with
  | [] => None
  | b :: s' => match rfind_byte c s' with
               | Some p => Some (S p)
               | None => if Z.eqb b c then Some O else None
               end
  end.

Definition tcp_scheme : bytes := string_bytes "tcp://".

(** The result, the host and the port.  [substr(6, p - 6)] takes everything after the
    scheme when the only colon is the scheme's, where [p - 6] wraps around. *)
Definition parse_tcp_transport (transport : string) : bool * string * Z :=
  let t := string_bytes transport in
  match rfind_byte 58 t with
  | Some p =>
    if bool_decide (take 6 t = tcp_scheme) then
      let host := if Nat.ltb p 6 then drop 6 t else take (p - 6) (drop 6 t) in
      (true, string_of_bytes host, strtoull (drop (p + 1) t) mod 2 ^ 16)
    else (false, "127.0.0.1"%string, 0)
  | None => (false, "127.0.0.1"%string, 0)
  end.

(** ["tcp://127.0.0.1:" + std::to_string(port)], as the coordinator writes it. *)
Definition tcp_transport (port : Z) : string := "tcp://127.0.0.1:" +:+ to_string_u64 port.

(** * Arguments of the processes *)

Definition parse_u64 (s : string) : Z := strtoull (string_bytes s).
Definition parse_u16 (s : string) : Z := parse_u64 s mod 2 ^ 16.

(** [s.find(':')]. *)
Fixpoint find_byte (c : Z) (s : bytes) : option nat :=
  match s with
  | [] => None
  | b :: s' => if Z.eqb b c then Some O else S <$> find_byte c s'
  end.

(** "HOST:PORT".  Without a colon [find] is [npos]: the host is the whole string and
    [c + 1] wraps to 0, so the port is parsed from its start. *)
Definition parse_endpoint (p : string) : string * Z :=
  let s := string_bytes p in
  match find_byte 58 s with
  | Some c => (string_of_bytes (take c s), strtoull (drop (c + 1) s) mod 2 ^ 16)
  | None => (p, strtoull s mod 2 ^ 16)
  end.

(** * Route entries *)

(** What [encode_route_entry] puts into the payload, in order.  The epoch, the gateway
    boot and the provenance are not sent. *)
Definition encode_route_entry (e : RouteEntry) : list (Z * Value) :=
  [ (fid_route_id, VU64 (id_value (re_route e)));
    (fid_route_generation, VU64 (gen_value (re_generation e)));
    (fid_route_target, VU64 (id_value (re_target e)));
    (fid_route_tgtgen, VU64 (gen_value (re_target_generation e)));
    (fid_route_inc, VU64 (id_value (re_incarnation e)));
    (fid_route_boot, VU64 (id_value (re_permitted_boot e)));
    (fid_route_assign, VU64 (id_value (re_assignment e)));
    (fid_route_assigngen, VU64 (gen_value (re_assignment_generation e)));
    (fid_route_routegen, VU64 (gen_value (re_generation e)));
    (fid_route_slot_service, VU64 (id_value (sk_service (re_slot e))));
    (fid_route_slot_id, VU64 (id_value (sk_slot (re_slot e))));
    (fid_route_transport, VStr (re_transport e));
    (fid_route_state, VU8 (enum_index (re_state e))) ].

(** A route entry as the gateway holds it.  The cast of the state byte is unchecked, so
    the byte is kept beside the entry, whose own [re_state] stays the default. *)
Record WireRoute : Type := mkWireRoute { wr_entry : RouteEntry; wr_state : Z }.

Definition decode_route_entry (fs : list Field) : result WireRoute :=
  route ← p_u64 fs fid_route_id;
  _ ← p_u64 fs fid_route_generation;
  target ← p_u64 fs fid_route_target;
  tgtgen ← p_u64 fs fid_route_tgtgen;
  inc ← p_u64 fs fid_route_inc;
  boot ← p_u64 fs fid_route_boot;
  assign ← p_u64 fs fid_route_assign;
  assigngen ← p_u64 fs fid_route_assigngen;
  routegen ← p_u64 fs fid_route_routegen;
  service ← p_u64 fs fid_route_slot_service;
  slot ← p_u64 fs fid_route_slot_id;
  transport ← p_str fs fid_route_transport;
  state ← p_u8 fs fid_route_state;
  let d := route_entry_default in
  Ok (mkWireRoute
        (mkRouteEntry (mkId route) (mkGen routegen) (mkSlotKey (mkId service) (mkId slot)) (mkId target) (mkGen tgtgen)
           (mkId inc) (mkId boot) (mkId assign) (mkGen assigngen) (re_epoch d) (re_state d) (re_gateway_boot d)
           transport (re_provenance d)) state).

(** * Lemmas: payloads *)

Definition payload_size (l : list (Z * Value)) : Z := Z.of_nat (length (flat_map field_bytes (field_of <$> l))).
Definition fields_typed (l : list (Z * Value)) : Prop := Forall (fun p => u8 p.1 /\ value_typed p.2) l.

(** What is written is read back field by field; a number written twice is read as its
    first occurrence, since the reader searches the fields in order. *)
Lemma payload_reads l :
  fields_typed l -> payload_size l <= kMaxFramePayload ->
  exists data, payload l = Ok data /\ payload_reader data = Ok (field_of <$> l).
Proof.
  intros Ht Hsz. exists (flat_map field_bytes (field_of <$> l)). unfold payload.
  rewrite write_values_ok by done. split; [done |]. apply parse_fields_complete; [done |]. by apply fields_of_ok.
Qed.

Lemma message_reads type msg_id epoch l :
  fields_typed l -> payload_size l <= kMaxFramePayload ->
  exists f, message type msg_id epoch l = Ok f /\ fr_type f = type /\ fr_msg_id f = msg_id /\ fr_epoch f = epoch /\
    payload_reader (fr_payload f) = Ok (field_of <$> l) /\ fr_payload f = flat_map field_bytes (field_of <$> l).
Proof.
  intros Ht Hsz. destruct (payload_reads l Ht Hsz) as (data & Hd & Hr).
  exists (mkFrame type msg_id epoch data). unfold message. rewrite Hd. unfold mbind, result_bind.
  assert (data = flat_map field_bytes (field_of <$> l)) as ->.
  { unfold payload in Hd. rewrite write_values_ok in Hd by done. by injection Hd. }
  unfold encode_frame. cbn [fr_payload]. fold (payload_size l).
  destruct (Z.ltb_spec kMaxFramePayload (payload_size l)); [lia |]. done.
Qed.

(** A message that could be built carries its fields. *)
Lemma message_inv type msg_id epoch l f :
  message type msg_id epoch l = Ok f ->
  fr_type f = type /\ fr_msg_id f = msg_id /\ fr_epoch f = epoch /\ payload l = Ok (fr_payload f).
Proof.
  unfold message, mbind, result_bind. destruct (payload l) as [b |]; [| done]. cbv zeta.
  destruct (encode_frame _); [| done]. by intros [= <-].
Qed.

(** A writer that does not throw has appended exactly its fields. *)
Lemma write_value_inv id v b b' :
  write_value id v b = (b', Ok tt) -> b' = b ++ field_bytes (field_of (id, v)).
Proof.
  assert (forall ty n bs, field_of (id, v) = mkField id ty bs -> Z.of_nat (length bs) = n ->
    (_ ← field_header id ty n; w_append bs) b = (b', Ok tt) -> b' = b ++ field_bytes (field_of (id, v))) as Hf.
  { intros ty n bs -> <-. unfold field_header, w_append, modify, mbind, st_bind, field_bytes. cbv beta zeta.
    destruct (Z.ltb _ _); [done |]. intros [= <-]. cbn [fld_id fld_type fld_value]. by rewrite <- !app_assoc. }
  destruct v; cbn [write_value]; try (apply Hf; [done | by rewrite ?le_bytes_length]).
  - unfold w_str. destruct (Z.ltb _ _); [done |]. apply Hf; [done |]. by rewrite string_bytes_length.
  - unfold w_bytes. destruct (Z.ltb _ _); [done |]. by apply Hf.
Qed.

Lemma write_values_inv l b b' :
  write_values l b = (b', Ok tt) -> b' = b ++ flat_map field_bytes (field_of <$> l).
Proof.
  revert b. induction l as [| [id v] l IH]; intros b; simpl; [intros [= <-]; by rewrite app_nil_r |].
  unfold mbind, st_bind. destruct (write_value id v b) as [b1 [[] |]] eqn:E; [| done].
  apply write_value_inv in E as ->. intros ->%IH. by rewrite <- app_assoc.
Qed.

(** A message that was sent is read back field by field. *)
Lemma fields_shape l :
  payload_size l <= kMaxFramePayload -> Forall field_shape (field_of <$> l).
Proof.
  unfold payload_size. induction l as [| [id v] l IH]; [constructor |]. rewrite fmap_cons. cbn [flat_map]. rewrite length_app.
  intros Hsz. constructor; [| apply IH; lia]. split; [by destruct v |]. revert Hsz. unfold field_bytes.
  rewrite !length_app, le_bytes_length. lia.
Qed.

Lemma message_fields type msg_id epoch l f :
  message type msg_id epoch l = Ok f -> payload_reader (fr_payload f) = Ok (field_of <$> l).
Proof.
  unfold message, mbind, result_bind. destruct (payload l) as [b |] eqn:Hp; [| done]. cbv zeta.
  unfold encode_frame. cbn [fr_payload]. destruct (Z.ltb_spec kMaxFramePayload (Z.of_nat (length b))) as [| Hsz]; [done |].
  intros [= <-]. cbn [fr_payload]. unfold payload in Hp. destruct (write_values l []) as [b' [[] |]] eqn:E; [| done].
  injection Hp as <-. apply write_values_inv in E. simpl in E. subst b'. apply parse_fields_shape; [done |]. by apply fields_shape.
Qed.

Lemma p_u64_reads fs id v : find_field fs id = Some (field_of (id, VU64 v)) -> u64 v -> p_u64 fs id = Ok v.
Proof. intros Hf Hv. exact (reads_field_of fs id (VU64 v) Hv Hf). Qed.
(** Any value is carried as its 64 low bits. *)
Lemma p_u64_value fs id v : find_field fs id = Some (field_of (id, VU64 v)) -> p_u64 fs id = Ok (wrap64 v).
Proof.
  intros Hf. unfold p_u64, field_value. rewrite Hf. cbn [field_of fld_type fld_value]. rewrite le_bytes_length.
  cbn [Z.eqb Nat.eqb Pos.eqb negb orb]. unfold mbind, result_bind. by rewrite le_read_le_bytes.
Qed.
Lemma p_u8_reads fs id v : find_field fs id = Some (field_of (id, VU8 v)) -> u8 v -> p_u8 fs id = Ok v.
Proof. intros Hf Hv. exact (reads_field_of fs id (VU8 v) Hv Hf). Qed.
Lemma p_bool_reads fs id v : find_field fs id = Some (field_of (id, VBool v)) -> p_bool fs id = Ok v.
Proof. intros Hf. exact (reads_field_of fs id (VBool v) I Hf). Qed.
Lemma p_str_reads fs id v : find_field fs id = Some (field_of (id, VStr v)) -> p_str fs id = Ok v.
Proof. intros Hf. exact (reads_field_of fs id (VStr v) I Hf). Qed.
Lemma p_bytes_reads fs id v : find_field fs id = Some (field_of (id, VBytes v)) -> are_bytes v -> p_bytes fs id = Ok v.
Proof. intros Hf Hv. exact (reads_field_of fs id (VBytes v) Hv Hf). Qed.

Lemma has_field_Some fs id f : find_field fs id = Some f -> has_field fs id = true.
Proof. intros Hf. unfold has_field. rewrite Hf. by apply bool_decide_true. Qed.
Lemma has_field_None fs id : find_field fs id = None -> has_field fs id = false.
Proof. intros Hf. unfold has_field. rewrite Hf. apply bool_decide_false. by intros []. Qed.

Lemma opt_field_None {A} (get : list Field -> Z -> result A) fs id d :
  find_field fs id = None -> opt_field get fs id d = Ok d.
Proof. intros Hf. unfold opt_field. by rewrite has_field_None. Qed.
Lemma opt_field_Some {A} (get : list Field -> Z -> result A) fs id d f v :
  find_field fs id = Some f -> get fs id = Ok v -> opt_field get fs id d = Ok v.
Proof. intros Hf Hg. unfold opt_field. by rewrite (has_field_Some _ _ _ Hf). Qed.

(** Rewrites the reads of a payload given by its fields. *)
Ltac read_fields :=
  repeat first
    [ erewrite p_u64_reads; [| reflexivity | eassumption || done]
    | erewrite p_u8_reads; [| reflexivity | eassumption || done]
    | erewrite p_bool_reads; [| reflexivity]
    | erewrite p_str_reads; [| reflexivity] ];
  unfold mbind, result_bind; cbv beta iota.

(** The flag a frame carries under a field number, [false] when it is absent or the
    payload is malformed. *)
Definition frame_flag (f : Frame) (field : Z) : bool :=
  match fs ← payload_reader (fr_payload f); flag fs field with Ok b => b | Throw _ => false end.

Lemma frame_flag_fields f fs field b :
  payload_reader (fr_payload f) = Ok fs -> find_field fs field = Some (field_of (field, VBool b)) -> frame_flag f field = b.
Proof.
  intros Hr Hf. unfold frame_flag, flag. rewrite Hr. unfold mbind, result_bind.
  by rewrite (opt_field_Some p_bool fs field false _ b Hf (p_bool_reads _ _ _ Hf)).
Qed.

Lemma message_flag type msg_id epoch l f field b :
  message type msg_id epoch l = Ok f -> find_field (field_of <$> l) field = Some (field_of (field, VBool b)) ->
  frame_flag f field = b.
Proof. intros Hm Hf. eapply frame_flag_fields; [by eapply message_fields | done]. Qed.

(** Proves that the fields of a concrete message are typed. *)
Ltac fields_typed :=
  unfold fields_typed; repeat (apply Forall_cons; split; [split; [by unfold u8 |] |]); try apply Forall_nil;
  try done; try exact I; try apply string_bytes_are_bytes.

(** * Lemmas: the reference workload *)

Lemma land_30 z : Z.land z 0x3FFFFFFF = z mod 2 ^ 30.
Proof. change 0x3FFFFFFF with (Z.ones 30). apply Z.land_ones. lia. Qed.

Lemma wrap64_shift z : exists k, wrap64 z = z + k * 2 ^ 30.
Proof.
  exists (- (z / 2 ^ 64) * 2 ^ 34). unfold wrap64. rewrite (Z.div_mod z (2 ^ 64)) at 2 by lia.
  change (2 ^ 64) with (2 ^ 34 * 2 ^ 30). ring.
Qed.

(** The 64-bit wrap-around does not show in the low thirty bits. *)
Lemma reference_step_mod a b acc i :
  reference_step a b acc i = (acc * 31 + a * i + b * (i + 1)) mod 2 ^ 30.
Proof.
  unfold reference_step. rewrite land_30.
  destruct (wrap64_shift (acc * 31)) as [k1 ->]. destruct (wrap64_shift (a * i)) as [k2 ->].
  destruct (wrap64_shift (i + 1)) as [k3 ->]. destruct (wrap64_shift (b * (i + 1 + k3 * 2 ^ 30))) as [k4 ->].
  destruct (wrap64_shift (acc * 31 + k1 * 2 ^ 30 + (a * i + k2 * 2 ^ 30))) as [k5 ->].
  match goal with |- context [wrap64 ?z] => destruct (wrap64_shift z) as [k6 ->] end.
  rewrite <- (Z_mod_plus_full (acc * 31 + a * i + b * (i + 1)) (k1 + k2 + b * k3 + k4 + k5 + k6)). f_equal. ring.
Qed.

(** The coefficients of the two inputs after the turns [l]. *)
Definition coef_step (p : Z * Z) (i : Z) : Z * Z := ((31 * p.1 + i) mod 2 ^ 30, (31 * p.2 + (i + 1)) mod 2 ^ 30).

Lemma reference_fold a b l acc p :
  acc = (a * p.1 + b * p.2) mod 2 ^ 30 ->
  foldl (reference_step a b) acc l = (let q := foldl coef_step p l in (a * q.1 + b * q.2) mod 2 ^ 30).
Proof.
  revert acc p. induction l as [| i l IH]; intros acc p Hacc; [done |]. cbn [foldl]. apply IH.
  rewrite reference_step_mod, Hacc. unfold coef_step. cbn [fst snd].
  rewrite <- (Z.add_assoc _ (a * i)), Zplus_mod, Zmult_mod_idemp_l, <- Zplus_mod.
  rewrite (Zplus_mod (a * _) (b * _)), !Zmult_mod_idemp_r, <- Zplus_mod. f_equal. ring.
Qed.

Lemma reference_result_mod a b : reference_result a b = (a * 131194896 + b * 845816336) mod 2 ^ 30.
Proof.
  unfold reference_result. rewrite (reference_fold a b _ 0 (0, 0)) by (rewrite !Z.mul_0_r; done).
  change (foldl coef_step (0, 0) (seqZ 0 32)) with (131194896, 845816336). done.
Qed.

Lemma reference_result_mask a b : reference_result (Z.land a 0xFFFFFFFFFFFF) b = reference_result a b.
Proof.
  rewrite !reference_result_mod. change 0xFFFFFFFFFFFF with (Z.ones 48). rewrite Z.land_ones by lia.
  rewrite (Z.div_mod a (2 ^ 48)) at 2 by lia.
  rewrite <- (Z_mod_plus_full (a mod 2 ^ 48 * 131194896 + b * 845816336) (2 ^ 18 * (a / 2 ^ 48) * 131194896)).
  f_equal. change (2 ^ 48) with (2 ^ 18 * 2 ^ 30). ring.
Qed.

(** * Lemmas: decimal numbers *)

Lemma string_bytes_app s t : string_bytes (s +:+ t) = string_bytes s ++ string_bytes t.
Proof. induction s as [| c s IH]; [done |]. exact (f_equal (cons _) IH). Qed.

Lemma digit_char (d : N) : (d < 10)%N -> byte_of_ascii (pretty_N_char d) = 48 + Z.of_N d.
Proof.
  intros Hd. destruct d as [| p]; [done |]. do 4 (destruct p as [p | p |]; try done; try lia).
Qed.

Lemma pretty_go_digits x :
  exists ds, Forall (fun b => is_digit b = true) ds /\
    (forall s, string_bytes (pretty_N_go x s) = ds ++ string_bytes s) /\
    forall r, digits_value 0 (ds ++ r) = digits_value (Z.of_N x) r.
Proof.
  induction (N.lt_wf_0 x) as [x _ IH]. destruct (decide (0 < x)%N) as [Hx | Hx].
  - destruct (IH (x / 10)%N) as (ds & Hd & Hs & Hv); [by apply N.div_lt |].
    assert (x mod 10 < 10)%N as Hm by (apply N.mod_lt; lia). assert (x = 10 * (x / 10) + x mod 10)%N as Hdm by apply N.div_mod'.
    assert (forall s, pretty_N_go x s = pretty_N_go (x / 10) (String (pretty_N_char (x mod 10)) s)) as Hgo
      by (intros; by apply pretty_N_go_step).
    revert Hm Hdm Hs Hv Hgo. generalize (x mod 10)%N as d. generalize (x / 10)%N as q. intros q d Hm Hdm Hs Hv Hgo.
    exists (ds ++ [48 + Z.of_N d]). split_and!.
    + apply Forall_app. split; [done |]. constructor; [| constructor]. unfold is_digit.
      apply andb_true_iff. rewrite !Z.leb_le. lia.
    + intros s. rewrite Hgo, Hs, <- app_assoc. f_equal. simpl. by rewrite <- digit_char.
    + intros r. rewrite <- app_assoc, Hv. simpl. unfold is_digit.
      rewrite (proj2 (Z.leb_le 48 _)), (proj2 (Z.leb_le _ 57)) by lia. simpl. f_equal.
      lia.
  - assert (x = 0%N) as -> by lia. exists []. split_and!; [constructor | intros s; by rewrite pretty_N_go_0 | done].
Qed.

Lemma to_string_digits v :
  0 <= v -> exists ds, string_bytes (to_string_u64 v) = ds /\ Forall (fun b => is_digit b = true) ds /\ ds <> [] /\
    digits_value 0 ds = v.
Proof.
  intros Hv. unfold to_string_u64. destruct (decide (Z.to_N v = 0%N)) as [E | E].
  - rewrite E. exists [48]. split_and!; [done | repeat constructor | done | cbn; lia].
  - destruct (pretty_go_digits (Z.to_N v)) as (ds & Hd & Hs & Hval). exists ds. split_and!.
    + unfold pretty, pretty_N. destruct (decide (Z.to_N v = 0%N)); [done |]. by rewrite Hs, app_nil_r.
    + done.
    + intros ->. specialize (Hval []). simpl in Hval. lia.
    + specialize (Hval []). rewrite app_nil_r in Hval. rewrite Hval. simpl. lia.
Qed.

Lemma strtoull_digits v : u64 v -> strtoull (string_bytes (to_string_u64 v)) = v.
Proof.
  intros [H0 H1]. destruct (to_string_digits v H0) as (ds & -> & Hd & Hne & Hv).
  destruct ds as [| d ds]; [done |]. apply Forall_cons in Hd as [Hd _]. unfold is_digit in Hd.
  apply andb_true_iff in Hd as [Ha%Z.leb_le Hb%Z.leb_le].
  assert (skip_spaces (d :: ds) = d :: ds) as Hs.
  { simpl. unfold is_space. destruct (Z.eqb_spec d 32); [lia |]. destruct (Z.leb_spec d 13); [lia |].
    by rewrite andb_false_r. }
  unfold strtoull. rewrite Hs.
  assert (match d :: ds with 45 :: s' => (true, s') | 43 :: s' => (false, s') | _ => (false, d :: ds) end = (false, d :: ds)) as ->.
  { do 6 (destruct d as [| d | d]; try done; try lia; try (destruct d; try done; try lia)). }
  rewrite Hv. destruct (Z.ltb_spec (2 ^ 64 - 1) v); [lia | done].
Qed.

Lemma rfind_digits ds : Forall (fun b => is_digit b = true) ds -> rfind_byte 58 ds = None.
Proof.
  induction 1 as [| b ds Hb _ IH]; [done |]. simpl. rewrite IH. unfold is_digit in Hb.
  apply andb_true_iff in Hb as [Ha%Z.leb_le Hb%Z.leb_le]. by destruct (Z.eqb_spec b 58); [lia |].
Qed.

(** The size of a payload whose fields are known. *)
Lemma payload_size_cons p l :
  payload_size (p :: l) = 6 + Z.of_nat (length (fld_value (field_of p))) + payload_size l.
Proof.
  unfold payload_size. rewrite fmap_cons. cbn [flat_map]. rewrite length_app. unfold field_bytes.
  rewrite !length_app, le_bytes_length. simpl length. lia.
Qed.
Lemma payload_size_nil : payload_size [] = 0.
Proof. done. Qed.

(** Computes the size of a payload given by its fields. *)
Ltac payload_sizes :=
  rewrite ?payload_size_cons, ?payload_size_nil; cbn [field_of fld_value]; rewrite ?le_bytes_length, ?string_bytes_length;
  cbn [length]; change kMaxFramePayload with 16777216 in *.

(** The route entry on its way. *)
Lemma decode_encoded (e : RouteEntry) :
  typed e ->
  exists data fs, payload (encode_route_entry e) = Ok data /\ payload_reader data = Ok fs /\
    decode_route_entry fs = Ok (mkWireRoute
      (e <| re_epoch := epoch_default |> <| re_state := RouteState.EMPTY |> <| re_gateway_boot := id_null |>
         <| re_provenance := Provenance.DERIVED |>) (enum_index (re_state e))).
Proof.
  intros Ht. unfold typed, typed_route in Ht. split_typed. unfold typed, typed_id, typed_gen, typed_slotkey, typed, typed_id in *.
  split_typed. unfold typed_string in *. change kMaxString with 4194304 in *.
  assert (u8 (enum_index (re_state e))) as Hst by (destruct (re_state e); unfold u8; simpl; lia).
  destruct (payload_reads (encode_route_entry e)) as (data & Hd & Hr).
  - repeat (constructor; [split; [by unfold u8 | done] |]). constructor.
  - unfold encode_route_entry. payload_sizes. lia.
  - exists data, (field_of <$> encode_route_entry e). split; [done |]. split; [done |].
    unfold decode_route_entry. read_fields. by destruct e as [[] [] [[] []] [] [] [] [] [] []].
Qed.

(** * Theorems *)

(** The reference workload has a closed form: whatever the two 64-bit inputs, and in
    spite of the 64-bit wrap-around of each turn, the loop computes one linear
    combination of them modulo [2 ^ 30].  So the result has at most thirty bits, and
    the worker and the gateway agree on it when one of them first masks an input to
    48 bits, as the worker does on one of its branches. *)
Theorem reference_result_closed_form (a b : Z) :
  reference_result a b = (a * 131194896 + b * 845816336) mod 2 ^ 30 /\
  reference_result (Z.land a 0xFFFFFFFFFFFF) b = reference_result a b.
Proof. split; [apply reference_result_mod | apply reference_result_mask]. Qed.

(** The transport string the coordinator writes for a worker's request port is read
    by the gateway as that host and port, for every port. *)
Theorem transport_roundtrip (port : Z) :
  0 <= port < 2 ^ 16 -> parse_tcp_transport (tcp_transport port) = (true, "127.0.0.1"%string, port).
Proof.
  intros Hp. unfold parse_tcp_transport, tcp_transport. rewrite string_bytes_app.
  pose proof (strtoull_digits port) as Hv. destruct (to_string_digits port) as (ds & E & Hd & _ & _); [lia |].
  rewrite E in *. pose proof (rfind_digits ds Hd) as Hr.
  assert (rfind_byte 58 (string_bytes "tcp://127.0.0.1:" ++ ds) = Some 15%nat) as -> by (cbn; by rewrite Hr).
  rewrite bool_decide_true by done. change (drop (15 + 1) (string_bytes "tcp://127.0.0.1:" ++ ds)) with ds.
  rewrite Hv by (unfold u64; lia). rewrite Z.mod_small by done. done.
Qed.

(** A route entry that the coordinator sends is the one the gateway installs: every
    entry whose transport string fits in a frame survives [encode_route_entry], the
    payload and [decode_route_entry] with its identities, generations, slot, boot,
    transport and state; the epoch, the gateway boot and the provenance are not
    carried and come out as the defaults. *)
Theorem route_entry_roundtrip (e : RouteEntry) :
  typed e ->
  exists data fs, payload (encode_route_entry e) = Ok data /\ payload_reader data = Ok fs /\
    decode_route_entry fs = Ok (mkWireRoute
      (e <| re_epoch := epoch_default |> <| re_state := RouteState.EMPTY |> <| re_gateway_boot := id_null |>
         <| re_provenance := Provenance.DERIVED |>) (enum_index (re_state e))).
Proof. apply decode_encoded. Qed.

(** * Witnesses *)

Module WireWitness.
Definition entry : RouteEntry :=
  mkRouteEntry (mkId 3) (mkGen 9) (mkSlotKey (mkId 1) (mkId 1)) (mkId 2) (mkGen 1) (mkId 2) (mkId 77) (mkId 5) (mkGen 4)
    epoch_default RouteState.ACKNOWLEDGED (mkId 6) (tcp_transport 40123) Provenance.DERIVED.
Lemma entry_typed : typed entry.
Proof. repeat split; vm_compute; congruence. Qed.
End WireWitness.

Lemma transport_roundtrip_witness : parse_tcp_transport (tcp_transport 40123) = (true, "127.0.0.1"%string, 40123).
Proof. apply (transport_roundtrip 40123). lia. Defined.

Lemma route_entry_roundtrip_witness :
  exists data fs, payload (encode_route_entry WireWitness.entry) = Ok data /\ payload_reader data = Ok fs /\
    decode_route_entry fs = Ok (mkWireRoute
      (WireWitness.entry <| re_epoch := epoch_default |> <| re_state := RouteState.EMPTY |>
         <| re_gateway_boot := id_null |> <| re_provenance := Provenance.DERIVED |>) 3).
Proof. exact (route_entry_roundtrip WireWitness.entry WireWitness.entry_typed). Defined.
