(* ===== verification/Examples.v ===== *)
(** The in-process programs: the runnable examples (examples/examples.cpp) and the inspection
    tool (tools/ff_cli.cpp).  What a program prints is the value of its definition. *)

From stdpp Require Import base list gmap strings pretty.
From Stdlib Require Import ZArith Lia.
From S2P Require Import Prelude Identities Types Double Bytes Model Codec Domains Evidence Routes Requests.
From S2P Require Import Recovery Selection Persistence Fabric Cutover Failback Invariant Restart Wire.

Open Scope Z_scope.

(** * Shared by the programs *)

(** [CandidateResource{"cpu", 2.0, first(), {}, false, nullopt, null(), false, 2}]. *)
Definition two_cpus : CandidateResource := mkCandResource "cpu" double_2 gen_first [] false None gen_null false 2.
Definition exit_failure (id : Z) (target : TargetId) (seq : Z) : FailureEvent :=
  failure_event_default <| fe_event_id := mkId id |> <| fe_generation := gen_first |>
    <| fe_status := EvidenceStatus.CONFIRMED |> <| fe_category := FailureCategory.PROCESS_EXIT |> <| fe_target := Some target |>
    <| fe_source := mkId 1 |> <| fe_received := timestamp_default <| ts_seq := seq |> |>.
Definition active_assignment (id : Z) (slot : ServiceSlotKey) (t : TargetId) (b : WorkerBootId) : Assignment :=
  assignment_default <| asg_id := mkId id |> <| asg_generation := gen_first |> <| asg_slot := slot |>
    <| asg_target := t |> <| asg_target_generation := gen_first |> <| asg_worker_boot := b |>
    <| asg_authority_generation := gen_first |> <| asg_state := AssignmentState.ACTIVE |>.

(** * examples.cpp *)

Module Example.
(** [struct SimpleOps], with its flag [unproven], and the time. *)
Record World : Type := mkWorld { unproven : bool; time : Z }.
Definition simple_fence (w : World) : FenceOutcome :=
  if unproven w then mkFenceOutcome false "" FenceState.UNPROVEN true else mkFenceOutcome true "" FenceState.ENFORCED false.
#[export] Instance SimpleOps : CutoverOps World := {|
  fence_old _ _ w := (w, Ok (simple_fence w));
  activate _ _ _ w := (w, Ok (mkActivateOutcome true "" "ok"));
  ops_install_route e _ w := (w, Ok (mkRouteOutcome true (re_route e) (re_generation e) "ok"));
  verify _ _ w := (w, Ok (mkVerifyOutcome true "cpu-parity-ok" false "ok"));
  clock_now := time;
  save_io _ := mkSaveIo true None true |}.

Definition make_svc (sid : ServiceId) (independent : bool) (cont : ContinuityClass) : ServiceDefinition :=
  service_default <| svc_service := sid |> <| svc_generation := gen_first |> <| svc_config_generation := gen_first |>
    <| svc_name := "demo"%string |> <| svc_role := ServingRole.EXCLUSIVE_ACTIVE |>
    <| svc_compatibility := svc_compatibility service_default <| cr_model_key := "ref-det-sequence-v1"%string |>
                                                              <| cr_runtime_abi := "ff-ref-v1"%string |> |>
    <| svc_domain_requirement := svc_domain_requirement service_default <| dr_require_domain_independence := independent |> |>
    <| svc_resources := [mkResourceRequirement "cpu" double_1 true] |>
    <| svc_recovery := recovery_objective_default <| ro_rto_ms := 10000 |>
         <| ro_rto_anchor := RtoAnchor.FIRST_ACCEPTED_FAILURE_OBSERVATION |> <| ro_continuity := cont |>
         <| ro_requires_verified_recovery := true |> |>
    <| svc_failback := FailbackPolicy.MANUAL |> <| svc_policy_generation := gen_first |>.

Section runs.
Variable now : Z.
Notation F := (ST Impl).

Definition reg (t : TargetId) (b : WorkerBootId) (ready : bool) : F unit :=
  _ ← register_target t ("demo-" +:+ to_string_u64 (id_value t));
  let v := id_value t in
  _ ← publish_candidate_facts now
        (facts_default <| cf_target := t |> <| cf_target_generation := gen_first |> <| cf_replica := mkId v |>
           <| cf_engine := mkId v |> <| cf_engine_incarnation := mkId v |> <| cf_worker := mkId v |> <| cf_worker_boot := b |>
           <| cf_profile := mkId 1 |> <| cf_model_key := "ref-det-sequence-v1"%string |> <| cf_runtime_abi := "ff-ref-v1"%string |>
           <| cf_ready := ready |> <| cf_activation_eligible := ready |> <| cf_evidence_fresh := true |>);
  _ ← publish_candidate_state t candidate_state_default;
  publish_candidate_resources t [two_cpus].
Definition set_active (slot : ServiceSlotKey) (t : TargetId) (b : WorkerBootId) : F unit :=
  set_initial_assignment now (active_assignment (id_value t) slot t b).
Definition fail (t : TargetId) (seq : Z) : F unit := modify (publish_failure (exit_failure seq t seq)).

(** Scenario 1: the target the plan selects; the attempt's state and the target it
    committed; the outcome for the service. *)
Definition basic_failover
    : ST (Run World) (option TargetId * AttemptState * option TargetId * ServiceOutcome) :=
  let sid := mkId 1 in
  let slot := mkSlotKey sid (mkId 1) in
  plan ← locked_st (
    _ ← create_service (make_svc sid true ContinuityClass.REPLAY_SAFE_REQUESTS);
    _ ← set_active slot (mkId 10) (mkId 10);
    _ ← reg (mkId 10) (mkId 10) true;
    _ ← reg (mkId 11) (mkId 11) true;
    _ ← fail (mkId 10) 1;
    plan_failover slot);
  r ← (match plan with Some plan => execute_plan plan | None => mret attempt_result_default end);
  outcome ← gets (fun r => service_outcome (run_impl r) slot);
  mret ((plan ≫= fun p => (fun c => cf_target (cand_facts c)) <$> pl_selected p), ar_state r,
        asg_target <$> ar_committed_assignment r, outcome).

(** Scenario 2: every candidate shares the host of the failed target. *)
Definition domain_exclusion : F SelectionResult :=
  let sid := mkId 2 in
  let slot := mkSlotKey sid (mkId 1) in
  _ ← create_service (make_svc sid true ContinuityClass.REPLAY_SAFE_REQUESTS);
  _ ← modify (declare_domain (mkDomainDecl (mkId 1) gen_first DomainClass.HOST "h1" None Provenance.SYNTHETIC));
  _ ← modify (declare_domain (mkDomainDecl (mkId 2) gen_first DomainClass.DEVICE "d2" (Some (mkId 1)) Provenance.SYNTHETIC));
  _ ← modify (set_membership (mkMembership (mkId 10) (mkId 1) true));
  _ ← modify (set_membership (mkMembership (mkId 11) (mkId 1) true));
  _ ← modify (set_membership (mkMembership (mkId 12) (mkId 2) true));
  _ ← set_active slot (mkId 10) (mkId 10);
  _ ← reg (mkId 10) (mkId 10) true;
  _ ← reg (mkId 11) (mkId 11) true;
  _ ← reg (mkId 12) (mkId 12) true;
  _ ← fail (mkId 10) 1;
  fabric_select slot.

(** Scenario 3: the only other candidate shares the host and is not ready. *)
Definition no_candidate : F (option FailoverPlan) :=
  let sid := mkId 3 in
  let slot := mkSlotKey sid (mkId 1) in
  _ ← create_service (make_svc sid true ContinuityClass.REPLAY_SAFE_REQUESTS);
  _ ← set_active slot (mkId 10) (mkId 10);
  _ ← modify (declare_domain (mkDomainDecl (mkId 1) gen_first DomainClass.HOST "h1" None Provenance.SYNTHETIC));
  _ ← modify (set_membership (mkMembership (mkId 10) (mkId 1) true));
  _ ← modify (set_membership (mkMembership (mkId 11) (mkId 1) true));
  _ ← reg (mkId 10) (mkId 10) true;
  _ ← reg (mkId 11) (mkId 11) false;
  _ ← fail (mkId 10) 1;
  plan_failover slot.

(** Scenario 4: five seconds against an objective of one millisecond. *)
Definition late_recovery : RecoveryEvaluation :=
  evaluate (recovery_objective_default <| ro_rto_ms := 1 |> <| ro_continuity := ContinuityClass.REPLAY_SAFE_REQUESTS |>
              <| ro_requires_verified_recovery := true |>)
    (mkEstimate [] 0 false) 5000 0 true.
End runs.
End Example.

(** * ff_cli.cpp *)

Module Cli.
Definition cli_service : ServiceDefinition :=
  service_default <| svc_service := mkId 1 |> <| svc_generation := gen_first |> <| svc_config_generation := gen_first |>
    <| svc_name := "svc"%string |> <| svc_role := ServingRole.EXCLUSIVE_ACTIVE |>
    <| svc_compatibility := svc_compatibility service_default <| cr_model_key := "m"%string |> <| cr_runtime_abi := "a"%string |> |>
    <| svc_domain_requirement := svc_domain_requirement service_default <| dr_require_domain_independence := true |> |>
    <| svc_resources := [mkResourceRequirement "cpu" double_1 true] |>
    <| svc_recovery := recovery_objective_default <| ro_rto_ms := 10000 |>
         <| ro_continuity := ContinuityClass.REPLAY_SAFE_REQUESTS |> <| ro_requires_verified_recovery := true |> |>
    <| svc_failback := FailbackPolicy.MANUAL |> <| svc_policy_generation := gen_first |>.

Definition publish_target (now : Z) (t : TargetId) : ST Impl unit :=
  _ ← register_target t "demo";
  _ ← publish_candidate_facts now
        (facts_default <| cf_target := t |> <| cf_target_generation := gen_first |> <| cf_engine_incarnation := mkId (id_value t) |>
           <| cf_worker_boot := mkId (id_value t) |> <| cf_profile := mkId 1 |> <| cf_model_key := "m"%string |>
           <| cf_runtime_abi := "a"%string |> <| cf_ready := true |> <| cf_evidence_fresh := true |>);
  _ ← publish_candidate_state t candidate_state_default;
  publish_candidate_resources t [two_cpus].

(** The current assignment, the number of eligible candidates, and the selection after the
    failure of target 10. *)
Definition demo (now : Z) : ST Impl (option Assignment * nat * SelectionResult) :=
  let slot := mkSlotKey (mkId 1) (mkId 1) in
  _ ← create_service cli_service;
  _ ← set_initial_assignment now (active_assignment 1 slot (mkId 10) (mkId 10));
  _ ← publish_target now (mkId 10);
  _ ← publish_target now (mkId 11);
  cur ← gets (fun s => current_assignment s slot);
  elig ← fabric_eligible_candidates slot;
  _ ← modify (publish_failure (exit_failure 1 (mkId 10) 1));
  sr ← fabric_select slot;
  mret (cur, length elig, sr).

(** What [--state] prints. *)
Record Shown : Type := mkShown { sh_services : list (ServiceId * string); sh_current : list Assignment; sh_revalidation : Z }.
Definition show_state (s : Impl) : Shown :=
  mkShown ((fun sv => (svc_service sv, svc_name sv)) <$> fabric_services s)
    (omap (current_assignment s) (service_slots s (mkId 1))) (revalidation_required_count s).

(** The exit status, and what was printed. *)
Inductive Output : Type := Demo (x : option Assignment * nat * SelectionResult) | State (x : Shown) | LoadFailed (why : exn) | Usage.
Definition main `{EvalOrder} (argv : list string) (now : Z) (fs : FileSystem) : result (Z * Output) :=
  match argv with
  | "--demo"%string :: _ => x ← (demo now (impl_init config_default)).2; Ok (0, Demo x)
  | "--state"%string :: path :: _ =>
    match load path fs (impl_init config_default) with
    | (s, Ok _) => Ok (0, State (show_state s))
    | (_, Throw e) => Ok (1, LoadFailed e)
    end
  | _ => Ok (2, Usage)
  end.
End Cli.

(** * Theorems *)

Definition fresh {W} (w : W) : Run W := mkRun (impl_init config_default) ∅ w.

(** The examples show what they announce, at any time: the failover ends COMPLETED on
    target 11 with the service available, and when the old worker cannot be fenced it is
    not completed and nothing is committed; no candidate that shares the host of the
    failed target is selected, the device under that host included; without an eligible
    candidate there is no plan; and a recovery that misses its objective is not
    satisfied. *)
Theorem examples_show (now t : Z) :
  (Example.basic_failover now (fresh (Example.mkWorld false t))).2 =
    Ok (Some (mkId 11), AttemptState.COMPLETED, Some (mkId 11), ServiceOutcome.AVAILABLE) /\
  (Example.basic_failover now (fresh (Example.mkWorld true t))).2 =
    Ok (Some (mkId 11), AttemptState.FAILED, None, ServiceOutcome.UNAVAILABLE) /\
  (sr ← (Example.domain_exclusion now (impl_init config_default)).2;
   Ok (sel_has_selection sr, (fun e => (e.1, e.2.1)) <$> sel_exclusions sr)) =
    Ok (false, [(mkId 10, ExclusionReason.FAILED_DOMAIN); (mkId 11, ExclusionReason.FAILED_DOMAIN);
                (mkId 12, ExclusionReason.FAILED_DOMAIN)]) /\
  (Example.no_candidate now (impl_init config_default)).2 = Ok None /\
  rev_rto_met Example.late_recovery = false /\ rev_satisfied Example.late_recovery = false.
Proof. split_and!; vm_compute; reflexivity. Qed.

Lemma demo_selects now : exists cur sr, (Cli.demo now (impl_init config_default)).2 = Ok (cur, 1%nat, sr) /\
  (fun c => cf_target (cand_facts c)) <$> sel_selected sr = Some (mkId 11).
Proof.
  assert ((x ← (Cli.demo now (impl_init config_default)).2;
           Ok (x.1.2, (fun c => cf_target (cand_facts c)) <$> sel_selected x.2)) = Ok (1%nat, Some (mkId 11))) as H
    by (vm_compute; reflexivity).
  revert H. generalize (Cli.demo now (impl_init config_default)).2. intros [[[cur n] sr] | e]; [| discriminate].
  intros [= -> Hs]. exists cur, sr. by split.
Qed.
Lemma show_state_service s a :
  a ∈ Cli.sh_current (Cli.show_state s) -> exists k, sk_service k = mkId 1 /\ k ∈ service_slots s (mkId 1) /\ slot_current s k = Some a.
Proof.
  intros (k & Hk & Ha)%list_elem_of_omap. exists k. split; [| by split]. unfold service_slots in Hk.
  destruct (find_service s (mkId 1)) as [d |]; [| by apply not_elem_of_nil in Hk].
  apply list_elem_of_fmap in Hk as (i & -> & _). done.
Qed.

(** The inspection tool always ends with a status: 0 for the demonstration, which selects
    target 11; 0 for a state file exactly when the file loads, and then it lists every
    service of the file but the assignments of service 1 alone; 1 when the file does not
    load; 2 otherwise. *)
Theorem cli_statuses `{EO : EvalOrder} (now : Z) (fs : FileSystem) (path : string) (rest : list string) :
  (exists cur sr, Cli.main ("--demo"%string :: rest) now fs = Ok (0, Cli.Demo (cur, 1%nat, sr)) /\
     (fun c => cf_target (cand_facts c)) <$> sel_selected sr = Some (mkId 11)) /\
  (forall snap, load_file path fs = Ok snap ->
     let s := load_snapshot snap (impl_init config_default) in
     exists sh, Cli.main ("--state"%string :: path :: rest) now fs = Ok (0, Cli.State sh) /\
       Cli.sh_services sh = (fun sv => (svc_service sv, svc_name sv)) <$> im_services s /\
       forall a, a ∈ Cli.sh_current sh ->
         exists k, sk_service k = mkId 1 /\ k ∈ service_slots s (mkId 1) /\ slot_current s k = Some a) /\
  (forall e, load_file path fs = Throw e -> Cli.main ("--state"%string :: path :: rest) now fs = Ok (1, Cli.LoadFailed e)) /\
  Cli.main ["--state"%string] now fs = Ok (2, Cli.Usage).
Proof.
  split_and!.
  - destruct (demo_selects now) as (cur & sr & H & Hs). exists cur, sr. split; [| exact Hs]. cbn [Cli.main]. by rewrite H.
  - intros snap Hl s. exists (Cli.show_state s). split; [unfold Cli.main, load; rewrite Hl; reflexivity |].
    split; [reflexivity |]. apply show_state_service.
  - intros e Hl. unfold Cli.main, load. by rewrite Hl.
  - reflexivity.
Qed.
