(* ===== verification/Bench.v ===== *)
(** The benchmark (benchmarks/benchmark_main.cpp): the fleet it sets up and the operations
    it times.  The times it prints are not modelled, the operations and the counts are;
    [now] is the clock the facts are stamped with.  Its [int] arithmetic is taken not to
    overflow, which holds for the scales below 2 ^ 31 products. *)

From stdpp Require Import base list gmap strings.
From Stdlib Require Import ZArith Lia.
From S2P Require Import Prelude Identities Types Double Bytes Model Codec Domains Evidence Routes Requests.
From S2P Require Import Recovery Selection Persistence Fabric Cutover Failback Invariant Wire Examples.

Open Scope Z_scope.

Module Bench.
(** [(int)std::strtoull(...)]. *)
Definition int_of_u64 (z : Z) : Z := let x := z mod 2 ^ 32 in if Z.ltb x (2 ^ 31) then x else x - 2 ^ 32.
Definition int_arg (argv : list string) (i : nat) (default : Z) : Z :=
  match argv !! i with Some v => int_of_u64 (parse_u64 v) | None => default end.

Record Scale : Type := mkScale { bn_services : Z; bn_candidates : Z; bn_reps : Z }.
Definition scale_of (argv : list string) : Scale := mkScale (int_arg argv 0 100) (int_arg argv 1 4) (int_arg argv 2 3).
#[export] Instance RuntimeConfig_eta : Eta RuntimeConfig := fun c => mkConfig
  (cfg_max_services c) (cfg_max_slots_per_service c) (cfg_max_slots c) (cfg_max_targets c) (cfg_max_candidates_per_snapshot c)
  (cfg_max_domains c) (cfg_max_memberships c) (cfg_max_failure_history c) (cfg_max_requests c) (cfg_max_attempt_history c)
  (cfg_max_route_history c) (cfg_max_explanations c) (cfg_strict c) (cfg_bounds_checked c).
Definition bench_config (b : Scale) : RuntimeConfig :=
  config_default <| cfg_max_services := wrap64 (bn_services b + 16) |>
                 <| cfg_max_targets := wrap64 ((bn_services b + 16) * (bn_candidates b + 2)) |>
                 <| cfg_max_candidates_per_snapshot := wrap64 (bn_candidates b + 4) |>.

Section bench.
Variable now : Z.
Notation F := (ST Impl).

Definition bench_reg (t : TargetId) (b : WorkerBootId) (svc : ServiceId) : F unit :=
  _ ← register_target t "bench";
  let v := id_value t in
  _ ← publish_candidate_facts now
        (facts_default <| cf_target := t |> <| cf_target_generation := gen_first |> <| cf_service := svc |> <| cf_replica := mkId v |>
           <| cf_engine := mkId v |> <| cf_engine_incarnation := mkId v |> <| cf_worker := mkId v |> <| cf_worker_boot := b |>
           <| cf_profile := mkId 1 |> <| cf_model_key := "m"%string |> <| cf_runtime_abi := "a"%string |>
           <| cf_ready := true |> <| cf_activation_eligible := true |> <| cf_evidence_fresh := true |>);
  _ ← publish_candidate_state t candidate_state_default;
  publish_candidate_resources t [two_cpus].

Definition bench_service (sid : ServiceId) : ServiceDefinition :=
  service_default <| svc_service := sid |> <| svc_generation := gen_first |> <| svc_config_generation := gen_first |>
    <| svc_name := "b"%string |> <| svc_role := ServingRole.EXCLUSIVE_ACTIVE |>
    <| svc_compatibility := svc_compatibility service_default <| cr_model_key := "m"%string |> <| cr_runtime_abi := "a"%string |> |>
    <| svc_domain_requirement := svc_domain_requirement service_default <| dr_require_domain_independence := false |> |>
    <| svc_resources := [mkResourceRequirement "cpu" double_1 true] |>
    <| svc_recovery := recovery_objective_default <| ro_rto_ms := 10000 |>
         <| ro_continuity := ContinuityClass.REPLAY_SAFE_REQUESTS |> <| ro_requires_verified_recovery := true |> |>
    <| svc_policy_generation := gen_first |>.

(** The loops of [main]. *)
Fixpoint for_each {A} (l : list A) (body : A -> F unit) : F unit :=
  match l with [] => mret tt | x :: l' => _ ← body x; for_each l' body end.

Definition bench_slot (i : Z) : ServiceSlotKey := mkSlotKey (mkId (i + 2)) (mkId 1).
Definition bench_setup (b : Scale) : F unit :=
  for_each (seqZ 0 (bn_services b)) (fun i =>
    _ ← create_service (bench_service (mkId (i + 2)));
    _ ← set_initial_assignment now (active_assignment (i + 1) (bench_slot i) (mkId (100 * (i + 1))) (mkId (100 * (i + 1))));
    for_each (seqZ 0 (bn_candidates b)) (fun c =>
      bench_reg (mkId (100 * (i + 1) + c + 1)) (mkId (100 * (i + 1) + c + 1)) (mkId (i + 2)))).

(** One timed repetition: what was selected and what was planned. *)
Definition target_of (c : Candidate) : TargetId := cf_target (cand_facts c).
Definition bench_op (b : Scale) (i r : Z) : F (option TargetId * option TargetId) :=
  let n := i * bn_reps b + r + 1 in
  _ ← modify (publish_failure (exit_failure n (mkId (100 * (i + 1))) n));
  sr ← fabric_select (bench_slot i);
  plan ← plan_failover (bench_slot i);
  mret (target_of <$> sel_selected sr, plan ≫= fun p => target_of <$> pl_selected p).

Fixpoint ops_of (b : Scale) (l : list (Z * Z)) : F (list (option TargetId * option TargetId)) :=
  match l with
  | [] => mret []
  | (i, r) :: l' => x ← bench_op b i r; xs ← ops_of b l'; mret (x :: xs)
  end.
Definition bench_ops (b : Scale) : F (list (option TargetId * option TargetId)) :=
  ops_of b (i ← seqZ 0 (bn_services b); (fun r => (i, r)) <$> seqZ 0 (bn_reps b)).

(** What is printed but for the times: the scale, [total_candidates] and [operations]. *)
Record Report : Type := mkReport { rp_scale : Scale; rp_total_candidates : Z; rp_operations : Z; rp_ops : list (option TargetId * option TargetId) }.
Definition bench_main (argv : list string) : F Report :=
  let b := scale_of argv in
  _ ← bench_setup b;
  ops ← bench_ops b;
  mret (mkReport b (wrap64 (wrap64 (bn_services b) * wrap64 (bn_candidates b + 1))) (Z.of_nat (length ops)) ops).
End bench.
End Bench.


(** * Theorems *)

Lemma ops_of_length b l s s' xs : Bench.ops_of b l s = (s', Ok xs) -> length xs = length l.
Proof.
  revert s s' xs. induction l as [| [i r] l IH]; intros s s' xs H; [apply ret_ok in H as [_ ->]; done |].
  cbn [Bench.ops_of] in H. st_inv H as s1 x H1. st_inv H as s2 ys H2. apply ret_ok in H as [_ ->]. cbn [length]. f_equal. by eapply IH.
Qed.

(** Whatever its arguments, a benchmark that ends has timed [reps] operations for each
    service, and says so. *)
Theorem bench_operations_counted (now : Z) (argv : list string) (s s' : Impl) (r : Bench.Report) :
  Bench.bench_main now argv s = (s', Ok r) ->
  let b := Bench.scale_of argv in
  Bench.rp_operations r = Z.max 0 (Bench.bn_services b) * Z.max 0 (Bench.bn_reps b) /\
  length (Bench.rp_ops r) = Z.to_nat (Bench.rp_operations r).
Proof.
  unfold Bench.bench_main. cbv zeta. generalize (Bench.scale_of argv). intros b H. st_inv H as s1 u H1. st_inv H as s2 ops H2.
  apply ret_ok in H as [_ ->]. cbn [Bench.rp_operations Bench.rp_ops]. split; [| lia]. apply ops_of_length in H2. rewrite H2.
  assert (forall l : list Z, length (i ← l; (fun r => (i, r)) <$> seqZ 0 (Bench.bn_reps b)) = (length l * Z.to_nat (Bench.bn_reps b))%nat) as ->.
  { intros l. induction l as [| i l IH]; [done |]. cbn [mbind list_bind length]. rewrite length_app, length_fmap, length_seqZ.
    change (list_bind _ _ _ l) with (i ← l; (fun r => (i, r)) <$> seqZ 0 (Bench.bn_reps b)) in *. rewrite IH. lia. }
  rewrite length_seqZ. lia.
Qed.

Definition default_report (now : Z) : result Bench.Report :=
  (Bench.bench_main now [] (impl_init (Bench.bench_config (Bench.scale_of [])))).2.

(** At its default scale the benchmark ends, and each of the 300 operations selects, and
    plans the cutover to, the first of the four candidates of its service; it reports 500
    candidates, of which 400 are registered. *)
Theorem bench_default_scale :
  (r ← default_report 0; Ok (Bench.rp_operations r, Bench.rp_total_candidates r, Bench.rp_ops r)) =
    Ok (300, 500, i ← seqZ 0 100; replicate 3 (Some (mkId (100 * (i + 1) + 1)), Some (mkId (100 * (i + 1) + 1)))) /\
  length (im_targets (Bench.bench_setup 0 (Bench.scale_of []) (impl_init (Bench.bench_config (Bench.scale_of [])))).1) = 400%nat.
Proof. split; vm_compute; reflexivity. Qed.

(** * Witnesses *)

Lemma bench_operations_counted_witness :
  let s := impl_init (Bench.bench_config (Bench.scale_of ["3"; "2"; "2"]%string)) in
  exists s' r, Bench.bench_main 0 ["3"; "2"; "2"]%string s = (s', Ok r) /\ Bench.rp_operations r = 6.
Proof.
  intros s. destruct (Bench.bench_main 0 ["3"; "2"; "2"]%string s) as [s' [r | e]] eqn:E; [| vm_compute in E; discriminate].
  exists s', r. split; [reflexivity |]. destruct (bench_operations_counted 0 _ s s' r E) as [-> _]. vm_compute. reflexivity.
Defined.
