(* ===== verification/Worker.v ===== *)
(** The worker process (worker/worker_main.cpp): its arguments, the integrity-checked
    checkpoint, registration, the control loop (ACTIVATE / FENCE, the withheld
    acknowledgment, reconnection) and the request loop.

    The control thread and the request threads share [active], [committed_seq] and the
    control socket, all atomic; here each frame they handle is one step on the state
    [Worker], and WorkerThreads interleaves their actions.  An exception that leaves a thread function ends the process: it is a
    [Throw]. *)

From stdpp Require Import base list gmap strings pretty.
From Stdlib Require Import ZArith Lia.
From S2P Require Import Prelude Identities Types Double Bytes Model Codec Persistence Protocol Wire.

Open Scope Z_scope.

(** * Checkpoints *)

(** The worker's own copy of the checksum. *)
Definition worker_crc32 (p : bytes) : Z :=
  Z.lxor (foldl (fun crc b => Nat.iter 8 crc_shift (Z.lxor crc b)) 0xFFFFFFFF p) 0xFFFFFFFF.

(** The bytes before the checksum: "FFCK", version 1, session, sequence, model. *)
Definition checkpoint_body (session seq : Z) (model : string) : bytes :=
  [70; 70; 67; 75] ++ [1] ++ le_bytes 8 session ++ le_bytes 8 seq ++
  le_bytes 4 (wrap32 (Z.of_nat (String.length model))) ++ string_bytes model.
Definition checkpoint_bytes (session seq : Z) (model : string) : bytes :=
  let body := checkpoint_body session seq model in body ++ le_bytes 4 (worker_crc32 body).

(** What the file system answers to one write: whether the file opens, and the number of
    bytes that reach it when the write fails. *)
Record WorkerIo : Type := mkWorkerIo { wio_open : bool; wio_short : option nat }.

(** The file is truncated and written in place. *)
Definition save_checkpoint (io : WorkerIo) (path : string) (session seq : Z) (model : string) (fs : FileSystem)
    : FileSystem * bool :=
  let body := checkpoint_bytes session seq model in
  if negb (wio_open io) then (fs, false)
  else match wio_short io with
  | Some n => (<[ path := take n body ]> fs, false)
  | None => (<[ path := body ]> fs, true)
  end.

(** The result of [load_checkpoint]: [false]; a read past the end of the buffer, whose
    behaviour is undefined; or [true] with the values of the reference parameters. *)
Inductive CheckpointLoad : Type :=
  | LoadFailed
  | LoadOutOfBounds
  | Loaded (seq : Z) (model : string) (correct_session integrity_ok : bool).

Definition load_checkpoint (file : option bytes) (want_session : Z) : CheckpointLoad :=
  match file with
  | None => LoadFailed
  | Some blob =>
    let size := Z.of_nat (length blob) in
    if Z.ltb size 20 then LoadFailed
    else if Z.ltb size 5 || negb (bool_decide (take 5 blob = [70; 70; 67; 75; 1])) then LoadFailed
    else if Z.ltb size 25 then LoadOutOfBounds
    else
      let session := le_read 0 0 (slice blob 5 8) in
      let seq := le_read 0 0 (slice blob 13 8) in
      let mlen := le_read 0 0 (slice blob 21 4) in
      if Z.ltb size (25 + mlen + 4) then LoadFailed
      else
        let model := string_of_bytes (slice blob 25 (Z.to_nat mlen)) in
        let crc_stored := le_read 0 0 (slice blob (25 + Z.to_nat mlen) 4) in
        let crc_calc := worker_crc32 (take (length blob - 4) blob) in
        if Z.eqb (25 + mlen + 4) size
        then Loaded seq model (Z.eqb session want_session) (Z.eqb crc_calc crc_stored)
        else LoadFailed
  end.

(** * Arguments *)

Record WorkerArgs : Type := mkWorkerArgs
  { wa_coord_host : string; wa_coord_port : Z; wa_port : Z; wa_target_arg : Z; wa_boot_arg : Z;
    wa_state_path : string; wa_session_arg : Z; wa_withhold_activate : bool; wa_reconnect : bool }.
#[export] Instance WorkerArgs_eta : Eta WorkerArgs := fun a => mkWorkerArgs
  (wa_coord_host a) (wa_coord_port a) (wa_port a) (wa_target_arg a) (wa_boot_arg a) (wa_state_path a)
  (wa_session_arg a) (wa_withhold_activate a) (wa_reconnect a).
Definition worker_args_default : WorkerArgs := mkWorkerArgs "127.0.0.1" 0 0 1 1 "" 0 false false.

(** The loop over [argv]; an option that needs a value and is the last argument is
    ignored. *)
Fixpoint worker_args (argv : list string) (a : WorkerArgs) : WorkerArgs :=
  match argv with
  | [] => a
  | k :: rest =>
    if String.eqb k "--withhold-activate" then worker_args rest (a <| wa_withhold_activate := true |>)
    else if String.eqb k "--reconnect" then worker_args rest (a <| wa_reconnect := true |>)
    else match rest with
    | v :: rest' =>
      if String.eqb k "--coordinator"
      then worker_args rest' (a <| wa_coord_host := (parse_endpoint v).1 |> <| wa_coord_port := (parse_endpoint v).2 |>)
      else if String.eqb k "--port" then worker_args rest' (a <| wa_port := parse_u16 v |>)
      else if String.eqb k "--target" then worker_args rest' (a <| wa_target_arg := parse_u64 v |>)
      else if String.eqb k "--boot" then worker_args rest' (a <| wa_boot_arg := parse_u64 v |>)
      else if String.eqb k "--state" then worker_args rest' (a <| wa_state_path := v |>)
      else if String.eqb k "--session" then worker_args rest' (a <| wa_session_arg := parse_u64 v |>)
      else worker_args rest a
    | [] => a
    end
  end.

(** * State *)

Record Worker : Type := mkWorker
  { wk_target : Z; wk_boot : Z; wk_req_port : Z; wk_state_path : string; wk_session : Z;
    wk_withhold : bool; wk_reconnect : bool;
    wk_active : bool; wk_activated_once : bool; wk_committed_seq : Z; wk_model_key : string; wk_restored : bool;
    wk_ctrl_open : bool; wk_fs : FileSystem }.
#[export] Instance Worker_eta : Eta Worker := fun w => mkWorker
  (wk_target w) (wk_boot w) (wk_req_port w) (wk_state_path w) (wk_session w) (wk_withhold w) (wk_reconnect w)
  (wk_active w) (wk_activated_once w) (wk_committed_seq w) (wk_model_key w) (wk_restored w) (wk_ctrl_open w) (wk_fs w).

Definition wk_stateful (w : Worker) : bool := negb (String.eqb (wk_state_path w) "").

(** Lines 108-121, with the port the listening socket was given: the worker before it
    registers.  [None] when loading the checkpoint reads out of bounds. *)
Definition worker_start (a : WorkerArgs) (actual_port : Z) (fs : FileSystem) : option Worker :=
  let stateful := negb (String.eqb (wa_state_path a) "") in
  let w := mkWorker (wa_target_arg a) (wa_boot_arg a) actual_port (wa_state_path a) (wa_session_arg a)
             (wa_withhold_activate a) (wa_reconnect a) false false 0 "ref-det-sequence-v1" (negb stateful) true fs in
  if stateful then
    match load_checkpoint (fs !! wa_state_path a) (wa_session_arg a) with
    | LoadFailed => Some w
    | LoadOutOfBounds => None
    | Loaded seq model cs io =>
      let w := w <| wk_committed_seq := seq |> <| wk_restored := io && cs |> in
      Some (if String.eqb model "" then w else w <| wk_model_key := model |>)
    end
  else Some w.

(** * Registration *)

Definition worker_hello (w : Worker) : result Frame :=
  message MsgType.HELLO 1 0
    [ (fid_role, VU8 kRoleWorker); (fid_target, VU64 (wk_target w)); (fid_boot, VU64 (wk_boot w));
      (fid_req_port, VU64 (wk_req_port w)) ].

Definition registration_fields (w : Worker) : list (Z * Value) :=
  [ (fid_target, VU64 (wk_target w)); (fid_boot, VU64 (wk_boot w)); (fid_ready, VBool true);
    (fid_model, VStr (wk_model_key w)); (fid_abi, VStr "ff-ref-v1"); (fid_capacity, VF64 double_2) ] ++
  (if wk_stateful w then
     [ (fid_state_avail, VBool (wk_restored w)); (fid_checkpoint_gen, VU64 (wrap64 (wk_committed_seq w + 1)));
       (fid_committed_seq, VU64 (wk_committed_seq w)); (fid_session_ok, VBool (wk_restored w));
       (fid_tenant_ok, VBool true); (fid_model_ok, VBool true); (fid_format_ok, VBool (wk_restored w));
       (fid_integrity_ok, VBool (wk_restored w)); (fid_replay_safe, VBool true) ]
   else []).
Definition send_registration (w : Worker) : result Frame :=
  message MsgType.PUBLISH_READINESS 2 0 (registration_fields w).

(** * The control loop *)

(** A frame on the control socket, and the acknowledgment sent back. *)
Definition worker_control (io : WorkerIo) (f : Frame) : ST Worker (option Frame) := fun w =>
  match fr_type f with
  | MsgType.ACTIVATE_TARGET =>
    let w := w <| wk_active := true |> in
    if wk_withhold w && negb (wk_activated_once w) then
      let w := w <| wk_activated_once := true |> in
      let path := "activate_withheld_" +:+ to_string_u64 (wk_target w) +:+ ".out" in
      (if wio_open io then w <| wk_fs := <[ path := [] ]> (wk_fs w) |> else w, Ok None)
    else
      let r := message MsgType.ACTIVATE_RESULT (fr_msg_id f) (fr_epoch f) [(fid_ok, VBool true)] in
      (w, f ← r; Ok (Some f))
  | MsgType.FENCE_ASSIGNMENT => (w <| wk_active := false |>, Ok None)
  | _ => (w, Ok None)
  end.

(** The control connection is lost.  [connects n] says whether the [n]-th of the 120
    attempts to connect succeeds; the frames are those sent on the new connection, and
    [None] ends the control loop. *)
Definition worker_lost (connects : nat -> bool) : ST Worker (option (list Frame)) := fun w =>
  if negb (wk_reconnect w) then (w, Ok None)
  else
    let w := w <| wk_ctrl_open := false |> in
    if existsb connects (seq 0 120) then
      (w <| wk_ctrl_open := true |>, h ← worker_hello w; r ← send_registration w; Ok (Some [h; r]))
    else (w, Ok None).

(** * The request loop *)

(** What one request does outside the process: the reply, unless the connection is closed
    without one. *)
Definition execution_result (msg_id epoch : Z) (l : list (Z * Value)) : result (option Frame) :=
  f ← message MsgType.EXECUTION_RESULT msg_id epoch l; Ok (Some f).

(** [r.has(f)] guards the three reads. *)
Definition request_inputs (f : option Frame) : result (Z * Z * Z) :=
  match f with
  | None => Ok (0, 0, 0)
  | Some f =>
    fs ← payload_reader (fr_payload f);
    a ← opt_field p_u64 fs fid_input_a 0;
    b ← opt_field p_u64 fs fid_input_b 0;
    boot ← opt_field p_u64 fs fid_boot 0;
    Ok (a, b, boot)
  end.

Definition worker_request (io : WorkerIo) (f : option Frame) : ST Worker (option Frame) := fun w =>
  match request_inputs f with
  | Throw e => (w, Throw e)
  | Ok (a, b, req_boot) =>
    let msg_id := match f with Some f => fr_msg_id f | None => 0 end in
    let epoch := match f with Some f => fr_epoch f | None => 0 end in
    let reply l := execution_result msg_id epoch l in
    let result_fields res := [(fid_ok, VBool true); (fid_payload, VBytes (string_bytes (to_string_u64 res)))] in
    if wk_active w && Z.eqb req_boot (wk_boot w) then
      if Z.eqb a 0xDBAD then (w <| wk_ctrl_open := false |>, reply [(fid_ok, VBool true)])
      else if Z.eqb a 0xBEEF then
        let res := reference_result (Z.land a 0xFFFFFFFFFFFF) b in
        let path := "ambig_" +:+ to_string_u64 (wk_target w) +:+ ".out" in
        (if wio_open io then w <| wk_fs := <[ path := string_bytes (to_string_u64 res) ++ [10] ]> (wk_fs w) |> else w,
         Ok None)
      else if Z.eqb a 0xC0FFEE then
        let w := if wk_stateful w
                 then w <| wk_fs := (save_checkpoint io (wk_state_path w) (wk_session w) (wk_committed_seq w)
                                       (wk_model_key w) (wk_fs w)).1 |>
                 else w in
        (w, reply (result_fields (reference_result (Z.land a 0xFFFFFFFFFFFF) b)))
      else
        (w <| wk_committed_seq := wrap64 (wk_committed_seq w + 1) |>, reply (result_fields (reference_result a b)))
    else (w, reply [(fid_ok, VBool false); (fid_detail, VStr "not active or stale boot")])
  end.

(** * Lemmas: checkpoints *)

Lemma worker_crc32_eq p : worker_crc32 p = crc32 p.
Proof.
  exact (f_equal (fun g => Z.lxor (foldl g 0xFFFFFFFF p) 0xFFFFFFFF)
           (eq_refl : (fun crc b => Nat.iter 8 crc_shift (Z.lxor crc b)) = crc_byte)).
Qed.

Lemma checkpoint_body_length session seq model :
  length (checkpoint_body session seq model) = (25 + String.length model)%nat.
Proof. unfold checkpoint_body. rewrite !length_app, !le_bytes_length, string_bytes_length. simpl. lia. Qed.

Lemma checkpoint_body_bytes session seq model : are_bytes (checkpoint_body session seq model).
Proof.
  unfold checkpoint_body, are_bytes. rewrite !Forall_app.
  split_and!; try apply le_bytes_are_bytes; try apply string_bytes_are_bytes;
    repeat (apply Forall_cons; split; [unfold u8; lia |]); by apply Forall_nil.
Qed.

(** A checkpoint that loads, and passes its integrity check, is a body followed by its
    checksum. *)
Lemma load_checkpoint_intact blob want seq model cs :
  are_bytes blob -> load_checkpoint (Some blob) want = Loaded seq model cs true ->
  (4 <= length blob)%nat /\ drop (length blob - 4) blob = le_bytes 4 (crc32 (take (length blob - 4) blob)).
Proof.
  intros Hb. unfold load_checkpoint. set (mlen := le_read 0 0 (slice blob 21 4)).
  destruct (Z.ltb_spec (Z.of_nat (length blob)) 20); [done |].
  destruct (_ || _); [done |]. destruct (Z.ltb_spec (Z.of_nat (length blob)) 25); [done |].
  destruct (Z.ltb_spec (Z.of_nat (length blob)) (25 + mlen + 4)); [done |].
  destruct (Z.eqb_spec (25 + mlen + 4) (Z.of_nat (length blob))) as [E |]; [| done].
  intros Hl. assert (Z.eqb (worker_crc32 (take (length blob - 4) blob))
                       (le_read 0 0 (slice blob (25 + Z.to_nat mlen) 4)) = true) as Hcrc%Z.eqb_eq by congruence. split; [lia |]. rewrite worker_crc32_eq in Hcrc.
  assert (0 <= mlen) as Hm.
  { apply (le_read_range 0); [| simpl; lia]. by apply Forall_take, Forall_drop. }
  replace (25 + Z.to_nat mlen)%nat with (length blob - 4)%nat in Hcrc by lia. rewrite Hcrc.
  unfold slice. rewrite take_ge by (rewrite length_drop; lia).
  rewrite le_bytes_le_read; [done | by apply Forall_drop |]. rewrite length_drop. lia.
Qed.

(** A single changed byte breaks "body followed by its checksum". *)
Lemma checksum_detects (d1 d2 : bytes) (b b' : Z) :
  are_bytes d1 -> are_bytes d2 -> u8 b -> u8 b' -> b <> b' ->
  let sealed x := drop (length x - 4) x = le_bytes 4 (crc32 (take (length x - 4) x)) in
  (4 <= length (d1 ++ b :: d2))%nat -> sealed (d1 ++ b :: d2) -> sealed (d1 ++ b' :: d2) -> False.
Proof.
  intros H1 H2 Hb Hb' Hne sealed Hlen Hs Hs'. unfold sealed in *. clear sealed.
  assert (length (d1 ++ b' :: d2) = length (d1 ++ b :: d2)) as Hl by (rewrite !length_app; done).
  rewrite Hl in Hs'. clear Hl. set (n := (length (d1 ++ b :: d2) - 4)%nat) in *.
  assert (forall c, take (length d1) (d1 ++ c :: d2) = d1) as Htk by (intros; by rewrite take_app_length).
  destruct (decide (length d1 < n)%nat) as [Hin | Hout].
  - assert (forall c, take n (d1 ++ c :: d2) = d1 ++ c :: take (n - S (length d1)) d2 /\
                      drop n (d1 ++ c :: d2) = drop (n - S (length d1)) d2) as Hc.
    { intros c. replace n with (length d1 + S (n - S (length d1)))%nat at 1 3 by lia.
      by rewrite take_app_add, drop_app_add. }
    destruct (Hc b) as [E1 E2], (Hc b') as [E1' E2']. rewrite E1, E2 in Hs. rewrite E1', E2', Hs in Hs'.
    assert (forall c, u8 c -> u32 (crc32 (d1 ++ c :: take (n - S (length d1)) d2))) as Hu.
    { intros c Hc'. apply crc32_u32. apply Forall_app. split; [done |]. constructor; [done |]. by apply Forall_take. }
    apply (f_equal (le_read 0 0)) in Hs'. rewrite !le_read_le_bytes in Hs'.
    rewrite !Z.mod_small in Hs' by (apply Hu; done). revert Hs'. apply crc32_detects_byte; try done. by apply Forall_take.
  - assert (forall c, take n (d1 ++ c :: d2) = take n d1) as Hc by (intros; apply take_app_le; lia).
    rewrite Hc in Hs, Hs'. rewrite <- Hs' in Hs. rewrite !drop_app_le in Hs by lia. apply app_inv_head in Hs. congruence.
Qed.

(** * Theorems *)

(** What [save_checkpoint] writes [load_checkpoint] loads: the sequence and the model
    come back, the integrity check passes, and the session is accepted exactly when it
    is the one that was saved. *)
Theorem checkpoint_roundtrip (session seq want : Z) (model : string) :
  u64 session -> u64 seq -> Z.of_nat (String.length model) < 2 ^ 32 ->
  load_checkpoint (Some (checkpoint_bytes session seq model)) want = Loaded seq model (Z.eqb session want) true.
Proof.
  intros Hs Hq Hm. unfold checkpoint_bytes. set (body := checkpoint_body session seq model).
  set (c := le_bytes 4 (worker_crc32 body)). assert (length c = 4%nat) as Hc by apply le_bytes_length.
  assert (length body = 25 + String.length model)%nat as Hb by apply checkpoint_body_length.
  assert (length (body ++ c) = 29 + String.length model)%nat as Hl by (rewrite length_app; lia).
  assert (take 5 (body ++ c) = [70; 70; 67; 75; 1]) as H5 by reflexivity.
  assert (slice (body ++ c) 5 8 = le_bytes 8 session) as H1 by reflexivity.
  assert (slice (body ++ c) 13 8 = le_bytes 8 seq) as H2 by reflexivity.
  assert (slice (body ++ c) 21 4 = le_bytes 4 (wrap32 (Z.of_nat (String.length model)))) as H3 by reflexivity.
  assert (slice (body ++ c) 25 (String.length model) = string_bytes model) as H4.
  { change (slice (body ++ c) 25 (String.length model)) with (take (String.length model) (string_bytes model ++ c)).
    rewrite <- (string_bytes_length model). apply take_app_length. }
  assert (slice (body ++ c) (25 + String.length model) 4 = c) as H6.
  { unfold slice. rewrite <- Hb, drop_app_length. apply take_ge. lia. }
  assert (take (length (body ++ c) - 4) (body ++ c) = body) as H7
    by (rewrite Hl; replace (29 + String.length model - 4)%nat with (length body) by lia; apply take_app_length).
  assert (u32 (worker_crc32 body)) as Hcrc by (rewrite worker_crc32_eq; apply crc32_u32, checkpoint_body_bytes).
  unfold load_checkpoint. rewrite H5, H1, H2, H3, H7, Hl, !le_read_le_bytes. unfold wrap32.
  change (2 ^ (8 * Z.of_nat 4)) with (2 ^ 32). change (2 ^ (8 * Z.of_nat 8)) with (2 ^ 64).
  rewrite Z.mod_mod, (Z.mod_small (Z.of_nat (String.length model))), (Z.mod_small session), (Z.mod_small seq) by (unfold u64 in *; lia).
  rewrite Nat2Z.id, H4, H6. unfold c. rewrite le_read_le_bytes. change (2 ^ (8 * Z.of_nat 4)) with (2 ^ 32).
  rewrite (Z.mod_small (worker_crc32 body)) by (unfold u32 in *; lia). rewrite Z.eqb_refl, string_bytes_roundtrip.
  rewrite bool_decide_true by done.
  destruct (Z.ltb_spec (Z.of_nat (29 + String.length model)) 20), (Z.ltb_spec (Z.of_nat (29 + String.length model)) 5),
    (Z.ltb_spec (Z.of_nat (29 + String.length model)) 25),
    (Z.ltb_spec (Z.of_nat (29 + String.length model)) (25 + Z.of_nat (String.length model) + 4)); try lia. cbn [orb negb].
  destruct (Z.eqb_spec (25 + Z.of_nat (String.length model) + 4) (Z.of_nat (29 + String.length model))); [done | lia].
Qed.

Lemma registration_unrestored w :
  wk_restored w = false -> wk_state_path w <> ""%string ->
  [(fid_state_avail, VBool false); (fid_session_ok, VBool false); (fid_integrity_ok, VBool false)] ⊆ registration_fields w.
Proof.
  intros Hr Hp x. unfold registration_fields, wk_stateful. rewrite (proj2 (String.eqb_neq _ _) Hp), Hr. cbn [negb].
  intros Hx. repeat (apply elem_of_cons in Hx as [-> | Hx]); try (by apply not_elem_of_nil in Hx);
    repeat first [apply list_elem_of_here | apply list_elem_of_further].
Qed.

(** C38: A damaged checkpoint is never restored: when any single byte of a checkpoint file
    is changed, a worker that starts on it registers with its state unavailable and its
    integrity and session not confirmed, whatever the change is. *)
Theorem corrupt_checkpoint_not_restored (a : WorkerArgs) (port session seq : Z) (model : string) (fs : FileSystem)
    (d1 d2 : bytes) (b b' : Z) (w : Worker) :
  wa_state_path a <> ""%string -> u8 b' -> b <> b' ->
  checkpoint_bytes session seq model = d1 ++ b :: d2 -> fs !! wa_state_path a = Some (d1 ++ b' :: d2) ->
  worker_start a port fs = Some w ->
  wk_restored w = false /\
  [(fid_state_avail, VBool false); (fid_session_ok, VBool false); (fid_integrity_ok, VBool false)] ⊆ registration_fields w.
Proof.
  intros Hp Hb' Hne Hck Hfs. unfold worker_start. rewrite (proj2 (String.eqb_neq _ _) Hp). cbn [negb]. rewrite Hfs.
  assert (are_bytes (d1 ++ b :: d2)) as Hall.
  { rewrite <- Hck. unfold checkpoint_bytes. apply Forall_app. split; [apply checkpoint_body_bytes | apply le_bytes_are_bytes]. }
  apply Forall_app in Hall as [H1 Hall]. apply Forall_cons in Hall as [Hb H2].
  assert (forall want seq' model' cs, load_checkpoint (Some (d1 ++ b' :: d2)) want <> Loaded seq' model' cs true) as Hno.
  { intros want seq' model' cs Hl. apply load_checkpoint_intact in Hl as [Hlen Hseal];
      [| apply Forall_app; split; [done | by constructor]].
    rewrite length_app in Hlen. cbn [length] in Hlen.
    apply (checksum_detects d1 d2 b b' H1 H2 Hb Hb' Hne); [rewrite length_app; cbn [length]; lia | | done].
    rewrite <- Hck. unfold checkpoint_bytes. generalize (checkpoint_body session seq model). intros body.
    rewrite length_app, le_bytes_length, Nat.add_sub, drop_app_length, take_app_length, worker_crc32_eq. reflexivity. }
  assert (forall u, wk_restored u = false -> wk_state_path u = wa_state_path a ->
    wk_restored u = false /\
    [(fid_state_avail, VBool false); (fid_session_ok, VBool false); (fid_integrity_ok, VBool false)] ⊆ registration_fields u) as Hreg.
  { intros u Hr Hpath. split; [done |]. apply registration_unrestored; [done | by rewrite Hpath]. }
  destruct (load_checkpoint _ _) as [| | seq' model' cs io] eqn:El; [| done |].
  - intros [= <-]. by apply Hreg.
  - destruct io; [by apply Hno in El |]. intros [= <-]. destruct (String.eqb model' ""); by apply Hreg.
Qed.

(** * Runs *)

(** What happens to a worker: a frame on the control socket, a connection on the request
    port with what arrives on it, the loss of the control connection. *)
Inductive WorkerEvent : Type :=
  | EvControl (io : WorkerIo) (f : Frame)
  | EvRequest (io : WorkerIo) (f : option Frame)
  | EvLost (connects : nat -> bool).

(** The new state and the frames sent. *)
Definition worker_step (e : WorkerEvent) : ST Worker (list Frame) :=
  match e with
  | EvControl io f => r ← worker_control io f; mret (option_list r)
  | EvRequest io f => r ← worker_request io f; mret (option_list r)
  | EvLost connects => r ← worker_lost connects; mret (default [] r)
  end.

Inductive worker_trace (w : Worker) : list (WorkerEvent * list Frame) -> Worker -> Prop :=
  | trace_nil : worker_trace w [] w
  | trace_snoc tr w1 e out w2 :
      worker_trace w tr w1 -> worker_step e w1 = (w2, Ok out) -> worker_trace w (tr ++ [(e, out)]) w2.

(** The last command of a run: [true] for ACTIVATE_TARGET, [false] for FENCE_ASSIGNMENT. *)
Definition admission_step (act : bool) (e : WorkerEvent) : bool :=
  match e with
  | EvControl _ f => match fr_type f with MsgType.ACTIVATE_TARGET => true | MsgType.FENCE_ASSIGNMENT => false | _ => act end
  | _ => act
  end.
Definition admission (act : bool) (tr : list (WorkerEvent * list Frame)) : bool := foldl admission_step act tr.*1.

(** A request the worker executed and committed: the reply says ok, and the input is none
    of the three special ones. *)
Definition commits (p : WorkerEvent * list Frame) : bool :=
  match p with
  | (EvRequest _ f, [r]) =>
    match request_inputs f with
    | Ok (a, _, _) => frame_flag r fid_ok && negb (Z.eqb a 0xDBAD || Z.eqb a 0xBEEF || Z.eqb a 0xC0FFEE)
    | Throw _ => false
    end
  | _ => false
  end.

(** The frames of a reply. *)
Lemma reply_ok_fields type msg_id epoch b l f :
  message type msg_id epoch ((fid_ok, VBool b) :: l) = Ok f -> frame_flag f fid_ok = b.
Proof. intros Hm. by eapply frame_flag_fields; [eapply message_fields, Hm |]. Qed.

Lemma worker_step_static e w w' out :
  worker_step e w = (w', out) -> wk_boot w' = wk_boot w /\ wk_target w' = wk_target w /\
    wk_active w' = admission_step (wk_active w) e.
Proof.
  destruct e as [io f | io f | connects]; cbn [worker_step admission_step]; unfold mbind, st_bind, mret, st_ret.
  - unfold worker_control. cbv zeta. destruct (fr_type f); intros; repeat case_match; simplify_eq; done.
  - unfold worker_request. destruct (request_inputs f) as [[[a b] boot] |]; [| intros [= <- _]; done].
    cbv zeta. repeat case_match; simplify_eq; intros; simplify_eq; done.
  - unfold worker_lost. destruct (wk_reconnect w); cbn [negb]; [| intros [= <- _]; done].
    cbv zeta. destruct (existsb connects (seq 0 120)); repeat case_match; simplify_eq; intros; simplify_eq; done.
Qed.

(** Whether the worker is active is decided by the last command alone. *)
Lemma worker_trace_active w tr w' :
  worker_trace w tr w' -> wk_active w' = admission (wk_active w) tr /\ wk_boot w' = wk_boot w.
Proof.
  induction 1 as [| tr w1 e out w2 _ [IHa IHb] Hs]; [done |].
  apply worker_step_static in Hs as (Hb & _ & Ha). unfold admission. rewrite fmap_app, foldl_app. simpl.
  split; [by rewrite Ha, IHa | congruence].
Qed.

(** A request on a worker that does not admit it changes nothing and is refused. *)
Lemma worker_request_refused io f w :
  (forall a b boot, request_inputs f = Ok (a, b, boot) -> wk_active w && Z.eqb boot (wk_boot w) = false) ->
  exists r, worker_request io f w = (w, r) /\ forall g, r = Ok (Some g) -> frame_flag g fid_ok = false.
Proof.
  intros Hno. unfold worker_request. destruct (request_inputs f) as [[[a b] boot] | e]; [| by exists (Throw e)].
  rewrite (Hno a b boot eq_refl). cbv zeta. eexists. split; [reflexivity |].
  unfold execution_result, mbind, result_bind. destruct (message _ _ _ _) as [g |] eqn:E; [| done]. intros _ [= <-].
  by eapply reply_ok_fields.
Qed.

(** The reply of a request that is admitted. *)
Lemma worker_request_ok io f w w' r :
  worker_request io f w = (w', Ok (Some r)) -> frame_flag r fid_ok = true ->
  exists a b, request_inputs f = Ok (a, b, wk_boot w) /\ wk_active w = true /\ a <> 0xBEEF /\
    (a = 0xDBAD \/ exists fs, payload_reader (fr_payload r) = Ok fs /\
       p_bytes fs fid_payload = Ok (string_bytes (to_string_u64 (reference_result a b)))) /\
    wk_committed_seq w' = (if Z.eqb a 0xDBAD || Z.eqb a 0xC0FFEE then wk_committed_seq w
                           else wrap64 (wk_committed_seq w + 1)).
Proof.
  intros Hr Hok. unfold worker_request in Hr. destruct (request_inputs f) as [[[a b] boot] | e] eqn:Ei; [| done].
  destruct (wk_active w && Z.eqb boot (wk_boot w)) eqn:Hadm; cycle 1.
  { exfalso. destruct (worker_request_refused io f w) as (x & Hx & Hf); [intros ???; congruence |].
    unfold worker_request in Hx. rewrite Ei, Hadm in Hx. rewrite Hr in Hx. injection Hx as <- <-.
    specialize (Hf r eq_refl). congruence. }
  apply andb_true_iff in Hadm as [Hact Hboot%Z.eqb_eq]. subst boot. exists a, b.
  assert (forall msg_id epoch z x, execution_result msg_id epoch
      [(fid_ok, VBool true); (fid_payload, VBytes (string_bytes (to_string_u64 z)))] = Ok (Some x) ->
    exists fs, payload_reader (fr_payload x) = Ok fs /\ p_bytes fs fid_payload = Ok (string_bytes (to_string_u64 z))) as Hres.
  { intros msg_id epoch z x. unfold execution_result, mbind, result_bind. destruct (message _ _ _ _) as [g |] eqn:E; [| done].
    intros [= <-]. eexists. split; [eapply message_fields, E |].
    apply p_bytes_reads; [reflexivity | apply string_bytes_are_bytes]. }
  cbv zeta in Hr. pose proof (reference_result_mask a b) as Hmask.
  destruct (Z.eqb_spec a 0xDBAD) as [-> |]; [injection Hr as <- _; cbn [orb]; naive_solver |].
  destruct (Z.eqb_spec a 0xBEEF) as [-> |]; [done |].
  destruct (Z.eqb_spec a 0xC0FFEE) as [-> |]; injection Hr as <- Hx; split_and!; try done.
  - right. rewrite <- Hmask. by eapply Hres.
  - by destruct (wk_stateful w).
  - right. by eapply Hres.
Qed.

(** A request leaves the sequence number alone, unless it is an ordinary one that is
    admitted and answered. *)
Lemma worker_request_seq io f w w' r :
  worker_request io f w = (w', r) ->
  wk_committed_seq w' = wk_committed_seq w \/
  exists msg_id epoch z, r = execution_result msg_id epoch
    [(fid_ok, VBool true); (fid_payload, VBytes (string_bytes (to_string_u64 z)))].
Proof.
  unfold worker_request. destruct (request_inputs f) as [[[a b] boot] |]; [| intros [= <- _]; by left]. cbv zeta.
  generalize (reference_result (Z.land a 0xFFFFFFFFFFFF) b) as z1. generalize (reference_result a b) as z2. intros z2 z1.
  destruct (wk_active w && Z.eqb boot (wk_boot w)); [| intros [= <- _]; by left].
  destruct (Z.eqb a 0xDBAD); [intros [= <- _]; by left |].
  destruct (Z.eqb a 0xBEEF); [intros [= <- _]; left; by destruct (wio_open io) |].
  destruct (Z.eqb a 0xC0FFEE); [intros [= <- _]; left; by destruct (wk_stateful w) |]. intros [= _ <-]. right. eauto.
Qed.

(** The sequence number moves exactly when a request is committed. *)
Lemma worker_step_commits e w w' out :
  u64 (wk_committed_seq w) -> worker_step e w = (w', Ok out) ->
  wk_committed_seq w' = wrap64 (wk_committed_seq w + (if commits (e, out) then 1 else 0)).
Proof.
  intros Hu Hs. assert (forall b, b = false -> wk_committed_seq w' = wk_committed_seq w ->
    wk_committed_seq w' = wrap64 (wk_committed_seq w + (if b : bool then 1 else 0))) as Hid.
  { intros b -> ->. unfold wrap64. rewrite Z.add_0_r, Z.mod_small; [done | apply Hu]. }
  destruct e as [io f | io f | connects]; cbn [worker_step] in Hs; unfold mbind, st_bind, mret, st_ret in Hs.
  - apply Hid; [done |]. unfold worker_control in Hs. cbv zeta in Hs.
    destruct (fr_type f); repeat case_match; simplify_eq; done.
  - destruct (worker_request io f w) as [w1 [r |]] eqn:Er; [| done]. injection Hs as -> <-.
    pose proof (worker_request_seq _ _ _ _ _ Er) as Hseq.
    destruct r as [r |]; change (option_list (Some ?r)) with [r]; cycle 1.
    { apply Hid; [done |]. destruct Hseq as [? | (?&?&?&E)]; [done |]. unfold execution_result, mbind, result_bind in E.
      destruct (message _ _ _ _); done. }
    destruct (frame_flag r fid_ok) eqn:Hok.
    + destruct (worker_request_ok io f w w' r Er Hok) as (a & b & Hi & _ & Hb & _ & Hw).
      revert Hw. cbn [commits]. rewrite Hi, Hok, (proj2 (Z.eqb_neq _ _) Hb), orb_false_r. cbn [andb].
      destruct (Z.eqb a 0xDBAD || Z.eqb a 0xC0FFEE); [by apply (Hid false) | done].
    + apply Hid; [cbn [commits]; rewrite Hok; by destruct (request_inputs f) as [[[??]?] |] |].
      destruct Hseq as [? | (?&?&?&E)]; [done |]. unfold execution_result, mbind, result_bind in E.
      destruct (message _ _ _ _) as [g |] eqn:Em; [| done]. injection E as ->.
      apply reply_ok_fields in Em. congruence.
  - apply Hid; [done |]. unfold worker_lost in Hs. cbv zeta in Hs. repeat case_match; simplify_eq; done.
Qed.

(** An activation that is not acknowledged. *)
Definition unacknowledged (p : WorkerEvent * list Frame) : bool :=
  match p with
  | (EvControl _ f, out) => bool_decide (fr_type f = MsgType.ACTIVATE_TARGET) && bool_decide (out = [])
  | _ => false
  end.

Lemma worker_step_acknowledges e w w' out :
  worker_step e w = (w', Ok out) ->
  wk_withhold w' = wk_withhold w /\ (wk_activated_once w = true -> wk_activated_once w' = true) /\
  (unacknowledged (e, out) = true -> wk_withhold w = true /\ wk_activated_once w = false /\ wk_activated_once w' = true).
Proof.
  destruct e as [io f | io f | connects]; cbn [worker_step unacknowledged]; unfold mbind, st_bind, mret, st_ret.
  - unfold worker_control, mbind, result_bind. cbv zeta. destruct (fr_type f); try (intros [= <- <-]; done).
    change (wk_withhold (w <| wk_active := true |>)) with (wk_withhold w).
    change (wk_activated_once (w <| wk_active := true |>)) with (wk_activated_once w).
    destruct (message _ _ _ _) as [g |], (wk_withhold w) eqn:Ew, (wk_activated_once w) eqn:Ea; cbn [andb negb];
      destruct (wio_open io); intros [= <- <-]; done.
  - unfold worker_request. cbv zeta. unfold execution_result, mbind, result_bind. intros; repeat case_match; simplify_eq; done.
  - unfold worker_lost. cbv zeta. intros; repeat case_match; simplify_eq; done.
Qed.

(** A worker serves only what it is admitted for.  In any run, and whatever arrives on
    the request port: when the last command was not ACTIVATE_TARGET, a request changes
    nothing and is never answered ok; and an ok answer means that the last command was
    ACTIVATE_TARGET, that the request names the worker's own boot, and that the answer
    carries the reference result of its inputs (but for the one input that severs the
    control connection instead). *)
Theorem worker_serves_only_when_admitted (w w' : Worker) (tr : list (WorkerEvent * list Frame)) (io : WorkerIo)
    (f : option Frame) :
  worker_trace w tr w' ->
  (admission (wk_active w) tr = false ->
     exists r, worker_request io f w' = (w', r) /\ forall g, r = Ok (Some g) -> frame_flag g fid_ok = false) /\
  (forall w'' g, worker_request io f w' = (w'', Ok (Some g)) -> frame_flag g fid_ok = true ->
     admission (wk_active w) tr = true /\
     exists a b, request_inputs f = Ok (a, b, wk_boot w) /\
       (a = 0xDBAD \/ exists fs, payload_reader (fr_payload g) = Ok fs /\
          p_bytes fs fid_payload = Ok (string_bytes (to_string_u64 (reference_result a b))))).
Proof.
  intros [Ha Hb]%worker_trace_active. split.
  - intros Hno. apply worker_request_refused. intros a b boot _. by rewrite Ha, Hno.
  - intros w'' g Hr Hok. destruct (worker_request_ok io f w' w'' g Hr Hok) as (a & b & Hi & Hact & _ & Hres & _).
    split; [congruence |]. exists a, b. split; [congruence | done].
Qed.

(** The committed sequence counts the committed requests: over any run it grows by
    exactly the number of ordinary requests that were answered ok, modulo [2 ^ 64]; a
    refused request, a request whose response is withheld, and the control traffic do
    not move it. *)
Theorem committed_sequence_counts (w w' : Worker) (tr : list (WorkerEvent * list Frame)) :
  u64 (wk_committed_seq w) -> worker_trace w tr w' ->
  u64 (wk_committed_seq w') /\
  wk_committed_seq w' = wrap64 (wk_committed_seq w + Z.of_nat (length (List.filter commits tr))).
Proof.
  assert (forall z, u64 (wrap64 z)) as Hwrap by (intros; apply Z.mod_pos_bound; lia).
  intros Hu. induction 1 as [| tr w1 e out w2 _ [IHu IHs] Hs].
  - split; [done |]. simpl. unfold wrap64. rewrite Z.add_0_r, Z.mod_small; [done | apply Hu].
  - apply worker_step_commits in Hs; [| done]. rewrite Hs. split; [apply Hwrap |].
    rewrite IHs, List.filter_app, length_app. cbn [List.filter]. unfold wrap64. rewrite Zplus_mod_idemp_l. f_equal.
    destruct (commits (e, out)); cbn [length]; lia.
Qed.

(** Every activation is acknowledged, except that a worker started with
    --withhold-activate withholds exactly one acknowledgment at most: over any run from
    a worker that was not yet activated, the activations without an acknowledgment are
    none without the option, and at most one with it. *)
Theorem activation_withheld_at_most_once (w w' : Worker) (tr : list (WorkerEvent * list Frame)) :
  worker_trace w tr w' -> wk_activated_once w = false ->
  (length (List.filter unacknowledged tr) <= (if wk_withhold w then 1 else 0))%nat.
Proof.
  intros Htr Hno. cut (wk_withhold w' = wk_withhold w /\
    (length (List.filter unacknowledged tr) <= if wk_withhold w && wk_activated_once w' then 1 else 0)%nat).
  { intros [_ Hl]. destruct (wk_withhold w), (wk_activated_once w'); simpl in *; lia. }
  induction Htr as [| tr w1 e out w2 _ [IHw IHl] Hs].
  - rewrite Hno, andb_false_r. done.
  - apply worker_step_acknowledges in Hs as (Hw & Hmono & Hun). split; [congruence |].
    rewrite List.filter_app, length_app. cbn [List.filter]. rewrite IHw in Hun. destruct (unacknowledged (e, out)).
    + destruct (Hun eq_refl) as (Hwh & H1 & H2). rewrite Hwh, H1 in IHl. rewrite Hwh, H2. simpl in *. lia.
    + cbn [length]. destruct (wk_withhold w); [| simpl in *; lia]. destruct (wk_activated_once w1); [rewrite Hmono by done |];
        simpl in *; destruct (wk_activated_once w2); lia.
Qed.

(** A checkpoint file of 20 to 24 bytes with the right header is read past its end:
    the size check admits 20 bytes, and the fixed fields take 25. *)
Theorem short_checkpoint_read_out_of_bounds (rest : bytes) (want : Z) :
  (15 <= length rest < 20)%nat -> load_checkpoint (Some ([70; 70; 67; 75; 1] ++ rest)) want = LoadOutOfBounds.
Proof.
  intros Hl. unfold load_checkpoint. change (take 5 ([70; 70; 67; 75; 1] ++ rest)) with [70; 70; 67; 75; 1].
  rewrite bool_decide_true by done. rewrite length_app. change (length [70; 70; 67; 75; 1]) with 5%nat.
  destruct (Z.ltb_spec (Z.of_nat (5 + length rest)) 20), (Z.ltb_spec (Z.of_nat (5 + length rest)) 5),
    (Z.ltb_spec (Z.of_nat (5 + length rest)) 25); try lia. done.
Qed.

(** * Witnesses *)

Module WorkerWitness.
Definition io : WorkerIo := mkWorkerIo true None.
Definition args : WorkerArgs :=
  worker_args ["--target"; "2"; "--boot"; "77"; "--state"; "ck"; "--session"; "5"; "--withhold-activate"] worker_args_default.
Definition saved : bytes := checkpoint_bytes 5 41 "m".
(** The files: a checkpoint that is intact, and one with a flipped byte. *)
Definition intact : FileSystem := {[ "ck" := saved ]}.
Definition damaged : FileSystem := {[ "ck" := take 9 saved ++ 1 :: drop 10 saved ]}.
Definition boots (fs : FileSystem) : Worker := default (mkWorker 0 0 0 "" 0 false false false false 0 "" false false ∅) (worker_start args 4000 fs).
Definition w0 : Worker := boots intact.
Definition frame (t : MsgType) (l : list (Z * Value)) : Frame :=
  match message t 9 3 l with Ok f => f | Throw _ => mkFrame t 0 0 [] end.
Definition activation : WorkerEvent := EvControl io (frame MsgType.ACTIVATE_TARGET [(fid_target, VU64 2); (fid_boot, VU64 77)]).
Definition fence : WorkerEvent := EvControl io (frame MsgType.FENCE_ASSIGNMENT [(fid_target, VU64 2)]).
Definition ask : Frame := frame MsgType.VERIFY_SERVICE [(fid_input_a, VU64 7); (fid_input_b, VU64 11); (fid_boot, VU64 77)].
Definition request : WorkerEvent := EvRequest io (Some ask).
Definition after (e : WorkerEvent) (w : Worker) : Worker * list Frame :=
  match worker_step e w with (w', Ok out) => (w', out) | (w', Throw _) => (w', []) end.
Definition w1 : Worker := (after activation w0).1.
Definition w2 : Worker := (after request w1).1.
Definition run : list (WorkerEvent * list Frame) := ([] ++ [(activation, (after activation w0).2)]) ++ [(request, (after request w1).2)].

Lemma run_trace : worker_trace w0 run w2.
Proof.
  apply (trace_snoc w0 _ w1 request _ w2); [apply (trace_snoc w0 [] w0 activation _ w1); [apply trace_nil |] |];
    vm_compute; reflexivity.
Qed.
End WorkerWitness.

Lemma checkpoint_roundtrip_witness : load_checkpoint (Some (checkpoint_bytes 5 41 "m")) 6 = Loaded 41 "m" false true.
Proof. apply (checkpoint_roundtrip 5 41 6 "m"); unfold u64; simpl; lia. Defined.

Lemma corrupt_checkpoint_not_restored_witness :
  wk_restored (WorkerWitness.boots WorkerWitness.damaged) = false /\
  [(fid_state_avail, VBool false); (fid_session_ok, VBool false); (fid_integrity_ok, VBool false)] ⊆
    registration_fields (WorkerWitness.boots WorkerWitness.damaged).
Proof.
  apply (corrupt_checkpoint_not_restored WorkerWitness.args 4000 5 41 "m" WorkerWitness.damaged
           (take 9 WorkerWitness.saved) (drop 10 WorkerWitness.saved) 0 1).
  - vm_compute. discriminate.
  - unfold u8. lia.
  - lia.
  - vm_compute. reflexivity.
  - vm_compute. reflexivity.
  - vm_compute. reflexivity.
Defined.

Lemma worker_serves_only_when_admitted_witness :
  exists a b, request_inputs (Some WorkerWitness.ask) = Ok (a, b, 77).
Proof.
  destruct (worker_serves_only_when_admitted WorkerWitness.w0 WorkerWitness.w2 WorkerWitness.run WorkerWitness.io
              (Some WorkerWitness.ask) WorkerWitness.run_trace) as [_ H].
  destruct (worker_request WorkerWitness.io (Some WorkerWitness.ask) WorkerWitness.w2) as [w'' [[g |] |]] eqn:E;
    [| vm_compute in E; discriminate | vm_compute in E; discriminate].
  destruct (H w'' g eq_refl) as (_ & a & b & Hi & _).
  - assert (Some (frame_flag g fid_ok) = Some true) as Hg; [| congruence].
    transitivity (match worker_request WorkerWitness.io (Some WorkerWitness.ask) WorkerWitness.w2 with
                  | (_, Ok (Some g)) => Some (frame_flag g fid_ok) | _ => None end); [by rewrite E | vm_compute; reflexivity].
  - by exists a, b.
Defined.

Lemma committed_sequence_counts_witness : wk_committed_seq WorkerWitness.w2 = 42.
Proof.
  assert (u64 (wk_committed_seq WorkerWitness.w0)) as Hu by (vm_compute; split; congruence).
  destruct (committed_sequence_counts WorkerWitness.w0 WorkerWitness.w2 WorkerWitness.run Hu WorkerWitness.run_trace) as [_ ->].
  vm_compute. reflexivity.
Defined.

Lemma activation_withheld_at_most_once_witness : (length (List.filter unacknowledged WorkerWitness.run) <= 1)%nat.
Proof.
  exact (activation_withheld_at_most_once WorkerWitness.w0 WorkerWitness.w2 WorkerWitness.run WorkerWitness.run_trace eq_refl).
Defined.

Lemma short_checkpoint_read_out_of_bounds_witness :
  load_checkpoint (Some ([70; 70; 67; 75; 1] ++ replicate 16 0)) 5 = LoadOutOfBounds.
Proof. apply (short_checkpoint_read_out_of_bounds (replicate 16 0) 5). simpl. lia. Defined.
