(* ===== verification/WorkerThreads.v ===== *)
(** The threads of the worker process (worker/worker_main.cpp): the control thread and the
    request threads, action by action, over the state [Worker] they share.

    [worker_thread] is the code of a thread that handles one event, written over
    [Atomic]: a load, a store, a [fetch_add] or an [exchange] of an atomic variable and an
    operation on a file or on the control socket are one action each.  Run alone it is
    [worker_step] of Worker; in a [Crew] of Threads the actions of several threads
    interleave.  The control thread is thread 0, and there is one: it handles one frame
    after the other.  Each connection on the request port has a thread of its own.

    The state names the control socket by whether it is open: its [load] and the [close]
    that follows it are one action. *)

From stdpp Require Import base list gmap strings pretty.
From Stdlib Require Import ZArith Lia.
From S2P Require Import Prelude Threads Identities Types Double Bytes Model Codec Persistence Protocol Wire Worker.

Open Scope Z_scope.

(** * The code *)

(** A write at the beginning of a file that may have a longer content by now. *)
Definition overwrite (new old : bytes) : bytes := new ++ drop (length new) old.

Section threads.
Context {M : Type -> Type} `{!MBind M, !MRet M, !Atomic Worker M}.

(** [committed_seq.load()] is an argument of [save_checkpoint]; the file is then truncated,
    and written. *)
Definition checkpoint_thread (io : WorkerIo) : M unit :=
  seq ⇐ gets wk_committed_seq;
  opened ⇐ (fun w : Worker => if wio_open io then (w <| wk_fs := <[ wk_state_path w := [] ]> (wk_fs w) |>, Ok true) else (w, Ok false));
  if (opened : bool) then
    atomic (modify (fun w : Worker =>
      let body := checkpoint_bytes (wk_session w) seq (wk_model_key w) in
      let written := match wio_short io with Some n => take n body | None => body end in
      w <| wk_fs := <[ wk_state_path w := overwrite written (default [] (wk_fs w !! wk_state_path w)) ]> (wk_fs w) |>))
  else mret tt.

Definition request_thread (io : WorkerIo) (f : option Frame) : M (option Frame) :=
  i ⇐ lift (request_inputs f);
  let '(a, b, req_boot) := i in
  let msg_id := match f with Some f => fr_msg_id f | None => 0 end in
  let epoch := match f with Some f => fr_epoch f | None => 0 end in
  let reply l := atomic (lift (execution_result msg_id epoch l)) in
  let result_fields res := [(fid_ok, VBool true); (fid_payload, VBytes (string_bytes (to_string_u64 res)))] in
  active ⇐ gets wk_active;
  my_boot ⇐ gets wk_boot;
  if active && Z.eqb req_boot my_boot then
    if Z.eqb a 0xDBAD then
      _ ⇐ modify (fun w : Worker => w <| wk_ctrl_open := false |>);
      reply [(fid_ok, VBool true)]
    else if Z.eqb a 0xBEEF then
      let res := reference_result (Z.land a 0xFFFFFFFFFFFF) b in
      _ ⇐ modify (fun w : Worker =>
        let path := "ambig_" +:+ to_string_u64 (wk_target w) +:+ ".out" in
        if wio_open io then w <| wk_fs := <[ path := string_bytes (to_string_u64 res) ++ [10] ]> (wk_fs w) |> else w);
      mret None
    else if Z.eqb a 0xC0FFEE then
      stateful ⇐ gets wk_stateful;
      _ ← (if (stateful : bool) then checkpoint_thread io else mret tt);
      reply (result_fields (reference_result (Z.land a 0xFFFFFFFFFFFF) b))
    else
      _ ⇐ modify (fun w : Worker => w <| wk_committed_seq := wrap64 (wk_committed_seq w + 1) |>);
      reply (result_fields (reference_result a b))
  else reply [(fid_ok, VBool false); (fid_detail, VStr "not active or stale boot")].

(** [withhold_activate && !activated_once.exchange(true)]: the exchange happens only under
    the option. *)
Definition control_thread (io : WorkerIo) (f : Frame) : M (option Frame) :=
  match fr_type f with
  | MsgType.ACTIVATE_TARGET =>
    _ ⇐ modify (fun w : Worker => w <| wk_active := true |>);
    withhold ⇐ gets wk_withhold;
    first ← (if (withhold : bool) then
               once ⇐ (fun w : Worker => (w <| wk_activated_once := true |>, Ok (wk_activated_once w)));
               mret (negb once)
             else mret false);
    if (first : bool) then
      _ ⇐ modify (fun w : Worker =>
        let path := "activate_withheld_" +:+ to_string_u64 (wk_target w) +:+ ".out" in
        if wio_open io then w <| wk_fs := <[ path := [] ]> (wk_fs w) |> else w);
      mret None
    else atomic (lift (g ← message MsgType.ACTIVATE_RESULT (fr_msg_id f) (fr_epoch f) [(fid_ok, VBool true)]; Ok (Some g)))
  | MsgType.FENCE_ASSIGNMENT => _ ⇐ modify (fun w : Worker => w <| wk_active := false |>); mret None
  | _ => mret None
  end.

(** [send_registration] loads the sequence once per field it is in; the rest of what it sends
    does not change any more. *)
Definition registration_thread : M Frame :=
  w ⇐ get;
  state_fields ← (if wk_stateful w then
      generation ⇐ gets (fun w => wrap64 (wk_committed_seq w + 1));
      seq ⇐ gets wk_committed_seq;
      mret [ (fid_state_avail, VBool (wk_restored w)); (fid_checkpoint_gen, VU64 generation);
             (fid_committed_seq, VU64 seq); (fid_session_ok, VBool (wk_restored w));
             (fid_tenant_ok, VBool true); (fid_model_ok, VBool true); (fid_format_ok, VBool (wk_restored w));
             (fid_integrity_ok, VBool (wk_restored w)); (fid_replay_safe, VBool true) ]
    else mret []);
  atomic (lift (message MsgType.PUBLISH_READINESS 2 0
    ([ (fid_target, VU64 (wk_target w)); (fid_boot, VU64 (wk_boot w)); (fid_ready, VBool true);
       (fid_model, VStr (wk_model_key w)); (fid_abi, VStr "ff-ref-v1"); (fid_capacity, VF64 double_2) ] ++ state_fields))).

(** The control socket is closed; the first attempt that connects stores the new one. *)
Definition lost_thread (connects : nat -> bool) : M (option (list Frame)) :=
  reconnect ⇐ gets wk_reconnect;
  if negb reconnect then mret None
  else
    _ ⇐ modify (fun w : Worker => w <| wk_ctrl_open := false |>);
    if existsb connects (seq 0 120) then
      h ⇐ (fun w : Worker => (w, worker_hello w));
      _ ⇐ modify (fun w : Worker => w <| wk_ctrl_open := true |>);
      r ← registration_thread;
      mret (Some [h; r])
    else mret None.

(** The thread of an event, and the frames it sends. *)
Definition worker_thread (e : WorkerEvent) : M (list Frame) :=
  match e with
  | EvControl io f => r ← control_thread io f; mret (option_list r)
  | EvRequest io f => r ← request_thread io f; mret (option_list r)
  | EvLost connects => r ← lost_thread connects; mret (default [] r)
  end.
End threads.

(** The events of a worker process: commands and reconnections in thread 0, requests in the
    others, nothing outside the threads. *)
Definition is_command (e : WorkerEvent) : bool := match e with EvRequest _ _ => false | _ => true end.
Definition WorkerCrew : Type := Crew Worker (list Frame).
Definition worker_event (e : CrewEvent Worker (list Frame)) : Prop :=
  match e with
  | Begin p t => exists ev, t = worker_thread ev /\ (p = 0 <-> is_command ev = true)
  | Outside _ => False
  | _ => True
  end.
(** No activation begins. *)
Definition no_activation (e : CrewEvent Worker (list Frame)) : Prop :=
  match e with
  | Begin _ t => exists ev, t = worker_thread ev /\ forall io f, ev = EvControl io f -> fr_type f <> MsgType.ACTIVATE_TARGET
  | _ => True
  end.

(** * Lemmas *)

Lemma overwrite_nil new : overwrite new [] = new.
Proof. unfold overwrite. by rewrite drop_nil, app_nil_r. Qed.

(** The greeting is short enough for a frame. *)
Lemma worker_hello_ok w : exists f, worker_hello w = Ok f.
Proof. eexists. reflexivity. Qed.

(** The code, written once, does the same under both readings: alone in [ST], and as a
    [Prog] that runs alone. *)
Lemma worker_thread_agrees e : agrees (worker_thread e) (worker_thread e).
Proof.
  destruct e; cbn [worker_thread];
    unfold control_thread, request_thread, lost_thread, registration_thread, checkpoint_thread; solve_agrees.
Qed.

(** Alone, a thread does what the step of Worker does. *)
Lemma checkpoint_alone io (w : Worker) :
  (checkpoint_thread io : ST Worker unit) w =
  (w <| wk_fs := (save_checkpoint io (wk_state_path w) (wk_session w) (wk_committed_seq w) (wk_model_key w) (wk_fs w)).1 |>, Ok tt).
Proof.
  unfold checkpoint_thread, save_checkpoint. alone. unfold mbind, st_bind, gets, modify, mret, st_ret.
  destruct (wio_open io); cbn [negb]; [| by destruct w].
  change (wk_fs (w <| wk_fs := ?x |>)) with x. change (wk_state_path (w <| wk_fs := ?x |>)) with (wk_state_path w).
  rewrite lookup_insert_eq. cbn [default]. unfold default. rewrite overwrite_nil, insert_insert_eq. by destruct (wio_short io).
Qed.

Lemma registration_alone (w : Worker) : (registration_thread : ST Worker Frame) w = (w, send_registration w).
Proof.
  unfold registration_thread, send_registration, registration_fields. alone. unfold mbind, st_bind, get, gets, mret, st_ret, lift.
  by destruct (wk_stateful w).
Qed.

Lemma worker_thread_alone e (w : Worker) : (worker_thread e : ST Worker (list Frame)) w = worker_step e w.
Proof.
  destruct e as [io f | io f | connects]; cbn [worker_thread worker_step].
  - unfold control_thread, worker_control. destruct (fr_type f); try done; alone; unfold mbind, st_bind, gets, modify, mret, st_ret, lift.
    change (wk_withhold (w <| wk_active := true |>)) with (wk_withhold w). cbv zeta.
    change (wk_activated_once (w <| wk_active := true |>)) with (wk_activated_once w).
    destruct (wk_withhold w) eqn:Ew, (wk_activated_once w) eqn:Eo; cbn [andb negb]; try done;
      destruct w; cbn in *; subst; try done; destruct (message _ _ _ _); done.
  - unfold request_thread, worker_request. alone. unfold mbind, st_bind, gets, lift.
    destruct (request_inputs f) as [[[a b] boot] |]; [| done]. cbv zeta.
    generalize (reference_result (Z.land a 0xFFFFFFFFFFFF) b) as z1. generalize (reference_result a b) as z2. intros z2 z1.
    destruct (wk_active w && Z.eqb boot (wk_boot w)); [| done].
    destruct (Z.eqb a 0xDBAD); [done |]. destruct (Z.eqb a 0xBEEF); [done |]. destruct (Z.eqb a 0xC0FFEE); [| done].
    destruct (wk_stateful w); [| done]. rewrite checkpoint_alone. done.
  - unfold lost_thread, worker_lost. alone. unfold mbind, st_bind, gets, modify. cbv zeta.
    destruct (wk_reconnect w); cbn [negb]; [| done]. destruct (existsb connects (seq 0 120)); [| done].
    destruct (worker_hello_ok (w <| wk_ctrl_open := false |>)) as [h ->].
    rewrite registration_alone. unfold result_bind.
    change (send_registration (w <| wk_ctrl_open := ?b |> <| wk_ctrl_open := ?c |>)) with (send_registration (w <| wk_ctrl_open := b |>)).
    by destruct (send_registration _).
Qed.

(** What the threads leave alone: the configuration, and whether the worker is active
    unless the thread handles a command. *)
Definition same_setup (w w' : Worker) : Prop :=
  wk_target w' = wk_target w /\ wk_boot w' = wk_boot w /\ wk_state_path w' = wk_state_path w /\
  wk_session w' = wk_session w /\ wk_model_key w' = wk_model_key w.
Definition same_active (w w' : Worker) : Prop := wk_active w' = wk_active w.
#[export] Instance same_setup_preorder : PreOrder same_setup.
Proof. split; [done |]. intros w1 w2 w3 (?&?&?&?&?) (?&?&?&?&?). unfold same_setup. split_and!; congruence. Qed.
#[export] Instance same_active_preorder : PreOrder same_active.
Proof. split; [done |]. intros w1 w2 w3. unfold same_active. congruence. Qed.

(** Follow the code of a thread: every action is looked at on its own. *)
Ltac solve_guarantees :=
  repeat lazymatch goal with
  | |- guarantees _ (mret _) => done
  | |- guarantees _ (atomic (gets _)) => apply guarantees_reads; [apply _ | done]
  | |- guarantees _ (atomic get) => apply guarantees_reads; [apply _ | done]
  | |- guarantees _ (atomic (lift _)) => apply guarantees_reads; [apply _ | done]
  | |- guarantees _ (atomic _) => apply guarantees_atomic; intros ?; by repeat case_match
  | |- guarantees _ (mbind _ _) => apply guarantees_bind; [| intros ?]
  | |- guarantees _ (let _ := _ in _) => cbv zeta
  | |- guarantees _ (match ?x with _ => _ end) => destruct x eqn:?
  end.

Lemma worker_thread_setup e : guarantees same_setup (worker_thread e).
Proof.
  destruct e; cbn [worker_thread];
    unfold control_thread, request_thread, lost_thread, registration_thread, checkpoint_thread; solve_guarantees.
Qed.

Lemma worker_thread_active e :
  (forall io f, e = EvControl io f -> fr_type f <> MsgType.ACTIVATE_TARGET /\ fr_type f <> MsgType.FENCE_ASSIGNMENT) ->
  guarantees same_active (worker_thread e).
Proof.
  destruct e as [io f | io f | connects]; cbn [worker_thread]; intros H;
    unfold control_thread, request_thread, lost_thread, registration_thread, checkpoint_thread; solve_guarantees;
    by destruct (H io f eq_refl).
Qed.

(** * Crews of the worker *)

(** What is known of the threads that run. *)
Record crew_ok (c : WorkerCrew) : Prop := {
  ok_setup p t : crew_threads c !! p = Some t -> guarantees same_setup t;
  ok_requests p t : crew_threads c !! p = Some t -> p <> 0 -> guarantees same_active t }.

Lemma crew_ok_run es c : Forall worker_event es -> crew_ok c -> crew_ok (crew_run es c).
Proof.
  intros Hes Hc. split.
  - intros p t Hp. apply (crew_threads_guarantee same_setup (fun _ => True) es c) with (p := p); [| | done | done].
    + eapply Forall_impl; [exact Hes |]. intros [q u | | |]; try done. intros (ev & -> & _) _. apply worker_thread_setup.
    + intros q u Hq _. by eapply ok_setup.
  - intros p t Hp Hne. apply (crew_threads_guarantee same_active (fun p => p <> 0) es c) with (p := p); [| | done | done].
    + eapply Forall_impl; [exact Hes |]. intros [q u | | |]; try done. intros (ev & -> & Hq) Hq0. apply worker_thread_active.
      intros io f ->. destruct Hq0. by apply Hq.
    + intros q u Hq Hq0. by eapply ok_requests.
Qed.
Lemma crew_ok_boot w : crew_ok (mkCrew w ∅).
Proof. split; intros p t Hp; cbn [crew_threads] in Hp; by rewrite lookup_empty in Hp. Qed.

Lemma worker_events_setup es :
  Forall worker_event es ->
  Forall (fun e => match e with Begin _ t => guarantees same_setup t | Outside g => forall s, same_setup s (g s) | _ => True end) es.
Proof. intros Hes. eapply Forall_impl; [exact Hes |]. intros [q u | | |]; try done. intros (ev & -> & _). apply worker_thread_setup. Qed.
Lemma crew_setup es c : Forall worker_event es -> crew_ok c -> same_setup (crew_state c) (crew_state (crew_run es c)).
Proof. intros Hes Hc. apply crew_guarantees; [apply _ | by apply worker_events_setup | by apply ok_setup]. Qed.
Lemma crew_visits_setup es c s : Forall worker_event es -> crew_ok c -> crew_visits c es s -> same_setup (crew_state c) s.
Proof. intros Hes Hc. apply crew_visits_guarantees; [apply _ | by apply worker_events_setup | by apply ok_setup]. Qed.

(** A request begins. *)
Lemma request_event p io f : p <> 0 -> worker_event (Begin p (worker_thread (EvRequest io f))).
Proof. intros Hp. eexists. split; [done |]. by cbn. Qed.

(** The reply of a result. *)
Lemma execution_result_payload msg_id epoch z x :
  execution_result msg_id epoch [(fid_ok, VBool true); (fid_payload, VBytes (string_bytes (to_string_u64 z)))] = Ok (Some x) ->
  exists fs, payload_reader (fr_payload x) = Ok fs /\ p_bytes fs fid_payload = Ok (string_bytes (to_string_u64 z)).
Proof.
  intros Hx. unfold execution_result in Hx. result_inv Hx as g Hg. injection Hx as ->. eexists. split; [eapply message_fields, Hg |].
  apply p_bytes_reads; [reflexivity | apply string_bytes_are_bytes].
Qed.
Lemma execution_result_flag msg_id epoch b l x :
  execution_result msg_id epoch ((fid_ok, VBool b) :: l) = Ok (Some x) -> frame_flag x fid_ok = b.
Proof. intros Hx. unfold execution_result in Hx. result_inv Hx as g Hg. injection Hx as ->. by eapply reply_ok_fields. Qed.

(** What an ok answer tells: the worker was active when the thread looked. *)
Definition served (I : Worker -> Prop) (f : option Frame) (x : result (list Frame)) : Prop :=
  forall g, x = Ok [g] -> frame_flag g fid_ok = true ->
  exists s s' a b, I s /\ I s' /\ wk_active s = true /\ request_inputs f = Ok (a, b, wk_boot s') /\
    (a = 0xDBAD \/ exists fs, payload_reader (fr_payload g) = Ok fs /\
       p_bytes fs fid_payload = Ok (string_bytes (to_string_u64 (reference_result a b)))).

Lemma checkpoint_ensures I io (Q : result unit -> Prop) : Q (Ok tt) -> ensures I Q (checkpoint_thread io).
Proof.
  intros H. unfold checkpoint_thread. apply ensures_bind, ensures_atomic. intros s _ _. apply ensures_bind, ensures_atomic. intros u _ _.
  destruct (wio_open io); [by apply ensures_atomic | done].
Qed.

Lemma request_serves I io f : ensures I (served I f) (worker_thread (EvRequest io f)).
Proof.
  cbn [worker_thread]. unfold request_thread. pose proof reference_result_mask as Hmask.
  apply ensures_bind, ensures_bind, ensures_atomic. intros s0 _ _. cbn [lift fst snd].
  destruct (request_inputs f) as [[[a b] boot] | e] eqn:Hi; [| by intros g]. cbv zeta.
  apply ensures_bind, ensures_atomic. intros s Hs _. cbn [gets fst snd]. apply ensures_bind, ensures_atomic. intros s' Hs' _. cbn [gets fst snd].
  destruct (wk_active s && Z.eqb boot (wk_boot s')) eqn:Hadm; cycle 1.
  { apply ensures_atomic. intros u _ _. cbn [lift snd]. destruct (execution_result _ _ _) as [[x |] |] eqn:Hx; [| done | done].
    intros g [= <-] Hok. by apply execution_result_flag in Hx; rewrite Hx in Hok. }
  apply andb_true_iff in Hadm as [Hact Hboot%Z.eqb_eq]. subst boot.
  assert (forall msg_id epoch z, a = 0xDBAD \/ z = reference_result a b -> forall l,
    (a = 0xDBAD \/ l = [(fid_ok, VBool true); (fid_payload, VBytes (string_bytes (to_string_u64 z)))]) ->
    ensures I (fun x => match x with Ok r => ensures I (served I f) (mret (option_list r)) | Throw e => served I f (Throw e) end)
      (atomic (lift (execution_result msg_id epoch l)))) as Hreply.
  { intros msg_id epoch z Hz l Hl. apply ensures_atomic. intros u _ _. cbn [lift snd].
    destruct (execution_result _ _ _) as [[x |] |] eqn:Hx; [| done | done]. intros g [= <-] _.
    exists s, s', a, b. split_and!; try done. destruct Hz as [-> | ->]; [by left |]. destruct Hl as [-> | ->]; [by left |].
    right. by eapply execution_result_payload. }
  destruct (Z.eqb_spec a 0xDBAD) as [-> |]; [| destruct (Z.eqb_spec a 0xBEEF); [| destruct (Z.eqb_spec a 0xC0FFEE)]].
  - apply ensures_bind, ensures_atomic. intros u _ _. apply (Hreply _ _ 0); by left.
  - apply ensures_bind, ensures_atomic. intros u _ _. by intros g.
  - apply ensures_bind, ensures_atomic. intros u _ _. cbn [gets snd]. apply ensures_bind. destruct (wk_stateful u).
    + apply checkpoint_ensures. eapply Hreply; right; [| done]. apply Hmask.
    + eapply Hreply; right; [| done]. apply Hmask.
  - apply ensures_bind, ensures_atomic. intros u _ _. cbn [modify snd]. eapply Hreply; by right.
Qed.

Lemma served_meanwhile c es p io f g :
  crew_ok c -> Forall worker_event es -> p <> 0 ->
  finished p (worker_thread (EvRequest io f)) c es (Ok [g]) -> frame_flag g fid_ok = true ->
  exists s a b, crew_visits c (Begin p (worker_thread (EvRequest io f)) :: es) s /\ wk_active s = true /\
    wk_boot s = wk_boot (crew_state c) /\ request_inputs f = Ok (a, b, wk_boot (crew_state c)) /\
    (a = 0xDBAD \/ exists fs, payload_reader (fr_payload g) = Ok fs /\
       p_bytes fs fid_payload = Ok (string_bytes (to_string_u64 (reference_result a b)))).
Proof.
  intros Hc Hes Hp Hf Hok. set (e := Begin p (worker_thread (EvRequest io f))) in *.
  pose proof (finished_ensures _ _ _ _ _ _ Hf (request_serves _ io f) g eq_refl Hok) as (s & s' & x & y & Hs & Hs' & Ha & Hi & Hr).
  apply (crew_visits_app_r c [e]) in Hs, Hs'.
  assert (forall u, crew_visits c (e :: es) u -> wk_boot u = wk_boot (crew_state c)) as Hb.
  { intros u Hu. eapply crew_visits_setup in Hu as (_ & Hb & _); [exact Hb | | done]. constructor; [by apply request_event | done]. }
  exists s, x, y. rewrite <- (Hb s' Hs') at 2. split_and!; [done | done | by apply Hb | done | done].
Qed.

(** A fence in thread 0: not yet performed, or performed and the worker not active. *)
Definition fence_thread : Prog Worker (list Frame) :=
  r ← (_ ⇐ modify (fun w : Worker => w <| wk_active := false |>); mret (None : option Frame)); mret (option_list r).
Definition fencing (c : WorkerCrew) : Prop :=
  crew_threads c !! 0 = Some fence_thread \/
  (crew_threads c !! 0 = Some (Done (Ok [])) /\ wk_active (crew_state c) = false).

Lemma fence_thread_eq io f : fr_type f = MsgType.FENCE_ASSIGNMENT -> worker_thread (EvControl io f) = fence_thread.
Proof. intros Hf. cbn [worker_thread]. unfold control_thread. by rewrite Hf. Qed.

Lemma fencing_run es c :
  Forall worker_event es -> crew_ok c -> Forall (fun e => e <> Gone 0) es -> fencing c -> fencing (crew_run es c).
Proof.
  intros Hes. revert c. induction Hes as [| e es He Hes IH]; intros c Hok Hg Hf; [done |].
  inversion_clear Hg as [| ? ? Hg1 Hg2]. cbn [crew_run foldl]. apply IH; [apply (crew_ok_run [e] c); [by apply Forall_singleton | done] | done |].
  destruct (step_or_not e 0) as [-> | Hs].
  - destruct Hf as [Hf | [Hf Ha]]; cbn [crew_event]; rewrite Hf; [right | by right]. cbn. by rewrite lookup_insert_eq.
  - destruct Hf as [Hf | [Hf Ha]]; [left; by apply crew_other | right]. split; [by apply crew_other |].
    destruct e as [q u | q | q | g]; cbn [crew_event]; [| | | done];
      destruct (crew_threads c !! q) as [[x | B m k] |] eqn:Eq; try done. cbn [crew_state].
    assert (q <> 0) as Hq by congruence. pose proof (ok_requests c Hok q _ Eq Hq) as Hgu. rewrite <- Ha. by apply Hgu.
Qed.

(** While no activation begins, a worker that is not active stays so. *)
Lemma guarantees_sustains {S A} (R : S -> S -> Prop) (I : S -> Prop) (t : Prog S A) :
  (forall s s', R s s' -> I s -> I s') -> guarantees R t -> sustains I (fun _ => True) t.
Proof. intros HI. induction t as [x | B m k IH]; [done |]. intros H s Hs. destruct (H s) as [H1 H2]. split; [by eapply HI | by apply IH]. Qed.

Lemma fence_or_not e :
  (exists io f, e = EvControl io f /\ fr_type f = MsgType.FENCE_ASSIGNMENT) \/
  forall io f, e = EvControl io f -> fr_type f <> MsgType.FENCE_ASSIGNMENT.
Proof.
  destruct e as [io f | |]; [| by right ..]. destruct (decide (fr_type f = MsgType.FENCE_ASSIGNMENT)); [left; by eauto | right].
  by intros ? ? [= _ <-].
Qed.
Lemma inactive_sustained e :
  (forall io f, e = EvControl io f -> fr_type f <> MsgType.ACTIVATE_TARGET) ->
  sustains (fun w => wk_active w = false) (fun _ => True) (worker_thread e).
Proof.
  intros H. destruct (fence_or_not e) as [(io & f & -> & Hf) | Hn].
  - rewrite (fence_thread_eq io f Hf). by intros s Hs.
  - apply (guarantees_sustains same_active); [unfold same_active; congruence |]. apply worker_thread_active. by eauto.
Qed.

Lemma stays_inactive es c :
  Forall no_activation es -> Forall worker_event es -> wk_active (crew_state c) = false ->
  (forall p t, crew_threads c !! p = Some t -> sustains (fun w => wk_active w = false) (fun _ => True) t) ->
  forall s, crew_visits c es s -> wk_active s = false.
Proof.
  intros Hn He Ha Ht s (es1 & es2 & -> & ->). apply Forall_app in Hn as [Hn _]. apply Forall_app in He as [He _].
  eapply (crew_keeps (fun w => wk_active w = false)); [| done | done].
  rewrite Forall_forall in *. intros e Hin. specialize (Hn e Hin). specialize (He e Hin). destruct e as [p t | | |]; try done.
  destruct Hn as (ev & -> & Hev). by apply inactive_sustained.
Qed.

(** The checkpoint file while checkpoints are written: as it was, truncated, or a whole
    checkpoint. *)
Definition whole_write (e : WorkerEvent) : Prop := match e with EvRequest io _ => wio_short io = None | _ => True end.
Definition writes_whole (e : CrewEvent Worker (list Frame)) : Prop :=
  match e with Begin _ t => exists ev, t = worker_thread ev /\ whole_write ev | _ => True end.
Definition ambig_path (w : Worker) : string := "ambig_" +:+ to_string_u64 (wk_target w) +:+ ".out".
Definition withheld_path (w : Worker) : string := "activate_withheld_" +:+ to_string_u64 (wk_target w) +:+ ".out".
Definition whole_file (w : Worker) (old x : option bytes) : Prop :=
  x = old \/ x = Some [] \/ exists seq, u64 seq /\ x = Some (checkpoint_bytes (wk_session w) seq (wk_model_key w)).
Definition checkpointing (w w' : Worker) : Prop :=
  same_setup w w' /\ u64 (wk_committed_seq w') /\
  whole_file w (wk_fs w !! wk_state_path w) (wk_fs w' !! wk_state_path w).

Lemma checkpoint_length session seq model : length (checkpoint_bytes session seq model) = (29 + String.length model)%nat.
Proof. unfold checkpoint_bytes. rewrite length_app, checkpoint_body_length, le_bytes_length. lia. Qed.

Lemma overwrite_longer new old : (length old <= length new)%nat -> overwrite new old = new.
Proof. intros H. unfold overwrite. by rewrite drop_ge, app_nil_r. Qed.

Lemma whole_file_length w old x n :
  (length (default [] old) <= n)%nat -> (29 + String.length (wk_model_key w) <= n)%nat -> whole_file w old x -> (length (default [] x) <= n)%nat.
Proof.
  intros Ho Hn [-> | [-> | (seq & _ & ->)]]; [done | simpl; lia |].
  change (default [] (Some ?b)) with b. rewrite checkpoint_length. lia.
Qed.

Section checkpointing.
Context (w : Worker) (short : (length (default [] (wk_fs w !! wk_state_path w)) <= 29 + String.length (wk_model_key w))%nat).
Context (not_ambig : wk_state_path w <> ambig_path w) (not_withheld : wk_state_path w <> withheld_path w).

(** The other actions leave the file alone. *)
Definition same_file (u u' : Worker) : Prop :=
  same_setup u u' /\ (u64 (wk_committed_seq u) -> u64 (wk_committed_seq u')) /\
  (wk_target u = wk_target w -> wk_fs u' !! wk_state_path w = wk_fs u !! wk_state_path w).

Lemma sustains_same_file {A} (t : Prog Worker A) : guarantees same_file t -> sustains (checkpointing w) (fun _ => True) t.
Proof.
  apply guarantees_sustains. intros u u' (H1 & H2 & H3) (H4 & H5 & H6). split; [by etrans |]. split; [by apply H2 |].
  rewrite H3; [done |]. apply H4.
Qed.
Lemma sustains_then {A B} (t : Prog Worker A) (k : A -> Prog Worker B) :
  sustains (checkpointing w) (fun _ => True) t -> (forall a, sustains (checkpointing w) (fun _ => True) (k a)) ->
  sustains (checkpointing w) (fun _ => True) (t ≫= k).
Proof. intros Ht Hk. apply sustains_bind. eapply sustains_mono; [| exact Ht]. intros [a | e] _; [apply Hk | done]. Qed.

Lemma checkpoint_sustained io : wio_short io = None -> sustains (checkpointing w) (fun _ => True) (checkpoint_thread io).
Proof.
  intros Hs. unfold checkpoint_thread. apply sustains_atomic. intros u Hu. split; [done |]. cbn [gets snd].
  destruct Hu as (_ & Hseq & _). generalize (wk_committed_seq u), Hseq. clear u Hseq. intros seq Hseq.
  apply sustains_atomic. intros u Hu. destruct (wio_open io); [| done]. cbn [fst snd]. split.
  - destruct Hu as (Hsu & H2 & _). split; [by etrans |]. split; [done |]. right. left. cbn.
    destruct Hsu as (_ & _ & -> & _). apply lookup_insert_eq.
  - clear u Hu. intros u (Hsu & H2 & H3). split; [| done]. split; [by etrans |]. split; [done |]. right. right. exists seq. split; [done |].
    destruct Hsu as (_ & _ & Hp & Hse & Hm). cbn -[checkpoint_bytes]. rewrite Hs, Hp, Hse, Hm, lookup_insert_eq. f_equal. apply overwrite_longer.
    rewrite checkpoint_length. by eapply whole_file_length.
Qed.

Ltac solve_sustains :=
  repeat lazymatch goal with
  | |- sustains _ _ (mret _) => done
  | |- sustains _ _ (checkpoint_thread _) => by apply checkpoint_sustained
  | |- sustains _ _ (atomic _) => apply sustains_same_file, guarantees_atomic; intros ?; split_and!; [by repeat case_match .. | try done | try done]
  | |- sustains _ _ (mbind _ _) => apply sustains_then; [| intros ?]
  | |- sustains _ _ (let _ := _ in _) => cbv zeta
  | |- sustains _ _ (match ?x with _ => _ end) => destruct x
  end.

Lemma thread_sustained e :
  whole_write e -> sustains (checkpointing w) (fun _ => True) (worker_thread e).
Proof.
  intros Hs. assert (forall z, u64 (wrap64 z)) as Hwrap by (intros; apply Z.mod_pos_bound; lia).
  destruct e as [io f | io f | connects]; cbn [worker_thread]; unfold control_thread, request_thread, lost_thread, registration_thread;
    solve_sustains; unfold modify; cbn [fst]; first [intros _; apply Hwrap | destruct (wio_open io)]; try done;
    intros Ht; apply lookup_insert_ne; rewrite Ht; by apply not_eq_sym.
Qed.
End checkpointing.

(** * Theorems *)

(** The threads of the worker, run one at a time, are the steps of Worker: whatever the
    event, the code performed action by action with nothing in between leaves the state
    and sends the frames of [worker_step]; so what holds of the runs of Worker holds of
    the process when its threads do not overlap. *)
Theorem threads_alone_are_steps (e : WorkerEvent) (w : Worker) (p : Z) (ts : gmap Z (Prog Worker (list Frame))) :
  ts !! p = None -> let n := actions_alone (worker_thread e) w in
  finished p (worker_thread e) (mkCrew w ts) (replicate n (Step p)) (worker_step e w).2 /\
    crew_run (Begin p (worker_thread e) :: replicate n (Step p) ++ [Gone p]) (mkCrew w ts) = mkCrew (worker_step e w).1 ts.
Proof.
  intros Hp n. destruct (alone_finished p (worker_thread e) (mkCrew w ts) Hp) as (Hf & Hr). cbn [crew_state crew_threads] in *.
  by rewrite (worker_thread_agrees e w), worker_thread_alone in Hf, Hr.
Qed.

(** C37: A worker serves only while it is admitted, whatever its threads do.  A request whose
    thread ran among any other threads of the worker and was answered ok found the worker
    active at a moment between its arrival and its answer, and named the worker's boot;
    and the answer carries the reference result of its inputs, but for the first input
    0xDBAD, which the worker answers ok without a payload after it has severed its control
    connection. *)
Theorem worker_serves_under_threads (w : Worker) (es es' : list (CrewEvent Worker (list Frame))) (p : Z) (io : WorkerIo)
    (f : option Frame) (g : Frame) :
  Forall worker_event es -> Forall worker_event es' -> p <> 0 ->
  finished p (worker_thread (EvRequest io f)) (crew_run es (mkCrew w ∅)) es' (Ok [g]) -> frame_flag g fid_ok = true ->
  exists s a b, crew_visits (crew_run es (mkCrew w ∅)) (Begin p (worker_thread (EvRequest io f)) :: es') s /\
    wk_active s = true /\ request_inputs f = Ok (a, b, wk_boot w) /\
    (a = 0xDBAD \/ exists fs, payload_reader (fr_payload g) = Ok fs /\
       p_bytes fs fid_payload = Ok (string_bytes (to_string_u64 (reference_result a b)))).
Proof.
  intros Hes Hes' Hp Hf Hok. assert (crew_ok (crew_run es (mkCrew w ∅))) as Hc by (apply crew_ok_run; [done | apply crew_ok_boot]).
  destruct (served_meanwhile _ _ _ _ _ _ Hc Hes' Hp Hf Hok) as (s & a & b & Hv & Ha & Hb & Hi & Hr). exists s, a, b.
  destruct (crew_setup es (mkCrew w ∅) Hes (crew_ok_boot w)) as (_ & Hbw & _). rewrite Hbw in Hi. done.
Qed.

(** C17: A fence holds against every request that comes after it.  Once the worker's control
    thread has handled FENCE_ASSIGNMENT, and as long as no ACTIVATE_TARGET arrives, the
    worker is not active, and a request that arrives is not answered ok, whatever the
    threads that were running when the fence came still do. *)
Theorem fence_stops_new_requests (w : Worker) (es es1 es2 es3 : list (CrewEvent Worker (list Frame))) (p : Z)
    (io io' : WorkerIo) (fence : Frame) (f : option Frame) (x : result (list Frame)) (g : Frame) :
  Forall worker_event (es ++ es1 ++ es2 ++ es3) -> fr_type fence = MsgType.FENCE_ASSIGNMENT -> p <> 0 ->
  Forall no_activation (es2 ++ es3) ->
  let c := crew_run es (mkCrew w ∅) in
  let c' := crew_run (Begin 0 (worker_thread (EvControl io fence)) :: es1) c in
  finished 0 (worker_thread (EvControl io fence)) c es1 x ->
  finished p (worker_thread (EvRequest io' f)) (crew_run es2 c') es3 (Ok [g]) ->
  (forall s, crew_visits c' (es2 ++ Begin p (worker_thread (EvRequest io' f)) :: es3) s -> wk_active s = false) /\ frame_flag g fid_ok = false.
Proof.
  intros Hes Hfe Hp Hn c c' Hf Hq. apply Forall_app in Hes as [He [He1 He23]%Forall_app].
  assert (crew_ok c) as Hok by (apply crew_ok_run; [done | apply crew_ok_boot]).
  assert (worker_event (Begin 0 (worker_thread (EvControl io fence)))) as Hb by (by eexists).
  destruct Hf as (Hf0 & Hf1 & Hf2). change (crew_run es1 _) with c' in Hf2.
  assert (crew_ok c') as Hok' by (apply crew_ok_run; [by constructor | done]).
  assert (wk_active (crew_state c') = false) as Ha.
  { destruct (fencing_run es1 (crew_event (Begin 0 (worker_thread (EvControl io fence))) c)) as [H | [_ H]]; [done | | done | | | exact H].
    - apply (crew_ok_run [Begin 0 (worker_thread (EvControl io fence))]); [by apply Forall_singleton | done].
    - left. cbn [crew_event]. rewrite Hf0. rewrite <- (fence_thread_eq io fence Hfe). apply lookup_insert_eq.
    - change (crew_run es1 _) with c' in H. rewrite Hf2 in H. done. }
  assert (forall s, crew_visits c' (es2 ++ [Begin p (worker_thread (EvRequest io' f))] ++ es3) s -> wk_active s = false) as Hall.
  { apply Forall_app in Hn as [Hn2 Hn3]. apply Forall_app in He23 as [He2 He3]. apply stays_inactive; [| | done |].
    - rewrite !Forall_app. split_and!; [done | | done]. apply Forall_singleton. by eexists.
    - rewrite !Forall_app. split_and!; [done | | done]. apply Forall_singleton. by apply request_event.
    - intros q t Ht. destruct (decide (q = 0)) as [-> | Hq0]; [rewrite Hf2 in Ht; by injection Ht as <- |].
      apply (guarantees_sustains same_active); [unfold same_active; congruence |]. by apply (ok_requests c' Hok' q t Ht). }
  split; [exact Hall |]. apply not_true_iff_false. intros Hflag.
  pose proof (finished_ensures _ _ _ _ _ _ Hq (request_serves _ io' f) g eq_refl Hflag) as (s & s' & ? & ? & Hs & _ & Hact & _).
  rewrite (Hall s) in Hact; [done |]. apply crew_visits_app_r. by apply (crew_visits_app_r _ [_]).
Qed.

(** No checkpoint is ever torn, but for one whose write fails half way.  While any number
    of threads write checkpoints, commit requests and handle commands, and no write stops
    half way, the checkpoint file is at every moment as it was at the start, empty, or a
    whole checkpoint of the worker's model, whose integrity and
    session a worker that is started again on it finds right.  The file at the start is no
    longer than a checkpoint of this worker, the numbers and the name of the model fit
    their fields, and the checkpoint's path is not that of a marker file. *)
Theorem checkpoint_never_torn (w : Worker) (es : list (CrewEvent Worker (list Frame))) (s : Worker) :
  Forall worker_event es ->
  Forall writes_whole es ->
  u64 (wk_committed_seq w) -> u64 (wk_session w) -> Z.of_nat (String.length (wk_model_key w)) < 2 ^ 32 ->
  (length (default [] (wk_fs w !! wk_state_path w)) <= 29 + String.length (wk_model_key w))%nat ->
  wk_state_path w <> ambig_path w -> wk_state_path w <> withheld_path w ->
  crew_visits (mkCrew w ∅) es s ->
  let file := wk_fs s !! wk_state_path w in
  file = wk_fs w !! wk_state_path w \/ (file = Some [] /\ load_checkpoint file (wk_session w) = LoadFailed) \/
  exists seq, load_checkpoint file (wk_session w) = Loaded seq (wk_model_key w) true true.
Proof.
  intros Hes Hio Hseq Hses Hm Hlen Ha Hwh (es1 & es2 & -> & ->). apply Forall_app in Hes as [Hes _]. apply Forall_app in Hio as [Hio _].
  destruct (crew_keeps (checkpointing w) es1 (mkCrew w ∅)) as [(_ & _ & Hf) _].
  - rewrite Forall_forall in *. intros e Hin. specialize (Hes e Hin). specialize (Hio e Hin). destruct e as [p t | | |]; try done.
    destruct Hio as (ev & -> & Hev). by apply thread_sustained.
  - split; [done |]. split; [done |]. by left.
  - intros p t Hp. cbn [crew_threads] in Hp. by rewrite lookup_empty in Hp.
  - destruct Hf as [-> | [-> | (seq & Hs & ->)]]; [by left | by right; left |]. right. right. exists seq.
    rewrite checkpoint_roundtrip by done. by rewrite Z.eqb_refl.
Qed.

(** * Witnesses *)

Module CrewWitness.
Import WorkerWitness.
(** An active worker with a state file, its sequence at 41. *)
Definition active : Worker := w1 <| wk_active := true |>.
Definition save_frame : Frame := frame MsgType.VERIFY_SERVICE [(fid_input_a, VU64 0xC0FFEE); (fid_input_b, VU64 11); (fid_boot, VU64 77)].
Definition asks (f : Frame) : Prog Worker (list Frame) := worker_thread (EvRequest io (Some f)).
Definition fence_frame : Frame := frame MsgType.FENCE_ASSIGNMENT [(fid_target, VU64 2)].
Definition steps (p : Z) (n : nat) : list (CrewEvent Worker (list Frame)) := replicate n (Step p).
Definition ended (p : Z) (c : WorkerCrew) : option (list Frame) :=
  match crew_threads c !! p with Some (Done (Ok l)) => Some l | _ => None end.
Definition reply (l : option (list Frame)) : Frame := match l with Some (g :: _) => g | _ => frame MsgType.ERROR_MSG [] end.
Definition oks (l : option (list Frame)) : bool := match l with Some [g] => frame_flag g fid_ok | _ => false end.
Definition file_seq (c : WorkerCrew) : option Z :=
  match load_checkpoint (wk_fs (crew_state c) !! wk_state_path active) (wk_session active) with Loaded s _ true true => Some s | _ => None end.

(** A request in thread 5. *)
Definition served_reply : Frame := reply (ended 5 (crew_run (Begin 5 (asks ask) :: steps 5 5) (mkCrew active ∅))).
Definition fenced : WorkerCrew := crew_run (Begin 0 (worker_thread (EvControl io fence_frame)) :: steps 0 1) (mkCrew active ∅).
Definition refused_reply : Frame := reply (ended 5 (crew_run (Begin 5 (asks ask) :: steps 5 4) (crew_run [Gone 0] fenced))).

(** A checkpoint in thread 1, up to the write. *)
Definition saving : list (CrewEvent Worker (list Frame)) := Begin 1 (asks save_frame) :: steps 1 7.
Definition after_save : Worker := crew_state (crew_run saving (mkCrew active ∅)).

Lemma steps_event p n : Forall worker_event (steps p n).
Proof. by apply Forall_replicate. Qed.
Lemma steps_stay p n : Forall (fun e => e <> Gone p) (steps p n).
Proof. by apply Forall_replicate. Qed.
End CrewWitness.

Lemma threads_alone_are_steps_witness :
  exists n, finished 5 (worker_thread WorkerWitness.request) (mkCrew CrewWitness.active ∅) (replicate n (Step 5))
              (worker_step WorkerWitness.request CrewWitness.active).2.
Proof. destruct (threads_alone_are_steps WorkerWitness.request CrewWitness.active 5 ∅ (lookup_empty 5)) as (H & _). by eexists. Defined.

Lemma worker_serves_under_threads_witness :
  exists s, wk_active s = true /\ crew_visits (mkCrew CrewWitness.active ∅)
    (Begin 5 (CrewWitness.asks WorkerWitness.ask) :: CrewWitness.steps 5 5) s.
Proof.
  destruct (worker_serves_under_threads CrewWitness.active [] (CrewWitness.steps 5 5) 5 WorkerWitness.io (Some WorkerWitness.ask)
              CrewWitness.served_reply) as (s & a & b & Hv & Ha & _).
  - by apply Forall_nil.
  - apply CrewWitness.steps_event.
  - lia.
  - split; [apply lookup_empty |]. split; [apply CrewWitness.steps_stay |]. vm_compute. reflexivity.
  - vm_compute. reflexivity.
  - by exists s.
Defined.

Lemma fence_stops_new_requests_witness : frame_flag CrewWitness.refused_reply fid_ok = false.
Proof.
  refine (proj2 (fence_stops_new_requests CrewWitness.active [] (CrewWitness.steps 0 1) [Gone 0] (CrewWitness.steps 5 4) 5
             WorkerWitness.io WorkerWitness.io CrewWitness.fence_frame (Some WorkerWitness.ask) (Ok []) _ _ _ _ _ _ _)).
  - repeat (apply Forall_cons; split; [done |]). by apply Forall_nil.
  - vm_compute. reflexivity.
  - lia.
  - repeat (apply Forall_cons; split; [done |]). by apply Forall_nil.
  - split; [apply lookup_empty |]. split; [apply CrewWitness.steps_stay |]. vm_compute. reflexivity.
  - split; [vm_compute; reflexivity |]. split; [apply CrewWitness.steps_stay |]. vm_compute. reflexivity.
Defined.

Lemma checkpoint_never_torn_witness :
  exists seq, load_checkpoint (wk_fs CrewWitness.after_save !! wk_state_path CrewWitness.active) (wk_session CrewWitness.active) =
    Loaded seq (wk_model_key CrewWitness.active) true true.
Proof.
  destruct (checkpoint_never_torn CrewWitness.active CrewWitness.saving CrewWitness.after_save) as [_ | [[_ H] | H]].
  - apply Forall_cons. split; [by eexists | apply CrewWitness.steps_event].
  - apply Forall_cons. split; [by eexists | by apply Forall_replicate].
  - vm_compute. split; congruence.
  - vm_compute. split; congruence.
  - vm_compute. reflexivity.
  - vm_compute. lia.
  - vm_compute. discriminate.
  - vm_compute. discriminate.
  - exists CrewWitness.saving, []. split; [symmetry; apply app_nil_r | reflexivity].
  - eexists. vm_compute. reflexivity.
  - vm_compute in H. discriminate.
  - exact H.
Defined.

(** Two checkpoints that overlap can leave the older one: a thread loads the sequence, the
    worker commits a request and another thread checkpoints and acknowledges the newer
    sequence, then the first thread writes the sequence it had loaded.  All three
    requests are answered ok, and the file says 41 where it had said 42, which is the
    sequence the worker has committed. *)
Theorem checkpoint_can_regress :
  let c0 := crew_run (Begin 1 (CrewWitness.asks CrewWitness.save_frame) :: CrewWitness.steps 1 5) (mkCrew CrewWitness.active ∅) in
  let c1 := crew_run (Begin 2 (CrewWitness.asks WorkerWitness.ask) :: CrewWitness.steps 2 5) c0 in
  let c2 := crew_run (Begin 3 (CrewWitness.asks CrewWitness.save_frame) :: CrewWitness.steps 3 8) c1 in
  let c3 := crew_run (CrewWitness.steps 1 3) c2 in
  CrewWitness.oks (CrewWitness.ended 2 c1) = true /\ CrewWitness.oks (CrewWitness.ended 3 c2) = true /\
  CrewWitness.file_seq c2 = Some 42 /\ CrewWitness.oks (CrewWitness.ended 1 c3) = true /\
  CrewWitness.file_seq c3 = Some 41 /\ wk_committed_seq (crew_state c3) = 42.
Proof. vm_compute. split_and!; reflexivity. Qed.

(** A fence does not recall what is being served: a request that has found the worker active
    is answered ok after the fence is handled.  The coordinator's gate refuses its
    result. *)
Theorem fence_does_not_recall :
  let c0 := crew_run (Begin 5 (CrewWitness.asks WorkerWitness.ask) :: CrewWitness.steps 5 3) (mkCrew CrewWitness.active ∅) in
  let c1 := crew_run (Begin 0 (worker_thread (EvControl WorkerWitness.io CrewWitness.fence_frame)) :: CrewWitness.steps 0 1) c0 in
  let c2 := crew_run (CrewWitness.steps 5 2) c1 in
  CrewWitness.ended 5 c1 = None /\ wk_active (crew_state c1) = false /\ CrewWitness.oks (CrewWitness.ended 5 c2) = true.
Proof. vm_compute. split_and!; reflexivity. Qed.

(** A registration can tell a checkpoint generation and a sequence that do not belong
    together: [send_registration] loads the sequence once for each, and a request
    committed in between makes the generation 42 where the sequence is 42 too, instead of
    its successor. *)
Theorem registration_can_mismatch :
  let w := CrewWitness.active <| wk_reconnect := true |> in
  let c0 := crew_run (Begin 0 (worker_thread (EvLost (fun _ => true))) :: CrewWitness.steps 0 6) (mkCrew w ∅) in
  let c1 := crew_run (Begin 5 (CrewWitness.asks WorkerWitness.ask) :: CrewWitness.steps 5 5) c0 in
  let c2 := crew_run (CrewWitness.steps 0 2) c1 in
  match CrewWitness.ended 0 c2 with
  | Some [hello; ready] =>
    (fs ← payload_reader (fr_payload ready); g ← p_u64 fs fid_checkpoint_gen; n ← p_u64 fs fid_committed_seq; Ok (g, n)) = Ok (42, 42)
  | _ => False
  end.
Proof. vm_compute. reflexivity. Qed.
