(* ===== verification/CudaWorker.v ===== *)
(** The CUDA worker process (cuda/cuda_worker_main.cu): the kernel, the calls of the CUDA
    runtime around it, registration, the control loop and the request loop; and that it is
    the CPU worker of Worker, for a device that works.

    The CUDA runtime is a parameter, the class [CudaRuntime]: what each of its calls does to
    the device.  [CudaLaws] states what is relied on of a device that works: a launched
    kernel has run on the device's memory when the device is synchronized, and a copy
    reads that memory. *)

From stdpp Require Import base list gmap strings pretty.
From Stdlib Require Import ZArith Lia.
From S2P Require Import Prelude Identities Types Double Bytes Model Codec Persistence Protocol Wire Worker.

Open Scope Z_scope.

(** * The runtime *)

(** Device memory, by address, in words of 64 bits. *)
Notation DevMem := (gmap Z Z).

(** The calls of the runtime on a device [D]; [true] is [cudaSuccess].  [cuda_memcpy p h] is
    the copy of the word at [p] over the host's word [h], which may fail in any way. *)
Class CudaRuntime (D : Type) := {
  cuda_set_device : Z -> D -> D * bool;
  cuda_malloc : Z -> D -> D * option Z;
  cuda_launch : (DevMem -> DevMem) -> D -> D;
  cuda_get_last_error : D -> D * bool;
  cuda_synchronize : D -> D * bool;
  cuda_memcpy : Z -> Z -> D -> D * Z;
  cuda_free : Z -> D -> D }.

Class CudaLaws (D : Type) `{Cuda : CudaRuntime D} := {
  works : D -> Prop;
  dev_mem : D -> DevMem;
  law_malloc n d : works d -> exists d' p, cuda_malloc n d = (d', Some p) /\ works d';
  law_launch k d : works d -> works (cuda_launch k d) /\ dev_mem (cuda_launch k d) = k (dev_mem d);
  law_last_error d : works d -> exists d', cuda_get_last_error d = (d', true) /\ works d' /\ dev_mem d' = dev_mem d;
  law_synchronize d : works d -> exists d', cuda_synchronize d = (d', true) /\ works d' /\ dev_mem d' = dev_mem d;
  law_memcpy p h v d : works d -> dev_mem d !! p = Some v -> exists d', cuda_memcpy p h d = (d', v) /\ works d';
  law_free p d : works d -> works (cuda_free p d) }.

(** * The kernel *)

Definition accum_step (a b acc i : Z) : Z :=
  Z.land (wrap64 (wrap64 (wrap64 (acc * 31) + wrap64 (a * i)) + wrap64 (b * (i + 1)))) 0x3FFFFFFF.
Definition reference_accum (out a b steps : Z) (m : DevMem) : DevMem :=
  let acc := foldl (accum_step a b) 0 (seqZ 0 steps) in
  <[ out := Z.land acc 0x3FFFFFFF ]> m.

Section cuda.
Context {D : Type} `{Cuda : CudaRuntime D}.

Definition cuda_reference (a b : Z) (d : D) : D * Z :=
  let host := 0 in
  match cuda_malloc 8 d with
  | (d, None) => (d, 0)
  | (d, Some dev) =>
    let steps := 32 in
    let d := cuda_launch (reference_accum dev a b steps) d in
    let '(d, e) := cuda_get_last_error d in
    let '(d, e) := if (e : bool) then cuda_synchronize d else (d, e) in
    let '(d, host) := if (e : bool) then cuda_memcpy dev host d else (d, host) in
    (cuda_free dev d, host)
  end.

(** * Arguments *)

Record CudaArgs : Type := mkCudaArgs
  { cua_coord_host : string; cua_coord_port : Z; cua_port : Z; cua_target : Z; cua_boot : Z }.
#[export] Instance CudaArgs_eta : Eta CudaArgs := fun a =>
  mkCudaArgs (cua_coord_host a) (cua_coord_port a) (cua_port a) (cua_target a) (cua_boot a).
Definition cuda_args_default : CudaArgs := mkCudaArgs "127.0.0.1" 0 0 1 1.

(** The loop moves by one argument: the value of an option is looked at as an option too. *)
Fixpoint cuda_args (argv : list string) (a : CudaArgs) : CudaArgs :=
  match argv with
  | k :: ((v :: _) as rest) =>
    cuda_args rest
      (if String.eqb k "--coordinator" then a <| cua_coord_host := (parse_endpoint v).1 |> <| cua_coord_port := (parse_endpoint v).2 |>
       else if String.eqb k "--port" then a <| cua_port := parse_u16 v |>
       else if String.eqb k "--target" then a <| cua_target := parse_u64 v |>
       else if String.eqb k "--boot" then a <| cua_boot := parse_u64 v |>
       else a)
  | _ => a
  end.

(** * State and registration *)

Record CudaWorker : Type := mkCudaWorker
  { cu_target : Z; cu_boot : Z; cu_active : bool; cu_ctrl_open : bool; cu_fs : FileSystem; cu_dev : D }.
#[export] Instance CudaWorker_eta : Eta CudaWorker := fun w =>
  mkCudaWorker (cu_target w) (cu_boot w) (cu_active w) (cu_ctrl_open w) (cu_fs w) (cu_dev w).

Definition cuda_hello (a : CudaArgs) (actual_port : Z) : result Frame :=
  message MsgType.HELLO 1 0
    [ (fid_role, VU8 kRoleWorker); (fid_target, VU64 (cua_target a)); (fid_boot, VU64 (cua_boot a)); (fid_req_port, VU64 actual_port) ].
Definition cuda_readiness (a : CudaArgs) : result Frame :=
  message MsgType.PUBLISH_READINESS 2 0
    [ (fid_target, VU64 (cua_target a)); (fid_boot, VU64 (cua_boot a)); (fid_ready, VBool true);
      (fid_model, VStr "ref-det-sequence-v1"); (fid_abi, VStr "ff-ref-v1"); (fid_capacity, VF64 double_1) ].

(** Up to the two loops, with the port of the listening socket and whether the coordinator
    is reached; [None] is the exit with status 1.  The result of the warm-up is unused. *)
Definition cuda_start (a : CudaArgs) (listens : option Z) (connects : bool) (fs : FileSystem) (d : D)
    : option (CudaWorker * result (list Frame)) :=
  let '(d, ok) := cuda_set_device 0 d in
  if negb ok then None
  else match listens with
  | None => None
  | Some port =>
    if negb connects then None
    else
      let '(d, warm) := cuda_reference 1 2 d in
      Some (mkCudaWorker (cua_target a) (cua_boot a) false true fs d, h ← cuda_hello a port; r ← cuda_readiness a; Ok [h; r])
  end.

(** * The two loops *)

Definition cuda_control (f : Frame) : ST CudaWorker (option Frame) := fun w =>
  match fr_type f with
  | MsgType.ACTIVATE_TARGET =>
    (w <| cu_active := true |>,
     f ← message MsgType.ACTIVATE_RESULT (fr_msg_id f) (fr_epoch f) [(fid_ok, VBool true)]; Ok (Some f))
  | MsgType.FENCE_ASSIGNMENT => (w <| cu_active := false |>, Ok None)
  | _ => (w, Ok None)
  end.

Definition cuda_request (io : WorkerIo) (f : option Frame) : ST CudaWorker (option Frame) := fun w =>
  match request_inputs f with
  | Throw e => (w, Throw e)
  | Ok (a, b, req_boot) =>
    let reply l := execution_result (match f with Some f => fr_msg_id f | None => 0 end)
                                    (match f with Some f => fr_epoch f | None => 0 end) l in
    if cu_active w && Z.eqb req_boot (cu_boot w) then
      if Z.eqb a 0xDBAD then
        let '(d, gpu) := cuda_reference a b (cu_dev w) in
        (w <| cu_ctrl_open := false |> <| cu_dev := d |>, reply [(fid_ok, VBool true)])
      else if Z.eqb a 0xBEEF then
        let '(d, gpu) := cuda_reference (Z.land a 0xFFFFFFFFFFFF) b (cu_dev w) in
        let path := "ambig_" +:+ to_string_u64 (cu_target w) +:+ ".out" in
        let w := w <| cu_dev := d |> in
        (if wio_open io then w <| cu_fs := <[ path := string_bytes (to_string_u64 gpu) ++ [10] ]> (cu_fs w) |> else w, Ok None)
      else
        let '(d, gpu) := cuda_reference a b (cu_dev w) in
        let cpu := reference_result a b in
        let parity := Z.eqb gpu cpu in
        (w <| cu_dev := d |>,
         reply [(fid_ok, VBool parity); (fid_payload, VBytes (string_bytes (to_string_u64 gpu)))])
    else (w, reply [(fid_ok, VBool false); (fid_detail, VStr "not active or stale boot")])
  end.

(** The worker as a machine over the events of Worker.  A lost connection ends the control
    loop. *)
Definition cuda_step (e : WorkerEvent) : ST CudaWorker (list Frame) :=
  match e with
  | EvControl io f => r ← cuda_control f; mret (option_list r)
  | EvRequest io f => r ← cuda_request io f; mret (option_list r)
  | EvLost _ => mret []
  end.
Fixpoint cuda_run (es : list WorkerEvent) : ST CudaWorker (list (list Frame)) :=
  match es with
  | [] => mret []
  | e :: es => out ← cuda_step e; outs ← cuda_run es; mret (out :: outs)
  end.
End cuda.
Fixpoint worker_run (es : list WorkerEvent) : ST Worker (list (list Frame)) :=
  match es with
  | [] => mret []
  | e :: es => out ← worker_step e; outs ← worker_run es; mret (out :: outs)
  end.
Arguments CudaWorker : clear implicits.
Arguments mkCudaWorker {D} _ _ _ _ _ _.

(** * Lemmas *)

Lemma foldl_agree {A B} (f g : A -> B -> A) (l : list B) x :
  Forall (fun b => forall a, f a b = g a b) l -> foldl f x l = foldl g x l.
Proof. intros H. revert x. induction H as [| b l Hb _ IH]; intros x; [done |]. cbn [foldl]. by rewrite Hb. Qed.

(** The kernel computes the reference result. *)
Lemma accum_reference a b : Z.land (foldl (accum_step a b) 0 (seqZ 0 32)) 0x3FFFFFFF = reference_result a b.
Proof.
  assert (foldl (accum_step a b) 0 (seqZ 0 32) = reference_result a b) as ->.
  { apply foldl_agree, Forall_forall. intros i Hi%elem_of_seqZ acc. unfold accum_step, reference_step.
    assert (wrap64 (i + 1) = i + 1) as ->; [apply Z.mod_small; lia | done]. }
  change 0x3FFFFFFF with (Z.ones 30). rewrite Z.land_ones, reference_result_mod by lia. apply Z.mod_mod. lia.
Qed.

Lemma cuda_reference_works {D} `{Laws : CudaLaws D} a b (d : D) :
  works d -> exists d', cuda_reference a b d = (d', reference_result a b) /\ works d'.
Proof.
  intros Hd. unfold cuda_reference. destruct (law_malloc 8 d Hd) as (d1 & p & -> & H1).
  destruct (law_launch (reference_accum p a b 32) d1 H1) as [H2 Hm].
  destruct (law_last_error _ H2) as (d2 & -> & H3 & Hm3). destruct (law_synchronize _ H3) as (d3 & -> & H4 & Hm4).
  destruct (law_memcpy p 0 (reference_result a b) d3 H4) as (d4 & -> & H5).
  { rewrite Hm4, Hm3, Hm. unfold reference_accum. rewrite accum_reference. apply lookup_insert_eq. }
  exists (cuda_free p d4). split; [done | by apply law_free].
Qed.

(** The CPU worker that the CUDA worker stands for: started without options. *)
Record stands_for {D} `{Laws : CudaLaws D} (c : CudaWorker D) (w : Worker) : Prop := {
  sf_target : cu_target c = wk_target w;
  sf_boot : cu_boot c = wk_boot w;
  sf_active : cu_active c = wk_active w;
  sf_ctrl : cu_ctrl_open c = wk_ctrl_open w;
  sf_fs : cu_fs c = wk_fs w;
  sf_stateless : wk_state_path w = ""%string;
  sf_no_withhold : wk_withhold w = false;
  sf_no_reconnect : wk_reconnect w = false;
  sf_works : works (cu_dev c) }.

Lemma control_simulated {D} `{Laws : CudaLaws D} io f (c : CudaWorker D) w :
  stands_for c w ->
  (cuda_control f c).2 = (worker_control io f w).2 /\ stands_for (cuda_control f c).1 (worker_control io f w).1.
Proof.
  intros []. unfold cuda_control, worker_control.
  destruct (fr_type f); try (split; [done |]; by constructor).
  change (wk_withhold (w <| wk_active := true |>)) with (wk_withhold w). rewrite sf_no_withhold0. cbn [andb].
  split; [done |]. by constructor.
Qed.

Lemma request_simulated {D} `{Laws : CudaLaws D} io f (c : CudaWorker D) w :
  stands_for c w ->
  (cuda_request io f c).2 = (worker_request io f w).2 /\ stands_for (cuda_request io f c).1 (worker_request io f w).1.
Proof.
  intros Hs. destruct Hs as [Ht Hb Ha Hc Hf Hp Hw Hr Hd]. unfold cuda_request, worker_request.
  destruct (request_inputs f) as [[[a b] boot] | e]; [| split; [done |]; by constructor]. cbv zeta. rewrite Ha, Hb.
  destruct (wk_active w && Z.eqb boot (wk_boot w)); [| split; [done |]; by constructor].
  destruct (Z.eqb a 0xDBAD).
  { destruct (cuda_reference_works a b _ Hd) as (d & -> & Hd'). split; [done |]. by constructor. }
  destruct (Z.eqb a 0xBEEF).
  { destruct (cuda_reference_works (Z.land a 0xFFFFFFFFFFFF) b _ Hd) as (d & -> & Hd').
    rewrite Ht. destruct (wio_open io); split; try done; constructor; try done. cbn. by rewrite Hf. }
  destruct (cuda_reference_works a b _ Hd) as (d & -> & Hd'). rewrite Z.eqb_refl.
  unfold wk_stateful. rewrite Hp, (reference_result_mask a b). generalize (reference_result a b). intros z. cbn [String.eqb negb].
  destruct (Z.eqb a 0xC0FFEE); (split; [done |]; by constructor).
Qed.

Lemma step_simulated {D} `{Laws : CudaLaws D} e (c : CudaWorker D) w :
  stands_for c w -> (cuda_step e c).2 = (worker_step e w).2 /\ stands_for (cuda_step e c).1 (worker_step e w).1.
Proof.
  intros Hs. destruct e as [io f | io f | connects]; cbn [cuda_step worker_step]; unfold mbind, st_bind.
  - destruct (control_simulated io f c w Hs) as [He Hs'].
    destruct (cuda_control f c) as [c' x], (worker_control io f w) as [w' y]. cbn [fst snd] in *. subst y. by destruct x.
  - destruct (request_simulated io f c w Hs) as [He Hs'].
    destruct (cuda_request io f c) as [c' x], (worker_request io f w) as [w' y]. cbn [fst snd] in *. subst y. by destruct x.
  - unfold worker_lost. rewrite (sf_no_reconnect _ _ Hs). by split.
Qed.

(** An ok answer of the request loop, for any device. *)
Lemma cuda_request_ok {D} `{Cuda : CudaRuntime D} io f (c c' : CudaWorker D) g :
  cuda_request io f c = (c', Ok (Some g)) -> frame_flag g fid_ok = true ->
  exists a b, request_inputs f = Ok (a, b, cu_boot c) /\ cu_active c = true /\
    (a = 0xDBAD \/ exists fs, payload_reader (fr_payload g) = Ok fs /\
       p_bytes fs fid_payload = Ok (string_bytes (to_string_u64 (reference_result a b)))).
Proof.
  unfold cuda_request. destruct (request_inputs f) as [[[a b] boot] | e] eqn:Ei; [| done]. cbv zeta.
  unfold execution_result, mbind, result_bind. intros H Hok. exists a, b.
  destruct (cu_active c && Z.eqb boot (cu_boot c)) eqn:Hadm; cycle 1.
  { destruct (message _ _ _ _) as [x |] eqn:E; [| done]. injection H as _ <-. apply reply_ok_fields in E. congruence. }
  apply andb_true_iff in Hadm as [Hact Hboot%Z.eqb_eq]. subst boot. split; [done |]. split; [done |].
  destruct (Z.eqb_spec a 0xDBAD) as [-> |]; [by left | right]. destruct (Z.eqb_spec a 0xBEEF) as [-> |].
  { destruct (cuda_reference _ _ _). done. }
  destruct (cuda_reference a b (cu_dev c)) as [d gpu].
  destruct (message _ _ _ _) as [x |] eqn:E; [| done]. injection H as _ <-.
  pose proof (reply_ok_fields _ _ _ _ _ _ E) as Hpar. rewrite Hok in Hpar. symmetry in Hpar. apply Z.eqb_eq in Hpar. subst gpu.
  eexists. split; [eapply message_fields, E |]. apply p_bytes_reads; [reflexivity | apply string_bytes_are_bytes].
Qed.

(** * Theorems *)

(** C36: The CUDA worker is the CPU worker.  On a device that works, a CUDA worker answers
    every sequence of control frames, requests and disconnections with the frames a CPU
    worker of the same target and boot, started without options, answers; it leaves the
    same files, and is admitted and connected exactly when that worker is. *)
Theorem cuda_worker_is_cpu_worker {D : Type} `{Laws : CudaLaws D} (es : list WorkerEvent) (c : CudaWorker D) (w : Worker) :
  stands_for c w ->
  (cuda_run es c).2 = (worker_run es w).2 /\ stands_for (cuda_run es c).1 (worker_run es w).1.
Proof.
  revert c w. induction es as [| e es IH]; intros c w Hs; [by split |]. cbn [cuda_run worker_run]. unfold mbind, st_bind.
  destruct (step_simulated e c w Hs) as [He Hs'].
  destruct (cuda_step e c) as [c1 x], (worker_step e w) as [w1 y]. cbn [fst snd] in *. subst y. destruct x as [out | ex]; [| by split].
  destruct (IH c1 w1 Hs') as [He2 Hs2]. destruct (cuda_run es c1) as [c2 x2], (worker_run es w1) as [w2 y2]. cbn [fst snd] in *.
  subst y2. by destruct x2.
Qed.

(** Whatever the device does, an ok answer of the CUDA worker was admitted, names its own
    boot and carries the reference result of the inputs (but for the one input that
    severs the control connection): the parity check lets nothing else through. *)
Theorem cuda_ok_is_reference {D : Type} `{Cuda : CudaRuntime D} (io : WorkerIo) (f : option Frame) (c c' : CudaWorker D) (g : Frame) :
  cuda_request io f c = (c', Ok (Some g)) -> frame_flag g fid_ok = true ->
  exists a b, request_inputs f = Ok (a, b, cu_boot c) /\ cu_active c = true /\
    (a = 0xDBAD \/ exists fs, payload_reader (fr_payload g) = Ok fs /\
       p_bytes fs fid_payload = Ok (string_bytes (to_string_u64 (reference_result a b)))).
Proof. apply cuda_request_ok. Qed.

(** A dead device is not noticed before it is asked for work: a worker whose device cannot
    allocate registers as ready all the same, since the result of the warm-up is dropped;
    and it passes the parity check on the inputs whose reference result is 0, the value
    [cuda_reference] returns for a failed call, and on no others. *)
Theorem dead_device_registers_ready {D : Type} `{Cuda : CudaRuntime D} (a : CudaArgs) (port : Z) (fs : FileSystem) (d : D) :
  (forall n d, (cuda_malloc n d).2 = None) -> (cuda_set_device 0 d).2 = true ->
  (exists w, cuda_start a (Some port) true fs d = Some (w, h ← cuda_hello a port; r ← cuda_readiness a; Ok [h; r])) /\
  (forall io f (c c' : CudaWorker D) g x y,
     cuda_request io f c = (c', Ok (Some g)) -> request_inputs f = Ok (x, y, cu_boot c) -> cu_active c = true -> x <> 0xDBAD ->
     frame_flag g fid_ok = bool_decide (reference_result x y = 0)).
Proof.
  intros Hm Hs. assert (forall x y d, (cuda_reference x y d).2 = 0) as Hz.
  { intros x y d'. unfold cuda_reference. specialize (Hm 8 d'). destruct (cuda_malloc 8 d') as [d1 [p |]]; done. }
  split.
  - unfold cuda_start. destruct (cuda_set_device 0 d) as [d1 ok]. cbn in Hs. subst ok.
    destruct (cuda_reference 1 2 d1) as [d2 warm]. by eexists.
  - intros io f c c' g x y Hr Hi Hact Hx. unfold cuda_request in Hr. rewrite Hi, Hact, Z.eqb_refl, (proj2 (Z.eqb_neq _ _) Hx) in Hr.
    cbn [andb] in Hr. destruct (Z.eqb x 0xBEEF); [by destruct (cuda_reference _ _ _) |].
    specialize (Hz x y (cu_dev c)). destruct (cuda_reference x y (cu_dev c)) as [d' gpu]. cbn in Hz. subst gpu.
    unfold execution_result, mbind, result_bind in Hr. destruct (message _ _ _ _) as [g' |] eqn:E; [| done]. injection Hr as _ <-.
    rewrite (reply_ok_fields _ _ _ _ _ _ E). generalize (reference_result x y). intros z.
    case_bool_decide; [by apply Z.eqb_eq | apply Z.eqb_neq; congruence].
Qed.

(** * Witnesses *)

Module CudaWitness.
(** A device that works: its memory, and the next free address. *)
#[export] Instance ideal : CudaRuntime (DevMem * Z) := {|
  cuda_set_device _ d := (d, true);
  cuda_malloc n d := ((d.1, d.2 + n), Some d.2);
  cuda_launch k d := (k d.1, d.2);
  cuda_get_last_error d := (d, true);
  cuda_synchronize d := (d, true);
  cuda_memcpy p h d := (d, default h (d.1 !! p));
  cuda_free p d := (delete p d.1, d.2) |}.
#[export] Program Instance ideal_laws : CudaLaws (DevMem * Z) := {| works _ := True; dev_mem := fst |}.
Next Obligation. intros n d _. by eexists _, _. Qed.
Next Obligation. done. Qed.
Next Obligation. intros d _. by eexists. Qed.
Next Obligation. intros d _. by eexists. Qed.
Next Obligation. intros p h v d _ Hv. exists d. cbn. by rewrite Hv. Qed.
Next Obligation. done. Qed.
(** A device that cannot allocate. *)
#[export] Instance dead : CudaRuntime unit := {|
  cuda_set_device _ d := (d, true);
  cuda_malloc _ d := (d, None);
  cuda_launch _ d := d;
  cuda_get_last_error d := (d, false);
  cuda_synchronize d := (d, false);
  cuda_memcpy _ h d := (d, h);
  cuda_free _ d := d |}.

Definition board : DevMem * Z := (∅, 8).
Definition args : CudaArgs := cuda_args ["--target"; "2"; "--boot"; "77"] cuda_args_default.
Definition new {D} (d : D) : CudaWorker D := mkCudaWorker 2 77 false true ∅ d.
Definition cpu : Worker :=
  mkWorker 2 77 4000 "" 0 false false false false 0 "ref-det-sequence-v1" true true ∅.
Definition run : list WorkerEvent := [WorkerWitness.activation; WorkerWitness.request; WorkerWitness.fence; WorkerWitness.request].
Definition active {D} `{CudaRuntime D} (d : D) : CudaWorker D := (cuda_run [WorkerWitness.activation] (new d)).1.
Definition answer {D} `{CudaRuntime D} (f : Frame) (d : D) : Frame :=
  match cuda_request WorkerWitness.io (Some f) (active d) with (_, Ok (Some g)) => g | _ => f end.
Definition zeros : Frame := WorkerWitness.frame MsgType.VERIFY_SERVICE [(fid_input_a, VU64 0); (fid_input_b, VU64 0); (fid_boot, VU64 77)].
End CudaWitness.
#[local] Existing Instances CudaWitness.ideal CudaWitness.ideal_laws CudaWitness.dead.

Lemma cuda_worker_is_cpu_worker_witness :
  (cuda_run CudaWitness.run (CudaWitness.new CudaWitness.board)).2 = (worker_run CudaWitness.run CudaWitness.cpu).2 /\
  (is_ok (worker_run CudaWitness.run CudaWitness.cpu).2 = true).
Proof.
  split; [| vm_compute; reflexivity].
  apply (cuda_worker_is_cpu_worker CudaWitness.run (CudaWitness.new CudaWitness.board) CudaWitness.cpu).
  constructor; reflexivity || exact I.
Defined.

Lemma cuda_ok_is_reference_witness :
  exists a b, request_inputs (Some WorkerWitness.ask) = Ok (a, b, 77).
Proof.
  destruct (cuda_ok_is_reference WorkerWitness.io (Some WorkerWitness.ask) (CudaWitness.active CudaWitness.board)
              (cuda_request WorkerWitness.io (Some WorkerWitness.ask) (CudaWitness.active CudaWitness.board)).1
              (CudaWitness.answer WorkerWitness.ask CudaWitness.board)) as (a & b & H & _).
  - vm_compute. reflexivity.
  - vm_compute. reflexivity.
  - exists a, b. exact H.
Defined.

Lemma dead_device_registers_ready_witness :
  frame_flag (CudaWitness.answer CudaWitness.zeros tt) fid_ok = true.
Proof.
  destruct (dead_device_registers_ready CudaWitness.args 4000 ∅ tt) as [_ H]; [reflexivity | reflexivity |].
  rewrite (H WorkerWitness.io (Some CudaWitness.zeros) (CudaWitness.active tt)
             (cuda_request WorkerWitness.io (Some CudaWitness.zeros) (CudaWitness.active tt)).1 _ 0 0).
  - vm_compute. reflexivity.
  - vm_compute. reflexivity.
  - vm_compute. reflexivity.
  - vm_compute. reflexivity.
  - discriminate.
Defined.
