(* ===== verification/Gateway.v ===== *)
(** The gateway process (gateway/gateway_main.cpp): the routes it was given, the control
    loop that installs them and verifies through them, and the handling of a client.

    A client is handled in a thread of its own while the control thread goes on, so every
    call to the coordinator or to a worker may find the gateway's state changed when it
    returns: the calls are the methods of [GatewayEnv] and act on the whole [GwRun].  An
    exception that leaves a thread function ends the process: it is a [Throw]. *)

From stdpp Require Import base list gmap strings pretty.
From Stdlib Require Import ZArith Lia.
From S2P Require Import Prelude Identities Types Double Bytes Model Codec Protocol Wire.

Open Scope Z_scope.

(** The global variables: the routes by slot number, the last epoch seen. *)
Record Gateway : Type := mkGateway { gw_routes : gmap Z WireRoute; gw_epoch : Z }.
#[export] Instance Gateway_eta : Eta Gateway := fun g => mkGateway (gw_routes g) (gw_epoch g).
Definition gateway_init : Gateway := mkGateway ∅ 0.

(** [std::map::begin]: the entry with the smallest key. *)
Definition map_begin {A} (m : gmap Z A) : option (Z * A) :=
  map_fold (fun k v acc => match acc with
                           | Some (k', _) => if Z.ltb k k' then Some (k, v) else acc
                           | None => Some (k, v)
                           end) None m.

Definition worker_transport_for (g : Gateway) (slot : Z) : string :=
  match gw_routes g !! slot with Some r => re_transport (wr_entry r) | None => ""%string end.

(** * The environment *)

(** What a connection to a worker gives: no connection, a failed send, the end of the
    stream instead of a frame, a frame. *)
Inductive WorkerReply : Type :=
  | Unreachable
  | SendFailed
  | NoResponse
  | Answer (f : Frame).

Record GwRun (W : Type) : Type := mkGwRun { gr_gateway : Gateway; gr_world : W }.
Arguments mkGwRun {W} _ _.
Arguments gr_gateway {W} _.
Arguments gr_world {W} _.

Class GatewayEnv (W : Type) := {
  (** [send_msg(g_rpc, ...)] and [recv_frame(g_rpc)] under [g_rpc_mutex]. *)
  coordinator_rpc : Frame -> GwRun W -> GwRun W * option Frame;
  (** [tcp_connect], [send_msg] and [recv_frame] on a new socket. *)
  worker_call : string -> Z -> Frame -> GwRun W -> GwRun W * WorkerReply }.

Section gateway.
Context {W : Type} `{Env : GatewayEnv W}.
Notation G := (ST (GwRun W)).

Definition rpc (f : Frame) : G (option Frame) := fun r => let '(r, x) := coordinator_rpc f r in (r, Ok x).
Definition call (host : string) (port : Z) (f : Frame) : G WorkerReply := fun r =>
  let '(r, x) := worker_call host port f r in (r, Ok x).
Definition epoch_now : G Z := gets (fun r => gw_epoch (gr_gateway r)).

(** The result, [ok] and [withheld]. *)
Definition compute_on_worker (route : WireRoute) (a b : Z) : G (bytes * bool * bool) :=
  let '(_, host, port) := parse_tcp_transport (re_transport (wr_entry route)) in
  ep ← epoch_now;
  f ← lift (message MsgType.VERIFY_SERVICE 1001 ep
        [ (fid_input_a, VU64 a); (fid_input_b, VU64 b); (fid_boot, VU64 (id_value (re_permitted_boot (wr_entry route))));
          (fid_operation, VStr "serve") ]);
  x ← call host port f;
  match x with
  | Unreachable | SendFailed => mret ([], false, false)
  | NoResponse => mret ([], false, true)
  | Answer resp =>
    if bool_decide (fr_type resp = MsgType.EXECUTION_RESULT) then
      fs ← lift (payload_reader (fr_payload resp));
      ok ← lift (flag fs fid_ok);
      res ← lift (if (ok : bool) then opt_field p_bytes fs fid_payload [] else Ok []);
      mret (res, ok, false)
    else mret ([], false, false)
  end.

(** [wok && result == std::to_string(reference_result(a, b))]. *)
Definition parity_ok (wok : bool) (result : bytes) (a b : Z) : bool :=
  wok && bool_decide (result = string_bytes (to_string_u64 (reference_result a b))).

(** The fields of the client's request, with their defaults. *)
Record ClientRequest : Type := mkClientRequest
  { cq_a : Z; cq_b : Z; cq_slot : Z; cq_service : Z; cq_idempotent : bool; cq_effectful : bool }.
Definition client_request (fs : list Field) : result ClientRequest :=
  a ← opt_field p_u64 fs fid_input_a 0;
  b ← opt_field p_u64 fs fid_input_b 0;
  slot ← opt_field p_u64 fs fid_slot 1;
  service ← opt_field p_u64 fs fid_service 1;
  idem ← flag fs fid_idempotent;
  eff ← flag fs fid_externally_effectful;
  Ok (mkClientRequest a b slot service idem eff).

(** The authority the coordinator grants for a dispatch. *)
Record DispatchGrant : Type := mkGrant
  { dg_epoch : Z; dg_epoch_id : Z; dg_epoch_boot : Z; dg_assignment : Z; dg_assignment_gen : Z; dg_route_gen : Z;
    dg_boot : Z; dg_incarnation : Z }.

(** The reply to AUTHORIZE_REQUEST: [None] unless it is one and says ok. *)
Definition read_grant (x : option Frame) : result (option DispatchGrant) :=
  match x with
  | None => Ok None
  | Some rr =>
    if bool_decide (fr_type rr = MsgType.AUTHORIZE_REQUEST) then
      q ← payload_reader (fr_payload rr);
      ok ← flag q fid_ok;
      if (ok : bool) then
        ep ← p_u64 q fid_epoch; ei ← p_u64 q fid_epoch_id; eb ← p_u64 q fid_epoch_boot; asg ← p_u64 q fid_assignment_id;
        ag ← p_u64 q fid_assignment_gen; rg ← p_u64 q fid_route_gen; bt ← p_u64 q fid_boot; inc ← p_u64 q fid_incarnation;
        Ok (Some (mkGrant ep ei eb asg ag rg bt inc))
      else Ok None
    else Ok None
  end.

(** The reply to AUTHORIZE_RESULT: whether it says ok, and its detail. *)
Definition read_decision (x : option Frame) : result (bool * string) :=
  match x with
  | None => Ok (false, ""%string)
  | Some rr =>
    if bool_decide (fr_type rr = MsgType.AUTHORIZE_RESULT) then
      q ← payload_reader (fr_payload rr);
      ok ← flag q fid_ok;
      detail ← opt_field p_str q fid_detail ""%string;
      Ok (ok, detail)
    else Ok (false, ""%string)
  end.

Definition authorize_request_fields (cq : ClientRequest) (msg_id : Z) : list (Z * Value) :=
  [ (fid_service, VU64 (cq_service cq)); (fid_slot, VU64 (cq_slot cq)); (fid_request_id, VU64 msg_id);
    (fid_idempotent, VBool (cq_idempotent cq)); (fid_externally_effectful, VBool (cq_effectful cq)) ].

Definition authorize_result_fields (cq : ClientRequest) (g : DispatchGrant) (msg_id : Z) (withheld : bool) : list (Z * Value) :=
  [ (fid_service, VU64 (cq_service cq)); (fid_slot, VU64 (cq_slot cq));
    (fid_epoch, VU64 (dg_epoch g)); (fid_epoch_id, VU64 (dg_epoch_id g)); (fid_epoch_boot, VU64 (dg_epoch_boot g));
    (fid_assignment_id, VU64 (dg_assignment g)); (fid_assignment_gen, VU64 (dg_assignment_gen g));
    (fid_route_gen, VU64 (dg_route_gen g)); (fid_boot, VU64 (dg_boot g)); (fid_incarnation, VU64 (dg_incarnation g));
    (fid_request_id, VU64 msg_id); (fid_execution_id, VU64 msg_id); (fid_withheld, VBool withheld) ].

(** The answer to the client: the detail "unknown" is written first, then the fields of
    the branch. *)
Definition client_reply (f : Frame) (l : list (Z * Value)) : G (option Frame) :=
  ep ← epoch_now;
  g ← lift (message MsgType.EXECUTION_RESULT (fr_msg_id f) ep ((fid_detail, VStr "unknown") :: l));
  mret (Some g).
Definition client_refused (f : Frame) (why : string) : G (option Frame) :=
  client_reply f [(fid_ok, VBool false); (fid_detail, VStr why)].

(** [handle_client]: what arrived on the connection, and the frame sent back. *)
Definition handle_client (x : option Frame) : G (option Frame) :=
  match x with
  | None => mret None
  | Some f =>
    fs ← lift (payload_reader (fr_payload f));
    cq ← lift (client_request fs);
    ep ← epoch_now;
    m1 ← lift (message MsgType.AUTHORIZE_REQUEST (fr_msg_id f) ep (authorize_request_fields cq (fr_msg_id f)));
    a1 ← rpc m1;
    grant ← lift (read_grant a1);
    match grant with
    | None => client_refused f "dispatch not authorized"
    | Some g =>
      route ← gets (fun r => gw_routes (gr_gateway r) !! cq_slot cq);
      match route with
      | None => client_refused f "no route installed"
      | Some route =>
        c ← compute_on_worker route (cq_a cq) (cq_b cq);
        let '(res, wok, withheld) := c in
        ep ← epoch_now;
        m2 ← lift (message MsgType.AUTHORIZE_RESULT (fr_msg_id f) ep (authorize_result_fields cq g (fr_msg_id f) withheld));
        a2 ← rpc m2;
        d ← lift (read_decision a2);
        let '(res_ok, res_detail) := d in
        let parity := parity_ok wok res (cq_a cq) (cq_b cq) in
        client_reply f
          ([(fid_ok, VBool (res_ok && parity && negb withheld)); (fid_state, VBool parity)] ++
           (if String.eqb res_detail "" then [] else [(fid_detail, VStr res_detail)]) ++
           (if bool_decide (res = []) then [] else [(fid_payload, VBytes res)]))
      end
    end
  end.

(** The control loop, one frame, and the frame sent back. *)
Definition gateway_control (f : Frame) : G (option Frame) :=
  _ ← modify (fun r => mkGwRun (gr_gateway r <| gw_epoch := fr_epoch f |>) (gr_world r));
  match fr_type f with
  | MsgType.INSTALL_ROUTE =>
    fs ← lift (payload_reader (fr_payload f));
    re ← lift (decode_route_entry fs);
    _ ← modify (fun r => mkGwRun (gr_gateway r <| gw_routes :=
            <[ id_value (sk_slot (re_slot (wr_entry re))) := re ]> (gw_routes (gr_gateway r)) |>) (gr_world r));
    g ← lift (message MsgType.ROUTE_ACK (fr_msg_id f) (fr_epoch f) [(fid_ok, VBool true)]);
    mret (Some g)
  | MsgType.VERIFY_SERVICE =>
    fs ← lift (payload_reader (fr_payload f));
    a ← lift (p_u64 fs fid_input_a);
    b ← lift (p_u64 fs fid_input_b);
    first ← gets (fun r => map_begin (gw_routes (gr_gateway r)));
    c ← (match first with
         | Some (_, route) => compute_on_worker route a b
         | None => mret ([], false, false)
         end);
    let '(res, wok, _) := c in
    g ← lift (message MsgType.VERIFY_SERVICE (fr_msg_id f) (fr_epoch f)
          ((fid_ok, VBool (parity_ok wok res a b)) :: if bool_decide (res = []) then [] else [(fid_payload, VBytes res)]));
    mret (Some g)
  | _ => mret None
  end.

End gateway.

(** The arguments: the loop stops before the last one, and looks at each argument in turn,
    values included. *)
Record GatewayArgs : Type := mkGatewayArgs
  { ga_coord_host : string; ga_coord_port : Z; ga_port : Z; ga_boot : Z }.
#[export] Instance GatewayArgs_eta : Eta GatewayArgs := fun a =>
  mkGatewayArgs (ga_coord_host a) (ga_coord_port a) (ga_port a) (ga_boot a).
Definition gateway_args_default : GatewayArgs := mkGatewayArgs "127.0.0.1" 0 0 1.
Fixpoint gateway_args (argv : list string) (a : GatewayArgs) : GatewayArgs :=
  match argv with
  | k :: ((v :: _) as rest) =>
    gateway_args rest
      (if String.eqb k "--coordinator"
       then a <| ga_coord_host := (parse_endpoint v).1 |> <| ga_coord_port := (parse_endpoint v).2 |>
       else if String.eqb k "--port" then a <| ga_port := parse_u16 v |>
       else if String.eqb k "--boot" then a <| ga_boot := parse_u64 v |>
       else a)
  | _ => a
  end.

(** The two messages the gateway opens its connections with. *)
Definition gateway_hello (boot : Z) : result (Frame * Frame) :=
  h1 ← message MsgType.HELLO 1 0 [(fid_role, VU8 kRoleGateway); (fid_boot, VU64 boot)];
  h2 ← message MsgType.HELLO 2 0 [(fid_role, VU8 kRoleClient); (fid_boot, VU64 boot)];
  Ok (h1, h2).

(** * Lemmas *)

Lemma map_begin_spec {A} (m : gmap Z A) :
  match map_begin m with
  | None => m = ∅
  | Some (k, v) => m !! k = Some v /\ forall k' v', m !! k' = Some v' -> k <= k'
  end.
Proof.
  unfold map_begin. apply (map_fold_weak_ind (fun acc m => match acc with
    | None => m = ∅ | Some (k, v) => m !! k = Some v /\ forall k' v', m !! k' = Some v' -> k <= k' end)); [done |].
  intros i x m' [[k v] |] Hi IH; cycle 1.
  { subst m'. split; [apply lookup_insert_eq |]. intros k' v' [[<- _] | [_ H]]%lookup_insert_Some; [lia |]. by rewrite lookup_empty in H. }
  destruct IH as [Hk Hmin]. destruct (Z.ltb_spec i k).
  - split; [apply lookup_insert_eq |]. intros k' v' [[<- _] | [_ H']]%lookup_insert_Some; [lia |]. apply Hmin in H'. lia.
  - split; [rewrite lookup_insert_ne; [done | congruence] |].
    intros k' v' [[<- _] | [_ H']]%lookup_insert_Some; [lia |]. by eapply Hmin.
Qed.

Section lemmas.
Context {W : Type} `{Env : GatewayEnv W}.
Implicit Types (r : GwRun W).

Lemma epoch_now_ok r r' ep : epoch_now r = (r', Ok ep) -> r' = r /\ ep = gw_epoch (gr_gateway r).
Proof. by intros [-> ->]%gets_ok. Qed.

(** The worker's side of a computation that came back ok: the worker was reached with the
    permitted boot of the route, and answered ok with these bytes. *)
Lemma compute_on_worker_ok route a b r r' res withheld :
  compute_on_worker route a b r = (r', Ok (res, true, withheld)) ->
  withheld = false /\
  exists m ans fs, message MsgType.VERIFY_SERVICE 1001 (gw_epoch (gr_gateway r))
      [ (fid_input_a, VU64 a); (fid_input_b, VU64 b); (fid_boot, VU64 (id_value (re_permitted_boot (wr_entry route))));
        (fid_operation, VStr "serve") ] = Ok m /\
    worker_call (parse_tcp_transport (re_transport (wr_entry route))).1.2
                (parse_tcp_transport (re_transport (wr_entry route))).2 m r = (r', Answer ans) /\
    fr_type ans = MsgType.EXECUTION_RESULT /\ frame_flag ans fid_ok = true /\
    payload_reader (fr_payload ans) = Ok fs /\ opt_field p_bytes fs fid_payload [] = Ok res.
Proof.
  unfold compute_on_worker. destruct (parse_tcp_transport _) as [[pok host] port]. cbn [fst snd]. intros H.
  st_inv H as r1 ep H1. apply epoch_now_ok in H1 as [-> ->]. st_inv H as r1 m H1. apply lift_ok in H1 as [-> Hm].
  st_inv H as r1 x H1. unfold call in H1. destruct (worker_call host port m r) as [r2 y] eqn:Ec. injection H1 as -> ->.
  destruct x as [| | | ans]; try (apply ret_ok in H as [_ [=]]).
  destruct (bool_decide (fr_type ans = MsgType.EXECUTION_RESULT)) eqn:Et; [| apply ret_ok in H as [_ [=]]].
  apply bool_decide_eq_true in Et. st_inv H as r2 fs H1. apply lift_ok in H1 as [-> Hfs].
  st_inv H as r2 ok H1. apply lift_ok in H1 as [-> Hok]. st_inv H as r2 v H1. apply lift_ok in H1 as [-> Hv].
  apply ret_ok in H as [-> [= -> <- ->]]. split; [done |]. exists m, ans, fs. split_and!; try done.
  unfold frame_flag. rewrite Hfs. unfold mbind, result_bind. by rewrite Hok.
Qed.

Lemma client_reply_ok f l r r' x :
  client_reply f l r = (r', Ok x) ->
  r' = r /\ exists g ep, x = Some g /\ message MsgType.EXECUTION_RESULT (fr_msg_id f) ep ((fid_detail, VStr "unknown") :: l) = Ok g.
Proof.
  unfold client_reply. intros H. st_inv H as r1 ep H1. apply epoch_now_ok in H1 as [-> ->].
  st_inv H as r1 g H1. apply lift_ok in H1 as [-> Hm]. apply ret_ok in H as [-> ->]. eauto.
Qed.

(** What the final answer to the client carries, when its result is the reference one. *)
Lemma client_reply_result f ep ok parity detail a b g :
  message MsgType.EXECUTION_RESULT (fr_msg_id f) ep ((fid_detail, VStr "unknown") ::
      [(fid_ok, VBool ok); (fid_state, VBool parity)] ++
      (if String.eqb detail "" then [] else [(fid_detail, VStr detail)]) ++
      (if bool_decide (string_bytes (to_string_u64 (reference_result a b)) = []) then []
       else [(fid_payload, VBytes (string_bytes (to_string_u64 (reference_result a b))))])) = Ok g ->
  (fs ← payload_reader (fr_payload g); p_bytes fs fid_payload) = Ok (string_bytes (to_string_u64 (reference_result a b))).
Proof.
  intros Hm. rewrite (message_fields _ _ _ _ _ Hm). unfold mbind, result_bind.
  assert (0 <= reference_result a b) as Hz by (rewrite reference_result_mod; by apply Z.mod_pos_bound).
  destruct (to_string_digits _ Hz) as (ds & Hds & _ & Hne & _).
  rewrite bool_decide_false by congruence. apply p_bytes_reads; [| apply string_bytes_are_bytes].
  by destruct (String.eqb detail "").
Qed.

Lemma client_refused_flag f why r r' g : client_refused f why r = (r', Ok (Some g)) -> frame_flag g fid_ok = false.
Proof. intros (_ & g' & ep & [= <-] & Hm)%client_reply_ok. by eapply message_flag. Qed.

Lemma read_decision_ok x ok detail :
  read_decision x = Ok (ok, detail) -> ok = true ->
  exists rr, x = Some rr /\ fr_type rr = MsgType.AUTHORIZE_RESULT /\ frame_flag rr fid_ok = true.
Proof.
  unfold read_decision. intros H ->. destruct x as [rr |]; [| done].
  destruct (bool_decide (fr_type rr = MsgType.AUTHORIZE_RESULT)) eqn:Et; [| done]. apply bool_decide_eq_true in Et.
  result_inv H as q Hq. result_inv H as ok Hok. result_inv H as d Hd. injection H as -> ->.
  exists rr. split_and!; try done. unfold frame_flag. rewrite Hq. unfold mbind, result_bind. by rewrite Hok.
Qed.
End lemmas.

(** * Theorems *)

(** A client is answered ok only with the coordinator's authority at both ends and a
    correct result in between.  Whatever the coordinator, the workers and the control
    thread do meanwhile, an ok answer means: the coordinator granted this request; a
    route was installed for its slot; the worker of that route, called with the boot the
    route permits, answered ok with the reference result of the client's inputs; and the
    coordinator accepted the result under exactly the authority it had granted, with the
    response reported as not withheld.  The answer carries that reference result. *)
Theorem client_ok_requires_authority {W : Type} `{Env : GatewayEnv W} (f g : Frame) (r r' : GwRun W) :
  handle_client (Some f) r = (r', Ok (Some g)) -> frame_flag g fid_ok = true ->
  exists fs cq m1 r1 a1 grant route m r2 ans m2 a2 ep2,
    payload_reader (fr_payload f) = Ok fs /\ client_request fs = Ok cq /\
    message MsgType.AUTHORIZE_REQUEST (fr_msg_id f) (gw_epoch (gr_gateway r)) (authorize_request_fields cq (fr_msg_id f)) = Ok m1 /\
    coordinator_rpc m1 r = (r1, a1) /\ read_grant a1 = Ok (Some grant) /\
    gw_routes (gr_gateway r1) !! cq_slot cq = Some route /\
    message MsgType.VERIFY_SERVICE 1001 (gw_epoch (gr_gateway r1))
      [ (fid_input_a, VU64 (cq_a cq)); (fid_input_b, VU64 (cq_b cq));
        (fid_boot, VU64 (id_value (re_permitted_boot (wr_entry route)))); (fid_operation, VStr "serve") ] = Ok m /\
    worker_call (parse_tcp_transport (re_transport (wr_entry route))).1.2
                (parse_tcp_transport (re_transport (wr_entry route))).2 m r1 = (r2, Answer ans) /\
    frame_flag ans fid_ok = true /\
    (fs' ← payload_reader (fr_payload ans); opt_field p_bytes fs' fid_payload []) =
      Ok (string_bytes (to_string_u64 (reference_result (cq_a cq) (cq_b cq)))) /\
    message MsgType.AUTHORIZE_RESULT (fr_msg_id f) ep2 (authorize_result_fields cq grant (fr_msg_id f) false) = Ok m2 /\
    coordinator_rpc m2 r2 = (r', Some a2) /\ fr_type a2 = MsgType.AUTHORIZE_RESULT /\ frame_flag a2 fid_ok = true /\
    (fs' ← payload_reader (fr_payload g); p_bytes fs' fid_payload) =
      Ok (string_bytes (to_string_u64 (reference_result (cq_a cq) (cq_b cq)))).
Proof.
  cbn [handle_client]. intros H Hok. st_inv H as s1 fs H1. apply lift_ok in H1 as [-> Hfs].
  st_inv H as s1 cq H1. apply lift_ok in H1 as [-> Hcq]. st_inv H as s1 ep H1. apply epoch_now_ok in H1 as [-> ->].
  st_inv H as s1 m1 H1. apply lift_ok in H1 as [-> Hm1]. st_inv H as r1 a1 H1. unfold rpc in H1.
  destruct (coordinator_rpc m1 r) as [r1' a1'] eqn:Erpc. injection H1 as -> ->.
  st_inv H as s1 grant H1. apply lift_ok in H1 as [-> Hgr]. destruct grant as [grant |];
    [| apply client_refused_flag in H; congruence].
  st_inv H as s1 route H1. apply gets_ok in H1 as [-> Hroute]. destruct route as [route |];
    [| apply client_refused_flag in H; congruence].
  st_inv H as r2 c H1. destruct c as [[res wok] withheld]. st_inv H as s2 ep2 H2. apply epoch_now_ok in H2 as [-> ->].
  st_inv H as s2 m2 H2. apply lift_ok in H2 as [-> Hm2]. st_inv H as r3 a2 H3. unfold rpc in H3.
  destruct (coordinator_rpc m2 r2) as [r3' a2'] eqn:Erpc2. injection H3 as -> ->.
  st_inv H as s3 d H3. apply lift_ok in H3 as [-> Hd]. destruct d as [res_ok detail].
  apply client_reply_ok in H as (-> & g' & ep & [= <-] & Hm).
  assert (res_ok && parity_ok wok res (cq_a cq) (cq_b cq) && negb withheld = true) as Hall
    by (rewrite <- Hok; symmetry; by eapply message_flag).
  apply andb_true_iff in Hall as [Hall _]. apply andb_true_iff in Hall as [Hro Hp].
  unfold parity_ok in Hp. apply andb_true_iff in Hp as [-> Hp]. apply bool_decide_eq_true in Hp.
  apply compute_on_worker_ok in H1 as (-> & m & ans & fs' & Hmsg & Hcall & _ & Hans & Hfs' & Hres).
  destruct (read_decision_ok _ _ _ Hd Hro) as (a2' & -> & Ht & Hf2).
  exists fs, cq, m1, r1, a1, grant, route, m, r2, ans, m2, a2', (gw_epoch (gr_gateway r2)).
  split_and!; try done; [rewrite Hfs'; unfold mbind, result_bind; by rewrite Hres, Hp |].
  rewrite Hp in Hm. by eapply client_reply_result.
Qed.

(** The entry as it arrives: without the epoch, the gateway boot and the provenance. *)
Definition received (e : RouteEntry) : WireRoute :=
  mkWireRoute (e <| re_epoch := epoch_default |> <| re_state := RouteState.EMPTY |> <| re_gateway_boot := id_null |>
                 <| re_provenance := Provenance.DERIVED |>) (enum_index (re_state e)).
Definition route_slot (e : RouteEntry) : Z := id_value (sk_slot (re_slot e)).

Lemma install_frame_reads msg_id epoch e f :
  typed e -> message MsgType.INSTALL_ROUTE msg_id epoch (encode_route_entry e) = Ok f ->
  fr_type f = MsgType.INSTALL_ROUTE /\ fr_msg_id f = msg_id /\ fr_epoch f = epoch /\
  exists fs, payload_reader (fr_payload f) = Ok fs /\ decode_route_entry fs = Ok (received e).
Proof.
  intros Ht Hm. destruct (decode_encoded e Ht) as (data & fs & Hp & Hr & Hd).
  apply message_inv in Hm as (? & ? & ? & Hp'). rewrite Hp in Hp'. injection Hp' as ->. eauto 10.
Qed.

Lemma ack_message type msg_id epoch : exists f, message type msg_id epoch [(fid_ok, VBool true)] = Ok f /\ fr_type f = type /\
  fr_msg_id f = msg_id /\ fr_epoch f = epoch /\ frame_flag f fid_ok = true.
Proof.
  destruct (message_reads type msg_id epoch [(fid_ok, VBool true)]) as (f & Hm & ? & ? & ? & _).
  - fields_typed.
  - payload_sizes. lia.
  - exists f. split_and!; try done. by eapply message_flag.
Qed.

Lemma gateway_install {W : Type} `{Env : GatewayEnv W} msg_id epoch e f (r : GwRun W) :
  typed e -> message MsgType.INSTALL_ROUTE msg_id epoch (encode_route_entry e) = Ok f ->
  exists ack, gateway_control f r =
      (mkGwRun (mkGateway (<[ route_slot e := received e ]> (gw_routes (gr_gateway r))) epoch) (gr_world r), Ok (Some ack)) /\
    fr_type ack = MsgType.ROUTE_ACK /\ fr_msg_id ack = msg_id /\ fr_epoch ack = epoch /\ frame_flag ack fid_ok = true.
Proof.
  intros Ht Hm. destruct (install_frame_reads _ _ _ _ Ht Hm) as (E1 & E2 & E3 & fs & Hr & Hd).
  destruct (ack_message MsgType.ROUTE_ACK (fr_msg_id f) (fr_epoch f)) as (ack & Ha & Hty & Hid & Hep & Hok).
  exists ack. split; [| by rewrite <- E2, <- E3]. unfold gateway_control. rewrite E1.
  unfold mbind at 1, st_bind at 1, modify at 1. unfold mbind at 1, st_bind at 1, lift at 1. rewrite Hr.
  unfold mbind at 1, st_bind at 1, lift at 1. rewrite Hd.
  unfold mbind at 1, st_bind at 1, modify at 1. unfold mbind at 1, st_bind at 1, lift at 1. rewrite Ha, E3. done.
Qed.

(** The gateway acknowledges exactly what it installed: when the coordinator's
    INSTALL_ROUTE arrives, the entry that was sent is in the gateway's table under its
    slot, the routes of the other slots are untouched, the epoch of the frame is taken
    over, and the acknowledgment carries the message id that the coordinator waits for. *)
Theorem install_route_acknowledged {W : Type} `{Env : GatewayEnv W} (msg_id epoch : Z) (e : RouteEntry) (f : Frame) (r : GwRun W) :
  typed e -> message MsgType.INSTALL_ROUTE msg_id epoch (encode_route_entry e) = Ok f ->
  exists r' ack, gateway_control f r = (r', Ok (Some ack)) /\
    fr_type ack = MsgType.ROUTE_ACK /\ fr_msg_id ack = msg_id /\ frame_flag ack fid_ok = true /\
    gw_epoch (gr_gateway r') = epoch /\ gw_routes (gr_gateway r') !! route_slot e = Some (received e) /\
    (forall k, k <> route_slot e -> gw_routes (gr_gateway r') !! k = gw_routes (gr_gateway r) !! k) /\
    worker_transport_for (gr_gateway r') (route_slot e) = re_transport e.
Proof.
  intros Ht Hm. destruct (gateway_install msg_id epoch e f r Ht Hm) as (ack & Hc & ? & ? & ? & ?).
  eexists _, ack. split; [exact Hc |]. unfold worker_transport_for. cbn [gr_gateway gw_routes gw_epoch].
  rewrite lookup_insert_eq. split_and!; try done. intros k Hk. by rewrite lookup_insert_ne.
Qed.

(** The gateway's table is keyed by the slot number alone: when two services have routes
    for the same slot number (the coordinator always uses slot 1), installing the route
    of the second replaces the route of the first, and requests for the first service
    are sent to the second service's worker. *)
Theorem routes_of_services_collide {W : Type} `{Env : GatewayEnv W} (id1 id2 epoch : Z) (e1 e2 : RouteEntry) (f1 f2 : Frame) (r : GwRun W) :
  typed e1 -> typed e2 -> route_slot e1 = route_slot e2 -> sk_service (re_slot e1) <> sk_service (re_slot e2) ->
  message MsgType.INSTALL_ROUTE id1 epoch (encode_route_entry e1) = Ok f1 ->
  message MsgType.INSTALL_ROUTE id2 epoch (encode_route_entry e2) = Ok f2 ->
  exists r1 r2 a1 a2, gateway_control f1 r = (r1, Ok (Some a1)) /\ gateway_control f2 r1 = (r2, Ok (Some a2)) /\
    frame_flag a1 fid_ok = true /\ frame_flag a2 fid_ok = true /\
    gw_routes (gr_gateway r2) !! route_slot e1 = Some (received e2) /\
    worker_transport_for (gr_gateway r2) (route_slot e1) = re_transport e2.
Proof.
  intros Ht1 Ht2 Hs _ Hm1 Hm2. destruct (gateway_install id1 epoch e1 f1 r Ht1 Hm1) as (a1 & Hc1 & _ & _ & _ & Hk1).
  eexists _. edestruct (gateway_install (W := W) id2 epoch e2 f2) as (a2 & Hc2 & _ & _ & _ & Hk2); [done | done |].
  eexists _, a1, a2. split; [exact Hc1 |]. split; [exact Hc2 |]. unfold worker_transport_for. cbn [gr_gateway gw_routes].
  rewrite Hs, lookup_insert_eq. done.
Qed.

(** The reason of a refusal never reaches the client: every answer has the detail
    "unknown" before any other detail, and the reader returns the first field of a
    number. *)
Theorem client_detail_is_shadowed {W : Type} `{Env : GatewayEnv W} (f g : Frame) (r r' : GwRun W) :
  handle_client (Some f) r = (r', Ok (Some g)) ->
  exists fs, payload_reader (fr_payload g) = Ok fs /\ p_str fs fid_detail = Ok "unknown"%string.
Proof.
  cut (forall l r, client_reply f l r = (r', Ok (Some g)) ->
    exists fs, payload_reader (fr_payload g) = Ok fs /\ p_str fs fid_detail = Ok "unknown"%string).
  { intros Hcut. cbn [handle_client]. intros H. do 5 (st_inv H as ? ? ?). st_inv H as ? grant ?.
    destruct grant as [grant |]; [| by eapply Hcut]. st_inv H as ? route ?. destruct route as [route |]; [| by eapply Hcut].
    st_inv H as ? c ?. destruct c as [[??]?]. do 3 (st_inv H as ? ? ?). st_inv H as ? d ?. destruct d. by eapply Hcut. }
  intros l r0 (_ & g' & ep & [= <-] & Hm)%client_reply_ok. eexists. split; [by eapply message_fields |].
  by apply p_str_reads.
Qed.
