(* ===== verification/Coordinator.v ===== *)
(** The coordinator process (coordinator/coordinator_main.cpp): its peers, the adapter
    [SocketOps] that drives workers and gateway during a cutover, one handler per message
    type, and the start of the process.

    A [Peer] is an object shared by the maps and by the handler of its connection; it is
    named by the generation of that connection.  The handlers run over [Run (Coord N)]:
    the core, the directory, and the peers with the network [N] behind them, an instance
    of [PeerNet].  A handler answers its peer with at most one frame, which is its value. *)

From stdpp Require Import base list gmap strings pretty relations.
From Stdlib Require Import ZArith Lia SpecFloat.
From S2P Require Import Prelude Identities Types Double Bytes Model Codec Domains Evidence Routes Requests.
From S2P Require Import Recovery Selection Persistence Fabric Cutover Failback Invariant System CutoverSpec Restart.
From S2P Require Import Protocol Wire Gateway.

Open Scope Z_scope.

(** * Peers *)

Record Peer : Type := mkPeer { pr_gen : Z; pr_role : Z; pr_target : Z; pr_boot : Z; pr_req_port : Z }.
#[export] Instance Peer_eta : Eta Peer := fun p => mkPeer (pr_gen p) (pr_role p) (pr_target p) (pr_boot p) (pr_req_port p).

(** The global variables, and the network. *)
Record Coord (N : Type) : Type := mkCoord
  { co_peers : gmap Z Peer; co_workers : gmap Z Z; co_gateways : gmap Z Z; co_next_gen : Z; co_stop : bool; co_net : N }.
Arguments mkCoord {N} _ _ _ _ _ _.
Arguments co_peers {N} _.
Arguments co_workers {N} _.
Arguments co_gateways {N} _.
Arguments co_next_gen {N} _.
Arguments co_stop {N} _.
Arguments co_net {N} _.
#[export] Instance Coord_eta {N} : Eta (Coord N) := fun c =>
  mkCoord (co_peers c) (co_workers c) (co_gateways c) (co_next_gen c) (co_stop c) (co_net c).

(** The connections ([Conn]): [alive], [send] and [request] on the connection of a peer;
    the clock and the answers of the file system.  [conn_request] is the call from its
    begin to its return.  [Conn::request] waits without a time limit, so while a live peer
    is silent the call does not return: among threads that is an action that is not
    scheduled, ever, and what a handler does after it then never happens.  Every theorem
    on a finished handler is therefore on one whose calls have returned, and none says
    that a handler ends whatever its peers do. *)
Class PeerNet (N : Type) := {
  conn_alive : Z -> N -> bool;
  conn_send : Z -> Frame -> N -> N * bool;
  conn_request : Z -> Frame -> N -> N * option Frame;
  net_clock : N -> Z;
  net_save_io : N -> SaveIo }.

Definition worker_conn {N} (w : Coord N) (target : Z) : option Z := co_workers w !! target.
Definition worker_req_port {N} (w : Coord N) (target : Z) : Z :=
  match co_workers w !! target ≫= fun g => co_peers w !! g with Some p => pr_req_port p | None => 0 end.
Definition any_gateway_conn {N} (w : Coord N) : option Z := snd <$> map_begin (co_gateways w).

(** * Sending *)

Section net.
Context {N : Type} `{Net : PeerNet N}.
Notation C := (ST (Coord N)).

(** [c && c->alive()]. *)
Definition live (c : option Z) : C (option Z) := fun w =>
  (w, Ok (match c with Some g => if conn_alive g (co_net w) then Some g else None | None => None end)).

(** [c->send(type, id, epoch, w.finish())]: the frame, if the connection takes it. *)
Definition co_send (g : Z) (type : MsgType) (msg_id epoch : Z) (l : list (Z * Value)) : C (option Frame) :=
  b ← lift (payload l);
  c ← live (Some g);
  match c with
  | None => mret None
  | Some _ =>
    let f := mkFrame type msg_id epoch b in
    _ ← lift (encode_frame f);
    _ ← modify (fun w => w <| co_net := (conn_send g f (co_net w)).1 |>);
    mret (Some f)
  end.

Definition net_request (g : Z) (f : Frame) : C (option Frame) := fun w =>
  let '(n, r) := conn_request g f (co_net w) in (w <| co_net := n |>, Ok r).

(** [c->request(type, id, epoch, w.finish())]. *)
Definition co_request (g : Z) (type : MsgType) (msg_id epoch : Z) (l : list (Z * Value)) : C (option Frame) :=
  b ← lift (payload l);
  c ← live (Some g);
  match c with
  | None => mret None
  | Some _ =>
    let f := mkFrame type msg_id epoch b in
    _ ← lift (encode_frame f);
    net_request g f
  end.

(** [resp && resp->type == type ? rr.has(ok) && rr.bool_(ok) : false]. *)
Definition acknowledged (resp : option Frame) (type : MsgType) : result bool :=
  match resp with
  | Some f => if bool_decide (fr_type f = type) then fs ← payload_reader (fr_payload f); flag fs fid_ok else Ok false
  | None => Ok false
  end.

(** * The adapter *)

Section socket_ops.
(** [fab->current_epoch().value()]. *)
Variable epoch : Z.

Definition so_fence_old (old : Assignment) (_ : WorkerBootId) : C FenceOutcome :=
  w ← get;
  c ← live (worker_conn w (id_value (asg_target old)));
  _ ← (match c with
       | Some g => co_send g MsgType.FENCE_ASSIGNMENT 9101 epoch [(fid_target, VU64 (id_value (asg_target old)))]
       | None => mret None
       end);
  mret (mkFenceOutcome true "old worker fenced" FenceState.ENFORCED false).

Definition so_activate (cand : Candidate) (_ : WorkerAuthorization) (_ : ServiceAuthorityGeneration) : C ActivateOutcome :=
  let f := cand_facts cand in
  w ← get;
  c ← live (worker_conn w (id_value (cf_target f)));
  match c with
  | None => mret (mkActivateOutcome false "" "worker not reachable")
  | Some g =>
    resp ← co_request g MsgType.ACTIVATE_TARGET 9102 epoch
      [ (fid_target, VU64 (id_value (cf_target f))); (fid_boot, VU64 (id_value (cf_worker_boot f)));
        (fid_incarnation, VU64 (id_value (cf_engine_incarnation f))) ];
    ok ← lift (acknowledged resp MsgType.ACTIVATE_RESULT);
    mret (mkActivateOutcome ok "" (if (ok : bool) then "" else "no activation acknowledgment"))
  end.

Definition so_install_route (e : RouteEntry) (boot : GatewayBootId) : C RouteOutcome :=
  w ← get;
  c ← live (co_gateways w !! id_value boot);
  match c with
  | None => mret (mkRouteOutcome false id_null gen_default "gateway not reachable")
  | Some g =>
    let re := e <| re_transport := tcp_transport (worker_req_port w (id_value (re_target e))) |> in
    resp ← co_request g MsgType.INSTALL_ROUTE 9103 epoch (encode_route_entry re);
    ok ← lift (acknowledged resp MsgType.ROUTE_ACK);
    mret (mkRouteOutcome ok id_null gen_default (if (ok : bool) then "" else "no route acknowledgment"))
  end.

Definition so_verify (_ : RouteEntry) (_ : WorkerAuthorization) : C VerifyOutcome :=
  w ← get;
  c ← live (any_gateway_conn w);
  match c with
  | None => mret (mkVerifyOutcome false "" false "gateway not reachable")
  | Some g =>
    resp ← co_request g MsgType.VERIFY_SERVICE 9104 epoch
      [(fid_input_a, VU64 7); (fid_input_b, VU64 11); (fid_operation, VStr "verify")];
    ok ← lift (acknowledged resp MsgType.VERIFY_SERVICE);
    res ← lift (match resp with
                | Some f => if (ok : bool) then fs ← payload_reader (fr_payload f); opt_field p_bytes fs fid_payload []
                            else Ok []
                | None => Ok []
                end);
    mret (mkVerifyOutcome ok (string_of_bytes res) false (if (ok : bool) then "" else "verification rejected"))
  end.

(** [struct SocketOps : CutoverOps].  The source calls [current_epoch] at every send; here
    the epoch is read when the cutover starts.  The two agree, since no handler changes
    the epoch of a running coordinator ([Concurrent] shows it constant). *)
Definition SocketOps : CutoverOps (Coord N) := {|
  fence_old := so_fence_old;
  activate := so_activate;
  ops_install_route := so_install_route;
  verify := so_verify;
  clock_now w := net_clock (co_net w);
  save_io w := net_save_io (co_net w) |}.
End socket_ops.
End net.

(** * Handlers *)

(** What a handler did towards its peer: a reply was sent; none was; or the source goes
    on with a value the model has no counterpart for (a failure category byte that names
    no enumerator, or a capacity whose conversion to an integer is undefined). *)
Inductive Handled : Type :=
  | Replied (f : Frame)
  | Silent
  | Outside.

(** [(std::uint64_t)cap]: truncation, defined when the result is representable. *)
Definition u64_of_double (d : double) : option Z :=
  match f64_of_bits d with
  | S754_zero _ => Some 0
  | S754_finite s m e =>
    let v := if Z.leb 0 e then Zpos m * 2 ^ e else Zpos m / 2 ^ (- e) in
    if s then (if Z.eqb v 0 then Some 0 else None) else (if Z.ltb v (2 ^ 64) then Some v else None)
  | _ => None
  end.

(** [1000 + (int)f.msg_id], converted to 64 bits. *)
Definition failure_event_id (msg_id : Z) : Z :=
  wrap64 (1000 + (if Z.ltb msg_id (2 ^ 31) then msg_id else msg_id - 2 ^ 32)).

(** [cc <= (uint8_t)last ? (Enum)cc : d]. *)
Definition enum_upto {A} `{Enum A} (last : A) (v : Z) (d : A) : A :=
  if Z.leb v (enum_index last) then default d (enum_of_u8 v) else d.

(** * Actions on the core and on the network *)

Section actions.
Context {N : Type} `{Net : PeerNet N}.
Notation R := (Run (Coord N)).
Notation H := (ST R).

(** The core, and the adapter over it. *)
Definition core {A} (f : Impl -> A) : H A := gets (fun r => f (run_impl r)).
Definition epoch_value : H Z := core (fun s => ep_epoch (current_epoch s)).
Definition update (f : Impl -> Impl) : H unit := locked (fun s => (f s, tt)).
Definition world (f : Coord N -> Coord N) : H unit := external (modify f).
Definition clock : H Z := gets (fun r => net_clock (co_net (run_world r))).

End actions.

Section handlers.
Context {N : Type} `{Net : PeerNet N} {M : Type -> Type} `{!MBind M, !MRet M, !Atomic (Run (Coord N)) M}.

(** [p->conn->send(type, f.msg_id, f.epoch, w.finish())]. *)
Definition respond (p : Z) (f : Frame) (type : MsgType) (l : list (Z * Value)) : M Handled :=
  x ⇐ external (co_send p type (fr_msg_id f) (fr_epoch f) l);
  mret (match x with Some g => Replied g | None => Silent end).
Definition error_reply (p : Z) (f : Frame) (e : exn) : M Handled :=
  respond p f MsgType.ERROR_MSG [(fid_ok, VBool false); (fid_detail, VStr (exn_what e))].

Definition slot1 (service : Z) : ServiceSlotKey := mkSlotKey (mkId service) (mkId 1).

(** [if (r.has(f)) p->field = r.get(f)]. *)
Definition read_into {A} (get : list Field -> Z -> result A) (fs : list Field) (field p : Z) (upd : A -> Peer -> Peer) : M unit :=
  if has_field fs field then
    v ⇐ lift (get fs field);
    atomic (world (fun w => w <| co_peers := alter (upd v) p (co_peers w) |>))
  else mret tt.

(** One service of a (re)registered gateway: its current route is sent and bound. *)
Definition push_route (p : Z) (boot : Z) (svc : ServiceDefinition) : M unit :=
  let k := mkSlotKey (svc_service svc) (mkId 1) in
  rt ⇐ core (fun s => current_route s k);
  match rt with
  | None => mret tt
  | Some rt =>
    w ⇐ gets run_world;
    let re := match co_workers w !! id_value (re_target rt) with
              | Some _ => rt <| re_transport := tcp_transport (worker_req_port w (id_value (re_target rt))) |>
              | None => rt
              end in
    ep ⇐ epoch_value;
    _ ⇐ external (co_send p MsgType.INSTALL_ROUTE 2121 ep (encode_route_entry re));
    _ ⇐ locked (bind_route_gateway k (mkId boot));
    mret tt
  end.
Fixpoint push_routes (p boot : Z) (l : list ServiceDefinition) : M unit :=
  match l with
  | [] => mret tt
  | svc :: l' => _ ← push_route p boot svc; push_routes p boot l'
  end.

Definition on_hello (p : Z) (f : Frame) : M Handled :=
  fs ⇐ lift (payload_reader (fr_payload f));
  _ ← read_into p_u8 fs fid_role p (fun v q => q <| pr_role := v |>);
  _ ← read_into p_u64 fs fid_target p (fun v q => q <| pr_target := v |>);
  _ ← read_into p_u64 fs fid_boot p (fun v q => q <| pr_boot := v |>);
  _ ← read_into p_u64 fs fid_req_port p (fun v q => q <| pr_req_port := v mod 2 ^ 16 |>);
  q ⇐ gets (fun r => co_peers (run_world r) !! p);
  match q with
  | None => mret Silent
  | Some q =>
    if Z.eqb (pr_role q) kRoleWorker then
      _ ⇐ world (fun w => w <| co_workers := <[ pr_target q := p ]> (co_workers w) |>);
      mret Silent
    else if Z.eqb (pr_role q) kRoleGateway then
      _ ⇐ world (fun w => w <| co_gateways := <[ pr_boot q := p ]> (co_gateways w) |>);
      _ ⇐ update (set_gateway_boot (mkId (pr_boot q)));
      svcs ⇐ core im_services;
      _ ← push_routes p (pr_boot q) svcs;
      mret Silent
    else mret Silent
  end.

(** The state a worker reports for itself. *)
Definition read_candidate_state (fs : list Field) : result CandidateState :=
  avail ← flag fs fid_state_avail;
  cg ← (if has_field fs fid_checkpoint_gen then v ← p_u64 fs fid_checkpoint_gen; Ok (Some (mkGen v)) else Ok None);
  seq ← opt_field p_u64 fs fid_committed_seq 0;
  session ← flag fs fid_session_ok;
  tenant ← flag fs fid_tenant_ok;
  model ← flag fs fid_model_ok;
  format ← flag fs fid_format_ok;
  integrity ← flag fs fid_integrity_ok;
  replay ← flag fs fid_replay_safe;
  Ok (mkCandState false avail None cg seq session tenant model format integrity replay).

Definition on_publish_readiness (p : Z) (f : Frame) : M Handled :=
  fs ⇐ lift (payload_reader (fr_payload f));
  t ⇐ lift (p_u64 fs fid_target);
  b ⇐ lift (p_u64 fs fid_boot);
  ready ⇐ lift (p_bool fs fid_ready);
  model ⇐ lift (opt_field p_str fs fid_model "ref-det-sequence-v1"%string);
  abi ⇐ lift (opt_field p_str fs fid_abi "ff-ref-v1"%string);
  cap ⇐ lift (opt_field p_f64 fs fid_capacity double_1);
  port ⇐ gets (fun r => match co_peers (run_world r) !! p with Some q => pr_req_port q | None => 0 end);
  _ ⇐ locked_st (register_target (mkId t) (tcp_transport port));
  now ⇐ clock;
  let cf := facts_default
    <| cf_target := mkId t |> <| cf_target_generation := gen_first |> <| cf_replica := mkId t |> <| cf_engine := mkId t |>
    <| cf_engine_incarnation := mkId t |> <| cf_worker := mkId t |> <| cf_worker_boot := mkId b |> <| cf_profile := mkId 1 |>
    <| cf_model_key := model |> <| cf_runtime_abi := abi |> <| cf_ready := ready |> <| cf_activation_eligible := ready |>
    <| cf_evidence_fresh := true |> in
  _ ⇐ locked_st (publish_candidate_facts now cf);
  cs ⇐ lift (read_candidate_state fs);
  _ ⇐ locked_st (publish_candidate_state (mkId t) cs);
  match u64_of_double cap with
  | None => mret Outside
  | Some unit =>
    _ ⇐ locked_st (publish_candidate_resources (mkId t)
          [mkCandResource "cpu" cap gen_first [] false None gen_null false unit]);
    mret Silent
  end.

(** The service REGISTER creates, with its optional parameters. *)
Definition read_service (fs : list Field) (sid : Z) : result ServiceDefinition :=
  let rec0 := recovery_objective_default <| ro_rto_ms := 10000 |> <| ro_requires_verified_recovery := true |>
                <| ro_continuity := ContinuityClass.REPLAY_SAFE_REQUESTS |> in
  cc ← opt_field p_u8 fs fid_continuity (enum_index ContinuityClass.REPLAY_SAFE_REQUESTS);
  let rec1 := rec0 <| ro_continuity := enum_upto ContinuityClass.UNKNOWN cc ContinuityClass.REPLAY_SAFE_REQUESTS |> in
  mc ← (if has_field fs fid_min_checkpoint then v ← p_u64 fs fid_min_checkpoint; Ok (Some (mkGen v)) else Ok None);
  fb ← opt_field p_u8 fs fid_failback (enum_index FailbackPolicy.MANUAL);
  cool ← opt_field p_u32 fs fid_cooldown_ms (afp_cooldown_ms anti_flapping_default);
  max ← opt_field p_u32 fs fid_max_auto_attempts (afp_max_auto_attempts anti_flapping_default);
  hyst ← opt_field p_u32 fs fid_hysteresis_ms (afp_hysteresis_ms anti_flapping_default);
  Ok (service_default
    <| svc_service := mkId sid |> <| svc_generation := gen_first |> <| svc_config_generation := gen_first |>
    <| svc_name := "ref"%string |> <| svc_role := ServingRole.EXCLUSIVE_ACTIVE |>
    <| svc_compatibility := svc_compatibility service_default <| cr_model_key := "ref-det-sequence-v1"%string |>
                                                              <| cr_runtime_abi := "ff-ref-v1"%string |> |>
    <| svc_resources := [mkResourceRequirement "cpu" double_1 true] |>
    <| svc_recovery := rec1 <| ro_min_checkpoint_gen := mc |> |> <| svc_policy_generation := gen_first |>
    <| svc_failback := enum_upto FailbackPolicy.RETURN_AFTER_VALIDATION fb FailbackPolicy.MANUAL |>
    <| svc_anti_flapping := anti_flapping_default <| afp_cooldown_ms := cool |> <| afp_max_auto_attempts := max |>
                                                  <| afp_hysteresis_ms := hyst |> |>).

Definition initial_assignment (sid act ab : Z) : Assignment :=
  assignment_default <| asg_id := mkId 1 |> <| asg_generation := gen_first |> <| asg_slot := slot1 sid |>
    <| asg_target := mkId act |> <| asg_target_generation := gen_first |> <| asg_worker_boot := mkId ab |>
    <| asg_authority_generation := gen_first |> <| asg_state := AssignmentState.ACTIVE |>.
Definition initial_route (sid act ab port : Z) (epoch : CoordinatorEpoch) (gboot : GatewayBootId) : RouteEntry :=
  mkRouteEntry (mkId 1) gen_first (slot1 sid) (mkId act) gen_first (mkId act) (mkId ab) (mkId 1) gen_first epoch
    RouteState.ACKNOWLEDGED gboot (tcp_transport port) (re_provenance route_entry_default).

Definition on_register (p : Z) (f : Frame) : M Handled :=
  fs ⇐ lift (payload_reader (fr_payload f));
  sid ⇐ lift (p_u64 fs fid_service);
  act ⇐ lift (p_u64 fs fid_target);
  ab ⇐ lift (p_u64 fs fid_boot);
  svc ⇐ lift (read_service fs sid);
  try_catch (
    _ ⇐ locked_st (create_service svc);
    now ⇐ clock;
    _ ⇐ locked_st (set_initial_assignment now (initial_assignment sid act ab));
    w ⇐ gets run_world;
    wc ⇐ external (live (worker_conn w act));
    ep ⇐ epoch_value;
    _ ← (match wc with
         | Some g => atomic (external (co_request g MsgType.ACTIVATE_TARGET 9110 ep [(fid_target, VU64 act); (fid_boot, VU64 ab)]))
         | None => mret None
         end);
    w ⇐ gets run_world;
    gc ⇐ external (live (any_gateway_conn w));
    _ ← (match gc with
         | Some g =>
           epoch ⇐ core im_epoch;
           gboot ⇐ core gateway_boot;
           w ⇐ gets run_world;
           let re := initial_route sid act ab (worker_req_port w act) epoch gboot in
           ep ⇐ epoch_value;
           _ ⇐ external (co_request g MsgType.INSTALL_ROUTE 9111 ep (encode_route_entry re));
           boot ⇐ core gateway_boot;
           _ ⇐ locked (install_route re boot);
           mret tt
         | None => mret tt
         end);
    respond p f MsgType.REGISTER [(fid_ok, VBool true)])
  (error_reply p f).

(** The reply to a cutover: ok only for a completed and verified one. *)
Definition attempt_reply (ar : AttemptResult) (cur : option Assignment) : list (Z * Value) :=
  [ (fid_ok, VBool (bool_decide (ar_state ar = AttemptState.COMPLETED) && ar_recovery_verified ar));
    (fid_state, VU8 (enum_index (ar_state ar))); (fid_detail, VStr (ar_detail ar)) ] ++
  (match cur with Some a => [(fid_target, VU64 (id_value (asg_target a)))] | None => [] end).

Definition on_execute_failover (p : Z) (f : Frame) : M Handled :=
  fs ⇐ lift (payload_reader (fr_payload f));
  sid ⇐ lift (p_u64 fs fid_service);
  _ ← (if has_field fs fid_state then
         bm ⇐ lift (p_u8 fs fid_state);
         if Z.leb bm (enum_index Milestone.VERIFICATION_COMPLETE)
         then atomic (update (set_cutover_barrier (default Milestone.VERIFICATION_COMPLETE (enum_of_u8 bm))))
         else mret tt
       else mret tt);
  plan ⇐ locked_st (plan_failover (slot1 sid));
  match plan with
  | None => respond p f MsgType.EXECUTE_FAILOVER [(fid_ok, VBool false); (fid_detail, VStr "no eligible replacement")]
  | Some plan =>
    ep ⇐ epoch_value;
    ar ← run_plan (Ops := SocketOps ep) plan;
    _ ⇐ update clear_cutover_barrier;
    cur ⇐ core (fun s => current_assignment s (slot1 sid));
    respond p f MsgType.EXECUTE_FAILOVER (attempt_reply ar cur)
  end.

Definition on_request_failback (p : Z) (f : Frame) : M Handled :=
  fs ⇐ lift (payload_reader (fr_payload f));
  sid ⇐ lift (p_u64 fs fid_service);
  authorize ⇐ lift (flag fs fid_authorize);
  _ ← (if (authorize : bool) then atomic (update (authorize_failback (slot1 sid))) else mret tt);
  t ⇐ clock;
  t_h ⇐ clock;
  d ⇐ core (fun s => evaluate_failback t t_h s (slot1 sid));
  if negb (fd_authorized d) then
    respond p f MsgType.REQUEST_FAILBACK
      [(fid_ok, VBool false); (fid_detail, VStr (fd_reason d)); (fid_state, VBool (fd_in_cooldown d))]
  else
    ep ⇐ epoch_value;
    ar ← failback_run (Ops := SocketOps ep) (slot1 sid);
    cur ⇐ core (fun s => current_assignment s (slot1 sid));
    respond p f MsgType.REQUEST_FAILBACK (attempt_reply ar cur).

(** The event a report of failure becomes: always CONFIRMED, from source 1. *)
Definition reported_failure (msg_id target seq : Z) (cat : FailureCategory) : FailureEvent :=
  failure_event_default <| fe_event_id := mkId (failure_event_id msg_id) |> <| fe_generation := gen_first |>
    <| fe_status := EvidenceStatus.CONFIRMED |> <| fe_category := cat |> <| fe_target := Some (mkId target) |>
    <| fe_source := mkId 1 |> <| fe_received := timestamp_default <| ts_seq := seq |> |>.

Definition on_publish_failure (p : Z) (f : Frame) : M Handled :=
  fs ⇐ lift (payload_reader (fr_payload f));
  t ⇐ lift (p_u64 fs fid_target);
  cat ⇐ lift (p_u8 fs fid_category);
  seq ⇐ lift (p_u64 fs fid_seq);
  match enum_of_u8 cat with
  | None => mret Outside
  | Some cat =>
    _ ⇐ update (publish_failure (reported_failure (fr_msg_id f) t seq cat));
    respond p f MsgType.PUBLISH_FAILURE [(fid_ok, VBool true)]
  end.

Definition on_query_route (p : Z) (f : Frame) : M Handled :=
  fs ⇐ lift (payload_reader (fr_payload f));
  sid ⇐ lift (p_u64 fs fid_service);
  known ⇐ core (fun s => bool_decide (is_Some (current_assignment s (slot1 sid))));
  cur ⇐ core (fun s => current_assignment s (slot1 sid));
  reval ⇐ core (fun s => Z.ltb 0 (rt_revalidation_count (im_routes s)));
  ambiguous ⇐ core (fun s => trk_ambiguous (im_requests s));
  incomplete ⇐ core has_incomplete_cutover;
  ep ⇐ epoch_value;
  rt ⇐ core (fun s => current_route s (slot1 sid));
  respond p f MsgType.QUERY_ROUTE
    ((fid_ok, VBool known) ::
     (match cur with Some a => [(fid_target, VU64 (id_value (asg_target a)))] | None => [] end) ++
     [ (fid_state, VBool reval); (fid_seq, VU64 ambiguous); (fid_txn_incomplete, VBool incomplete); (fid_epoch, VU64 ep) ] ++
     (match rt with
      | Some rt => [(fid_route_gen, VU64 (gen_value (re_generation rt))); (fid_boot, VU64 (id_value (re_gateway_boot rt)))]
      | None => []
      end)).

(** The verdict on a gateway's acknowledgment of a route. *)
Definition check_route_ack (rt : option RouteEntry) (gen boot : Z) : bool * string :=
  match rt with
  | None => (false, "no current route"%string)
  | Some rt =>
    if negb (re_generation rt =g mkGen gen) then (false, "stale route generation"%string)
    else if negb (re_gateway_boot rt =i mkId boot) then (false, "stale gateway boot"%string)
    else (true, "route acknowledgment accepted"%string)
  end.
Definition on_check_route_ack (p : Z) (f : Frame) : M Handled :=
  fs ⇐ lift (payload_reader (fr_payload f));
  sid ⇐ lift (p_u64 fs fid_service);
  gen ⇐ lift (p_u64 fs fid_route_gen);
  boot ⇐ lift (p_u64 fs fid_boot);
  rt ⇐ core (fun s => current_route s (slot1 sid));
  let v := check_route_ack rt gen boot in
  respond p f MsgType.CHECK_ROUTE_ACK [(fid_ok, VBool v.1); (fid_detail, VStr v.2)].

(** The authorization AUTHORIZE_REQUEST grants from the slot's assignment, as it is
    recorded and as it is sent. *)
Definition dispatch_auth (ep : CoordinatorEpoch) (k : ServiceSlotKey) (req : Z) (cur : Assignment) : WorkerAuthorization :=
  mkAuth ep k (asg_id cur) (asg_generation cur) (asg_route_generation cur) (asg_engine_incarnation cur) (mkId req) (mkId req)
    "serve" (asg_worker_boot cur).
Definition grant_fields (a : WorkerAuthorization) : list (Z * Value) :=
  [ (fid_ok, VBool true);
    (fid_epoch, VU64 (ep_epoch (wa_epoch a))); (fid_epoch_id, VU64 (id_value (ep_id (wa_epoch a))));
    (fid_epoch_boot, VU64 (id_value (ep_boot (wa_epoch a))));
    (fid_slot, VU64 (id_value (sk_slot (wa_slot a)))); (fid_assignment_id, VU64 (id_value (wa_assignment a)));
    (fid_assignment_gen, VU64 (gen_value (wa_assignment_generation a)));
    (fid_route_gen, VU64 (gen_value (wa_route_generation a)));
    (fid_boot, VU64 (id_value (wa_worker_boot a))); (fid_incarnation, VU64 (id_value (wa_incarnation a)));
    (fid_request_id, VU64 (id_value (wa_request a))); (fid_execution_id, VU64 (id_value (wa_execution a)));
    (fid_operation, VStr (wa_operation a)) ].
Definition dispatched_record (auth : WorkerAuthorization) (idempotent effectful : bool) : RequestRecord :=
  request_default <| rq_request := wa_request auth |> <| rq_execution := wa_execution auth |>
    <| rq_execution_generation := gen_first |> <| rq_slot := wa_slot auth |>
    <| rq_disposition := RequestDisposition.DISPATCHED |> <| rq_idempotent := idempotent |>
    <| rq_authority := if idempotent then IdempotencyAuthority.DETERMINISTIC_REFERENCE else IdempotencyAuthority.NONE |>
    <| rq_externally_effectful := effectful |> <| rq_dispatched_auth := Some auth |>.

(** Whether the request is of unknown outcome and its policy forbids to replay it. *)
Definition refuses_replay (req : RequestId) : M bool :=
  st ⇐ core (fun s => request_state s req);
  match st with
  | Some st =>
    if disposition_is RequestDisposition.OUTCOME_UNKNOWN st
    then atomic (core (fun s => negb (retry_allowed s req)))
    else mret false
  | None => mret false
  end.

Definition on_authorize_request (p : Z) (f : Frame) : M Handled :=
  fs ⇐ lift (payload_reader (fr_payload f));
  sid ⇐ lift (p_u64 fs fid_service);
  req ⇐ lift (p_u64 fs fid_request_id);
  idempotent ⇐ lift (flag fs fid_idempotent);
  effectful ⇐ lift (flag fs fid_externally_effectful);
  let refused why := respond p f MsgType.AUTHORIZE_REQUEST [(fid_ok, VBool false); (fid_detail, VStr why)] in
  cur ⇐ core (fun s => current_assignment s (slot1 sid));
  match cur with
  | None => refused "no current active assignment"%string
  | Some cur =>
    if negb (bool_decide (asg_state cur = AssignmentState.ACTIVE)) then refused "no current active assignment"%string
    else
      no ← refuses_replay (mkId req);
      if (no : bool) then refused "non-retryable request; automatic replay refused"%string
      else
        ep ⇐ core im_epoch;
        let auth := dispatch_auth ep (slot1 sid) req cur in
        _ ⇐ update (record_request (dispatched_record auth idempotent effectful));
        _ ⇐ update record_dispatch;
        respond p f MsgType.AUTHORIZE_REQUEST (grant_fields auth)
  end.

(** The authorization a result is presented with. *)
Definition read_result_auth (fs : list Field) (k : ServiceSlotKey) : result WorkerAuthorization :=
  ep ← p_u64 fs fid_epoch;
  ei ← p_u64 fs fid_epoch_id;
  eb ← p_u64 fs fid_epoch_boot;
  ai ← p_u64 fs fid_assignment_id;
  ag ← p_u64 fs fid_assignment_gen;
  rg ← p_u64 fs fid_route_gen;
  wb ← p_u64 fs fid_boot;
  inc ← p_u64 fs fid_incarnation;
  rq ← p_u64 fs fid_request_id;
  ex ← p_u64 fs fid_execution_id;
  Ok (mkAuth (mkEpoch ep (mkId ei) (mkId eb)) k (mkId ai) (mkGen ag) (mkGen rg) (mkId inc) (mkId rq) (mkId ex) "" (mkId wb)).

(** The record of a result that was computed and withheld. *)
Definition withheld_record (auth : WorkerAuthorization) : RequestRecord :=
  request_default <| rq_request := wa_request auth |> <| rq_execution := wa_execution auth |>
    <| rq_slot := wa_slot auth |> <| rq_disposition := RequestDisposition.OUTCOME_UNKNOWN |>
    <| rq_dispatched_auth := Some auth |>.

Definition on_authorize_result (p : Z) (f : Frame) : M Handled :=
  fs ⇐ lift (payload_reader (fr_payload f));
  sid ⇐ lift (p_u64 fs fid_service);
  auth ⇐ lift (read_result_auth fs (slot1 sid));
  withheld ⇐ lift (flag fs fid_withheld);
  if (withheld : bool) then
    st ⇐ core (fun s => request_state s (wa_request auth));
    _ ← (match st with
         | Some st => if disposition_is RequestDisposition.OUTCOME_UNKNOWN st then mret tt
                      else atomic (update (mark_outcome_unknown (wa_request auth) (wa_slot auth)))
         | None => atomic (update (record_request (withheld_record auth)))
         end);
    respond p f MsgType.AUTHORIZE_RESULT [(fid_ok, VBool false); (fid_detail, VStr "response withheld; outcome unknown")]
  else
    d ⇐ core (fun s => authorize_result s auth);
    respond p f MsgType.AUTHORIZE_RESULT
      ((fid_ok, VBool (gd_allowed d)) :: if gd_allowed d then [] else [(fid_detail, VStr (gd_reason d))]).

Definition on_classify_request (p : Z) (f : Frame) : M Handled :=
  fs ⇐ lift (payload_reader (fr_payload f));
  req ⇐ lift (p_u64 fs fid_request_id);
  count ⇐ core dispatch_count;
  st ⇐ core (fun s => request_state s (mkId req));
  respond p f MsgType.CLASSIFY_REQUEST
    ((fid_dispatch_count, VU64 count) ::
     match st with
     | Some st => [ (fid_ok, VBool true); (fid_state, VU8 (enum_index (rq_disposition st)));
                    (fid_detail, VStr (RequestDisposition.to_string_RequestDisposition (rq_disposition st))) ]
     | None => [(fid_ok, VBool false); (fid_detail, VStr "unknown request")]
     end).

Definition on_save (p : Z) (f : Frame) : M Handled :=
  fs ⇐ lift (payload_reader (fr_payload f));
  path ⇐ lift (p_str fs fid_detail);
  ep ⇐ epoch_value;
  try_catch (
    _ ← save (Ops := SocketOps ep) path;
    respond p f MsgType.SAVE [(fid_ok, VBool true)])
  (error_reply p f).

Definition dispatch (p : Z) (f : Frame) : M Handled :=
  match fr_type f with
  | MsgType.HELLO => on_hello p f
  | MsgType.PUBLISH_READINESS => on_publish_readiness p f
  | MsgType.REGISTER => on_register p f
  | MsgType.EXECUTE_FAILOVER => on_execute_failover p f
  | MsgType.REQUEST_FAILBACK => on_request_failback p f
  | MsgType.PUBLISH_FAILURE => on_publish_failure p f
  | MsgType.QUERY_ROUTE => on_query_route p f
  | MsgType.CHECK_ROUTE_ACK => on_check_route_ack p f
  | MsgType.AUTHORIZE_REQUEST => on_authorize_request p f
  | MsgType.AUTHORIZE_RESULT => on_authorize_result p f
  | MsgType.CLASSIFY_REQUEST => on_classify_request p f
  | MsgType.SAVE => on_save p f
  | MsgType.SHUTDOWN => _ ⇐ world (fun w => w <| co_stop := true |>); mret Silent
  | _ => mret Silent
  end.

(** The handler of a connection: an exception is answered with ERROR_MSG. *)
Definition handler (p : Z) (f : Frame) : M Handled := try_catch (dispatch p f) (error_reply p f).

End handlers.

(** The handler as it runs alone. *)
Definition handle {N : Type} `{Net : PeerNet N} : Z -> Frame -> ST (Run (Coord N)) Handled := handler.

(** A connection is accepted: a peer of a new generation. *)
Definition coordinator_accept {N : Type} : ST (Run (Coord N)) Z :=
  g ← gets (fun r => co_next_gen (run_world r));
  _ ← world (fun w => w <| co_next_gen := wrap64 (g + 1) |> <| co_peers := <[ g := mkPeer g 0 0 0 0 ]> (co_peers w) |>);
  mret g.

(** * Start *)

Record CoordArgs : Type := mkCoordArgs { ca_port : Z; ca_load : string; ca_checkpoint : string }.
#[export] Instance CoordArgs_eta : Eta CoordArgs := fun a => mkCoordArgs (ca_port a) (ca_load a) (ca_checkpoint a).
Definition coord_args_default : CoordArgs := mkCoordArgs 0 "" "".
Fixpoint coordinator_args (argv : list string) (a : CoordArgs) : CoordArgs :=
  match argv with
  | k :: ((v :: _) as rest) =>
    coordinator_args rest
      (if String.eqb k "--port" then a <| ca_port := parse_u16 v |>
       else if String.eqb k "--load" then a <| ca_load := v |>
       else if String.eqb k "--checkpoint" then a <| ca_checkpoint := v |>
       else a)
  | _ => a
  end.

(** The coordinator before it listens; [Throw] is the exit with status 2. *)
Definition coordinator_start `{EvalOrder} (a : CoordArgs) (fs : FileSystem) : result Impl :=
  let s := impl_init config_default in
  let s := if String.eqb (ca_checkpoint a) "" then s else set_checkpoint_path (ca_checkpoint a) s in
  if String.eqb (ca_load a) "" then Ok (set_coordinator_identity (mkId 1) 1 s)
  else match load (ca_load a) fs s with
       | (s, Ok _) => Ok (set_coordinator_identity (mkId 1) (wrap64 (ep_epoch (im_epoch s) + 1)) s)
       | (_, Throw e) => Throw e
       end.

(** The network a coordinator starts with. *)
Definition coord_init {N} (n : N) : Coord N := mkCoord ∅ ∅ ∅ 1 false n.
