(* ===== verification/CoordinatorSpec.v ===== *)
(** What the handlers of the coordinator process do to the coordinator, action by action:
    every action of every handler is a step of the transition system of System, whatever
    the other threads do in between; and a handler that runs alone is the sequence of
    its actions. *)

From stdpp Require Import base list gmap strings pretty relations.
From Stdlib Require Import ZArith Lia.
From S2P Require Import Prelude Threads Identities Types Double Bytes Model Codec Domains Evidence Routes Requests.
From S2P Require Import Recovery Selection Persistence Fabric Cutover Failback Invariant System CutoverSpec Restart.
From S2P Require Import Protocol Wire Gateway Coordinator.

Open Scope Z_scope.

(** * Steps of one thread *)

(** The operations that touch neither the coordinator's identity nor the requests. *)
Definition quiet (o : FabricOp) : Prop :=
  match o with
  | OpSetCoordinatorIdentity _ _ | OpRecordRequest _ | OpClassifyLate _ _ | OpMarkUnknown _ _ => False
  | _ => True
  end.

(** What a thread does to the core, with the attempt it is in, if any: one of the
    operations in [ok], the start of an attempt, a section of its attempt. *)
Inductive local_step (ok : FabricOp -> Prop) : Impl * option Pc -> Impl * option Pc -> Prop :=
  | local_op o s l : ok o -> local_step ok (s, l) (apply_op o s, l)
  | local_start plan s s' x l : prepare plan s = (s', x) -> local_step ok (s, l) (s', Some (started x))
  | local_section s pc s' pc' : pc_step s pc s' pc' -> local_step ok (s, Some pc) (s', Some pc').

(** [s'] is reached from [s] by a thread, whatever attempt it was in before. *)
Definition reaches (ok : FabricOp -> Prop) (s s' : Impl) : Prop :=
  forall l, exists l', rtc (local_step ok) (s, l) (s', l').

Section reaches.
Context (ok : FabricOp -> Prop).
#[export] Instance reaches_preorder : PreOrder (reaches ok).
Proof.
  split; [intros s l; by exists l |]. intros s1 s2 s3 H1 H2 l. destruct (H1 l) as [l1 R1]. destruct (H2 l1) as [l2 R2].
  exists l2. by etrans.
Qed.
Lemma reaches_op o s : ok o -> reaches ok s (apply_op o s).
Proof. intros Ho l. exists l. by apply rtc_once, local_op. Qed.
End reaches.

(** * Steps of a thread as steps of the system *)

(** The attempt of the thread is at position [i]. *)
Definition at_position (l : option Pc) (i : nat) (ps : list Pc) : Prop := forall pc, l = Some pc -> ps !! i = Some pc.

(** A step of the thread is a step of the system that leaves the other attempts alone; the
    thread's attempt keeps its position or is a new one. *)
Lemma local_step_sys ok s l s' l' i ps :
  local_step ok (s, l) (s', l') -> at_position l i ps ->
  exists i' ps', sys_step (mkConfiguration s ps) (mkConfiguration s' ps') /\ at_position l' i' ps' /\
    (i' = i \/ i' = length ps) /\ (length ps <= length ps')%nat /\
    forall j pc, j <> i -> ps !! j = Some pc -> ps' !! j = Some pc.
Proof.
  intros H Hi. inversion H as [o s0 l0 Ho | plan s0 s1 x l0 E | s0 pc s1 pc' E]; subst.
  - exists i, ps. split_and!; try done; [apply sys_op | by left].
  - exists (length ps), (ps ++ [started x]). split_and!.
    + by econstructor.
    + intros pc [= <-]. by rewrite lookup_app_r, Nat.sub_diag.
    + by right.
    + rewrite length_app. lia.
    + intros j pc _ Hj. by apply lookup_app_l_Some.
  - exists i, (<[ i := pc' ]> ps). specialize (Hi pc eq_refl). split_and!.
    + by econstructor.
    + intros ? [= <-]. apply list_lookup_insert_eq. by eapply lookup_lt_Some.
    + by left.
    + by rewrite length_insert.
    + intros j pc0 Hj. by rewrite list_lookup_insert_ne.
Qed.

Lemma local_steps_sys ok s l s' l' i ps :
  rtc (local_step ok) (s, l) (s', l') -> at_position l i ps ->
  exists i' ps', rtc sys_step (mkConfiguration s ps) (mkConfiguration s' ps') /\ at_position l' i' ps' /\
    (i' = i \/ length ps <= i')%nat /\ (length ps <= length ps')%nat /\
    forall j pc, j <> i -> ps !! j = Some pc -> ps' !! j = Some pc.
Proof.
  remember (s, l) as x eqn:Ex. remember (s', l') as y eqn:Ey. intros H. revert s l i ps Ex.
  induction H as [x | x [s1 l1] z Hxy _ IH]; intros s l i ps Ex Hi; subst.
  - injection Ex as -> ->. exists i, ps. split_and!; try done. by left.
  - destruct (local_step_sys _ _ _ _ _ _ _ Hxy Hi) as (i1 & ps1 & Hs & Hi1 & Hpos & Hlen & Hother).
    destruct (IH eq_refl _ _ i1 ps1 eq_refl Hi1) as (i2 & ps2 & Hs2 & Hi2 & Hpos2 & Hlen2 & Hother2).
    exists i2, ps2. split_and!; [by eapply rtc_l | done | lia | lia |].
    intros j pc Hj Hpc. assert (j < length ps)%nat by (by eapply lookup_lt_Some).
    apply Hother2; [lia | by apply Hother].
Qed.

(** [s'] is reached from [s] by operations and whole attempts, whatever other attempts are
    in flight. *)
Definition steps (s s' : Impl) : Prop :=
  forall ps, exists ps', rtc sys_step (mkConfiguration s ps) (mkConfiguration s' ps').

#[export] Instance steps_preorder : PreOrder steps.
Proof.
  split; [intros s ps; by exists ps |]. intros s1 s2 s3 H1 H2 ps. destruct (H1 ps) as [ps1 R1]. destruct (H2 ps1) as [ps2 R2].
  exists ps2. by etrans.
Qed.

Lemma reaches_steps ok s s' : reaches ok s s' -> steps s s'.
Proof.
  intros H ps. destruct (H None) as [l' Hr].
  destruct (local_steps_sys _ _ _ _ _ 0%nat ps Hr) as (i' & ps' & Hs & _); [done | by exists ps'].
Qed.

Lemma steps_op o s : steps s (apply_op o s).
Proof. apply (reaches_steps (fun _ => True)). by apply reaches_op. Qed.

(** * What a thread keeps *)

(** No attempt changes the coordinator's epoch or the requests. *)
Lemma pc_step_frame s pc s' pc' : pc_step s pc s' pc' -> im_epoch s' = im_epoch s /\ im_requests s' = im_requests s.
Proof.
  destruct 1 as [| a fo s' x E | | a ao s' x E | | | a re ro s' x E | | a re vo now s' x E]; try done.
  - unfold fence_section, stop, add_fenced_boot in E. repeat case_match; by simplify_eq.
  - unfold activate_section, stop in E. repeat case_match; by simplify_eq.
  - unfold route_section, stop in E. repeat case_match; by simplify_eq.
  - unfold verify_section, stop, add_fenced_boot in E. repeat case_match; by simplify_eq.
Qed.

Lemma prepare_frame plan s s' x : prepare plan s = (s', x) -> im_epoch s' = im_epoch s /\ im_requests s' = im_requests s.
Proof.
  intros E. destruct (prepare_cases plan s) as (s1 & Hs1 & H). rewrite E in H.
  assert (im_epoch s1 = im_epoch s /\ im_requests s1 = im_requests s) as Hf.
  { destruct Hs1 as [-> | ->]; [done |]. unfold snapshot_locked. by destruct (gen_next _). }
  destruct x as [[ar | a] | e]; [by destruct H as (-> & _) | by destruct H as (-> & _) | by destruct H as [-> | ->]].
Qed.

Lemma apply_quiet o s : quiet o -> im_epoch (apply_op o s) = im_epoch s /\ im_requests (apply_op o s) = im_requests s.
Proof.
  destruct o; try done; intros _; cbn [apply_op].
  - unfold create_service. repeat case_match; done.
  - unfold set_initial_assignment, place_initial, push_slot, write_slot. repeat case_match; done.
  - unfold register_target. repeat case_match; done.
  - unfold publish_candidate_facts. repeat case_match; done.
  - unfold publish_candidate_state. repeat case_match; done.
  - unfold publish_candidate_resources. repeat case_match; done.
  - unfold publish_failure. repeat case_match; done.
  - unfold snapshot_locked. repeat case_match; done.
  - destruct (plan_failover_pref_state k pref s) as [-> | ->]; [done |]. unfold snapshot_locked. by destruct (gen_next _).
  - unfold install_route. repeat case_match; done.
  - unfold bind_route_gateway. repeat case_match; done.
  - unfold settle_failback. by case_bool_decide.
Qed.

(** What the operations in [ok] keep of the epoch and the requests, a thread keeps. *)
Definition keeps (P : CoordinatorEpoch -> RequestTracker -> Prop) (s s' : Impl) : Prop :=
  P (im_epoch s) (im_requests s) -> P (im_epoch s') (im_requests s').

Lemma local_keeps ok P s l s' l' :
  (forall o s, ok o -> keeps P s (apply_op o s)) -> rtc (local_step ok) (s, l) (s', l') -> keeps P s s'.
Proof.
  intros Hok. remember (s, l) as x eqn:Ex. remember (s', l') as y eqn:Ey. intros H. revert s l Ex.
  induction H as [x | x [s1 l1] z Hxy _ IH]; intros s l Ex; subst; [simplify_eq; by intros HP |].
  intros HP. apply (IH eq_refl _ _ eq_refl).
  inversion Hxy as [o s0 l0 Ho | plan s0 s2 x l0 E | s0 pc s2 pc' E]; subst; [by apply Hok | |].
  - by destruct (prepare_frame _ _ _ _ E) as [-> ->].
  - by destruct (pc_step_frame _ _ _ _ E) as [-> ->].
Qed.

Lemma quiet_keeps P o s : quiet o -> keeps P s (apply_op o s).
Proof. intros Hq. unfold keeps. by destruct (apply_quiet o s Hq) as [-> ->]. Qed.

(** * Programs *)

Section follows.
Context {W : Type} (ok : FabricOp -> Prop).
Notation R := (Run W).

(** Every action of the thread is a run of [local_step], from wherever the others have
    taken the core. *)
Fixpoint follows {A} (l : option Pc) (p : Prog R A) : Prop :=
  match p with
  | Done _ => True
  | Act m k => forall r, exists l', rtc (local_step ok) (run_impl r, l) (run_impl (m r).1, l') /\ follows l' (k (m r).2)
  end.
Definition tame {A} (p : Prog R A) : Prop := forall l, follows l p.

Lemma tame_ret {A} (x : A) : tame (mret x).
Proof. done. Qed.
Lemma tame_bind {A B} (p : Prog R A) (k : A -> Prog R B) : tame p -> (forall a, tame (k a)) -> tame (p ≫= k).
Proof.
  intros Hp Hk l. specialize (Hp l). revert l Hp. induction p as [[a | e] | C m k' IH]; intros l; cbn; [intros _; apply Hk | done |].
  intros H r. destruct (H r) as (l' & Hr & Hf). exists l'. split; [done |]. by apply IH.
Qed.
Lemma tame_try {A} (p : Prog R A) (h : exn -> Prog R A) : tame p -> (forall e, tame (h e)) -> tame (try_catch p h).
Proof.
  intros Hp Hk l. specialize (Hp l). cbn. revert l Hp. induction p as [[a | e] | C m k' IH]; intros l; cbn; [done | intros _; apply Hk |].
  intros H r. destruct (H r) as (l' & Hr & Hf). exists l'. split; [done |]. by apply IH.
Qed.
Lemma tame_atomic {A} (m : ST R A) : (forall r, reaches ok (run_impl r) (run_impl (m r).1)) -> tame (atomic m).
Proof. intros H l r. destruct (H r l) as [l' Hr]. by exists l'. Qed.
Lemma tame_still {A} (m : ST R A) : (forall r, run_impl (m r).1 = run_impl r) -> tame (atomic m).
Proof. intros H. apply tame_atomic. intros r. by rewrite H. Qed.
Lemma tame_op {A} o (m : ST R A) : ok o -> (forall r, run_impl (m r).1 = apply_op o (run_impl r)) -> tame (atomic m).
Proof. intros Ho H. apply tame_atomic. intros r. rewrite H. by apply reaches_op. Qed.

(** The thread that runs alone. *)
Lemma tame_run {A} (m : ST R A) p : agrees m p -> tame p -> forall r, reaches ok (run_impl r) (run_impl (m r).1).
Proof.
  intros Ha Hp r l. rewrite <- Ha. specialize (Hp l). clear m Ha. revert l r Hp.
  induction p as [x | B m k IH]; intros l r; cbn; [intros _; by exists l |]. intros H. destruct (H r) as (l' & Hr & Hf).
  destruct (m r) as [r' x]. destruct (IH x l' r' Hf) as [l'' Hr']. exists l''. by etrans.
Qed.
End follows.

(** * Attempts *)

Lemma external_still {W A} (f : W -> W * result A) (r : Run W) : run_impl (external f r).1 = run_impl r.
Proof. unfold external. by destruct (f (run_world r)). Qed.

Section attempts.
Context {W : Type} `{Ops : CutoverOps W} (ok : FabricOp -> Prop).
Notation R := (Run W).

Lemma write_still path snap (r : R) : run_impl (write_snapshot path snap r).1 = run_impl r.
Proof. unfold write_snapshot. by destruct (save_file _ _ _ _). Qed.

(** The thread is in an attempt that stands at [pc]. *)
Definition drives {A} (pc : Pc) (p : Prog R A) : Prop := follows ok (Some pc) p.

(** An action that leaves the core alone, and the rest. *)
Lemma drives_still {A B} pc (m : ST R A) (k : A -> Prog R B) :
  (forall r, run_impl (m r).1 = run_impl r) -> (forall a, drives pc (k a)) -> drives pc (atomic m ≫= k).
Proof. intros Hm Hk r. exists (Some pc). rewrite Hm. split; [done |]. destruct (m r) as [r' [a | e]]; [apply Hk | done]. Qed.

(** A locked section of the attempt. *)
Lemma drives_section (f : Impl -> Impl * (AttemptResult + Attempt)) (k : Attempt -> Prog R AttemptResult) pc next :
  (forall s s' x, f s = (s', x) -> pc_step s pc s' (continue_with next x)) ->
  (forall a, drives (next a) (k a)) -> drives pc (unless_done (locked f) k).
Proof.
  intros Hf Hk r. unfold locked. destruct (f (run_impl r)) as [s' x] eqn:E. exists (Some (continue_with next x)).
  split; [by apply rtc_once, local_section, Hf |]. destruct x as [ar | a]; [done | apply Hk].
Qed.

(** A checkpoint of the attempt: recorded, saved, and the early return at the barrier. *)
Lemma drives_milestone m a rt (k : Prog R AttemptResult) pc next :
  (forall s, pc_step s pc (txn_of m a rt s) next) -> drives next k -> drives pc (at_milestone m a rt k).
Proof.
  intros Hstep Hk r. exists (Some next). split; [apply rtc_once, local_section, Hstep |]. cbn. intros r1. exists (Some next).
  split; [done |]. cbn.
  assert (forall r2 : R, exists l', rtc (local_step ok) (run_impl r2, Some next) (run_impl r2, l') /\
    follows ok l' (if bool_decide (im_barrier_milestone (run_impl r2) = m) then mret (interrupted a m) else k)) as Hgo.
  { intros r2. exists (Some next). split; [done |]. by case_bool_decide. }
  destruct (String.eqb _ ""); cbn; [apply Hgo |]. intros r2. exists (Some next). split; [done |]. cbn. intros r3. exists (Some next).
  rewrite write_still. split; [done |]. destruct (write_snapshot _ _ r3) as [r4 [[] | e]]; cbn; [apply Hgo | done].
Qed.

(** The core is read, which is a step of the attempt. *)
Lemma drives_read {A} pc next (k : Impl -> Prog R A) :
  (forall s, pc_step s pc s (next s)) -> (forall s, drives (next s) (k s)) -> drives pc (atomic (gets run_impl) ≫= k).
Proof.
  intros Hn Hk r. exists (Some (next (run_impl r))). split; [apply rtc_once, local_section, Hn | apply Hk].
Qed.

Lemma promote_drives t0 a : drives (AtActivate a) (promote t0 a).
Proof.
  unfold promote. apply drives_still; [done |]. intros s. apply drives_still; [apply external_still |]. intros ao.
  eapply (drives_section _ _ _ AtActivated); [intros; by econstructor |]. intros a1.
  eapply drives_milestone; [intros s1; apply pc_activated; by left |].
  eapply (drives_read _ (fun s => AtRoute a1 (route_for s a1))); [intros; constructor |]. intros s1.
  apply drives_still; [apply external_still |]. intros ro.
  eapply (drives_section _ _ _ (fun a2 => AtRouted a2 (route_for s1 a1))); [intros; by econstructor |]. intros a2.
  eapply drives_milestone; [intros s2; apply pc_routed; by left |].
  apply drives_still; [apply external_still |]. intros vo. apply drives_still; [done |]. intros tc r.
  unfold locked. destruct (verify_section a2 vo tc (run_impl r)) as [s' x] eqn:E.
  eexists. split; [by eapply rtc_once, local_section, pc_verify |].
  destruct x as [ar | a3]; cbn; [| done]. case_bool_decide; [| done]. intros r1. by eexists.
Qed.

(** [execute_plan] is the attempt it starts, whatever other attempts are in flight. *)
Lemma tame_plan plan : tame ok (run_plan (M := Prog R) plan).
Proof.
  intros l r. unfold locked_st. destruct (prepare plan (run_impl r)) as [s' x] eqn:E.
  exists (Some (started x)). split; [by eapply rtc_once, local_start |]. destruct x as [[ar | a] | e]; [done | | done].
  change (drives (AtIntent a) (at_milestone Milestone.INTENT_ONLY a None (
    t0 ⇐ now; fo ⇐ fence_call a;
    unless_done (locked (fence_section a fo)) (fun a => at_milestone Milestone.OLD_ADMISSION_FENCED a None (promote t0 a))))).
  eapply drives_milestone; [intros s; apply pc_intent; by left |]. apply drives_still; [done |]. intros t0.
  apply drives_still; [intros r'; unfold fence_call; destruct (at_old a); [apply external_still | done] |]. intros fo.
  eapply (drives_section _ _ _ AtFenced); [intros; by econstructor |]. intros a1.
  eapply drives_milestone; [intros s; apply pc_fenced; by left |]. apply promote_drives.
Qed.

Lemma agrees_checkpoint m pend src rt : agrees (S := R) (checkpoint m pend src rt) (checkpoint m pend src rt).
Proof. unfold checkpoint, save. solve_agrees. Qed.
Lemma agrees_unless_done m (k : Attempt -> ST R AttemptResult) q :
  (forall a, agrees (k a) (q a)) -> agrees (unless_done m k) (unless_done m q).
Proof. intros Hk. unfold unless_done. solve_agrees. apply Hk. Qed.
Lemma agrees_milestone m a rt (k : ST R AttemptResult) q :
  agrees k q -> agrees (at_milestone m a rt k) (at_milestone m a rt q).
Proof. intros Hk. unfold at_milestone. apply agrees_bind; [apply agrees_checkpoint |]. intros []; [apply agrees_ret | done]. Qed.
Lemma agrees_plan plan : agrees (S := R) (execute_plan plan) (run_plan plan).
Proof.
  unfold execute_plan, run_plan, promote.
  repeat (solve_agrees; first [apply agrees_unless_done; intros ? | apply agrees_milestone]).
Qed.
Lemma agrees_failback k : agrees (S := R) (execute_failback k) (failback_run k).
Proof. unfold execute_failback, failback_run. solve_agrees. apply agrees_plan. Qed.
End attempts.

(** * Handlers *)

Section handlers.
Context {N : Type} `{Net : PeerNet N}.
Notation R := (Run (Coord N)).
Notation P := (Prog R).

(** A handler that runs alone is the sequence of its actions. *)
Lemma agrees_respond p f type l : agrees (S := R) (respond p f type l) (respond p f type l).
Proof. unfold respond. solve_agrees. Qed.
Lemma agrees_push_routes p boot l : agrees (S := R) (push_routes p boot l) (push_routes p boot l).
Proof. induction l as [| svc l IH]; cbn [push_routes]; [apply agrees_ret |]. unfold push_route. solve_agrees; apply IH. Qed.
Lemma agrees_handle p f : agrees (S := R) (handle p f) (handler p f).
Proof.
  unfold handle, handler. apply agrees_try; [| intros e; unfold error_reply; apply agrees_respond].
  unfold dispatch, on_hello, on_publish_readiness, on_register, on_execute_failover, on_request_failback, on_publish_failure,
    on_query_route, on_check_route_ack, on_authorize_request, refuses_replay, on_authorize_result, on_classify_request, on_save, save,
    error_reply, read_into.
  destruct (fr_type f); solve_agrees; first [apply agrees_respond | apply agrees_push_routes | apply agrees_plan | apply agrees_failback].
Qed.

(** The actions of the handlers are steps of the system. *)
Context (ok : FabricOp -> Prop) (Hok : forall o, quiet o -> ok o).
Notation tame := (tame (W := Coord N) ok).

Lemma tame_external {A} (f : Coord N -> Coord N * result A) : tame (atomic (external f)).
Proof. apply tame_still, external_still. Qed.
Lemma tame_respond p f type l : tame (respond p f type l).
Proof. apply tame_bind; [apply tame_external | intros; apply tame_ret]. Qed.
Lemma tame_save ep path : tame (save (Ops := SocketOps ep) (M := P) path).
Proof. apply tame_bind; [by apply tame_still |]. intros snap. apply tame_still, (write_still (Ops := SocketOps ep)). Qed.
Lemma tame_locked {A} o (f : Impl -> Impl * A) : quiet o -> (forall s, (f s).1 = apply_op o s) -> tame (atomic (locked f)).
Proof. intros Hq Hf. apply (tame_op _ o); [by apply Hok |]. intros r. rewrite <- Hf. unfold locked. by destruct (f (run_impl r)). Qed.
Lemma tame_locked_st {A} o (f : ST Impl A) : quiet o -> (forall s, (f s).1 = apply_op o s) -> tame (atomic (locked_st f)).
Proof. intros Hq Hf. apply (tame_op _ o); [by apply Hok |]. intros r. rewrite <- Hf. unfold locked_st. by destruct (f (run_impl r)). Qed.
Lemma tame_update o f : quiet o -> (forall s, f s = apply_op o s) -> tame (atomic (update f)).
Proof. intros Hq Hf. by apply (tame_locked o). Qed.

(** Follow a handler: its binds and branches, its calls of the core. *)
Ltac solve_tame :=
  repeat lazymatch goal with
  | |- tame (respond _ _ _ _) => apply tame_respond
  | |- tame (error_reply _ _ _) => apply tame_respond
  | |- tame (run_plan _) => apply tame_plan
  | |- tame (save _) => apply tame_save
  | |- tame (atomic (locked_st (set_initial_assignment ?n ?a))) => apply (tame_locked_st (OpSetInitialAssignment n a)); [exact I | intros; exact eq_refl]
  | |- tame (atomic (locked (install_route ?e ?b))) => apply (tame_locked (OpInstallRoute e b)); [exact I | intros; exact eq_refl]
  | |- tame (atomic (locked (bind_route_gateway ?k ?b))) => apply (tame_locked (OpBindRoute k b)); [exact I | intros; exact eq_refl]
  | |- tame (atomic (locked (fun s => (settle_failback ?k ?ar ?t s, tt)))) => apply (tame_locked (OpSettleFailback k ar t)); [exact I | intros; exact eq_refl]
  | |- tame (atomic (locked_st (publish_candidate_facts ?n ?cf))) => apply (tame_locked_st (OpPublishFacts n cf)); [exact I | intros; exact eq_refl]
  | |- tame (atomic (locked_st (register_target ?t ?tr))) => apply (tame_locked_st (OpRegisterTarget t tr)); [exact I | intros; exact eq_refl]
  | |- tame (atomic (locked_st (publish_candidate_state ?t ?st))) => apply (tame_locked_st (OpPublishState t st)); [exact I | intros; exact eq_refl]
  | |- tame (atomic (locked_st (publish_candidate_resources ?t ?l))) => apply (tame_locked_st (OpPublishResources t l)); [exact I | intros; exact eq_refl]
  | |- tame (atomic (locked_st (create_service ?d))) => apply (tame_locked_st (OpCreateService d)); [exact I | intros; exact eq_refl]
  | |- tame (atomic (locked_st (plan_failover_pref ?k ?pref))) => apply (tame_locked_st (OpPlanFailover k pref)); [exact I | intros; exact eq_refl]
  | |- tame (atomic (locked_st (plan_failover ?k))) => apply (tame_locked_st (OpPlanFailover k None)); [exact I | intros; exact eq_refl]
  | |- tame (atomic (update (set_gateway_boot ?b))) => apply (tame_update (OpSetGatewayBoot b)); [exact I | intros; exact eq_refl]
  | |- tame (atomic (update (set_cutover_barrier ?m))) => apply (tame_update (OpSetBarrier m)); [exact I | intros; exact eq_refl]
  | |- tame (atomic (update clear_cutover_barrier)) => apply (tame_update OpClearBarrier); [exact I | intros; exact eq_refl]
  | |- tame (atomic (update (authorize_failback ?k))) => apply (tame_update (OpAuthorizeFailback k)); [exact I | intros; exact eq_refl]
  | |- tame (atomic (update (publish_failure ?ev))) => apply (tame_update (OpPublishFailure ev)); [exact I | intros; exact eq_refl]
  | |- tame (atomic (update record_dispatch)) => apply (tame_update OpRecordDispatch); [exact I | intros; exact eq_refl]
  | |- tame (atomic (external _)) => apply tame_external
  | |- tame (atomic (world _)) => apply tame_external
  | |- tame (atomic (lift _)) => apply tame_still; intros; exact eq_refl
  | |- tame (atomic (gets _)) => apply tame_still; intros; exact eq_refl
  | |- tame (atomic (core _)) => apply tame_still; intros; exact eq_refl
  | |- tame (atomic clock) => apply tame_still; intros; exact eq_refl
  | |- tame (atomic epoch_value) => apply tame_still; intros; exact eq_refl
  | |- tame (atomic now) => apply tame_still; intros; exact eq_refl
  | |- tame (mret _) => apply tame_ret
  | |- tame (try_catch _ _) => apply tame_try; [| intros ?]
  | |- tame (mbind _ _) => apply tame_bind; [| intros ?]
  | |- tame (let _ := _ in _) => cbv zeta
  | |- tame (match ?x with _ => _ end) => destruct x
  end.

Lemma tame_push_routes p boot l : tame (push_routes p boot l).
Proof. induction l as [| svc l IH]; cbn [push_routes]; [apply tame_ret |]. unfold push_route. solve_tame; apply IH. Qed.
Lemma tame_failback ep k : tame (failback_run (Ops := SocketOps ep) (M := P) k).
Proof. unfold failback_run. solve_tame. Qed.

(** The handlers that write no request. *)
Lemma tame_hello p f : tame (on_hello (M := P) p f).
Proof. unfold on_hello, read_into. solve_tame. apply tame_push_routes. Qed.
Lemma tame_readiness p f : tame (on_publish_readiness (M := P) p f).
Proof. unfold on_publish_readiness. solve_tame. Qed.
Lemma tame_register p f : tame (on_register (M := P) p f).
Proof. unfold on_register. solve_tame. Qed.
Lemma tame_execute p f : tame (on_execute_failover (M := P) p f).
Proof. unfold on_execute_failover. solve_tame. Qed.
Lemma tame_request_failback p f : tame (on_request_failback (M := P) p f).
Proof. unfold on_request_failback. solve_tame. apply tame_failback. Qed.
Lemma tame_publish p f : tame (on_publish_failure (M := P) p f).
Proof. unfold on_publish_failure. solve_tame. Qed.
Lemma tame_query p f : tame (on_query_route (M := P) p f).
Proof. unfold on_query_route. solve_tame. Qed.
Lemma tame_ack p f : tame (on_check_route_ack (M := P) p f).
Proof. unfold on_check_route_ack. solve_tame. Qed.
Lemma tame_classify p f : tame (on_classify_request (M := P) p f).
Proof. unfold on_classify_request. solve_tame. Qed.
Lemma tame_save_handler p f : tame (on_save (M := P) p f).
Proof. unfold on_save. solve_tame. Qed.
Lemma tame_handler_quiet p f :
  fr_type f <> MsgType.AUTHORIZE_REQUEST -> fr_type f <> MsgType.AUTHORIZE_RESULT -> tame (handler (M := P) p f).
Proof.
  intros Hq Hr. unfold handler. apply tame_try; [| intros; apply tame_respond]. unfold dispatch.
  destruct (fr_type f); try done; auto using tame_hello, tame_readiness, tame_register, tame_execute, tame_request_failback,
    tame_publish, tame_query, tame_ack, tame_classify, tame_save_handler, tame_ret.
  solve_tame.
Qed.

(** The two that do. *)
Context (Hrec : forall q, ok (OpRecordRequest q)) (Hmark : forall id k, ok (OpMarkUnknown id k)).

Lemma tame_record q : tame (atomic (update (record_request q))).
Proof. by apply (tame_op _ (OpRecordRequest q)). Qed.
Lemma tame_mark id k : tame (atomic (update (mark_outcome_unknown id k))).
Proof. by apply (tame_op _ (OpMarkUnknown id k)). Qed.
Lemma tame_handler p f : tame (handler (M := P) p f).
Proof.
  destruct (decide (fr_type f = MsgType.AUTHORIZE_REQUEST)) as [E | E1];
    [| destruct (decide (fr_type f = MsgType.AUTHORIZE_RESULT)) as [E | E2]; [| by apply tame_handler_quiet]];
    unfold handler, dispatch; rewrite E; (apply tame_try; [| intros; apply tame_respond]);
    unfold on_authorize_request, refuses_replay, on_authorize_result; solve_tame; first [apply tame_record | apply tame_mark].
Qed.
End handlers.
