(* ===== verification/Process.v ===== *)
(** The running coordinator process: what its replies mean, and what holds however long it
    runs.

    A run is a list of events from the start of the process: a connection accepted, a
    frame handled, or anything that happens to the network.  The handlers of one run
    come one after the other; Concurrent has the runs in which they interleave. *)

From stdpp Require Import base list gmap strings pretty relations.
From Stdlib Require Import ZArith Lia.
From S2P Require Import Prelude Threads Identities Types Double Bytes Model Codec Domains Evidence Routes Requests.
From S2P Require Import Recovery Selection Persistence Fabric Cutover Failback Invariant System CutoverSpec Restart.
From S2P Require Import Protocol Wire Gateway Coordinator CoordinatorSpec.

Open Scope Z_scope.

(** * Runs of the process *)

Section process.
Context {N : Type} `{Net : PeerNet N}.
Notation R := (Run (Coord N)).
Implicit Types (r : R).

(** The handlers as they run alone. *)
#[local] Notation respond := (Coordinator.respond (M := ST R)).
#[local] Notation dispatch := (Coordinator.dispatch (M := ST R)).
#[local] Notation on_authorize_request := (Coordinator.on_authorize_request (M := ST R)).
#[local] Notation on_authorize_result := (Coordinator.on_authorize_result (M := ST R)).

Inductive CoordEvent : Type :=
  | Accepted
  | Received (p : Z) (f : Frame)
  | NetChanged (n : N).

Definition coord_event (e : CoordEvent) (r : R) : R :=
  match e with
  | Accepted => (coordinator_accept r).1
  | Received p f => (handle p f r).1
  | NetChanged n => mkRun (run_impl r) (run_fs r) (run_world r <| co_net := n |>)
  end.
Definition coord_run (es : list CoordEvent) (r : R) : R := foldl (fun r e => coord_event e r) r es.

(** A process that started with the arguments [a] and has run since. *)
Definition process `{EvalOrder} (a : CoordArgs) (fs : FileSystem) (n : N) (es : list CoordEvent) (r : R) : Prop :=
  exists s, coordinator_start a fs = Ok s /\ r = coord_run es (mkRun s fs (coord_init n)).

(** * Lemmas: replies *)

Lemma bind_fst {S A B} (m : ST S A) (k : A -> ST S B) (r : S) :
  ((m ≫= k) r).1 = match (m r).2 with Ok a => (k a (m r).1).1 | Throw _ => (m r).1 end.
Proof. unfold mbind, st_bind. by destruct (m r) as [r' [a | e]]. Qed.


Lemma external_ok {A} (f : Coord N -> Coord N * result A) r r' x :
  external f r = (r', Ok x) -> exists w, f (run_world r) = (w, Ok x) /\ r' = mkRun (run_impl r) (run_fs r) w.
Proof. unfold external. destruct (f (run_world r)) as [w y]. intros [= <- ->]. eauto. Qed.

Lemma update_ok f r r' x : update f r = (r', Ok x) -> run_impl r' = f (run_impl r).
Proof. unfold update, locked. by intros [= <- _]. Qed.

(** A reply that was sent is the message of its fields. *)
Lemma co_send_message p type msg_id epoch l w w' g :
  co_send (N := N) p type msg_id epoch l w = (w', Ok (Some g)) -> message type msg_id epoch l = Ok g.
Proof.
  unfold co_send. intros H. st_inv H as w1 b H2. apply lift_ok in H2 as [-> Hp]. st_inv H as w2 c H2.
  destruct c as [c |]; [| apply ret_ok in H as [_ [=]]]. cbv zeta in H. st_inv H as w3 e H3. apply lift_ok in H3 as [-> He].
  st_inv H as w3 u H3. apply ret_ok in H as [_ [= ->]]. unfold message. rewrite Hp. unfold mbind, result_bind. by rewrite He.
Qed.
Lemma respond_ok p f type l r r' x :
  respond p f type l r = (r', Ok x) -> run_impl r' = run_impl r /\
    (x = Silent \/ exists g, x = Replied g /\ message type (fr_msg_id f) (fr_epoch f) l = Ok g).
Proof.
  unfold Coordinator.respond. alone. intros H. st_inv H as r1 y H1. apply ret_ok in H as [-> ->].
  apply external_ok in H1 as (w & H1 & ->). split; [done |]. destruct y as [g |]; [right | by left]. exists g. split; [done |].
  by eapply co_send_message.
Qed.

Lemma respond_flag p f type l b r r' g :
  respond p f type l r = (r', Ok (Replied g)) ->
  find_field (field_of <$> l) fid_ok = Some (field_of (fid_ok, VBool b)) ->
  run_impl r' = run_impl r /\ fr_type g = type /\ fr_msg_id g = fr_msg_id f /\ frame_flag g fid_ok = b.
Proof.
  intros [Hi [[=] | (g' & [= <-] & Hm)]]%respond_ok Hf. split; [done |].
  pose proof (message_inv _ _ _ _ _ Hm) as (? & ? & _ & _). split_and!; [done | done |]. by eapply message_flag.
Qed.

Lemma respond_still p f type l r : run_impl (respond p f type l r).1 = run_impl r.
Proof.
  unfold Coordinator.respond. alone. rewrite bind_fst. pose proof (external_still (co_send p type (fr_msg_id f) (fr_epoch f) l) r) as He.
  by destruct (external _ r) as [r1 [x | e]].
Qed.

(** An exception is answered, but never with ok. *)
Lemma handle_inv p f r r' g :
  handle p f r = (r', Ok (Replied g)) ->
  dispatch p f r = (r', Ok (Replied g)) \/
  (frame_flag g fid_ok = false /\ fr_type g = MsgType.ERROR_MSG /\
     exists r1 e, dispatch p f r = (r1, Throw e) /\ run_impl r' = run_impl r1).
Proof.
  unfold handle, handler. alone. unfold st_catch. destruct (dispatch p f r) as [r1 [x | e]]; [by left |]. intros H. right.
  destruct (respond_flag _ _ _ _ false _ _ _ H eq_refl) as (Hi & Hty & _ & Hf). eauto 10.
Qed.

Lemma handle_core p f r : run_impl (handle p f r).1 = run_impl (dispatch p f r).1.
Proof.
  unfold handle, handler. alone. unfold st_catch. destruct (dispatch p f r) as [r1 [x | e]]; [done |].
  unfold error_reply. apply respond_still.
Qed.

Lemma handle_ok p f r r' g :
  handle p f r = (r', Ok (Replied g)) -> frame_flag g fid_ok = true -> dispatch p f r = (r', Ok (Replied g)).
Proof. intros [H | [Hf _]]%handle_inv Hok; [done | congruence]. Qed.

(** * Lemmas: authorizations *)

(** An accepted result was presented with an authorization that passes the gate. *)
Lemma result_accepted p f r r' g :
  fr_type f = MsgType.AUTHORIZE_RESULT -> handle p f r = (r', Ok (Replied g)) -> frame_flag g fid_ok = true ->
  exists fs sid auth, payload_reader (fr_payload f) = Ok fs /\ p_u64 fs fid_service = Ok sid /\
    read_result_auth fs (slot1 sid) = Ok auth /\ flag fs fid_withheld = Ok false /\
    gd_allowed (authorize_result (run_impl r) auth) = true /\ run_impl r' = run_impl r.
Proof.
  intros Ht H Hok. apply handle_ok in H; [| done]. unfold Coordinator.dispatch in H. rewrite Ht in H. unfold Coordinator.on_authorize_result in H. alone in H.
  st_inv H as s1 fs H1. apply lift_ok in H1 as [-> Hfs]. st_inv H as s1 sid H1. apply lift_ok in H1 as [-> Hsid].
  st_inv H as s1 auth H1. apply lift_ok in H1 as [-> Ha]. st_inv H as s1 w H1. apply lift_ok in H1 as [-> Hw].
  destruct w.
  - st_inv H as s1 st H1. st_inv H as s2 u H2. destruct (respond_flag _ _ _ _ false _ _ _ H eq_refl) as (_ & _ & _ & Hf). congruence.
  - st_inv H as s1 d H1. apply gets_ok in H1 as [-> ->].
    destruct (respond_flag _ _ _ _ (gd_allowed (authorize_result (run_impl r) auth)) _ _ _ H eq_refl) as (Hi & _ & _ & Hf).
    exists fs, sid, auth. split_and!; congruence.
Qed.

(** A request of unknown outcome whose policy forbids to replay it. *)
Definition replay_refused (s : Impl) (req : RequestId) : bool :=
  match request_state s req with
  | Some st => disposition_is RequestDisposition.OUTCOME_UNKNOWN st && negb (retry_allowed s req)
  | None => false
  end.

Lemma refuses_replay_alone req r : (refuses_replay req : ST R bool) r = (r, Ok (replay_refused (run_impl r) req)).
Proof.
  unfold refuses_replay, replay_refused, mbind, st_bind. alone. cbn [core gets].
  destruct (request_state _ _) as [st |]; [| done]. by destruct (disposition_is _ st).
Qed.

(** What a withheld result leaves. *)
Definition note_withheld (auth : WorkerAuthorization) (s : Impl) : Impl :=
  match request_state s (wa_request auth) with
  | Some st => if disposition_is RequestDisposition.OUTCOME_UNKNOWN st then s
               else mark_outcome_unknown (wa_request auth) (wa_slot auth) s
  | None => record_request (withheld_record auth) s
  end.

(** A granted request: the slot's current ACTIVE assignment, as it is recorded and sent. *)
Lemma request_granted p f r r' g :
  on_authorize_request p f r = (r', Ok (Replied g)) -> frame_flag g fid_ok = true ->
  exists fs sid req cur idem eff, payload_reader (fr_payload f) = Ok fs /\ p_u64 fs fid_service = Ok sid /\
    p_u64 fs fid_request_id = Ok req /\ flag fs fid_idempotent = Ok idem /\
    slot_current (run_impl r) (slot1 sid) = Some cur /\ asg_state cur = AssignmentState.ACTIVE /\
    replay_refused (run_impl r) (mkId req) = false /\
    let auth := dispatch_auth (im_epoch (run_impl r)) (slot1 sid) req cur in
    run_impl r' = record_dispatch (record_request (dispatched_record auth idem eff) (run_impl r)) /\
    message MsgType.AUTHORIZE_REQUEST (fr_msg_id f) (fr_epoch f) (grant_fields auth) = Ok g.
Proof.
  unfold Coordinator.on_authorize_request. alone. intros H Hok. st_inv H as s1 fs H1. apply lift_ok in H1 as [-> Hfs].
  st_inv H as s1 sid H1. apply lift_ok in H1 as [-> Hsid]. st_inv H as s1 req H1. apply lift_ok in H1 as [-> Hreq].
  st_inv H as s1 idem H1. apply lift_ok in H1 as [-> Hidem]. st_inv H as s1 eff H1. apply lift_ok in H1 as [-> Heff].
  cbv zeta in H. st_inv H as s1 cur H1. apply gets_ok in H1 as [-> ->]. unfold current_assignment in H.
  assert (forall why, respond p f MsgType.AUTHORIZE_REQUEST [(fid_ok, VBool false); (fid_detail, VStr why)] r = (r', Ok (Replied g)) -> False)
    as Hno.
  { intros why Hr. destruct (respond_flag _ _ _ _ false _ _ _ Hr eq_refl) as (_ & _ & _ & Hf). congruence. }
  destruct (slot_current (run_impl r) (slot1 sid)) as [cur |] eqn:Ec; [| by apply Hno in H].
  revert H. case_bool_decide as Hact; cbn [negb]; [| by intros H%Hno]. intros H. st_inv H as s1 no H1.
  rewrite refuses_replay_alone in H1. injection H1 as <- <-. destruct (replay_refused _ _) eqn:Er; [by apply Hno in H |].
  st_inv H as s1 ep H1. apply gets_ok in H1 as [-> ->].
  st_inv H as r1 u1 H1. apply update_ok in H1. st_inv H as r2 u2 H2. apply update_ok in H2.
  apply respond_ok in H as [Hi [[=] | (g' & [= <-] & Hm)]]. rewrite H2, H1 in Hi.
  exists fs, sid, req, cur, idem, eff. by split_and!.
Qed.

(** What the two handlers of authorizations do to the core, however they end. *)

Lemma lift_bind_cases {A B} (x : result A) (k : A -> ST R B) r :
  (exists a, x = Ok a /\ ((lift x ≫= k) r) = k a r) \/ ((lift x ≫= k) r).1 = r.
Proof. unfold mbind, st_bind, lift. destruct x as [a | e]; [left; by exists a | by right]. Qed.

Lemma lift_bind_ok {A B} (x : result A) a (k : A -> ST R B) r : x = Ok a -> (lift x ≫= k) r = k a r.
Proof. by intros ->. Qed.

Definition granted (s s' : Impl) : Prop :=
  exists sid req cur idem eff, slot_current s (slot1 sid) = Some cur /\ asg_state cur = AssignmentState.ACTIVE /\
    replay_refused s (mkId req) = false /\
    s' = record_dispatch (record_request (dispatched_record (dispatch_auth (im_epoch s) (slot1 sid) req cur) idem eff) s).

(** The next read of the payload: it throws, and nothing has happened, or it gives a value. *)
Ltac read_next E a H :=
  match type of E with context [(lift ?x ≫= ?k) ?r] =>
    let Heq := fresh in
    destruct (lift_bind_cases x k r) as [(a & H & Heq) | Heq]; rewrite Heq in E; clear Heq; [| by left]
  end.

Lemma authorize_request_core p f r s' :
  run_impl (on_authorize_request p f r).1 = s' -> s' = run_impl r \/ granted (run_impl r) s'.
Proof.
  intros E. unfold Coordinator.on_authorize_request in E. alone in E. read_next E fs Hfs. read_next E sid Hsid. read_next E req Hreq.
  read_next E idem Hid. read_next E eff Hef. cbv zeta in E. rewrite bind_fst in E. cbn [core gets fst snd] in E.
  unfold current_assignment in E.
  destruct (slot_current (run_impl r) (slot1 sid)) as [cur |] eqn:Ec; [| left; by rewrite <- E, respond_still].
  revert E. case_bool_decide as Hact; cbn [negb]; [| intros <-; left; by rewrite respond_still].
  rewrite bind_fst, refuses_replay_alone. cbn [fst snd].
  destruct (replay_refused _ _) eqn:Er; [intros <-; left; by rewrite respond_still |].
  rewrite bind_fst. cbn [core gets fst snd]. rewrite bind_fst. cbn [update locked fst snd run_impl run_fs run_world]. rewrite bind_fst.
  cbn [update locked fst snd run_impl run_fs run_world]. rewrite respond_still. intros <-. right. by exists sid, req, cur, idem, eff.
Qed.

(** The handler of a withheld result, after it has read the payload. *)
Lemma withheld_alone auth (k : unit -> ST R Handled) r :
  (st ← core (fun s => request_state s (wa_request auth));
   _ ← (match st with
        | Some st => if disposition_is RequestDisposition.OUTCOME_UNKNOWN st then mret tt
                     else update (mark_outcome_unknown (wa_request auth) (wa_slot auth))
        | None => update (record_request (withheld_record auth))
        end); k tt) r = k tt (mkRun (note_withheld auth (run_impl r)) (run_fs r) (run_world r)).
Proof.
  unfold mbind, st_bind, note_withheld. cbn [core gets]. destruct (request_state _ _) as [st |]; [| done].
  destruct (disposition_is _ st); [by destruct r | done].
Qed.

Lemma authorize_result_core p f r s' :
  run_impl (on_authorize_result p f r).1 = s' -> s' = run_impl r \/ exists auth, s' = note_withheld auth (run_impl r).
Proof.
  intros E. unfold Coordinator.on_authorize_result in E. alone in E. read_next E fs Hfs. read_next E sid Hsid. read_next E auth Ha. read_next E w Hw.
  destruct w.
  - rewrite (withheld_alone auth (fun _ => _)) in E. rewrite respond_still in E. right. by exists auth.
  - left. rewrite bind_fst in E. cbn [core gets fst snd] in E. by rewrite respond_still in E.
Qed.

(** The fields of an authorization that was read. *)
Lemma read_result_auth_fields fs k auth :
  read_result_auth fs k = Ok auth ->
  p_u64 fs fid_boot = Ok (id_value (wa_worker_boot auth)) /\ p_u64 fs fid_epoch = Ok (ep_epoch (wa_epoch auth)) /\
  wa_slot auth = k.
Proof.
  unfold read_result_auth. intros H. do 10 (result_inv H as ? ?). by injection H as <-.
Qed.
Lemma read_result_auth_boot fs k auth b :
  read_result_auth fs k = Ok auth -> p_u64 fs fid_boot = Ok b -> wa_worker_boot auth = mkId b.
Proof. intros (Hb & _)%read_result_auth_fields Hb'. destruct (wa_worker_boot auth) as [v]. simpl in Hb. congruence. Qed.
Lemma read_result_auth_epoch fs k auth e :
  read_result_auth fs k = Ok auth -> p_u64 fs fid_epoch = Ok e -> ep_epoch (wa_epoch auth) = e.
Proof. intros (_ & He & _)%read_result_auth_fields He'. congruence. Qed.

(** * Lemmas: runs *)

Lemma handle_reaches p f r : reaches (fun _ => True) (run_impl r) (run_impl (handle p f r).1).
Proof. by apply (tame_run _ _ (handler p f)); [apply agrees_handle | apply tame_handler]. Qed.

Lemma run_steps es r : steps (run_impl r) (run_impl (coord_run es r)).
Proof.
  revert r. induction es as [| e es IH]; intros r; [done |]. cbn [coord_run foldl].
  etrans; [| apply IH]. destruct e as [| p f | n]; cbn [coord_event]; [done | | done].
  eapply reaches_steps, handle_reaches.
Qed.

(** The requests of unknown outcome that must not be replayed. *)
Definition unknown_final (id : RequestId) (rec : RequestRecord) (t : RequestTracker) : Prop :=
  request_find t id = Some rec /\ rq_disposition rec = RequestDisposition.OUTCOME_UNKNOWN /\ record_retry_allowed rec = false.

Lemma unknown_refused id rec s : unknown_final id rec (im_requests s) -> replay_refused s id = true.
Proof.
  intros (Hf & Hd & Hr). unfold replay_refused, request_state, retry_allowed. rewrite Hf. unfold disposition_is.
  by rewrite Hd, Hr.
Qed.

(** No handler changes the epoch, or the record of a request of unknown outcome. *)
Lemma handle_keeps (P : CoordinatorEpoch -> RequestTracker -> Prop) p f r :
  (forall s s', granted s s' -> keeps P s s') -> (forall auth s, keeps P s (note_withheld auth s)) ->
  keeps P (run_impl r) (run_impl (handle p f r).1).
Proof.
  intros Hg Hw. destruct (decide (fr_type f = MsgType.AUTHORIZE_REQUEST)) as [E | E1];
    [| destruct (decide (fr_type f = MsgType.AUTHORIZE_RESULT)) as [E | E2]].
  - rewrite handle_core. unfold Coordinator.dispatch. rewrite E.
    destruct (authorize_request_core p f r _ eq_refl) as [-> | H]; [by intros ? | by apply Hg].
  - rewrite handle_core. unfold Coordinator.dispatch. rewrite E.
    destruct (authorize_result_core p f r _ eq_refl) as [-> | [auth ->]]; [by intros ? | apply Hw].
  - destruct (tame_run quiet (handle p f) (handler p f) (agrees_handle p f) (tame_handler_quiet quiet (fun o H => H) p f E1 E2) r None)
      as [l' Hl]. eapply local_keeps; [| exact Hl]. apply quiet_keeps.
Qed.

Lemma run_keeps (P : CoordinatorEpoch -> RequestTracker -> Prop) es r :
  (forall s s', granted s s' -> keeps P s s') -> (forall auth s, keeps P s (note_withheld auth s)) ->
  keeps P (run_impl r) (run_impl (coord_run es r)).
Proof.
  intros Hg Hw. revert r. induction es as [| e es IH]; intros r; [by intros ? |]. cbn [coord_run foldl]. intros HP. apply IH.
  destruct e as [| p f | n]; cbn [coord_event]; [done | | done]. by apply (handle_keeps P p f r Hg Hw).
Qed.

Lemma run_epoch es r : im_epoch (run_impl (coord_run es r)) = im_epoch (run_impl r).
Proof.
  apply (run_keeps (fun e _ => e = im_epoch (run_impl r)) es r); [| | done].
  - intros s s' (sid & req & cur & idem & eff & _ & _ & _ & ->) E. exact E.
  - intros auth s E. unfold note_withheld. destruct (request_state _ _) as [st |]; [by destruct (disposition_is _ st) | done].
Qed.

Lemma find_recorded q s id :
  request_find (im_requests (record_request q s)) id = if decide (rq_request q = id) then Some q else request_find (im_requests s) id.
Proof. apply request_find_record. Qed.
Lemma find_marked id' k s id :
  request_find (im_requests (mark_outcome_unknown id' k s)) id =
    if decide (id' = id) then (fun q : RequestRecord => q <| rq_disposition := RequestDisposition.OUTCOME_UNKNOWN |>) <$> request_find (im_requests s) id
    else request_find (im_requests s) id.
Proof. apply request_find_unknown. Qed.
Lemma find_dispatched s id : request_find (im_requests (record_dispatch s)) id = request_find (im_requests s) id.
Proof. done. Qed.

Lemma note_withheld_unknown auth s :
  exists rec, request_find (im_requests (note_withheld auth s)) (wa_request auth) = Some rec /\
    rq_disposition rec = RequestDisposition.OUTCOME_UNKNOWN.
Proof.
  unfold note_withheld, request_state. destruct (request_find (im_requests s) (wa_request auth)) as [st |] eqn:E.
  - destruct (disposition_is RequestDisposition.OUTCOME_UNKNOWN st) eqn:Ed.
    + exists st. split; [done |]. by apply bool_decide_eq_true in Ed.
    + rewrite find_marked, decide_True, E by done. by eexists.
  - rewrite find_recorded, decide_True by done. by eexists.
Qed.

Lemma run_unknown id rec es r :
  unknown_final id rec (im_requests (run_impl r)) -> unknown_final id rec (im_requests (run_impl (coord_run es r))).
Proof.
  apply (run_keeps (fun _ t => unknown_final id rec t)).
  - intros s s' (sid & req & cur & idem & eff & _ & _ & Hr & ->) Hu. destruct Hu as (Hf & Hd & Hra). split_and!; try done.
    rewrite find_dispatched, find_recorded. case_decide as Hid; [| done]. change (mkId req = id) in Hid. subst id.
    rewrite (unknown_refused (mkId req) rec s) in Hr; [done | by split_and!].
  - intros auth s (Hf & Hd & Hra). unfold note_withheld, request_state. destruct (decide (wa_request auth = id)) as [<- | Hne].
    + rewrite Hf. unfold disposition_is. by rewrite Hd, bool_decide_true.
    + split_and!; try done. destruct (request_find _ (wa_request auth)) as [st |].
      * destruct (disposition_is _ st); [done |]. rewrite find_marked. by rewrite decide_False.
      * rewrite find_recorded. by rewrite decide_False.
Qed.
End process.

(** * Lemmas: start *)

Lemma load_valid `{EvalOrder} path fs snap : load_file path fs = Ok snap -> SnapshotValid snap.
Proof. unfold load_file. destruct (fs !! path); [| done]. intros Hd. by apply decode_ok in Hd as (_ & _ & _ & ?). Qed.

(** Starting is an operation or two on a new coordinator, or on a restored one. *)
Lemma start_cases `{EvalOrder} a fs s :
  coordinator_start a fs = Ok s ->
  (ca_load a = "" /\ steps (impl_init config_default) s) \/
  (ca_load a <> "" /\ exists s0 snap, impl_wf s0 /\ load_file (ca_load a) fs = Ok snap /\
     s = set_coordinator_identity (mkId 1) (wrap64 (ep_epoch (ps_epoch snap) + 1)) (load_snapshot snap s0)).
Proof.
  unfold coordinator_start. cbv zeta. set (s0 := if String.eqb (ca_checkpoint a) "" then _ else _).
  assert (steps (impl_init config_default) s0) as Hs0.
  { unfold s0. destruct (String.eqb _ _); [done | apply (steps_op (OpSetCheckpointPath _))]. }
  clearbody s0. destruct (String.eqb_spec (ca_load a) "") as [-> | Hne].
  - intros [= <-]. left. split; [done |]. etrans; [exact Hs0 |]. apply (steps_op (OpSetCoordinatorIdentity (mkId 1) 1)).
  - unfold load. destruct (load_file (ca_load a) fs) as [snap | e]; [| done]. pose proof (load_snapshot_epoch snap s0) as He.
    intros [= <-]. right. split; [done |]. exists s0, snap. rewrite He. split_and!; try done.
    destruct (Hs0 []) as [ps Hr]. by destruct (reachable_ok config_default _ Hr).
Qed.

(** A coordinator restored from a file runs under the epoch after the saved one. *)
Lemma restored_epoch `{EvalOrder} a fs s snap :
  coordinator_start a fs = Ok s -> ca_load a <> "" -> load_file (ca_load a) fs = Ok snap -> 0 <= ep_epoch (ps_epoch snap) < 2 ^ 64 - 1 ->
  im_epoch s = mkEpoch (ep_epoch (ps_epoch snap) + 1) (mkId 1) (mkId 1).
Proof.
  intros Hs Hl Hld Hep. destruct (start_cases a fs s Hs) as [[? _] | (_ & s0 & snap' & _ & Hld' & ->)]; [done |].
  rewrite Hld in Hld'. injection Hld' as <-.
  change (mkEpoch (wrap64 (ep_epoch (ps_epoch snap) + 1)) (mkId 1) (mkId 1) = mkEpoch (ep_epoch (ps_epoch snap) + 1) (mkId 1) (mkId 1)).
  unfold wrap64. by rewrite Z.mod_small by lia.
Qed.

Lemma start_wf `{EvalOrder} a fs s : coordinator_start a fs = Ok s -> impl_wf s.
Proof.
  intros [[_ Hs] | (_ & s0 & snap & Hwf & Hl & ->)]%start_cases.
  - destruct (Hs []) as [ps Hr]. by destruct (reachable_ok config_default _ Hr).
  - pose proof (load_snapshot_wf snap s0 Hwf (sv_services _ (load_valid _ _ _ Hl))) as Hwf'. revert Hwf'.
    generalize (load_snapshot snap s0) as s1. intros s1 Hwf'.
    apply (apply_op_wf (OpSetCoordinatorIdentity (mkId 1) (wrap64 (ep_epoch (ps_epoch snap) + 1)))); exact Hwf'.
Qed.

Lemma run_ok {N} `{Net : PeerNet N} es (r : Run (Coord N)) : impl_wf (run_impl r) -> impl_wf (run_impl (coord_run es r)) /\ fences_kept (run_impl r) (run_impl (coord_run es r)).
Proof.
  intros Hwf. destruct (run_steps es r []) as [ps Hps].
  assert (config_ok (mkConfiguration (run_impl r) [])) as Hok by (split; [exact Hwf | constructor]).
  destruct (sys_steps_ok _ _ Hok Hps) as [[Hwf' _] Hk]. by split.
Qed.

(** * Lemmas: failover *)

Lemma same_barrier s0 m s : Same s0 s -> Same s0 (set_cutover_barrier m s).
Proof.
  intros Hs. eapply same_trans; [exact Hs |]. split; try done; [| by intros b].
  apply (apply_op_wf (OpSetBarrier m)), Hs.
Qed.
Lemma same_clear s0 s : Same s0 s -> Same s0 (clear_cutover_barrier s).
Proof. apply same_barrier. Qed.

(** What the handler of a failover leaves behind when it replied. *)
Lemma failover_outcome {N} `{Net : PeerNet N} p f (r r' : Run (Coord N)) g :
  impl_wf (run_impl r) -> (on_execute_failover p f : ST _ _) r = (r', Ok (Replied g)) ->
  exists fs sid, payload_reader (fr_payload f) = Ok fs /\ p_u64 fs fid_service = Ok sid /\
  ((frame_flag g fid_ok = false /\ Same (run_impl r) (run_impl r')) \/
   exists (r1 r2 : Run (Coord N)) ar, frame_flag g fid_ok = true /\
     Same (run_impl r) (run_impl r1) /\ Outcome (run_impl r1) (slot1 sid) r2 (Ok ar) /\
     ar_state ar = AttemptState.COMPLETED /\ run_impl r' = clear_cutover_barrier (run_impl r2) /\
     message MsgType.EXECUTE_FAILOVER (fr_msg_id f) (fr_epoch f)
       (attempt_reply ar (slot_current (run_impl r2) (slot1 sid))) = Ok g).
Proof.
  intros Hwf H. unfold Coordinator.on_execute_failover in H. alone in H. st_inv H as s1 fs H1. apply lift_ok in H1 as [-> Hfs].
  st_inv H as s1 sid H1. apply lift_ok in H1 as [-> Hsid]. exists fs, sid. split; [done |]. split; [done |].
  st_inv H as r1 u H1. assert (Same (run_impl r) (run_impl r1)) as Hs1.
  { destruct (has_field fs fid_state); [| apply ret_ok in H1 as [-> _]; by apply same_refl].
    st_inv H1 as r0 bm H2. apply lift_ok in H2 as [-> _]. destruct (Z.leb _ _).
    - apply update_ok in H1 as ->. by apply same_barrier, same_refl.
    - apply ret_ok in H1 as [-> _]. by apply same_refl. }
  st_inv H as r2 plan H2. unfold locked_st, plan_failover in H2.
  destruct (plan_failover_pref_same (slot1 sid) None _ _ Hs1) as [Hs2 Hk].
  destruct (plan_failover_pref (slot1 sid) None (run_impl r1)) as [s2 [pl | e]]; [| done]. injection H2 as <- <-.
  cbn [fst snd] in Hs2, Hk. destruct pl as [plan |].
  - st_inv H as r3 ep H3. apply gets_ok in H3 as [-> _]. st_inv H as r4 ar H4. st_inv H as r5 u5 H5. apply update_ok in H5.
    st_inv H as r6 cur H6. apply gets_ok in H6 as [-> ->]. cbn [run_impl] in *.
    pose proof (execute_plan_outcome (Ops := SocketOps ep) plan (mkRun s2 (run_fs r1) (run_world r1)) (same_wf _ _ Hs2)) as Ho.
    unfold wp, execute_plan in Ho. rewrite H4, (Hk plan eq_refl) in Ho. cbn [fst snd run_impl] in Ho.
    pose proof (respond_flag _ _ _ _ (bool_decide (ar_state ar = AttemptState.COMPLETED) && ar_recovery_verified ar) _ _ _ H eq_refl)
      as (Hi & _ & _ & Hf).
    apply respond_ok in H as [_ [[=] | (g' & [= <-] & Hm)]].
    destruct Ho as [(Hst & _ & Hs4) | Ho].
    + left. rewrite bool_decide_false in Hf by done. split; [done |]. rewrite Hi, H5. apply same_clear. by eapply same_trans.
    + right. exists (mkRun s2 (run_fs r1) (run_world r1)), r4, ar. pose proof Ho as (Hst & _ & _ & n & _ & _ & _ & _ & _ & _ & Hv).
      rewrite bool_decide_true, Hv in Hf by done. split_and!; try done; [by right | by rewrite Hi |].
      rewrite H5 in Hm. exact Hm.
  - destruct (respond_flag _ _ _ _ false _ _ _ H eq_refl) as (Hi & _ & _ & Hf). left. split; [done |]. by rewrite Hi.
Qed.

(** * Theorems *)

(** The coordinator process implements the transition system of System: whatever
    connections are accepted, whatever frames arrive from whatever peers in whatever
    order, and whatever the network does to the cutovers it runs, the core of the
    process goes through steps of that system only, from the state it was started or
    restored in.  So the representation invariant holds throughout, and a process
    started without a file is in a state reachable from a new coordinator, for which
    all the theorems on reachable states hold. *)
Theorem coordinator_refines_system {N : Type} `{Net : PeerNet N} `{EO : EvalOrder} (a : CoordArgs) (fs : FileSystem) (n : N)
    (es : list CoordEvent) (r : Run (Coord N)) :
  process a fs n es r ->
  exists s ps, coordinator_start a fs = Ok s /\
    rtc sys_step (mkConfiguration s []) (mkConfiguration (run_impl r) ps) /\ impl_wf (run_impl r) /\
    (ca_load a = "" -> exists ps', reachable config_default (mkConfiguration (run_impl r) ps')).
Proof.
  intros (s & Hs & ->). pose proof (run_steps es (mkRun s fs (coord_init n))) as Hr. cbn [run_impl] in Hr.
  destruct (Hr []) as [ps Hps]. exists s, ps. split; [done |]. split; [exact Hps |]. split.
  - apply run_ok. by eapply start_wf.
  - intros Hl. destruct (start_cases a fs s Hs) as [[_ Hi] | [Hne _]]; [| done].
    destruct (transitivity Hi Hr []) as [ps' Hps']. by exists ps'.
Qed.

(** The coordinator accepts a result only under current authority: an AUTHORIZE_RESULT
    answered ok named the slot's current ACTIVE assignment, the current epoch, its
    route generation and its worker boot, which is not fenced, for a request that is
    recorded and whose response is not committed, and did not report the result as
    withheld; a result reported as withheld leaves the request with an unknown outcome,
    whatever it was recorded as before. *)
Theorem result_reply_follows_gate {N : Type} `{Net : PeerNet N} (p : Z) (f g : Frame) (r r' : Run (Coord N)) :
  fr_type f = MsgType.AUTHORIZE_RESULT -> handle p f r = (r', Ok (Replied g)) ->
  (frame_flag g fid_ok = true ->
     exists fs sid auth cur rec, payload_reader (fr_payload f) = Ok fs /\ p_u64 fs fid_service = Ok sid /\
       read_result_auth fs (slot1 sid) = Ok auth /\ flag fs fid_withheld = Ok false /\
       Authorized (run_impl r) auth cur /\
       request_find (im_requests (run_impl r)) (wa_request auth) = Some rec /\
       rq_disposition rec <> RequestDisposition.RESPONSE_COMMITTED /\ run_impl r' = run_impl r) /\
  (forall fs sid auth, payload_reader (fr_payload f) = Ok fs -> p_u64 fs fid_service = Ok sid ->
     read_result_auth fs (slot1 sid) = Ok auth -> flag fs fid_withheld = Ok true ->
     frame_flag g fid_ok = false /\
     exists rec, request_find (im_requests (run_impl r')) (wa_request auth) = Some rec /\
       rq_disposition rec = RequestDisposition.OUTCOME_UNKNOWN).
Proof.
  intros Ht H. split.
  - intros Hok. destruct (result_accepted p f r r' g Ht H Hok) as (fs & sid & auth & Hfs & Hsid & Ha & Hw & Hg & Hi).
    apply result_allowed_iff in Hg as [[cur Hc] (rec & Hrec & Hd)]. by exists fs, sid, auth, cur, rec.
  - intros fs sid auth Hfs Hsid Ha Hw. revert H. unfold handle, handler, Coordinator.dispatch. rewrite Ht.
    unfold Coordinator.on_authorize_result. alone. unfold st_catch.
    rewrite (lift_bind_ok _ _ _ _ Hfs), (lift_bind_ok _ _ _ _ Hsid), (lift_bind_ok _ _ _ _ Ha), (lift_bind_ok _ _ _ _ Hw), (withheld_alone auth (fun _ => _)).
    set (r1 := mkRun (note_withheld auth (run_impl r)) (run_fs r) (run_world r)).
    assert (exists rec, request_find (im_requests (run_impl r1)) (wa_request auth) = Some rec /\
       rq_disposition rec = RequestDisposition.OUTCOME_UNKNOWN) as Hunk by apply note_withheld_unknown.
    clearbody r1. destruct ((respond p f _ _ : ST _ _) r1) as [r2 [x | e]] eqn:E.
    + intros [= <- ->]. destruct (respond_flag _ _ _ _ false _ _ _ E eq_refl) as (-> & _ & _ & Hf). by split.
    + intros H. destruct (respond_flag _ _ _ _ false _ _ _ H eq_refl) as (-> & _ & _ & Hf). split; [done |].
      pose proof (respond_still p f MsgType.AUTHORIZE_RESULT
        [(fid_ok, VBool false); (fid_detail, VStr "response withheld; outcome unknown")] r1) as Hs.
      rewrite E in Hs. cbn [fst] in Hs. by rewrite Hs.
Qed.

(** Once a worker boot is fenced, the process never accepts a result from it again:
    whatever happens afterwards, an AUTHORIZE_RESULT that names the boot is not
    answered ok. *)
Theorem fenced_boot_results_refused {N : Type} `{Net : PeerNet N} `{EO : EvalOrder} (a : CoordArgs) (fs : FileSystem) (n : N)
    (es es' : list CoordEvent) (r r' : Run (Coord N)) (b : WorkerBootId) (p : Z) (f g : Frame) (fields : list Field) :
  process a fs n es r -> b ∈ im_fenced_boots (run_impl r) ->
  fr_type f = MsgType.AUTHORIZE_RESULT -> payload_reader (fr_payload f) = Ok fields -> p_u64 fields fid_boot = Ok (id_value b) ->
  handle p f (coord_run es' r) = (r', Ok (Replied g)) -> frame_flag g fid_ok = false.
Proof.
  intros (s & Hs & ->) Hb Ht Hfs Hboot H. apply not_true_iff_false. intros Hok.
  destruct (result_accepted p f _ r' g Ht H Hok) as (fs' & sid & auth & Hfs' & _ & Ha & _ & Hg & _).
  apply result_allowed_iff in Hg as [[cur Hc] _].
  assert (wa_worker_boot auth = b) as Hw.
  { rewrite Hfs in Hfs'. injection Hfs' as <-. rewrite (read_result_auth_boot _ _ _ _ Ha Hboot). by destruct b. }
  destruct (run_ok es _ (start_wf a fs s Hs : impl_wf (run_impl (mkRun s fs (coord_init n))))) as [Hwf _].
  destruct (run_ok es' _ Hwf) as [_ Hk]. apply (au_not_fenced _ _ _ Hc). rewrite Hw. by apply Hk.
Qed.

(** A request of unknown outcome that may not be replayed is never dispatched again:
    whatever the process does afterwards, its record stays as it is, and every
    AUTHORIZE_REQUEST for it is refused. *)
Theorem unknown_outcome_never_replayed {N : Type} `{Net : PeerNet N} (id : Z) (rec : RequestRecord) (es : list CoordEvent)
    (r r' : Run (Coord N)) (p : Z) (f g : Frame) (fields : list Field) :
  request_find (im_requests (run_impl r)) (mkId id) = Some rec ->
  rq_disposition rec = RequestDisposition.OUTCOME_UNKNOWN -> record_retry_allowed rec = false ->
  fr_type f = MsgType.AUTHORIZE_REQUEST -> payload_reader (fr_payload f) = Ok fields -> p_u64 fields fid_request_id = Ok id ->
  handle p f (coord_run es r) = (r', Ok (Replied g)) ->
  frame_flag g fid_ok = false /\ request_find (im_requests (run_impl r')) (mkId id) = Some rec.
Proof.
  intros Hf Hd Hr Ht Hfs Hid H.
  assert (unknown_final (mkId id) rec (im_requests (run_impl (coord_run es r)))) as Hu by (by apply run_unknown).
  split.
  - apply not_true_iff_false. intros Hok. apply handle_ok in H; [| done]. unfold Coordinator.dispatch in H. rewrite Ht in H.
    destruct (request_granted p f _ r' g H Hok) as (fs' & sid & req & cur & idem & eff & Hfs' & _ & Hreq & _ & _ & _ & Hn & _).
    rewrite Hfs in Hfs'. injection Hfs' as <-. rewrite Hid in Hreq. injection Hreq as <-.
    by rewrite (unknown_refused _ _ _ Hu) in Hn.
  - pose proof (run_unknown (mkId id) rec [Received p f] (coord_run es r) Hu) as [Hf' _].
    cbn [coord_run foldl coord_event] in Hf'. by rewrite H in Hf'.
Qed.

(** A restarted coordinator never accepts a result under a grant of an earlier epoch:
    it runs under the epoch after the saved one, for as long as it runs, and an
    AUTHORIZE_RESULT with the saved epoch or an earlier one is not answered ok. *)
Theorem earlier_epochs_refused {N : Type} `{Net : PeerNet N} `{EO : EvalOrder} (a : CoordArgs) (fs : FileSystem) (n : N)
    (es : list CoordEvent) (r r' : Run (Coord N)) (snap : PersistenceSnapshot) (p e : Z) (f g : Frame) (fields : list Field) :
  process a fs n es r -> ca_load a <> "" -> load_file (ca_load a) fs = Ok snap -> 0 <= ep_epoch (ps_epoch snap) < 2 ^ 64 - 1 ->
  fr_type f = MsgType.AUTHORIZE_RESULT -> payload_reader (fr_payload f) = Ok fields -> p_u64 fields fid_epoch = Ok e ->
  e <= ep_epoch (ps_epoch snap) ->
  handle p f r = (r', Ok (Replied g)) ->
  im_epoch (run_impl r) = mkEpoch (ep_epoch (ps_epoch snap) + 1) (mkId 1) (mkId 1) /\ frame_flag g fid_ok = false.
Proof.
  intros (s & Hs & ->) Hl Hld Hep Ht Hfs He Hle H.
  assert (im_epoch (run_impl (coord_run es (mkRun s fs (coord_init n)))) =
          mkEpoch (ep_epoch (ps_epoch snap) + 1) (mkId 1) (mkId 1)) as Hcur.
  { rewrite run_epoch. by apply (restored_epoch a fs s snap). }
  split; [done |]. apply not_true_iff_false. intros Hok.
  destruct (result_accepted p f _ r' g Ht H Hok) as (fs' & sid & auth & Hfs' & _ & Ha & _ & Hg & _).
  apply result_allowed_iff in Hg as [[cur Hc] _]. pose proof (au_epoch _ _ _ Hc) as Hae. rewrite Hcur in Hae.
  rewrite Hfs in Hfs'. injection Hfs' as <-. pose proof (read_result_auth_epoch _ _ _ _ Ha He) as He'.
  rewrite Hae in He'. cbn [ep_epoch] in He'. lia.
Qed.

(** The reply to EXECUTE_FAILOVER tells what became of the service.  An ok reply means
    the slot (if the coordinator knows it) is now served by an ACTIVE assignment whose
    target the reply names, the boot it replaced is fenced, no cutover is in flight and
    no barrier is left; a reply that is not ok means that no slot's assignment has
    changed.  Either way the other slots keep their assignment and no fence is lost. *)
Theorem failover_reply_truthful {N : Type} `{Net : PeerNet N} (p : Z) (f g : Frame) (r r' : Run (Coord N)) :
  impl_wf (run_impl r) -> fr_type f = MsgType.EXECUTE_FAILOVER -> handle p f r = (r', Ok (Replied g)) ->
  fr_type g = MsgType.EXECUTE_FAILOVER ->
  let s := run_impl r in let s' := run_impl r' in
  exists sid, (fs ← payload_reader (fr_payload f); p_u64 fs fid_service) = Ok sid /\
  fences_kept s s' /\ (forall k, k <> slot1 sid -> slot_current s' k = slot_current s k) /\
  (frame_flag g fid_ok = false -> slot_current s' (slot1 sid) = slot_current s (slot1 sid)) /\
  (frame_flag g fid_ok = true -> im_has_txn s' = false /\ im_barrier_milestone s' = Milestone.VERIFICATION_COMPLETE /\
     (forall o, slot_current s (slot1 sid) = Some o -> asg_worker_boot o <> id_null -> asg_worker_boot o ∈ im_fenced_boots s') /\
     (is_Some (find_slot s (slot1 sid)) -> exists n, slot_current s' (slot1 sid) = Some n /\
        asg_state n = AssignmentState.ACTIVE /\
        find_field (match payload_reader (fr_payload g) with Ok fs => fs | Throw _ => [] end) fid_target
          = Some (field_of (fid_target, VU64 (id_value (asg_target n)))))).
Proof.
  intros Hwf Ht H Hg s s'. apply handle_inv in H as [H | (_ & He & _)]; [| congruence].
  unfold Coordinator.dispatch in H. rewrite Ht in H.
  destruct (failover_outcome p f r r' g Hwf H) as (fs & sid & Hfs & Hsid & Hcase). exists sid.
  split; [unfold mbind, result_bind; by rewrite Hfs |].
  destruct Hcase as [[Hf Hs] | (r1 & r2 & ar & Hf & Hs & Ho & Hst & Hi & Hm)].
  - split; [apply Hs |]. split; [intros k _; by apply same_current |]. split; [intros _; by apply same_current | congruence].
  - destruct Ho as [(Hn & _) | (_ & Hwf2 & Hk & n & _ & _ & Hact & Hcur & Hold & Htx & _)]; [done |].
    assert (forall k, slot_current s' k = slot_current (run_impl r2) k) as Hc by (intros k; unfold s'; rewrite Hi; done).
    assert (im_fenced_boots s' = im_fenced_boots (run_impl r2)) as Hfe by (unfold s'; by rewrite Hi).
    split; [intros b Hb; rewrite Hfe; by apply Hk, (same_fences _ _ Hs) |].
    split; [intros k Hne; rewrite Hc, Hcur, decide_False by done; by apply same_current |]. split; [congruence |].
    intros _. split; [unfold s'; by rewrite Hi |]. split; [unfold s'; by rewrite Hi |]. split.
    + intros o Ho Hb. rewrite Hfe. apply Hold; [| done]. rewrite (same_current _ _ _ Hs). exact Ho.
    + intros Hslot. assert (slot_current (run_impl r2) (slot1 sid) = Some n) as Hn.
      { rewrite Hcur, decide_True by done. destruct Hslot as [x (y & Hy & _)%fmap_Some]. revert Hy.
        unfold find_slot_pos. rewrite (same_index _ _ Hs), (same_slots _ _ Hs). fold s. by intros ->. }
      exists n. rewrite Hc. split; [done |]. split; [done |]. rewrite (message_fields _ _ _ _ _ Hm), Hn. done.
Qed.

(** A failover that is refused leaves its barrier behind: when EXECUTE_FAILOVER asks for
    a barrier and no replacement is eligible, the handler returns before it clears the
    barrier, and with a barrier at a checkpointed milestone no later cutover of any
    service completes, whatever the workers and the gateway answer. *)
Theorem refused_failover_leaves_barrier {N : Type} `{Net : PeerNet N} (p : Z) (f : Frame) (r : Run (Coord N)) (fs : list Field)
    (sid bm : Z) (m : Milestone) :
  fr_type f = MsgType.EXECUTE_FAILOVER -> payload_reader (fr_payload f) = Ok fs -> p_u64 fs fid_service = Ok sid ->
  has_field fs fid_state = true -> p_u8 fs fid_state = Ok bm -> enum_of_u8 bm = Some m ->
  (plan_failover (slot1 sid) (set_cutover_barrier m (run_impl r))).2 = Ok None ->
  let r' := (handle p f r).1 in
  im_barrier_milestone (run_impl r') = m /\
  (checkpointed m = true -> forall ep plan r2 ar,
     execute_plan (Ops := SocketOps ep) plan r' = (r2, Ok ar) -> ar_state ar <> AttemptState.COMPLETED).
Proof.
  intros Ht Hfs Hsid Hst Hbm Hm Hplan r'.
  assert (im_barrier_milestone (run_impl r') = m) as Hb; [| split; [exact Hb |]].
  - unfold r'. rewrite handle_core. unfold Coordinator.dispatch. rewrite Ht. unfold Coordinator.on_execute_failover. alone.
    unfold mbind, st_bind, lift.
    rewrite Hfs, Hsid, Hst, Hbm. assert (Z.leb bm (enum_index Milestone.VERIFICATION_COMPLETE) = true) as ->.
    { apply enum_index_of_u8 in Hm as <-. by destruct m. }
    rewrite Hm. cbn [default update locked]. unfold locked_st. cbn [run_impl].
    assert (im_barrier_milestone (plan_failover (slot1 sid) (set_cutover_barrier m (run_impl r))).1 = m) as Hkeep.
    { unfold plan_failover. destruct (plan_failover_pref_state (slot1 sid) None (set_cutover_barrier m (run_impl r))) as [-> | ->]; [done |].
      unfold snapshot_locked. by destruct (gen_next _). }
    destruct (plan_failover _ _) as [s1 x]. cbn [fst snd] in Hplan, Hkeep. subst x.
    set (r1 := mkRun s1 _ _). change (im_barrier_milestone (run_impl r1) = m) in Hkeep. clearbody r1.
    etrans; [| exact Hkeep]. f_equal. apply respond_still.
  - intros Hc ep plan r2 ar He. pose proof (barrier_blocks (Ops := SocketOps ep) plan r') as Hbl. unfold wp in Hbl.
    rewrite He, Hb in Hbl. by apply (Hbl Hc ar).
Qed.
