(* ===== verification/Concurrent.v ===== *)
(** The coordinator process with its threads: each connection has a reader thread that
    runs the handler of a frame to its end before it reads the next one, and the threads
    interleave at every action.

    A [Pool] is the shared state and, for each connection whose reader is in a handler,
    the rest of that handler.  A schedule is a list of events.  What other threads do
    between two actions of a handler is unrestricted, and so is what happens to the
    network; a call that waits for a peer is one action, before which and after which
    the network may change at will. *)

From stdpp Require Import base list gmap strings relations.
From Stdlib Require Import ZArith Lia.
From S2P Require Import Prelude Threads Identities Types Double Bytes Model Codec Domains Evidence Routes Requests.
From S2P Require Import Recovery Selection Persistence Fabric Cutover Failback Invariant System CutoverSpec Restart.
From S2P Require Import Protocol Wire Gateway Coordinator CoordinatorSpec Process.

Open Scope Z_scope.

(** * Schedules *)

Section pool.
Context {N : Type} `{Net : PeerNet N}.
Notation R := (Run (Coord N)).
Notation Thread := (Prog R Handled).
Implicit Types (r : R) (t : Thread).

Record Pool : Type := mkPool { pool_state : R; pool_threads : gmap Z Thread }.
Implicit Types (c : Pool).

(** [Starts p f]: the reader of connection [p] reads [f]; [Acts p]: its handler performs
    its next action; [Returns p]: its handler has ended. *)
Inductive PoolEvent : Type :=
  | Accepts
  | Starts (p : Z) (f : Frame)
  | Acts (p : Z)
  | Returns (p : Z)
  | Changes (n : N).

Definition pool_event (e : PoolEvent) (c : Pool) : Pool :=
  let r := pool_state c in let ts := pool_threads c in
  match e with
  | Accepts => mkPool (coordinator_accept r).1 ts
  | Starts p f => match ts !! p with None => mkPool r (<[ p := handler p f ]> ts) | Some _ => c end
  | Acts p => match ts !! p with
              | Some (Act m k) => mkPool (m r).1 (<[ p := k (m r).2 ]> ts)
              | _ => c
              end
  | Returns p => match ts !! p with Some (Done _) => mkPool r (delete p ts) | _ => c end
  | Changes n => mkPool (mkRun (run_impl r) (run_fs r) (run_world r <| co_net := n |>)) ts
  end.
Definition pool_run (es : list PoolEvent) (c : Pool) : Pool := foldl (fun c e => pool_event e c) c es.

Definition pool_init `{EvalOrder} (s : Impl) (fs : FileSystem) (n : N) : Pool := mkPool (mkRun s fs (coord_init n)) ∅.

(** A process that started with the arguments [a] and has run since. *)
Definition threaded `{EvalOrder} (a : CoordArgs) (fs : FileSystem) (n : N) (es : list PoolEvent) (c : Pool) : Prop :=
  exists s, coordinator_start a fs = Ok s /\ c = pool_run es (pool_init s fs n).

Notation core_of c := (run_impl (pool_state c)).

(** The handler of [f] on [p], read in [c], has ended with [x] in [c'], after [es]. *)
Definition answered (p : Z) (f : Frame) (c : Pool) (es : list PoolEvent) (x : result Handled) : Prop :=
  pool_threads c !! p = None /\ Forall (fun e => e <> Returns p) es /\
  pool_threads (pool_run es (pool_event (Starts p f) c)) !! p = Some (Done x).

(** The states of the core from [c] on, in the course of [es]. *)
Definition visits (c : Pool) (es : list PoolEvent) (s : Impl) : Prop :=
  exists es1 es2, es = es1 ++ es2 /\ s = core_of (pool_run es1 c).
(** A state of the core between the reading of the frame and the end of the handler. *)
Definition meanwhile (p : Z) (f : Frame) (c : Pool) (es : list PoolEvent) : Impl -> Prop := visits (pool_event (Starts p f) c) es.

Lemma pool_run_app es es' c : pool_run (es ++ es') c = pool_run es' (pool_run es c).
Proof. apply foldl_app. Qed.
Lemma visits_app_l c es es' s : visits c es s -> visits c (es ++ es') s.
Proof. intros (es1 & es2 & -> & ->). exists es1, (es2 ++ es'). by rewrite app_assoc. Qed.
Lemma visits_app_r c es es' s : visits (pool_run es c) es' s -> visits c (es ++ es') s.
Proof. intros (es1 & es2 & -> & ->). exists (es ++ es1), es2. by rewrite app_assoc, pool_run_app. Qed.
Lemma meanwhile_visits p f c es s : meanwhile p f c es s -> visits c (Starts p f :: es) s.
Proof. apply (visits_app_r c [Starts p f]). Qed.

(** * Refinement of the system *)

(** What the process does to the core: anything but take another identity. *)
Definition process_op (o : FabricOp) : Prop := match o with OpSetCoordinatorIdentity _ _ => False | _ => True end.

Lemma handler_tame p f : tame process_op (handler (M := Prog R) p f).
Proof. apply tame_handler; [| done | done]. by intros []. Qed.

(** The attempts of the configuration that belong to threads, by connection. *)
Record Tracks (c : Pool) (ps : list Pc) (loc : gmap Z (nat * Pc)) : Prop := {
  tr_follows p t : pool_threads c !! p = Some t -> follows process_op (snd <$> loc !! p) t;
  tr_position p i pc : loc !! p = Some (i, pc) -> ps !! i = Some pc;
  tr_distinct p q i pc pc' : loc !! p = Some (i, pc) -> loc !! q = Some (i, pc') -> p = q }.

Lemma tracks_same c c' ps loc :
  (forall p t, pool_threads c' !! p = Some t -> pool_threads c !! p = Some t) -> Tracks c ps loc -> Tracks c' ps loc.
Proof. intros H [H1 H2 H3]. split; try done. intros p t Hp. by apply H1, H. Qed.

(** A thread starts outside any attempt. *)
Lemma tracks_start c r ps loc p t :
  tame process_op t -> Tracks c ps loc -> Tracks (mkPool r (<[ p := t ]> (pool_threads c))) ps (delete p loc).
Proof.
  intros Ht [H1 H2 H3]. split; cbn [pool_threads].
  - intros q u. destruct (decide (p = q)) as [<- | Hne].
    + rewrite lookup_insert_eq, lookup_delete_eq. intros [= <-]. apply Ht.
    + rewrite lookup_insert_ne, lookup_delete_ne by done. apply H1.
  - intros q i pc [_ Hq]%lookup_delete_Some. by eapply H2.
  - intros q q' i pc pc' [_ Hq]%lookup_delete_Some [_ Hq']%lookup_delete_Some. by eapply H3.
Qed.

(** A thread acts: steps of the system on its own attempt. *)
Lemma tracks_act c ps loc p {B} (m : ST R B) k :
  pool_threads c !! p = Some (Act m k) -> Tracks c ps loc ->
  let c' := pool_event (Acts p) c in
  (exists l', rtc (local_step process_op) (core_of c, snd <$> loc !! p) (core_of c', l')) /\
  exists ps' loc', rtc sys_step (mkConfiguration (core_of c) ps) (mkConfiguration (core_of c') ps') /\ Tracks c' ps' loc'.
Proof.
  intros Hp [H1 H2 H3]. cbv zeta. unfold pool_event. rewrite Hp. cbn [pool_state pool_threads].
  destruct (H1 p _ Hp (pool_state c)) as (l' & Hl & Hf). split; [by exists l' |].
  set (i := match loc !! p with Some (i, _) => i | None => length ps end).
  assert (at_position (snd <$> loc !! p) i ps) as Hi.
  { intros pc Hpc. unfold i. destruct (loc !! p) as [[j pc'] |] eqn:E; [| done]. simpl in Hpc. injection Hpc as ->. by eapply H2. }
  assert (forall q j pc, q <> p -> loc !! q = Some (j, pc) -> j <> i /\ (j < length ps)%nat) as Hfresh.
  { intros q j pc Hq Hj. pose proof (lookup_lt_Some _ _ _ (H2 _ _ _ Hj)) as Hlt. split; [| done]. unfold i.
    destruct (loc !! p) as [[j' pc'] |] eqn:E; [| lia]. intros ->. by destruct Hq; eapply H3. }
  destruct (local_steps_sys _ _ _ _ _ i ps Hl Hi) as (i' & ps' & Hs & Hi' & Hpos & Hlen & Hother).
  exists ps', (match l' with Some pc => <[ p := (i', pc) ]> loc | None => delete p loc end). split; [exact Hs |].
  split; cbn [pool_threads].
  - intros q t. destruct (decide (p = q)) as [<- | Hne].
    + rewrite lookup_insert_eq. intros [= <-]. destruct l' as [pc |]; [by rewrite lookup_insert_eq | by rewrite lookup_delete_eq].
    + rewrite lookup_insert_ne by done. intros Hq. destruct l'; [rewrite lookup_insert_ne by done | rewrite lookup_delete_ne by done]; by apply H1.
  - intros q j pc Hq. assert (q <> p -> loc !! q = Some (j, pc) -> ps' !! j = Some pc) as Hoth.
    { intros Hne Hj. destruct (Hfresh q j pc Hne Hj). apply Hother; [done | by eapply H2]. }
    destruct l' as [pc' |]; [| apply lookup_delete_Some in Hq as [? ?]; by apply Hoth].
    apply lookup_insert_Some in Hq as [[<- [= <- <-]] | [? ?]]; [by apply Hi' | by apply Hoth].
  - intros q q' j pc pc'. assert (forall q j pc, p <> q -> loc !! q = Some (j, pc) -> j <> i') as Hapart.
    { intros q0 j0 pc0 Hq Hj. destruct (Hfresh q0 j0 pc0 (not_eq_sym Hq) Hj). lia. }
    destruct l' as [pc0 |]; rewrite ?lookup_insert_Some, ?lookup_delete_Some; naive_solver.
Qed.

Lemma process_op_epoch e o s : process_op o -> keeps (fun e' _ => e' = e) s (apply_op o s).
Proof.
  unfold keeps. intros Ho <-. destruct o; try (by apply apply_quiet); try done.
  unfold apply_op, classify_late_result. repeat case_match; done.
Qed.

Lemma tracks_event e c ps loc :
  Tracks c ps loc -> let c' := pool_event e c in
  im_epoch (core_of c') = im_epoch (core_of c) /\
  exists ps' loc', rtc sys_step (mkConfiguration (core_of c) ps) (mkConfiguration (core_of c') ps') /\ Tracks c' ps' loc'.
Proof.
  intros H. cbv zeta.
  assert (forall c', pool_threads c' = pool_threads c -> core_of c' = core_of c -> im_epoch (core_of c') = im_epoch (core_of c) /\
    exists ps' loc', rtc sys_step (mkConfiguration (core_of c) ps) (mkConfiguration (core_of c') ps') /\ Tracks c' ps' loc') as Hsame.
  { intros c' Ht ->. split; [done |]. exists ps, loc. split; [done |]. eapply tracks_same; [| exact H]. by rewrite Ht. }
  destruct e as [| p f | p | p | n].
  - by apply Hsame.
  - cbn [pool_event]. destruct (pool_threads c !! p) eqn:Ep; [by apply Hsame |]. split; [done |].
    exists ps, (delete p loc). split; [done |]. apply tracks_start; [apply handler_tame | done].
  - destruct (pool_threads c !! p) as [[x | B m k] |] eqn:Ep; try (unfold pool_event; rewrite Ep; by apply Hsame).
    destruct (tracks_act c ps loc p m k Ep H) as [[l' Hl] Hs]. split; [| exact Hs].
    symmetry. symmetry. by apply (local_keeps _ (fun e' _ => e' = im_epoch (core_of c)) _ _ _ _ (process_op_epoch _) Hl).
  - unfold pool_event. destruct (pool_threads c !! p) as [[x |] |] eqn:Ep; try (by apply Hsame). split; [done |].
    exists ps, loc. split; [done |]. eapply tracks_same; [| exact H]. cbn [pool_threads]. by intros q t [_ Hq]%lookup_delete_Some.
  - by apply Hsame.
Qed.

Lemma tracks_run es c ps loc :
  Tracks c ps loc -> let c' := pool_run es c in
  im_epoch (core_of c') = im_epoch (core_of c) /\
  exists ps' loc', rtc sys_step (mkConfiguration (core_of c) ps) (mkConfiguration (core_of c') ps') /\ Tracks c' ps' loc'.
Proof.
  revert c ps loc. induction es as [| e es IH]; intros c ps loc H; cbv zeta; [split; [done |]; by exists ps, loc |].
  cbn [pool_run foldl]. destruct (tracks_event e c ps loc H) as [E1 (ps1 & loc1 & Hs1 & H1)].
  destruct (IH _ _ _ H1) as [E2 (ps2 & loc2 & Hs2 & H2)]. split; [by etrans |]. exists ps2, loc2. split; [by etrans | done].
Qed.

Lemma tracks_init s fs n `{EvalOrder} : Tracks (pool_init s fs n) [] ∅.
Proof. split; cbn; intros *; by rewrite lookup_empty. Qed.

(** A process that is still running goes on as the system does. *)
Lemma threaded_on `{EvalOrder} a fs n es c es' :
  threaded a fs n es c -> impl_wf (core_of c) /\ impl_wf (core_of (pool_run es' c)) /\ fences_kept (core_of c) (core_of (pool_run es' c)) /\
    im_epoch (core_of (pool_run es' c)) = im_epoch (core_of c).
Proof.
  intros (s & Hs & ->). destruct (tracks_run es _ _ _ (tracks_init s fs n)) as [_ (ps & loc & Hr & Ht)].
  destruct (sys_steps_ok (mkConfiguration s []) _ (conj (start_wf a fs s Hs) (List.Forall_nil _)) Hr) as [Hok _].
  destruct (tracks_run es' _ _ _ Ht) as [He (ps' & loc' & Hr' & _)]. destruct (sys_steps_ok _ _ Hok Hr') as [[Hwf' _] Hf].
  split; [apply Hok |]. by split_and!.
Qed.

(** * What the answers of a thread tell *)

(** What a thread ensures, given that [I] holds whenever it acts. *)
Lemma pool_ensures I Q p es c t :
  pool_threads c !! p = Some t -> ensures I Q t -> Forall (fun e => e <> Returns p) es ->
  (forall es1 es2, es = es1 ++ es2 -> I (pool_state (pool_run es1 c))) ->
  exists t', pool_threads (pool_run es c) !! p = Some t' /\ ensures I Q t'.
Proof.
  revert c t. induction es as [| e es IH]; intros c t Hp Hq Hr HI; [by exists t |].
  inversion Hr as [| ? ? Hne Hr']; subst. cbn [pool_run foldl].
  assert (exists t', pool_threads (pool_event e c) !! p = Some t' /\ ensures I Q t') as (t' & Hp' & Hq').
  { destruct e as [| q f | q | q | n]; cbn [pool_event]; try (by exists t).
    - destruct (pool_threads c !! q) eqn:Eq; [by exists t |]. exists t. cbn [pool_threads].
      rewrite lookup_insert_ne by congruence. done.
    - destruct (decide (q = p)) as [-> | Hn].
      + rewrite Hp. destruct t as [x | B m k]; [by exists (Done x) |]. eexists. cbn [pool_threads]. rewrite lookup_insert_eq.
        split; [done |].
        apply Hq; [by apply (HI [] (Acts p :: es)) |]. specialize (HI [Acts p] es eq_refl). cbn [pool_run foldl pool_event] in HI.
        by rewrite Hp in HI.
      + destruct (pool_threads c !! q) as [[x |] |]; [by exists t | | by exists t]. exists t. cbn [pool_threads].
        by rewrite lookup_insert_ne.
    - destruct (pool_threads c !! q) as [[x |] |]; try (by exists t). exists t. cbn [pool_threads].
      rewrite lookup_delete_ne by congruence. done. }
  apply (IH _ t' Hp' Hq' Hr'). intros es1 es2 ->. by apply (HI (e :: es1) es2).
Qed.

Lemma answered_ensures Q p f c es x :
  answered p f c es x -> ensures (fun r => meanwhile p f c es (run_impl r)) Q (handler p f) -> Q x.
Proof.
  intros (Hn & Hr & Hd) Hq.
  assert (pool_threads (pool_event (Starts p f) c) !! p = Some (handler p f)) as Hp.
  { cbn [pool_event]. rewrite Hn. apply lookup_insert_eq. }
  destruct (pool_ensures _ Q p es _ _ Hp Hq Hr) as (t' & Ht & Hq').
  - intros es1 es2 ->. by exists es1, es2.
  - rewrite Hd in Ht. by injection Ht as <-.
Qed.

(** What an ok reply tells. *)
Definition ok_tells (P : Frame -> Prop) (x : result Handled) : Prop :=
  match x with Ok (Replied g) => frame_flag g fid_ok = true -> P g | _ => True end.

Section tells.
Context (I : R -> Prop) (P : Frame -> Prop).
Notation tells := (ensures I (ok_tells P)).

(** The reads of the payload, and of the state; the writes of the core. *)
Lemma tells_lift {A} (x : result A) (k : A -> Thread) : (forall a, x = Ok a -> tells (k a)) -> tells (a ⇐ lift x; k a).
Proof. intros H r _ _. unfold lift. destruct x as [a | e]; [by apply H | done]. Qed.
Lemma tells_gets {A} (h : R -> A) (k : A -> Thread) : (forall r, I r -> tells (k (h r))) -> tells (a ⇐ gets h; k a).
Proof. intros H r Hr _. by apply H. Qed.
Lemma tells_update h (k : unit -> Thread) :
  (forall r, I r -> I (mkRun (h (run_impl r)) (run_fs r) (run_world r)) -> tells (k tt)) -> tells (a ⇐ update h; k a).
Proof. intros H r Hr Hr'. by apply (H r). Qed.
Lemma tells_refuses_replay req (k : bool -> Thread) :
  (forall r, I r -> replay_refused (run_impl r) req = false -> tells (k false)) -> tells (k true) -> tells (no ← refuses_replay req; k no).
Proof.
  intros Hno Hyes. apply ensures_bind. unfold refuses_replay. apply ensures_bind, ensures_atomic. intros r Hr _. cbn [core gets snd].
  destruct (request_state (run_impl r) req) as [st |] eqn:Es; [destruct (disposition_is RequestDisposition.OUTCOME_UNKNOWN st) eqn:Ed |].
  - apply ensures_atomic. intros r1 Hr1 _. cbn [core gets snd]. destruct (retry_allowed (run_impl r1) req) eqn:Ea; [| exact Hyes].
    apply (Hno r1 Hr1). unfold replay_refused. destruct (request_state (run_impl r1) req); [by rewrite Ea, andb_false_r | done].
  - apply (Hno r Hr). unfold replay_refused. by rewrite Es, Ed.
  - apply (Hno r Hr). unfold replay_refused. by rewrite Es.
Qed.

(** A reply with an ok field. *)
Lemma tells_respond p f type l b :
  find_field (field_of <$> l) fid_ok = Some (field_of (fid_ok, VBool b)) ->
  (b = true -> forall g, message type (fr_msg_id f) (fr_epoch f) l = Ok g -> P g) -> tells (respond p f type l).
Proof.
  intros Hf Hb r _ _. unfold external. destruct (co_send p type _ _ l (run_world r)) as [w [[g |] | e]] eqn:E; cbn; [| done | done].
  intros Hok. apply co_send_message in E. apply Hb; [| done]. by rewrite <- (message_flag _ _ _ _ _ _ _ E Hf).
Qed.
Lemma tells_refusal p f type l :
  find_field (field_of <$> l) fid_ok = Some (field_of (fid_ok, VBool false)) -> tells (respond p f type l).
Proof. intros H. by apply (tells_respond _ _ _ _ false). Qed.

Lemma tells_handler p f : tells (dispatch p f) -> tells (handler p f).
Proof.
  intros H. apply ensures_catch. eapply ensures_mono; [| exact H]. intros [x | e]; cbn [ok_tells]; [done |]. intros _.
  by apply tells_refusal.
Qed.
End tells.

Lemma ok_answer P p f c es g :
  answered p f c es (Ok (Replied g)) -> frame_flag g fid_ok = true ->
  ensures (fun r => meanwhile p f c es (run_impl r)) (ok_tells P) (dispatch p f) -> P g.
Proof.
  intros Ha Hok Hd. apply tells_handler in Hd. by apply (answered_ensures _ _ _ _ _ _ Ha Hd).
Qed.

(** An accepted result passed the gate in one of the states of the meantime. *)
Lemma result_accepted_meanwhile p f c es g :
  fr_type f = MsgType.AUTHORIZE_RESULT -> answered p f c es (Ok (Replied g)) -> frame_flag g fid_ok = true ->
  exists s fs sid auth, meanwhile p f c es s /\ payload_reader (fr_payload f) = Ok fs /\ p_u64 fs fid_service = Ok sid /\
    read_result_auth fs (slot1 sid) = Ok auth /\ flag fs fid_withheld = Ok false /\ gd_allowed (authorize_result s auth) = true.
Proof.
  intros Ht Ha Hok. apply (ok_answer (fun _ => _) _ _ _ _ _ Ha Hok). unfold dispatch. rewrite Ht. unfold on_authorize_result.
  apply tells_lift. intros fs Hfs. apply tells_lift. intros sid Hsid. apply tells_lift. intros auth Hau.
  apply tells_lift. intros w Hw. destruct w; apply tells_gets; intros r Hr.
  - destruct (request_state _ _) as [st |]; [destruct (disposition_is RequestDisposition.OUTCOME_UNKNOWN st); [by apply tells_refusal |] |];
      apply tells_update; intros; by apply tells_refusal.
  - eapply tells_respond; [reflexivity |]. intros Hg g' _. exists (run_impl r), fs, sid, auth. by split_and!.
Qed.

(** A dispatch is granted on what the handler read, each at its moment: the slot's ACTIVE
    assignment, that the request is not of unknown outcome or may be replayed, and the
    epoch; and the request was recorded under the grant. *)
Lemma request_granted_meanwhile p f c es g :
  fr_type f = MsgType.AUTHORIZE_REQUEST -> answered p f c es (Ok (Replied g)) -> frame_flag g fid_ok = true ->
  exists fs sid req cur idem eff s1 s2 s3 s4, payload_reader (fr_payload f) = Ok fs /\ p_u64 fs fid_service = Ok sid /\
    p_u64 fs fid_request_id = Ok req /\ Forall (meanwhile p f c es) [s1; s2; s3; s4] /\
    slot_current s1 (slot1 sid) = Some cur /\ asg_state cur = AssignmentState.ACTIVE /\ replay_refused s2 (mkId req) = false /\
    let auth := dispatch_auth (im_epoch s3) (slot1 sid) req cur in
    request_find (im_requests s4) (wa_request auth) = Some (dispatched_record auth idem eff) /\
    message MsgType.AUTHORIZE_REQUEST (fr_msg_id f) (fr_epoch f) (grant_fields auth) = Ok g.
Proof.
  intros Ht Ha Hok. apply (ok_answer (fun g => exists fs sid req cur idem eff s1 s2 s3 s4, _) _ _ _ _ _ Ha Hok).
  unfold dispatch. rewrite Ht. unfold on_authorize_request.
  apply tells_lift. intros fs Hfs. apply tells_lift. intros sid Hsid. apply tells_lift. intros req Hreq.
  apply tells_lift. intros idem _. apply tells_lift. intros eff _. apply tells_gets. intros r1 Hr1. unfold current_assignment.
  destruct (slot_current (run_impl r1) (slot1 sid)) as [cur |] eqn:Ec; [| by apply tells_refusal].
  case_bool_decide as Hact; cbn [negb]; [| by apply tells_refusal].
  apply tells_refuses_replay; [| by apply tells_refusal]. intros r2 Hr2 Hno. apply tells_gets. intros r3 Hr3.
  apply tells_update. intros r4 _ Hr4. apply tells_update. intros r5 _ _. eapply tells_respond; [reflexivity |]. intros _ g' Hm.
  exists fs, sid, req, cur, idem, eff, (run_impl r1), (run_impl r2), (run_impl r3),
    (record_request (dispatched_record (dispatch_auth (im_epoch (run_impl r3)) (slot1 sid) req cur) idem eff) (run_impl r4)).
  split_and!; try done.
  - repeat constructor; [exact Hr1 | exact Hr2 | exact Hr3 | exact Hr4].
  - by rewrite find_recorded, decide_True.
Qed.

(** * What a thread has done *)

(** In the course of [es], from [c] on, thread [p] performs actions of the kinds [Fs], in
    this order. *)
Fixpoint performs (p : Z) (Fs : list (R -> R -> Prop)) (c : Pool) (es : list PoolEvent) : Prop :=
  match Fs with
  | [] => True
  | F :: Fs => exists es1 es2, es = es1 ++ Acts p :: es2 /\
      let c1 := pool_run es1 c in let c2 := pool_event (Acts p) c1 in F (pool_state c1) (pool_state c2) /\ performs p Fs c2 es2
  end.

Lemma performs_impl (W : R -> Prop) p Fs Gs c es :
  (forall es1 es2, es = es1 ++ es2 -> W (pool_state (pool_run es1 c))) ->
  Forall2 (fun F G => forall r r' : R, W r -> F r r' -> G r r') Fs Gs -> performs p Fs c es -> performs p Gs c es.
Proof.
  intros HW HF. revert c es HW. induction HF as [| F G Fs Gs HFG _ IH]; intros c es HW; [done |].
  intros (es1 & es2 & -> & Hs & H). exists es1, es2. split; [done |]. split; [by apply HFG; [by eapply HW |] |].
  apply IH; [| done]. intros e1 e2 ->. specialize (HW (es1 ++ Acts p :: e1) e2). rewrite pool_run_app in HW. apply HW.
  by rewrite <- app_assoc.
Qed.

(** The actions of [p] in the course of [es]. *)
Fixpoint own_actions (p : Z) (es : list PoolEvent) (c : Pool) : list (R * R) :=
  match es with
  | [] => []
  | e :: es =>
    let c' := pool_event e c in
    match e, pool_threads c !! p with
    | Acts q, Some (Act _ _) => if decide (q = p) then [(pool_state c, pool_state c')] else []
    | _, _ => []
    end ++ own_actions p es c'
  end.

Lemma own_split p es c h1 r r' h2 :
  own_actions p es c = h1 ++ (r, r') :: h2 ->
  exists es1 es2, es = es1 ++ Acts p :: es2 /\ r = pool_state (pool_run es1 c) /\
    r' = pool_state (pool_event (Acts p) (pool_run es1 c)) /\ own_actions p es2 (pool_event (Acts p) (pool_run es1 c)) = h2.
Proof.
  revert c h1. induction es as [| e es IH]; intros c h1; [by destruct h1 |]. cbn [own_actions].
  assert (forall h1, own_actions p es (pool_event e c) = h1 ++ (r, r') :: h2 -> exists es1 es2, e :: es = es1 ++ Acts p :: es2 /\ r = pool_state (pool_run es1 c) /\
    r' = pool_state (pool_event (Acts p) (pool_run es1 c)) /\ own_actions p es2 (pool_event (Acts p) (pool_run es1 c)) = h2) as Hgo.
  { intros h (es1 & es2 & -> & H)%IH. by exists (e :: es1), es2. }
  destruct e as [| q f | q | q | n]; try apply Hgo. destruct (pool_threads c !! p) as [[x | B m k] |]; try apply Hgo.
  destruct (decide (q = p)) as [-> |]; [| apply Hgo]. destruct h1 as [| y h1]; cbn [app].
  - intros [= <- <- <-]. by exists [], es.
  - intros [= _ H]. by apply (Hgo h1).
Qed.

Lemma occurs_performs p Fs es c : occurs Fs (own_actions p es c) -> performs p Fs c es.
Proof.
  revert es c. induction Fs as [| F Fs IH]; intros es c; [done |]. intros (h1 & r & r' & h2 & Hh & HF & H).
  apply own_split in Hh as (es1 & es2 & -> & -> & -> & <-). exists es1, es2. split; [done |]. split; [done | by apply IH].
Qed.

(** Between two of its actions a thread that does not return is where it was. *)
Lemma pool_waits p t c e : pool_threads c !! p = Some t -> e <> Acts p -> e <> Returns p -> pool_threads (pool_event e c) !! p = Some t.
Proof.
  intros Hp Ha Hr. destruct e as [| q f | q | q | n]; cbn [pool_event]; try done.
  - destruct (pool_threads c !! q) eqn:Eq; [done |]. cbn [pool_threads]. rewrite lookup_insert_ne by congruence. done.
  - destruct (pool_threads c !! q) as [[x |] |]; [done | | done]. cbn [pool_threads]. rewrite lookup_insert_ne by congruence. done.
  - destruct (pool_threads c !! q) as [[x |] |]; try done. cbn [pool_threads]. rewrite lookup_delete_ne by congruence. done.
Qed.

Lemma pool_records Q p es c t h :
  pool_threads c !! p = Some t -> records Q h t -> Forall (fun e => e <> Returns p) es ->
  exists t', pool_threads (pool_run es c) !! p = Some t' /\ records Q (h ++ own_actions p es c) t'.
Proof.
  revert c t h. induction es as [| e es IH]; intros c t h Hp Hq Hr; [exists t; cbn; by rewrite app_nil_r |].
  inversion Hr as [| ? ? Hne Hr']; subst. cbn [pool_run foldl own_actions].
  assert (e = Acts p \/ e <> Acts p) as [-> | He].
  { destruct e as [| q f | q | q | x]; try (right; congruence). destruct (decide (q = p)) as [-> |]; [by left | right; congruence]. }
  - rewrite Hp. destruct t as [x | B m k]; [apply (IH _ (Done x)); [by cbn [pool_event]; rewrite Hp | done | done] |].
    rewrite decide_True by done. destruct (IH (pool_event (Acts p) c) (k (m (pool_state c)).2) (h ++ [(pool_state c, pool_state (pool_event (Acts p) c))])) as (t' & Ht & H).
    + cbn [pool_event]. rewrite Hp. apply lookup_insert_eq.
    + cbn [pool_event]. rewrite Hp. apply Hq.
    + done.
    + exists t'. split; [done |]. by rewrite <- app_assoc in H.
  - assert (match e, pool_threads c !! p with
            | Acts q, Some (Act _ _) => if decide (q = p) then [(pool_state c, pool_state (pool_event e c))] else []
            | _, _ => [] end = []) as ->.
    { destruct e; try done. destruct (pool_threads c !! p) as [[] |]; try done. by rewrite decide_False by congruence. }
    apply (IH _ t); [by apply pool_waits | done | done].
Qed.

(** What the actions of a handler that ended were. *)
Lemma answered_records Q p f c es x :
  answered p f c es x -> records Q [] (handler p f) -> Q (own_actions p es (pool_event (Starts p f) c)) x.
Proof.
  intros (Hn & Hr & Hd) Hq.
  assert (pool_threads (pool_event (Starts p f) c) !! p = Some (handler p f)) as Hp by (cbn [pool_event]; rewrite Hn; apply lookup_insert_eq).
  destruct (pool_records Q p es _ _ [] Hp Hq Hr) as (t' & Ht & Hq'). rewrite Hd in Ht. by injection Ht as <-.
Qed.

(** * What the threads keep together *)

Section keep.
Context (I : R -> Prop) (Hworld : forall r r', run_impl r' = run_impl r -> I r -> I r').
Notation keepers c := (forall p t, pool_threads c !! p = Some t -> sustains I (fun _ => True) t).

(** If every handler keeps [I], so does the process, from a moment at which the handlers
    in flight do. *)
Lemma pool_keeps es c :
  (forall p f, sustains I (fun _ => True) (handler (M := Prog R) p f)) -> I (pool_state c) -> keepers c ->
  I (pool_state (pool_run es c)) /\ keepers (pool_run es c).
Proof.
  intros Hh. revert c. induction es as [| e es IH]; intros c Hi Ht; [done |]. cbn [pool_run foldl]. apply IH.
  - destruct e as [| p f | p | p | n]; cbn [pool_event]; [by apply (Hworld (pool_state c)) | | | | by apply (Hworld (pool_state c))];
      destruct (pool_threads c !! p) as [[x | B m k] |] eqn:Ep; try done. by apply (Ht p _ Ep).
  - destruct e as [| p f | p | p | n]; cbn [pool_event]; [done | | | | done];
      destruct (pool_threads c !! p) as [[x | B m k] |] eqn:Ep; try done; cbn [pool_threads]; intros q t.
    + intros [[<- <-] | [_ Hq]]%lookup_insert_Some; [apply Hh | by eapply Ht].
    + intros [[<- <-] | [_ Hq]]%lookup_insert_Some; [by apply (Ht p _ Ep) | by eapply Ht].
    + intros [_ Hq]%lookup_delete_Some. by eapply Ht.
Qed.

Lemma sustains_respond p f type l : sustains I (fun _ => True) (respond p f type l).
Proof. intros r Hr. split; [eapply Hworld, Hr; apply external_still |]. by destruct (external _ r) as [r' [[g |] | e]]. Qed.
Lemma sustains_lift {A} Q (x : result A) (k : A -> Thread) :
  (forall a, x = Ok a -> sustains I Q (k a)) -> (forall e, Q (Throw e)) -> sustains I Q (a ⇐ lift x; k a).
Proof. intros H He. apply sustains_atomic. intros r Hr. split; [done |]. destruct x; [by apply H | apply He]. Qed.
Lemma sustains_gets {A} Q (h : R -> A) (k : A -> Thread) : (forall r, I r -> sustains I Q (k (h r))) -> sustains I Q (a ⇐ gets h; k a).
Proof. intros H. apply sustains_atomic. intros r Hr. split; [done |]. by apply H. Qed.

(** A handler that writes no request keeps what is said of the requests. *)
Lemma sustains_quiet {A} (t : Prog R A) :
  (forall r r', im_requests (run_impl r') = im_requests (run_impl r) -> I r -> I r') -> tame quiet t -> sustains I (fun _ => True) t.
Proof.
  intros Hi Ht. specialize (Ht None). revert Ht. generalize (@None Pc) as l. induction t as [x | B m k IH]; intros l Ht; [done |].
  intros r Hr. destruct (Ht r) as (l' & Hl & Hf). split; [| by apply (IH _ l')]. eapply Hi, Hr.
  by apply (local_keeps quiet (fun _ rt => rt = im_requests (run_impl r)) _ _ _ _ (fun o s => quiet_keeps _ o s) Hl).
Qed.
End keep.

(** A request of unknown outcome that may not be replayed keeps its record. *)
Definition unknown_at (id : RequestId) (rec : RequestRecord) (r : R) : Prop := unknown_final id rec (im_requests (run_impl r)).

Lemma unknown_recorded id rec q r :
  rq_request q <> id -> unknown_at id rec r -> unknown_at id rec (mkRun (record_request q (run_impl r)) (run_fs r) (run_world r)).
Proof. intros Hne (Hf & Hd & Hr). split_and!; try done. cbn [run_impl]. by rewrite find_recorded, decide_False. Qed.

Lemma sustains_request id rec p f : sustains (unknown_at id rec) (fun _ => True) (on_authorize_request p f : Thread).
Proof.
  unfold on_authorize_request. do 5 (apply sustains_lift; [intros ? _ | done]). apply sustains_gets. intros r0 _.
  assert (forall type l, sustains (unknown_at id rec) (fun _ => True) (respond p f type l : Thread)) as Hrep.
  { intros type l. apply sustains_respond. unfold unknown_at. by intros r r' ->. }
  unfold current_assignment. destruct (slot_current _ _) as [cur |]; [| apply Hrep].
  destruct (bool_decide _); [cbn [negb] | apply Hrep]. apply sustains_bind. set (req := mkId _).
  assert (sustains (unknown_at id rec) (fun x => x = Ok false -> req <> id) (refuses_replay req : Prog R bool)) as Href.
  { unfold refuses_replay. apply sustains_atomic. intros r Hr. split; [done |]. cbn [core gets snd].
    destruct (request_state (run_impl r) req) as [st |] eqn:Es; [destruct (disposition_is RequestDisposition.OUTCOME_UNKNOWN st) eqn:Ed |].
    - intros r1 Hr1. split; [done |]. cbn [core gets snd sustains]. intros [= Hn] ->. apply unknown_refused in Hr1. revert Hr1.
      unfold replay_refused. destruct (request_state (run_impl r1) id); [by rewrite Hn, andb_false_r | done].
    - intros _ ->. apply unknown_refused in Hr. revert Hr. unfold replay_refused. by rewrite Es, Ed.
    - intros _ ->. apply unknown_refused in Hr. revert Hr. unfold replay_refused. by rewrite Es. }
  eapply sustains_mono; [| exact Href]. intros [[] | e] Hne; [apply Hrep | | done]. apply sustains_gets. intros r _.
  apply sustains_atomic. intros r1 Hr1. split; [by apply unknown_recorded; [apply Hne |] |].
  apply sustains_atomic. intros r2 Hr2. split; [exact Hr2 | apply Hrep].
Qed.

Lemma sustains_result id rec p f : sustains (unknown_at id rec) (fun _ => True) (on_authorize_result p f : Thread).
Proof.
  unfold on_authorize_result. do 3 (apply sustains_lift; [intros ? _ | done]). apply sustains_lift; [intros w _ | done].
  assert (forall type l, sustains (unknown_at id rec) (fun _ => True) (respond p f type l : Thread)) as Hrep.
  { intros type l. apply sustains_respond. unfold unknown_at. by intros r r' ->. }
  destruct w; [| apply sustains_gets; intros r _; apply Hrep].
  apply sustains_gets. intros r (Hf & Hd & Hra). apply sustains_bind. unfold request_state.
  assert (request_find (im_requests (run_impl r)) (wa_request a1) = Some rec \/ wa_request a1 <> id) as Hid.
  { destruct (decide (wa_request a1 = id)) as [-> |]; [by left | by right]. }
  destruct (request_find _ (wa_request a1)) as [st |] eqn:Es.
  - destruct (disposition_is RequestDisposition.OUTCOME_UNKNOWN st) eqn:Ed; [apply Hrep |].
    destruct Hid as [[= ->] | Hne]; [unfold disposition_is in Ed; by rewrite Hd, bool_decide_true in Ed |].
    intros r1 (Hf1 & _). split; [| apply Hrep]. split_and!; try done. cbn [update locked fst snd run_impl]. by rewrite find_marked, decide_False.
  - destruct Hid as [? | Hne]; [done |]. intros r1 Hr1. split; [by apply unknown_recorded | apply Hrep].
Qed.

Lemma sustains_handler id rec p f : sustains (unknown_at id rec) (fun _ => True) (handler p f : Thread).
Proof.
  assert (forall e, sustains (unknown_at id rec) (fun _ => True) (error_reply p f e : Thread)) as Herr.
  { intros e. apply sustains_respond. unfold unknown_at. by intros r r' ->. }
  destruct (decide (fr_type f = MsgType.AUTHORIZE_REQUEST)) as [E | E1];
    [| destruct (decide (fr_type f = MsgType.AUTHORIZE_RESULT)) as [E | E2]].
  1, 2: unfold handler, dispatch; rewrite E; apply sustains_catch; (eapply sustains_mono; [| first [apply sustains_request | apply sustains_result]]);
    intros [x | e] _; [done | apply Herr].
  apply sustains_quiet; [unfold unknown_at; by intros r r' -> |]. by apply tame_handler_quiet.
Qed.

(** * What a completed cutover tells *)

(** The actions of a cutover that matter: the section that prepares it, the call that
    verifies the new route, the section that commits. *)
Definition prepares (plan : FailoverPlan) (a : Attempt) (r r' : R) : Prop :=
  prepare plan (run_impl r) = (run_impl r', Ok (inr a)).
Definition verifies (ops : CutoverOps (Coord N)) (vo : VerifyOutcome) (r r' : R) : Prop :=
  exists re auth, verify (CutoverOps := ops) re auth (run_world r) = (run_world r', Ok vo).
Definition commits (a : Attempt) (vo : VerifyOutcome) (tc : Z) (ar : AttemptResult) (r r' : R) : Prop :=
  verify_section a vo tc (run_impl r) = (run_impl r', inl ar).

(** Two moments of one attempt. *)
Definition same_attempt (a a' : Attempt) : Prop := at_slot a' = at_slot a /\ at_old a' = at_old a /\ at_new a' = at_new a.

Section cutover.
Context `{Ops : CutoverOps (Coord N)}.
Notation History := (list (R * R)).
Implicit Types (h : History).

(** A cutover by [plan] that is COMPLETED was prepared, then verified, then committed. *)
Definition cutover_told (plan : FailoverPlan) h (x : result AttemptResult) : Prop :=
  match x with
  | Ok ar => ar_state ar = AttemptState.COMPLETED ->
      exists a a' vo tc ar1, same_attempt a a' /\ ar_state ar1 = AttemptState.COMPLETED /\
        occurs [prepares plan a; verifies Ops vo; commits a' vo tc ar1] h
  | Throw _ => True
  end.
Context (plan : FailoverPlan).
Notation told := (records (cutover_told plan)).

Lemma told_any Fs {A} (m : ST R A) (q : A -> Prog R AttemptResult) h :
  occurs Fs h -> (forall a h, occurs Fs h -> told h (q a)) -> told h (a ⇐ m; q a).
Proof. intros Hh H r. destruct (m r) as [r' [a | e]]; [by apply H, occurs_app | done]. Qed.
Lemma told_section Fs (f : Impl -> Impl * (AttemptResult + Attempt)) (q : Attempt -> Prog R AttemptResult) h :
  occurs Fs h -> (forall s ar, (f s).2 = inl ar -> ar_state ar <> AttemptState.COMPLETED) ->
  (forall s a h, (f s).2 = inr a -> occurs Fs h -> told h (q a)) -> told h (unless_done (locked f) q).
Proof.
  intros Hh Hl Hr r. unfold locked. specialize (Hl (run_impl r)). specialize (Hr (run_impl r)).
  destruct (f (run_impl r)) as [s' [ar | a]]; [intros Hc; by destruct (Hl ar eq_refl) | by apply Hr, occurs_app].
Qed.
Lemma told_milestone Fs m a rt (q : Prog R AttemptResult) h :
  occurs Fs h -> (forall h, occurs Fs h -> told h q) -> told h (at_milestone m a rt q).
Proof.
  intros Hh Hq. apply records_bind. unfold checkpoint. intros r r1.
  assert (forall h, occurs Fs h -> records (fun h x => match x with Ok b => told h (if b : bool then mret (interrupted a m) else q) | Throw e => cutover_told plan h (Throw e) end)
            h (atomic (gets (fun r => bool_decide (im_barrier_milestone (run_impl r) = m))))) as Hb.
  { intros h' Hh' r2. cbn. case_bool_decide; [done |]. by apply Hq, occurs_app. }
  cbn. destruct (String.eqb (im_checkpoint_path (run_impl r1)) ""); [by apply Hb, occurs_app, occurs_app |]. intros r2 r3. cbn.
  destruct (write_snapshot _ _ r3) as [r4 [u | e]]; [by apply Hb; repeat apply occurs_app | done].
Qed.

Lemma told_promote (t0 : Z) a a1 h :
  same_attempt a a1 -> occurs [prepares plan a] h -> told h (promote t0 a1).
Proof.
  intros Ha Hh. unfold promote. apply (told_any [prepares plan a]); [done |]. clear h Hh. intros s0 h Hh.
  apply (told_any [prepares plan a]); [done |]. clear h Hh. intros ao h Hh. apply (told_section [prepares plan a]); [done | |].
  { intros s ar. unfold activate_section. destruct (negb _); [by intros [= <-] | done]. }
  clear h Hh. intros s a2 h E Hh. unfold activate_section in E. destruct (negb _); [done |]. injection E as <-.
  apply (told_milestone [prepares plan a]); [done |]. clear h Hh. intros h Hh.
  apply (told_any [prepares plan a]); [done |]. clear h Hh. intros s1 h Hh.
  apply (told_any [prepares plan a]); [done |]. clear h Hh. intros ro h Hh. apply (told_section [prepares plan a]); [done | |].
  { intros s2 ar. unfold route_section. destruct (negb _); [by intros [= <-] | done]. }
  clear h Hh. intros s2 a2 h E Hh. unfold route_section in E. destruct (negb _); [done |]. injection E as <-.
  apply (told_milestone [prepares plan a]); [done |]. clear h Hh. intros h Hh.
  set (re := route_for s1 _). intros r. unfold external. destruct (verify re _ (run_world r)) as [w [vo | e]] eqn:Ev; [| done]. cbn [fst snd].
  apply (occurs_then _ (verifies Ops vo) _ r (mkRun (run_impl r) (run_fs r) w)) in Hh; [| by eexists _, _]. cbn [app] in Hh.
  match goal with |- records _ ?h' _ => generalize h' Hh end. clear h Hh Ev. intros h Hh.
  apply (told_any _ _ _ _ Hh). clear h Hh. intros tc h Hh r1. unfold locked.
  destruct (verify_section _ vo tc (run_impl r1)) as [s' x] eqn:E. cbn [fst snd].
  match type of E with verify_section ?a3 _ _ _ = _ => set (a2 := a3) in * end.
  assert (same_attempt a a2) as Ha2 by exact Ha. destruct x as [ar | a3]; [| by intros [=]]. clearbody a2.
  apply (occurs_then _ (commits a2 vo tc ar) _ r1 (mkRun s' (run_fs r1) (run_world r1))) in Hh; [| done]. cbn [app] in Hh. cbn.
  case_bool_decide as Hc; [| by intros ?]. intros r2 _. exists a, a2, vo, tc, ar. split; [done |]. split; [done |]. by apply occurs_app.
Qed.

Lemma told_plan h : told h (run_plan plan).
Proof.
  intros r. unfold locked_st. destruct (prepare plan (run_impl r)) as [s' [[ar | a] | e]] eqn:E; cbn [fst snd]; [| | done].
  - intros Hc. destruct (prepare_cases plan (run_impl r)) as (s0 & _ & H). rewrite E in H. destruct H as (_ & Hf & _). congruence.
  - assert (occurs [prepares plan a] (h ++ [(r, mkRun s' (run_fs r) (run_world r))])) as Hh by (by apply (occurs_then [])).
    match goal with |- records _ ?h' _ => generalize h' Hh end. clear h Hh. intros h Hh.
    change (told h (at_milestone Milestone.INTENT_ONLY a None (t0 ⇐ now; fo ⇐ fence_call a;
      unless_done (locked (fence_section a fo)) (fun a => at_milestone Milestone.OLD_ADMISSION_FENCED a None (promote t0 a))))).
    apply (told_milestone [prepares plan a]); [done |]. clear h Hh. intros h Hh.
    apply (told_any [prepares plan a]); [done |]. clear h Hh. intros t0 h Hh.
    apply (told_any [prepares plan a]); [done |]. clear h Hh. intros fo h Hh. apply (told_section [prepares plan a]); [done | |].
    { intros s ar. unfold fence_section. do 2 (destruct (_ : bool); [by intros [= <-] |]). done. }
    clear h Hh. intros s a1 h E1 Hh. unfold fence_section in E1. do 2 (destruct (_ : bool); [done |]). injection E1 as <-.
    apply (told_milestone [prepares plan a]); [done |]. clear h Hh. intros h Hh. by apply (told_promote _ a).
Qed.
End cutover.

(** What a commit does to the core. *)
Lemma verify_committed a vo tc s ar :
  impl_wf s -> (verify_section a vo tc s).2 = inl ar -> ar_state ar = AttemptState.COMPLETED ->
  let s' := (verify_section a vo tc s).1 in
  (is_Some (find_slot s (at_slot a)) -> slot_current s' (at_slot a) = Some (activated (at_new a))) /\
  (forall k, k <> at_slot a -> slot_current s' k = slot_current s k) /\ im_has_txn s' = false /\
  (forall o cur, at_old a = Some o -> slot_current s (at_slot a) = Some cur -> asg_id cur = asg_id o /\ asg_generation cur = asg_generation o) /\
  (forall o, at_old a = Some o -> asg_worker_boot o <> id_null -> asg_worker_boot o ∈ im_fenced_boots s') /\
  vo_verified vo = true.
Proof.
  intros Hwf. destruct (verify_section_cases a vo tc s Hwf) as [[_ ->] | [(_ & _ & ->) | (Hvo & Hg & s1 & Es & ->)]];
    cbn [stop fst snd]; [by intros [= <-] | by intros [= <-] |]. intros _ _.
  assert (forall k, slot_current s1 k = if decide (k = at_slot a) then (if find_slot_pos s k then Some (activated (at_new a)) else None) else slot_current s k)
    as Hc by (intros k; rewrite Es; by apply commit_slot_current).
  split_and!; try done.
  - intros Hs. rewrite slot_current_committed, Hc, decide_True by done. unfold find_slot in Hs. by destruct (find_slot_pos s (at_slot a)); [| destruct Hs].
  - intros k Hk. by rewrite slot_current_committed, Hc, decide_False.
  - intros o Ho Hb. rewrite Ho. cbn. apply elem_of_add_fenced. by right.
Qed.

(** An ok reply to EXECUTE_FAILOVER: a cutover of the slot that was prepared, verified and
    committed, and then the slot's assignment was read for the reply. *)
Definition reads_current (k : ServiceSlotKey) (cur : option Assignment) (r r' : R) : Prop :=
  r' = r /\ slot_current (run_impl r) k = cur.
Definition failover_told (f : Frame) (h : list (R * R)) (x : result Handled) : Prop :=
  match x with
  | Ok (Replied g) => frame_flag g fid_ok = true ->
      exists fs sid ep plan a a' vo tc ar1 ar cur, payload_reader (fr_payload f) = Ok fs /\ p_u64 fs fid_service = Ok sid /\
        pl_slot plan = slot1 sid /\ same_attempt a a' /\ ar_state ar1 = AttemptState.COMPLETED /\
        occurs [prepares plan a; verifies (SocketOps ep) vo; commits a' vo tc ar1; reads_current (slot1 sid) cur] h /\
        message MsgType.EXECUTE_FAILOVER (fr_msg_id f) (fr_epoch f) (attempt_reply ar cur) = Ok g
  | _ => True
  end.

Lemma failover_refused f h (t : Thread) : ensures (fun _ => True) (ok_tells (fun _ => False)) t -> records (failover_told f) h t.
Proof.
  intros H. apply (ensures_records _ h) in H. eapply records_mono; [| exact H]. intros h' [[] | e]; try done.
  cbn. intros Hf Hok. by destruct (Hf Hok).
Qed.

Lemma records_lift {A} f h (x : result A) (k : A -> Thread) :
  (forall a h, x = Ok a -> records (failover_told f) h (k a)) -> records (failover_told f) h (a ⇐ lift x; k a).
Proof. intros H r. unfold lift. destruct x as [a | e]; [by apply H | done]. Qed.

Lemma tells_failover p f h : records (failover_told f) h (on_execute_failover p f).
Proof.
  unfold on_execute_failover. apply records_lift. clear h. intros fs h Hfs. apply records_lift. clear h. intros sid h Hsid.
  set (rest := fun _ : unit => _).
  assert (forall h, records (failover_told f) h (rest tt)) as Hrest; cycle 1.
  { destruct (has_field fs fid_state); [| apply Hrest]. apply records_bind, records_bind. intros r. cbn [lift snd].
    destruct (p_u8 fs fid_state) as [bm | e]; [| done]. cbn [records].
    destruct (Z.leb bm _); [| apply Hrest]. intros r1. apply Hrest. }
  clear h. intros h. unfold rest. intros r. unfold locked_st, plan_failover.
  pose proof (plan_failover_pref_slot (slot1 sid) None (run_impl r)) as Hk.
  destruct (plan_failover_pref (slot1 sid) None (run_impl r)) as [s' [[plan |] | e]]; cbn [fst snd];
    [| apply failover_refused; by apply tells_refusal | done].
  intros r1. apply records_bind. set (ep := ep_epoch _).
  eapply records_mono; [| apply (told_plan (Ops := SocketOps ep) plan)]. clear h. intros h [ar | e] Hc; [| done].
  intros r2 r3 r4. cbn [fst snd core gets]. unfold external.
  destruct (co_send p _ _ _ _ (run_world r4)) as [w [[g |] | e]] eqn:Es; cbn; [| done | done]. intros Hok.
  apply co_send_message in Es. rewrite (message_flag _ _ _ _ _ _ _ Es (eq_refl : find_field (field_of <$> attempt_reply ar _) fid_ok = _)) in Hok.
  apply andb_true_iff in Hok as [Hst%bool_decide_eq_true _]. destruct (Hc Hst) as (a & a' & vo & tc & ar1 & Ha & Har & Hocc).
  exists fs, sid, ep, plan, a, a', vo, tc, ar1, ar, (current_assignment (run_impl r3) (slot1 sid)).
  do 2 (split; [done |]). split; [by apply (Hk plan) |]. do 2 (split; [done |]). split; [| done].
  refine (occurs_app [_; _; _; _] _ _ _). apply (occurs_then [_; _; _]); [by apply occurs_app | done].
Qed.

(** * Threads that run alone *)

(** A thread whose actions are scheduled one after the other is [run]. *)
Lemma pool_alone p t c :
  pool_threads c !! p = Some t ->
  exists n, pool_run (replicate n (Acts p)) c = mkPool (run t (pool_state c)).1 (<[ p := Done (run t (pool_state c)).2 ]> (pool_threads c)).
Proof.
  revert c. induction t as [x | B m k IH]; intros c Hp.
  - exists 0%nat. cbn. rewrite insert_id by done. by destruct c.
  - destruct (IH (m (pool_state c)).2 (pool_event (Acts p) c)) as [n Hn].
    { cbn [pool_event]. rewrite Hp. apply lookup_insert_eq. }
    exists (S n). cbn [replicate pool_run foldl]. unfold pool_run in Hn. rewrite Hn. cbn [pool_event]. rewrite Hp. cbn [pool_state pool_threads run].
    destruct (m (pool_state c)) as [r' x]. cbn [fst snd]. by rewrite insert_insert_eq.
Qed.

Lemma handler_alone p f c :
  pool_threads c !! p = None ->
  exists n, let es := replicate n (Acts p) in
    answered p f c es (handle p f (pool_state c)).2 /\
    pool_run (Starts p f :: es ++ [Returns p]) c = mkPool (handle p f (pool_state c)).1 (pool_threads c).
Proof.
  intros Hp. destruct (pool_alone p (handler p f) (pool_event (Starts p f) c)) as [n Hn].
  { cbn [pool_event]. rewrite Hp. apply lookup_insert_eq. }
  rewrite (agrees_handle p f) in Hn. unfold pool_event at 2 3 4 in Hn. rewrite Hp in Hn. cbn [pool_state pool_threads] in Hn.
  rewrite insert_insert_eq in Hn. exists n. cbv zeta. split.
  - split; [done |]. split; [by apply Forall_replicate |]. rewrite Hn. apply lookup_insert_eq.
  - cbn [pool_run foldl]. rewrite foldl_app. unfold pool_run in Hn. rewrite Hn. cbn [foldl pool_event pool_threads pool_state].
    rewrite lookup_insert_eq. f_equal. by rewrite delete_insert_id.
Qed.

(** The handlers one after the other. *)
Lemma sequential_threaded es r : exists es', pool_run es' (mkPool r ∅) = mkPool (coord_run es r) ∅.
Proof.
  revert r. induction es as [| e es IH]; intros r; [by exists [] |].
  assert (exists es1, pool_run es1 (mkPool r ∅) = mkPool (coord_event e r) ∅) as [es1 H1].
  { destruct e as [| p f | n]; [by exists [Accepts] | | by exists [Changes n]].
    destruct (handler_alone p f (mkPool r ∅)) as (n & _ & Hn); [apply lookup_empty |]. by eexists. }
  destruct (IH (coord_event e r)) as [es2 H2]. exists (es1 ++ es2). by rewrite pool_run_app, H1.
Qed.

End pool.

(** * Theorems *)

(** C7: The coordinator process with its threads implements the transition system of
    System.  However many connections are accepted, whatever frames they carry, however
    the actions of their handlers interleave and whatever the network does in between,
    the core of the process goes through steps of that system only, from the state it was
    started or restored in; so the representation invariant holds at every moment, and a
    process started without a file is always in a state reachable from a new coordinator. *)
Theorem threads_refine_system {N : Type} `{Net : PeerNet N} `{EO : EvalOrder} (a : CoordArgs) (fs : FileSystem) (n : N)
    (es : list PoolEvent) (c : Pool) :
  threaded a fs n es c ->
  let s' := run_impl (pool_state c) in
  exists s ps, coordinator_start a fs = Ok s /\ rtc sys_step (mkConfiguration s []) (mkConfiguration s' ps) /\
    impl_wf s' /\ im_epoch s' = im_epoch s /\
    (ca_load a = "" -> exists ps', reachable config_default (mkConfiguration s' ps')).
Proof.
  intros (s & Hs & ->) s'. destruct (tracks_run es _ _ _ (tracks_init s fs n)) as [He (ps & loc & Hr & Ht)].
  exists s, ps. split; [done |]. split; [exact Hr |]. split; [| split; [exact He |]].
  - by apply (sys_steps_ok _ _ (conj (start_wf a fs s Hs : impl_wf (cf_impl (mkConfiguration s []))) (List.Forall_nil _)) Hr).
  - intros Hl. destruct (start_cases a fs s Hs) as [[_ Hi] | [Hne _]]; [| done]. destruct (Hi []) as [ps0 Hps0].
    destruct (tracks_run es (pool_init s fs n) ps0 ∅) as [_ (ps' & loc' & Hr' & _)].
    + split; cbn; intros *; by rewrite lookup_empty.
    + exists ps'. unfold reachable. by etrans.
Qed.

(** C13: The coordinator accepts a result only under current authority, whatever its other
    threads do meanwhile: when an AUTHORIZE_RESULT is answered ok, there was a moment
    between the reading of the frame and the end of its handler at which the result
    named the slot's current ACTIVE assignment, the current epoch, its generations and
    its worker boot, not fenced, for a request that was recorded and whose response was
    not committed; and the frame did not report the result as withheld. *)
Theorem concurrent_results_gated {N : Type} `{Net : PeerNet N} (p : Z) (f g : Frame) (c : Pool) (es : list PoolEvent) :
  fr_type f = MsgType.AUTHORIZE_RESULT -> answered p f c es (Ok (Replied g)) -> frame_flag g fid_ok = true ->
  exists s fs sid auth cur rec, meanwhile p f c es s /\
    payload_reader (fr_payload f) = Ok fs /\ p_u64 fs fid_service = Ok sid /\ read_result_auth fs (slot1 sid) = Ok auth /\
    flag fs fid_withheld = Ok false /\ Authorized s auth cur /\
    request_find (im_requests s) (wa_request auth) = Some rec /\ rq_disposition rec <> RequestDisposition.RESPONSE_COMMITTED.
Proof.
  intros Ht Ha Hok. destruct (result_accepted_meanwhile p f c es g Ht Ha Hok) as (s & fs & sid & auth & Hs & Hfs & Hsid & Hau & Hw & Hg).
  apply result_allowed_iff in Hg as [[cur Hc] (rec & Hrec & Hd)]. by exists s, fs, sid, auth, cur, rec.
Qed.

(** C14: A fence holds against every interleaving: once a worker boot is fenced, no
    AUTHORIZE_RESULT that names it and is read afterwards is answered ok, whatever the
    other threads, cutovers in flight among them, do while it is handled. *)
Theorem fences_hold_under_threads {N : Type} `{Net : PeerNet N} `{EO : EvalOrder} (a : CoordArgs) (fs : FileSystem) (n : N)
    (es es1 es2 : list PoolEvent) (c : Pool) (b : WorkerBootId) (p : Z) (f g : Frame) (fields : list Field) :
  threaded a fs n es c -> b ∈ im_fenced_boots (run_impl (pool_state c)) ->
  fr_type f = MsgType.AUTHORIZE_RESULT -> payload_reader (fr_payload f) = Ok fields -> p_u64 fields fid_boot = Ok (id_value b) ->
  answered p f (pool_run es1 c) es2 (Ok (Replied g)) -> frame_flag g fid_ok = false.
Proof.
  intros Hc Hb Ht Hfs Hboot Ha. apply not_true_iff_false. intros Hok.
  destruct (result_accepted_meanwhile _ _ _ _ _ Ht Ha Hok) as (s & fs' & sid & auth & (es3 & es4 & -> & ->) & Hfs' & _ & Hau & _ & Hg).
  apply result_allowed_iff in Hg as [[cur Hcur] _]. apply (au_not_fenced _ _ _ Hcur).
  assert (wa_worker_boot auth = b) as ->.
  { rewrite Hfs in Hfs'. injection Hfs' as <-. rewrite (read_result_auth_boot _ _ _ _ Hau Hboot). by destruct b. }
  destruct (threaded_on a fs n es c (es1 ++ Starts p f :: es3) Hc) as (_ & _ & Hk & _). revert Hk. unfold pool_run.
  rewrite foldl_app. intros Hk. by apply Hk.
Qed.

(** C16: A restarted coordinator never accepts a result under a grant of an earlier epoch,
    whatever its threads do: it runs under the epoch after the saved one for as long as
    it runs, and an AUTHORIZE_RESULT with the saved epoch or an earlier one is not
    answered ok. *)
Theorem earlier_epochs_refused_under_threads {N : Type} `{Net : PeerNet N} `{EO : EvalOrder} (a : CoordArgs) (fs : FileSystem)
    (n : N) (es es' : list PoolEvent) (c : Pool) (snap : PersistenceSnapshot) (p e : Z) (f g : Frame) (fields : list Field) :
  threaded a fs n es c -> ca_load a <> "" -> load_file (ca_load a) fs = Ok snap -> 0 <= ep_epoch (ps_epoch snap) < 2 ^ 64 - 1 ->
  fr_type f = MsgType.AUTHORIZE_RESULT -> payload_reader (fr_payload f) = Ok fields -> p_u64 fields fid_epoch = Ok e ->
  e <= ep_epoch (ps_epoch snap) -> answered p f c es' (Ok (Replied g)) ->
  im_epoch (run_impl (pool_state c)) = mkEpoch (ep_epoch (ps_epoch snap) + 1) (mkId 1) (mkId 1) /\ frame_flag g fid_ok = false.
Proof.
  intros Hc Hl Hld Hep Ht Hfs He Hle Ha.
  assert (im_epoch (run_impl (pool_state c)) = mkEpoch (ep_epoch (ps_epoch snap) + 1) (mkId 1) (mkId 1)) as Hcur.
  { destruct Hc as (s & Hs & ->). destruct (tracks_run es _ _ _ (tracks_init s fs n)) as [-> _].
    by apply (restored_epoch a fs s snap). }
  split; [done |]. apply not_true_iff_false. intros Hok.
  destruct (result_accepted_meanwhile _ _ _ _ _ Ht Ha Hok) as (s & fs' & sid & auth & (es3 & es4 & -> & ->) & Hfs' & _ & Hau & _ & Hg).
  apply result_allowed_iff in Hg as [[cur Hc'] _]. pose proof (au_epoch _ _ _ Hc') as Hae.
  destruct (threaded_on a fs n es c (Starts p f :: es3) Hc) as (_ & _ & _ & Hkeep). cbn [pool_run foldl] in Hkeep. unfold pool_run in Hae.
  rewrite Hkeep, Hcur in Hae.
  rewrite Hfs in Hfs'. injection Hfs' as <-. pose proof (read_result_auth_epoch _ _ _ _ Hau He) as He'.
  rewrite Hae in He'. cbn [ep_epoch] in He'. lia.
Qed.

(** The sequential handlers are the threads that nobody interrupts: scheduling the
    actions of a handler one after the other leaves the state and ends with the value
    that [handle] gives, with the other threads where they were; and every run of the
    process in which the handlers come one after the other is one of its threaded runs. *)
Theorem sequential_runs_are_threaded {N : Type} `{Net : PeerNet N} `{EO : EvalOrder} :
  (forall p f (c : Pool (N := N)), pool_threads c !! p = None ->
     exists n, let es := replicate n (Acts p) in
       answered p f c es (handle p f (pool_state c)).2 /\
       pool_run (Starts p f :: es ++ [Returns p]) c = mkPool (handle p f (pool_state c)).1 (pool_threads c)) /\
  (forall a fs (n : N) es r, process a fs n es r -> exists es', threaded a fs n es' (mkPool r ∅)).
Proof.
  split; [apply handler_alone |]. intros a fs n es r (s & Hs & ->).
  destruct (sequential_threaded es (mkRun s fs (coord_init n))) as [es' H]. by exists es', s.
Qed.

(** C15: A request of unknown outcome that may not be replayed is never dispatched again, in any
    interleaving: once its outcome is recorded as unknown, at a moment at which no handler
    is running, its record stays as it is, and every AUTHORIZE_REQUEST for it that is read
    afterwards is refused, whatever else the threads do. *)
Theorem never_replayed_under_threads {N : Type} `{Net : PeerNet N} (id : Z) (rec : RequestRecord) (c : Pool)
    (es1 es2 : list PoolEvent) (p : Z) (f g : Frame) (fields : list Field) :
  pool_threads c = ∅ -> request_find (im_requests (run_impl (pool_state c))) (mkId id) = Some rec ->
  rq_disposition rec = RequestDisposition.OUTCOME_UNKNOWN -> record_retry_allowed rec = false ->
  fr_type f = MsgType.AUTHORIZE_REQUEST -> payload_reader (fr_payload f) = Ok fields -> p_u64 fields fid_request_id = Ok id ->
  answered p f (pool_run es1 c) es2 (Ok (Replied g)) ->
  frame_flag g fid_ok = false /\
  request_find (im_requests (run_impl (pool_state (pool_run (es1 ++ Starts p f :: es2) c)))) (mkId id) = Some rec.
Proof.
  intros Hc Hf Hd Hr Ht Hfs Hid Ha.
  assert (forall es, unknown_at (mkId id) rec (pool_state (pool_run es c))) as Hu.
  { intros es. apply pool_keeps; [unfold unknown_at; by intros r r' -> | apply sustains_handler | done |]. intros q t. by rewrite Hc, lookup_empty. }
  split; [| apply Hu]. apply not_true_iff_false. intros Hok.
  destruct (request_granted_meanwhile _ _ _ _ _ Ht Ha Hok) as (fs & sid & req & cur & idem & eff & s1 & s2 & s3 & s4 & Hfs' & _ & Hid' & Hm & _ & _ & Hno & _).
  rewrite Hfs in Hfs'. injection Hfs' as <-. rewrite Hid in Hid'. injection Hid' as <-.
  apply Forall_cons in Hm as [_ [(es3 & es4 & -> & ->) _]%Forall_cons]. specialize (Hu (es1 ++ Starts p f :: es3)).
  apply unknown_refused in Hu. rewrite pool_run_app in Hu. unfold pool_run in Hu, Hno. cbn [foldl] in Hu. rewrite Hu in Hno. done.
Qed.

(** C11: The ok reply to EXECUTE_FAILOVER is true in every interleaving.  While its handler
    ran, four of its actions came in this order, other threads acting between them: a
    cutover of the slot was prepared, on the assignment the slot had at that moment; the
    gateway answered the call that verifies the new route, and answered verified; the
    cutover committed; and the slot's assignment was read, whose target the reply names.
    At the commit the assignment the cutover was prepared on, if there was one, was still
    the slot's (identity and generation), the replacement prepared became its ACTIVE
    assignment if the coordinator knows the slot, no other slot changed and no
    transaction was left open.  The boot of the assignment it was prepared on, if there
    was one and its boot is not null, is fenced when the reply is sent. *)
Theorem failover_truthful_under_threads {N : Type} `{Net : PeerNet N} `{EO : EvalOrder} (ca : CoordArgs) (fs : FileSystem) (n : N)
    (es0 es : list PoolEvent) (c : Pool) (p : Z) (f g : Frame) :
  threaded ca fs n es0 c -> fr_type f = MsgType.EXECUTE_FAILOVER -> answered p f c es (Ok (Replied g)) -> frame_flag g fid_ok = true ->
  exists fields sid ep plan a a' vo tc ar cur,
    payload_reader (fr_payload f) = Ok fields /\ p_u64 fields fid_service = Ok sid /\ pl_slot plan = slot1 sid /\
    let k := slot1 sid in
    performs p
      [ fun r r' => prepares plan a r r' /\ at_slot a = k /\ at_old a = slot_current (run_impl r) k;
        verifies (SocketOps ep) vo;
        fun r r' => commits a' vo tc ar r r' /\
          (forall o c, at_old a = Some o -> slot_current (run_impl r) k = Some c -> asg_id c = asg_id o /\ asg_generation c = asg_generation o) /\
          (is_Some (find_slot (run_impl r) k) -> slot_current (run_impl r') k = Some (activated (at_new a))) /\
          (forall k', k' <> k -> slot_current (run_impl r') k' = slot_current (run_impl r) k') /\ im_has_txn (run_impl r') = false;
        reads_current k cur ]
      (pool_event (Starts p f) c) es /\
    same_attempt a a' /\ vo_verified vo = true /\
    (forall o, at_old a = Some o -> asg_worker_boot o <> id_null ->
       asg_worker_boot o ∈ im_fenced_boots (run_impl (pool_state (pool_run (Starts p f :: es) c)))) /\
    (forall x, cur = Some x -> (l ← payload_reader (fr_payload g); Ok (find_field l fid_target)) =
       Ok (Some (field_of (fid_target, VU64 (id_value (asg_target x)))))).
Proof.
  intros Hc Ht Ha Hok.
  assert (records (failover_told f) [] (handler p f)) as Hrec.
  { apply records_catch. eapply records_mono; [| unfold dispatch; rewrite Ht; apply tells_failover].
    intros h [x | e] H; [exact H |]. apply failover_refused. by apply tells_refusal. }
  destruct (answered_records _ _ _ _ _ _ Ha Hrec Hok) as
    (fields & sid & ep & plan & a & a' & vo & tc & ar & ar' & cur & Hfs & Hsid & Hpl & Hsame & Har & Hocc & Hm).
  apply occurs_performs in Hocc.
  assert (forall es1 es2, es = es1 ++ es2 -> impl_wf (run_impl (pool_state (pool_run es1 (pool_event (Starts p f) c))))) as Hwf.
  { intros es1 es2 ->. by destruct (threaded_on ca fs n es0 c (Starts p f :: es1) Hc) as (_ & ? & _). }
  destruct Hsame as (Hk & Ho & Hn). pose proof Hocc as (es1 & es1' & Ees & Hprep & es2 & es2' & -> & _ & es3 & es3' & -> & Hcom & _).
  set (c3 := pool_run es3 _) in Hcom.
  assert (exists e, c3 = pool_run e (pool_event (Starts p f) c) /\ es = e ++ Acts p :: es3') as (e & Ec3 & Ee).
  { exists (es1 ++ Acts p :: es2 ++ Acts p :: es3). split; [| by rewrite Ees, <- !app_assoc; cbn; rewrite <- app_assoc].
    unfold c3. rewrite !pool_run_app. cbn [pool_run foldl]. by rewrite foldl_app. }
  assert (impl_wf (run_impl (pool_state c3))) as Hwf3 by (rewrite Ec3; by eapply Hwf).
  assert (at_slot a = slot1 sid) as Hka.
  { destruct (prepare_cases plan (run_impl (pool_state (pool_run es1 (pool_event (Starts p f) c))))) as (s0 & _ & H).
    rewrite Hprep in H. destruct H as (_ & _ & -> & _). done. }
  destruct (verify_committed _ _ _ _ ar Hwf3 (f_equal snd Hcom) Har) as (_ & _ & _ & _ & Hf & Hv). rewrite Hcom in Hf.
  exists fields, sid, ep, plan, a, a', vo, tc, ar, cur. do 3 (split; [done |]). cbv zeta. split; [| split; [done |]; split; [done |]; split].
  - eapply (performs_impl (fun r => impl_wf (run_impl r))); [exact Hwf | | exact Hocc]. repeat apply List.Forall2_cons; [| by intros | | by intros | apply List.Forall2_nil].
    + intros r r' _ Hp. split; [done |]. split; [done |]. destruct (prepare_cases plan (run_impl r)) as (s0 & _ & H). rewrite Hp in H.
      destruct H as (_ & _ & _ & -> & _). by rewrite Hpl.
    + intros r r' Hw Hcm. split; [done |]. destruct (verify_committed _ _ _ _ ar Hw (f_equal snd Hcm) Har) as (V1 & V2 & V3 & V4 & _).
      rewrite Hcm, Hk, Hka, ?Ho, ?Hn in *. by split_and!.
  - intros o Eo Hb. rewrite <- Ho in Eo. specialize (Hf o Eo Hb).
    destruct Hc as (s & Hs & ->).
    destruct (threaded_on ca fs n (es0 ++ Starts p f :: e ++ [Acts p]) (pool_event (Acts p) c3) es3') as (_ & _ & Hfk & _).
    { exists s. split; [done |]. rewrite Ec3. rewrite pool_run_app. cbn [pool_run foldl]. by rewrite foldl_app. }
    apply Hfk in Hf. rewrite Ee. cbn [pool_run foldl]. rewrite foldl_app. rewrite Ec3 in Hf. exact Hf.
  - intros x ->. unfold mbind, result_bind. by rewrite (message_fields _ _ _ _ _ Hm).
Qed.

