(* ===== verification/Refusals.v ===== *)
(** What the coordinator's refusals mean while other threads run: a handler of
    EXECUTE_FAILOVER or REQUEST_FAILBACK (coordinator_main.cpp) that answers that the
    cutover failed has itself moved no slot to another assignment, whatever the other
    threads did in the meantime. *)

From stdpp Require Import base list gmap strings.
From Stdlib Require Import ZArith Lia.
From S2P Require Import Prelude Threads Identities Types Bytes Model Codec Domains Evidence Routes Requests.
From S2P Require Import Recovery Selection Persistence Fabric Cutover Failback Invariant System.
From S2P Require Import Protocol Wire Coordinator CoordinatorSpec Process Concurrent.

Open Scope Z_scope.

Section refusals.
Context {N : Type} `{Net : PeerNet N}.
Notation R := (Run (Coord N)).
Notation Thread := (Prog R Handled).

(** The slots are as they were. *)
Definition same_slots (r r' : R) : Prop :=
  im_slot_index (run_impl r') = im_slot_index (run_impl r) /\ im_slots (run_impl r') = im_slots (run_impl r).
#[export] Instance same_slots_preorder : PreOrder same_slots.
Proof. split; [done |]. intros r1 r2 r3 [] []. split; congruence. Qed.

Lemma slots_still {A} (m : ST R A) : (forall r, run_impl (m r).1 = run_impl r) -> guarantees same_slots (atomic m).
Proof. intros H. apply guarantees_atomic. intros r. unfold same_slots. by rewrite H. Qed.
Lemma slots_external {A} (f : Coord N -> Coord N * result A) : guarantees same_slots (atomic (external f)).
Proof. apply slots_still. intros r. unfold external. by destruct (f (run_world r)). Qed.
Lemma slots_locked {A} (f : Impl -> Impl * A) :
  (forall s, im_slot_index (f s).1 = im_slot_index s /\ im_slots (f s).1 = im_slots s) -> guarantees same_slots (atomic (locked f)).
Proof. intros H. apply guarantees_atomic. intros r. specialize (H (run_impl r)). unfold locked. by destruct (f (run_impl r)). Qed.
Lemma slots_locked_st {A} (f : ST Impl A) :
  (forall s, im_slot_index (f s).1 = im_slot_index s /\ im_slots (f s).1 = im_slots s) -> guarantees same_slots (atomic (locked_st f)).
Proof. intros H. apply guarantees_atomic. intros r. specialize (H (run_impl r)). unfold locked_st. by destruct (f (run_impl r)). Qed.

Lemma slots_respond p f type l : guarantees same_slots (respond p f type l : Thread).
Proof. apply guarantees_bind; [apply slots_external | done]. Qed.

(** * The cutover *)

(** The section that commits, if it does, says so. *)
Definition verified_outcome (x : AttemptResult + Attempt) : Prop :=
  match x with inl ar => ar_state ar = AttemptState.COMPLETED /\ ar_recovery_verified ar = true | inr _ => False end.
Lemma verify_slots a vo tc s :
  (im_slot_index (verify_section a vo tc s).1 = im_slot_index s /\ im_slots (verify_section a vo tc s).1 = im_slots s) \/
  verified_outcome (verify_section a vo tc s).2.
Proof.
  unfold verify_section, stop. destruct (negb (vo_verified vo)); [by left |]. destruct (find_slot_pos s (at_slot a)) as [[i st] |].
  - destruct (superseded a st); [by left | by right].
  - unfold superseded. right. by destruct (at_old a).
Qed.

Section cutover.
Context `{Ops : CutoverOps (Coord N)}.
(** The result of a cutover that committed. *)
Definition completed (x : result AttemptResult) : Prop :=
  match x with Ok ar => ar_state ar = AttemptState.COMPLETED /\ ar_recovery_verified ar = true | Throw _ => True end.
Notation moves := (keeps_unless same_slots completed).

Lemma moves_now {B} Q (k : Z -> Prog R B) : (forall t, keeps_unless same_slots Q (k t)) -> keeps_unless same_slots Q (t ⇐ now; k t).
Proof. intros Hk. apply keeps_then; [by apply slots_still | done]. Qed.
Lemma moves_section (f : Impl -> Impl * (AttemptResult + Attempt)) (q : Attempt -> Prog R AttemptResult) :
  (forall s, im_slot_index (f s).1 = im_slot_index s /\ im_slots (f s).1 = im_slots s) -> (forall a, moves (q a)) ->
  moves (unless_done (locked f) q).
Proof. intros Hf Hq. apply keeps_then; [by apply slots_locked |]. by intros [ar | a]. Qed.
Lemma moves_milestone m a rt (q : Prog R AttemptResult) : moves q -> moves (at_milestone m a rt q).
Proof.
  intros Hq. apply keeps_then; [| by intros []]. unfold checkpoint.
  apply guarantees_bind; [by apply slots_locked |]. intros _. apply guarantees_bind; [by apply slots_still |]. intros path.
  apply guarantees_bind; [| by intros; apply slots_still]. destruct (String.eqb path ""); [done |].
  apply guarantees_bind; [by apply slots_still |]. intros snap. apply slots_still. intros r. unfold write_snapshot.
  by destruct (save_file _ _ _ _).
Qed.

Lemma moves_promote (t0 : Z) a : moves (promote t0 a).
Proof.
  unfold promote. apply keeps_then; [by apply slots_still |]. intros s0. apply keeps_then; [apply slots_external |]. intros ao.
  apply moves_section; [intros s; unfold activate_section; by destruct (negb _) |]. intros a1.
  apply moves_milestone. apply keeps_then; [by apply slots_still |]. intros s1. apply keeps_then; [apply slots_external |]. intros ro.
  apply moves_section.
  { intros s. unfold route_section. destruct (negb _); [done |]. by repeat case_match. }
  intros a2. apply moves_milestone. apply keeps_then; [apply slots_external |]. intros vo. apply moves_now. intros tc.
  apply keeps_unless_bind.
  - intros r. unfold locked. destruct (verify_slots a2 vo tc (run_impl r)) as [H | H];
      destruct (verify_section a2 vo tc (run_impl r)) as [s' x]; cbn [fst snd] in *; [by left | right].
    destruct x as [ar |]; [| done]. destruct H as [H1 H2]. cbn. rewrite bool_decide_true by done. by intros ? _ _.
  - intros [ar | a3]; [| done]. case_bool_decide; [| done]. apply moves_now. done.
Qed.

Lemma moves_plan plan : moves (run_plan plan).
Proof.
  apply keeps_then.
  - apply slots_locked_st. intros s. eapply prepare_slots, surjective_pairing.
  - intros [ar | a]; [done |]. apply moves_milestone. apply moves_now. intros t0. apply keeps_then.
    { unfold fence_call. destruct (at_old a); [apply slots_external | by apply slots_still]. }
    intros fo. apply moves_section.
    { intros s. unfold fence_section. repeat case_match; try done; cbn; apply add_fenced_boot_slots. }
    intros a1. apply moves_milestone. apply moves_promote.
Qed.
End cutover.

(** * The handlers *)

(** A reply of the type of the request says ok. *)
Definition accepts (type : MsgType) (x : result Handled) : Prop :=
  match x with Ok (Replied g) => fr_type g = type -> frame_flag g fid_ok = true | _ => True end.

Lemma accepts_respond (p : Z) (f : Frame) type l :
  (find_field (field_of <$> l) fid_ok = Some (field_of (fid_ok, VBool true))) ->
  ensures (fun _ => True) (accepts type) (respond p f type l : Thread).
Proof.
  intros Hf r _ _. unfold external. destruct (co_send p type _ _ l (run_world r)) as [w [[g |] | e]] eqn:E; cbn; [| done | done].
  intros _. apply co_send_message in E. by rewrite (message_flag _ _ _ _ _ _ _ E Hf).
Qed.
Lemma accepts_error (p : Z) (f : Frame) type e : type <> MsgType.ERROR_MSG -> ensures (fun _ => True) (accepts type) (error_reply p f e : Thread).
Proof.
  intros Ht r _ _. unfold external. destruct (co_send p MsgType.ERROR_MSG _ _ _ (run_world r)) as [w [[g |] | e']] eqn:E; cbn; [| done | done].
  apply co_send_message, message_inv in E as (-> & _). congruence.
Qed.

(** A cutover that committed is answered ok. *)
Lemma accepts_attempt (p : Z) (f : Frame) type ar cur :
  completed (Ok ar) -> ensures (fun _ => True) (accepts type) (respond p f type (attempt_reply ar cur) : Thread).
Proof. intros [H1 H2]. apply accepts_respond. unfold attempt_reply. rewrite H1, H2. done. Qed.
Lemma ensures_any {A B} (Q : result B -> Prop) (m : ST R A) (k : A -> Prog R B) :
  (forall e, Q (Throw e)) -> (forall a, ensures (fun _ => True) Q (k a)) -> ensures (fun _ => True) Q (a ⇐ m; k a).
Proof. intros He Hk r _ _. destruct (m r) as [r' [a | e]]; [apply Hk | apply He]. Qed.

Definition moves_slots (type : MsgType) : Thread -> Prop := keeps_unless same_slots (accepts type).

Lemma execute_failover_moves p f : moves_slots MsgType.EXECUTE_FAILOVER (on_execute_failover p f).
Proof.
  unfold on_execute_failover. apply keeps_then; [by apply slots_still |]. intros fs. apply keeps_then; [by apply slots_still |]. intros sid.
  apply keeps_then.
  { destruct (has_field fs fid_state); [| done]. apply guarantees_bind; [by apply slots_still |]. intros bm.
    destruct (Z.leb _ _); [by apply slots_locked | done]. }
  intros _. apply keeps_then; [apply slots_locked_st; intros s; unfold plan_failover |].
  { destruct (plan_failover_pref_state (slot1 sid) None s) as [-> | ->]; [done |]. unfold snapshot_locked. by destruct (gen_next _). }
  intros [plan |]; [| by apply guarantees_keeps, slots_respond]. apply keeps_then; [by apply slots_still |]. intros ep.
  apply keeps_unless_bind.
  - eapply keeps_unless_mono; [| apply moves_plan]. intros [ar | e] H; [| done].
    apply ensures_any; [done |]. intros _. apply ensures_any; [done |]. intros cur. by apply accepts_attempt.
  - intros ar. apply keeps_then; [by apply slots_locked |]. intros _. apply keeps_then; [by apply slots_still |]. intros cur.
    apply guarantees_keeps, slots_respond.
Qed.

Lemma failback_moves ep k : keeps_unless same_slots completed (failback_run (Ops := SocketOps ep) k).
Proof.
  unfold failback_run. apply moves_now. intros t. apply moves_now. intros t_h. apply keeps_then; [by apply slots_still |]. intros d.
  destruct (negb _); [done |]. apply keeps_then; [by apply slots_still |]. intros [pref |]; [| done].
  apply keeps_then; [apply slots_locked_st; intros s |].
  { destruct (plan_failover_pref_state k (Some pref) s) as [-> | ->]; [done |]. unfold snapshot_locked. by destruct (gen_next _). }
  intros [plan |]; [| done]. destruct (pl_selected plan); [| done]. apply keeps_unless_bind.
  - eapply keeps_unless_mono; [| apply moves_plan]. intros [ar | e] H; [| done].
    apply ensures_any; [done |]. intros t'. by apply ensures_any.
  - intros ar. apply moves_now. intros t'. apply keeps_then; [| done]. apply slots_locked. intros s. unfold settle_failback. by case_bool_decide.
Qed.

Lemma request_failback_moves p f : moves_slots MsgType.REQUEST_FAILBACK (on_request_failback p f).
Proof.
  unfold on_request_failback. apply keeps_then; [by apply slots_still |]. intros fs. apply keeps_then; [by apply slots_still |]. intros sid.
  apply keeps_then; [by apply slots_still |]. intros au. apply keeps_then; [destruct au; [by apply slots_locked | done] |]. intros _.
  do 2 (apply keeps_then; [by apply slots_still |]; intros ?). apply keeps_then; [by apply slots_still |]. intros d.
  destruct (negb _); [apply guarantees_keeps, slots_respond |]. apply keeps_then; [by apply slots_still |]. intros ep. apply keeps_unless_bind.
  - eapply keeps_unless_mono; [| apply failback_moves]. intros [ar | e] H; [| done].
    apply ensures_any; [done |]. intros cur. by apply accepts_attempt.
  - intros ar. apply keeps_then; [by apply slots_still |]. intros cur. apply guarantees_keeps, slots_respond.
Qed.

Lemma handler_moves p f :
  fr_type f = MsgType.EXECUTE_FAILOVER \/ fr_type f = MsgType.REQUEST_FAILBACK -> moves_slots (fr_type f) (handler p f).
Proof.
  intros Hf. assert (fr_type f <> MsgType.ERROR_MSG) as Hne by (destruct Hf; congruence).
  assert (moves_slots (fr_type f) (dispatch p f)) as Hd.
  { unfold dispatch. destruct Hf as [-> | ->]; [apply execute_failover_moves | apply request_failback_moves]. }
  apply keeps_unless_catch; [| intros e; apply guarantees_keeps, slots_respond].
  eapply keeps_unless_mono; [| exact Hd]. intros [x | e]; [done |]. intros _. by apply accepts_error.
Qed.

(** A thread that has ended with a result out of [Q] has kept [R] with each of its actions. *)
Lemma pool_keeps_unless (Rel : R -> R -> Prop) `{!Reflexive Rel} Q p es (c : Pool (N := N)) t x :
  pool_threads c !! p = Some t -> keeps_unless Rel Q t -> Forall (fun e => e <> Returns p) es ->
  pool_threads (pool_run es c) !! p = Some (Done x) -> ~ Q x ->
  forall es1 es2, es = es1 ++ Acts p :: es2 ->
    Rel (pool_state (pool_run es1 c)) (pool_state (pool_event (Acts p) (pool_run es1 c))).
Proof.
  revert c t. induction es as [| e es IH]; intros c t Hp Ht Hr Hd Hq es1 es2 Hes; [by destruct es1 |].
  inversion Hr as [| ? ? Hne Hr']; subst. cbn [pool_run foldl] in Hd.
  assert (e = Acts p \/ e <> Acts p) as [-> | He].
  { destruct e as [| q f | q | q | n]; try (by right). destruct (decide (q = p)) as [-> |]; [by left | right; congruence]. }
  - destruct t as [y | B m k].
    { assert (pool_event (Acts p) c = c) as Ec by (cbn [pool_event]; by rewrite Hp). rewrite Ec in Hd.
      destruct es1 as [| e1 es1]; [cbn [pool_run foldl]; by rewrite Ec |]. injection Hes as <- ->. cbn [pool_run foldl]. rewrite Ec. by eapply (IH c). }
    assert (pool_event (Acts p) c = mkPool (m (pool_state c)).1 (<[ p := k (m (pool_state c)).2 ]> (pool_threads c))) as Ec
      by (cbn [pool_event]; by rewrite Hp).
    rewrite Ec in Hd. destruct (Ht (pool_state c)) as [[H1 H2] | H].
    + destruct es1 as [| e1 es1]; [cbn [pool_run foldl]; by rewrite Ec |]. injection Hes as <- ->. cbn [pool_run foldl]. rewrite Ec.
      eapply IH; [apply lookup_insert_eq | done | done | done | done | done].
    + destruct Hq. destruct (pool_ensures (fun _ => True) Q p es
        (mkPool (m (pool_state c)).1 (<[ p := k (m (pool_state c)).2 ]> (pool_threads c))) (k (m (pool_state c)).2)) as (t' & Ht' & Hq');
        [apply lookup_insert_eq | done | done | done |]. unfold pool_run in Ht'. rewrite Hd in Ht'. by injection Ht' as <-.
  - destruct es1 as [| e1 es1]; [by injection Hes as -> |]. injection Hes as <- ->. cbn [pool_run foldl].
    eapply IH; [by apply pool_waits | done | done | done | done | done].
Qed.
End refusals.

(** C12: A refused cutover moves nothing.  When EXECUTE_FAILOVER or REQUEST_FAILBACK is
    answered, in a reply of that type, with ok false, then of the actions of its handler,
    interleaved with other handlers in any way, none changed the assignment of any slot:
    what changed meanwhile, others did. *)
Theorem refused_cutover_moves_nothing {N : Type} `{Net : PeerNet N} (p : Z) (f g : Frame) (c : Pool (N := N)) (es es1 es2 : list PoolEvent)
    (k : ServiceSlotKey) :
  fr_type f = MsgType.EXECUTE_FAILOVER \/ fr_type f = MsgType.REQUEST_FAILBACK ->
  answered p f c es (Ok (Replied g)) -> fr_type g = fr_type f -> frame_flag g fid_ok = false ->
  es = es1 ++ Acts p :: es2 ->
  let before := pool_run es1 (pool_event (Starts p f) c) in
  slot_current (run_impl (pool_state (pool_event (Acts p) before))) k = slot_current (run_impl (pool_state before)) k.
Proof.
  intros Hf (Hn & Hr & Hd) Hg Hok Hes before.
  assert (pool_threads (pool_event (Starts p f) c) !! p = Some (handler p f)) as Hp.
  { cbn [pool_event]. rewrite Hn. apply lookup_insert_eq. }
  destruct (pool_keeps_unless same_slots (accepts (fr_type f)) p es _ _ _ Hp (handler_moves p f Hf) Hr Hd) with (es1 := es1) (es2 := es2)
    as [H1 H2]; [cbn; intros H; rewrite H in Hok by done; done | done |]. by apply slot_current_ext.
Qed.
