(* ===== verification/Progress.v ===== *)
(** Progress of the coordinator process: when the worker of the replacement and the gateway
    answer what the coordinator asks of them, EXECUTE_FAILOVER is answered ok.

    [Responsive] is what is asked of the network; the adapter [SocketOps] over such a
    network is a [Cooperative] one, and the cutover of CutoverSpec then completes. *)

From stdpp Require Import base list gmap strings pretty.
From Stdlib Require Import ZArith Lia.
From S2P Require Import Prelude Identities Types Double Bytes Model Codec Domains Evidence Routes Requests.
From S2P Require Import Recovery Selection Persistence Fabric Cutover Failback Invariant System CutoverSpec.
From S2P Require Import Protocol Wire Gateway Coordinator CoordinatorSpec Process.

Open Scope Z_scope.

(** * Decimal numbers *)

Lemma pretty_N_go_length (k : nat) (n : N) (s : string) :
  (n < 10 ^ N.of_nat k)%N -> (String.length (pretty_N_go n s) <= k + String.length s)%nat.
Proof.
  revert n s. induction k as [| k IH]; intros n s Hn; destruct (N.eq_dec n 0) as [-> | Hz]; try (rewrite pretty_N_go_0; lia); [lia |].
  rewrite pretty_N_go_step by lia. etransitivity; [apply IH | simpl; lia].
  apply N.Div0.div_lt_upper_bound. by rewrite <- N.pow_succ_r', <- Nat2N.inj_succ.
Qed.

Lemma port_digits port : 0 <= port < 2 ^ 16 -> (String.length (to_string_u64 port) <= 5)%nat.
Proof.
  intros Hp. unfold to_string_u64, pretty, pretty_N. destruct (decide _); [simpl; lia |].
  pose proof (pretty_N_go_length 5 (Z.to_N port) "") as H. simpl in H. lia.
Qed.

Section progress.
Context {N : Type} `{Net : PeerNet N}.
Notation C := (Coord N).
Notation R := (Run C).

(** A network, in the states [I], whose connections [gw] to the worker and [gg] to the gateway
    answer, and whose connection [p] to the client is alive. *)
Record Responsive (I : N -> Prop) (gw gg p : Z) : Prop := {
  rs_alive n g : I n -> g ∈ [gw; gg; p] -> conn_alive g n = true;
  rs_send n g f : I n -> I (conn_send g f n).1;
  rs_activate n f : I n -> fr_type f = MsgType.ACTIVATE_TARGET ->
    exists n' a, conn_request gw f n = (n', Some a) /\ I n' /\ acknowledged (Some a) MsgType.ACTIVATE_RESULT = Ok true;
  rs_install n f : I n -> fr_type f = MsgType.INSTALL_ROUTE ->
    exists n' a, conn_request gg f n = (n', Some a) /\ I n' /\ acknowledged (Some a) MsgType.ROUTE_ACK = Ok true;
  rs_verify n f : I n -> fr_type f = MsgType.VERIFY_SERVICE ->
    exists n' a fs b, conn_request gg f n = (n', Some a) /\ I n' /\ acknowledged (Some a) MsgType.VERIFY_SERVICE = Ok true /\
      payload_reader (fr_payload a) = Ok fs /\ opt_field p_bytes fs fid_payload [] = Ok b }.

(** The ports of the peers are what 16 bits hold. *)
Definition ports_ok (w : C) : Prop := forall g q, co_peers w !! g = Some q -> 0 <= pr_req_port q < 2 ^ 16.

(** The peers as they are while the coordinator asks. *)
Record linked (I : N -> Prop) (gw gg target boot : Z) (w : C) : Prop := {
  ln_net : I (co_net w);
  ln_worker : worker_conn w target = Some gw;
  ln_gateway : co_gateways w !! boot = Some gg;
  ln_first : any_gateway_conn w = Some gg;
  ln_ports : ports_ok w }.

Lemma linked_net I gw gg target boot w n :
  linked I gw gg target boot w -> I n -> linked I gw gg target boot (w <| co_net := n |>).
Proof. intros [H1 H2 H3 H4 H5] Hn. by split. Qed.

(** * Messages that fit *)

Lemma payload_fits type msg_id epoch l :
  payload_size l <= kMaxFramePayload -> exists b, payload l = Ok b /\ is_ok (encode_frame (mkFrame type msg_id epoch b)) = true.
Proof.
  intros Hsz. exists (flat_map field_bytes (field_of <$> l)). unfold payload. rewrite write_values_ok by done. split; [done |].
  unfold encode_frame. cbn [fr_payload]. fold (payload_size l). by destruct (Z.ltb_spec kMaxFramePayload (payload_size l)); [lia |].
Qed.

Lemma worker_req_port_ok (w : C) target : ports_ok w -> 0 <= worker_req_port w target < 2 ^ 16.
Proof.
  intros Hw. unfold worker_req_port. destruct (co_workers w !! target) as [g |]; cbn; [| lia].
  destruct (co_peers w !! g) eqn:E; [by eapply Hw | lia].
Qed.

Lemma route_fits (e : RouteEntry) port :
  0 <= port < 2 ^ 16 -> payload_size (encode_route_entry (e <| re_transport := tcp_transport port |>)) <= kMaxFramePayload.
Proof.
  intros Hp%port_digits. unfold encode_route_entry. payload_sizes.
  assert (length (string_bytes (tcp_transport port)) <= 21)%nat.
  { unfold tcp_transport. rewrite string_bytes_app, length_app, (string_bytes_length (to_string_u64 port)). simpl. lia. }
  cbn. rewrite <- string_bytes_length. lia.
Qed.

(** * Calls that are answered *)

Lemma co_request_sent g type msg_id epoch l (w : C) :
  payload_size l <= kMaxFramePayload -> conn_alive g (co_net w) = true ->
  exists f, fr_type f = type /\
    co_request g type msg_id epoch l w = (w <| co_net := (conn_request g f (co_net w)).1 |>, Ok (conn_request g f (co_net w)).2).
Proof.
  intros Hsz Hl. destruct (payload_fits type msg_id epoch l Hsz) as (b & Hb & He).
  exists (mkFrame type msg_id epoch b). split; [done |]. unfold co_request, mbind, st_bind, lift, live. rewrite Hb, Hl. cbv zeta.
  destruct (encode_frame _); [| done]. unfold net_request. by destruct (conn_request _ _ _).
Qed.
Lemma co_send_sent g type msg_id epoch l (w : C) :
  payload_size l <= kMaxFramePayload -> conn_alive g (co_net w) = true ->
  exists f, message type msg_id epoch l = Ok f /\ co_send g type msg_id epoch l w = (w <| co_net := (conn_send g f (co_net w)).1 |>, Ok (Some f)).
Proof.
  intros Hsz Hl. destruct (payload_fits type msg_id epoch l Hsz) as (b & Hb & He).
  exists (mkFrame type msg_id epoch b). unfold message, co_send, mbind, st_bind, result_bind, lift, live. rewrite Hb, Hl. cbv zeta.
  destruct (encode_frame _); [| done]. by split.
Qed.

Section responsive.
Context (I : N -> Prop) (gw gg p : Z) (Hr : Responsive I gw gg p) (cand : Candidate) (gb : GatewayBootId) (ep : Z).
Notation target := (id_value (cf_target (cand_facts cand))).
Notation L := (linked I gw gg target (id_value gb)).

Lemma fence_answered o b (w : C) : L w ->
  exists w' x, so_fence_old ep o b w = (w', Ok x) /\ L w' /\ fo_applied x = true /\ fo_fencing_unproven x = false.
Proof.
  intros Hw. unfold so_fence_old, mbind, st_bind, get, live.
  destruct (worker_conn w (id_value (asg_target o))) as [g |]; [| by eexists _, _].
  destruct (conn_alive g (co_net w)) eqn:El; [| by eexists _, _].
  destruct (co_send_sent g MsgType.FENCE_ASSIGNMENT 9101 ep [(fid_target, VU64 (id_value (asg_target o)))] w) as (f & _ & ->);
    [payload_sizes; lia | done |].
  eexists _, _. split; [done |]. split; [| done]. by apply linked_net, (rs_send _ _ _ _ Hr), Hw.
Qed.

Lemma activate_answered auth g (w : C) : L w -> exists w' x, so_activate ep cand auth g w = (w', Ok x) /\ L w' /\ ao_acknowledged x = true.
Proof.
  intros Hw. unfold so_activate, mbind, st_bind, get, live. rewrite (ln_worker _ _ _ _ _ _ Hw).
  assert (conn_alive gw (co_net w) = true) as Hl by (eapply rs_alive; [done | apply Hw | set_solver]). rewrite Hl.
  edestruct (co_request_sent gw MsgType.ACTIVATE_TARGET 9102 ep) as (f & Hf & ->); [| done |].
  { payload_sizes. lia. }
  destruct (rs_activate _ _ _ _ Hr (co_net w) f (ln_net _ _ _ _ _ _ Hw) Hf) as (n & a & -> & Hn & Ha). cbn [fst snd].
  unfold lift. rewrite Ha. eexists _, _. split; [done |]. split; [by apply linked_net | done].
Qed.

Lemma install_answered re (w : C) : L w -> exists w' x, so_install_route ep re gb w = (w', Ok x) /\ L w' /\ rto_acknowledged x = true.
Proof.
  intros Hw. unfold so_install_route, mbind, st_bind, get, live. rewrite (ln_gateway _ _ _ _ _ _ Hw).
  assert (conn_alive gg (co_net w) = true) as Hl by (eapply rs_alive; [done | apply Hw | set_solver]). rewrite Hl. cbv zeta.
  edestruct (co_request_sent gg MsgType.INSTALL_ROUTE 9103 ep) as (f & Hf & ->); [| done |].
  { apply route_fits, worker_req_port_ok, Hw. }
  destruct (rs_install _ _ _ _ Hr (co_net w) f (ln_net _ _ _ _ _ _ Hw) Hf) as (n & a & -> & Hn & Ha). cbn [fst snd].
  unfold lift. rewrite Ha. eexists _, _. split; [done |]. split; [by apply linked_net | done].
Qed.

Lemma verify_answered re auth (w : C) : L w -> exists w' x, so_verify ep re auth w = (w', Ok x) /\ L w' /\ vo_verified x = true.
Proof.
  intros Hw. unfold so_verify, mbind, st_bind, get, live. rewrite (ln_first _ _ _ _ _ _ Hw).
  assert (conn_alive gg (co_net w) = true) as Hl by (eapply rs_alive; [done | apply Hw | set_solver]). rewrite Hl.
  edestruct (co_request_sent gg MsgType.VERIFY_SERVICE 9104 ep) as (f & Hf & ->); [| done |].
  { vm_compute. discriminate. }
  destruct (rs_verify _ _ _ _ Hr (co_net w) f (ln_net _ _ _ _ _ _ Hw) Hf) as (n & a & fs & b & -> & Hn & Ha & Hp & Hb). cbn [fst snd].
  unfold lift. rewrite Ha. unfold result_bind. rewrite Hp, Hb. eexists _, _. split; [done |]. split; [by apply linked_net | done].
Qed.

Lemma socket_ops_cooperate : Cooperative (SocketOps ep) L cand gb.
Proof. split; [apply fence_answered | apply activate_answered | apply install_answered | apply verify_answered]. Qed.
End responsive.

(** The reply of a completed cutover is sent. *)
Lemma respond_sent p f type l (r : R) :
  payload_size l <= kMaxFramePayload -> conn_alive p (co_net (run_world r)) = true ->
  exists r' g, (respond p f type l : ST R Handled) r = (r', Ok (Replied g)) /\ message type (fr_msg_id f) (fr_epoch f) l = Ok g.
Proof.
  intros Hsz Hl. destruct (co_send_sent p type (fr_msg_id f) (fr_epoch f) l (run_world r) Hsz Hl) as (g & Hg & Hs).
  unfold respond. alone. unfold mbind, st_bind, external. rewrite Hs. by eexists _, g.
Qed.
End progress.

(** C10: A failover that can be done is done.  EXECUTE_FAILOVER, without a state field in
    the request, for a service for which the coordinator finds a plan that its preparation
    accepts (revalidation included), while no barrier is set and no checkpoint file
    configured, is answered ok if the worker of the selected target is connected and
    acknowledges its activation, the gateway acknowledges the new route and the
    verification through it, and the client is still connected: whatever else the network
    does, and whether or not the old worker is reached.  The gateway that answers must be
    the one of the current gateway boot and, of all that ever registered, the one of the
    smallest boot, which is where the code asks for the verification: a gateway restarted
    under a larger boot does not count.  The request ports of the peers fit in 16 bits. *)
Theorem failover_is_done {N : Type} `{Net : PeerNet N} (I : N -> Prop) (gw gg p sid : Z) (f : Frame) (r : Run (Coord N))
    (fields : list Field) (plan : FailoverPlan) (s1 s2 : Impl) (a : Attempt) :
  Responsive I gw gg p ->
  linked I gw gg (id_value (cf_target (cand_facts (at_selected a)))) (id_value (im_gateway_boot (run_impl r))) (run_world r) ->
  impl_wf (run_impl r) -> unattended (run_impl r) ->
  fr_type f = MsgType.EXECUTE_FAILOVER -> payload_reader (fr_payload f) = Ok fields -> p_u64 fields fid_service = Ok sid ->
  has_field fields fid_state = false ->
  plan_failover (slot1 sid) (run_impl r) = (s1, Ok (Some plan)) -> prepare plan s1 = (s2, Ok (inr a)) ->
  exists r' g, handle p f r = (r', Ok (Replied g)) /\ fr_type g = MsgType.EXECUTE_FAILOVER /\ frame_flag g fid_ok = true.
Proof.
  intros Hr Hw Hwf [Hp Hb] Ht Hfs Hsid Hst Hpl Hprep.
  destruct (plan_failover_pref_same (slot1 sid) None (run_impl r) (run_impl r) (same_refl _ Hwf)) as [Hs1 _].
  pose proof (plan_failover_pref_state (slot1 sid) None (run_impl r)) as Hst1. unfold plan_failover in Hpl. rewrite Hpl in Hs1, Hst1.
  cbn [fst] in Hs1, Hst1. pose proof (same_wf _ _ Hs1) as Hwf1. set (r1 := mkRun s1 (run_fs r) (run_world r)).
  assert (unattended s1 /\ im_gateway_boot s1 = im_gateway_boot (run_impl r)) as [Hu1 Hg1].
  { unfold snapshot_locked in Hst1. destruct Hst1 as [-> | ->]; [by split |]. by destruct (gen_next _). }
  set (ep := ep_epoch (current_epoch s1)).
  destruct (cooperative_completes _ _ _ (socket_ops_cooperate I gw gg p Hr (at_selected a) (im_gateway_boot (run_impl r)) ep)
              plan r1 s2 a Hwf1 (conj Hu1 (conj Hg1 Hw)) Hprep eq_refl) as (Hw2 & ar & Hx & Hc & Hv & Hd).
  assert (dispatch p f r = (on_execute_failover p f : ST _ _) r) as Hdis by (unfold dispatch; by rewrite Ht).
  assert (exists r' g, (on_execute_failover p f : ST _ _) r = (r', Ok (Replied g)) /\
            exists cur, message MsgType.EXECUTE_FAILOVER (fr_msg_id f) (fr_epoch f) (attempt_reply ar cur) = Ok g) as (r' & g & Hrun & cur & Hg).
  { unfold on_execute_failover. alone. unfold mbind, st_bind, lift. rewrite Hfs, Hsid, Hst. unfold mret, st_ret, locked_st, plan_failover.
    rewrite Hpl. cbn [fst snd]. unfold epoch_value, core, gets at 1. cbn [run_impl]. fold ep. fold r1.
    change ((run_plan (Ops := SocketOps ep) plan : ST _ _) r1) with (execute_plan (Ops := SocketOps ep) plan r1).
    destruct (execute_plan (Ops := SocketOps ep) plan r1) as [r2 x]. cbn [fst snd] in Hx, Hw2. subst x. cbn [update locked gets].
    unfold update, locked, gets. cbn [run_impl run_world run_fs].
    edestruct (respond_sent p f MsgType.EXECUTE_FAILOVER) as (r' & g & Hsnd & Hg); cycle 2.
    - exists r', g. split; [exact Hsnd | by eexists].
    - unfold attempt_reply. rewrite Hd. destruct (current_assignment _ _); cbn [app]; payload_sizes; cbn; lia.
    - cbn [run_world]. eapply rs_alive; [done | apply Hw2 | set_solver]. }
  exists r', g. split.
  - unfold handle, handler. alone. unfold st_catch. by rewrite Hdis, Hrun.
  - destruct (message_inv _ _ _ _ _ Hg) as (Hty & _). split; [done |].
    apply (message_flag _ _ _ _ _ fid_ok true Hg). unfold attempt_reply. by rewrite Hc, Hv.
Qed.
