(* ===== verification/Deployment.v ===== *)
(** The three processes together: a gateway whose calls reach the coordinator process and
    the worker processes.

    [Deployed] is the interface between them: what the gateway's environment promises
    when the coordinator of Coordinator and the workers of WorkerThreads are behind it,
    while other peers keep the coordinator busy and other threads of a worker run.  The
    theorem is proved against it; Cluster has the instance that runs the three
    processes. *)

From stdpp Require Import base list gmap strings pretty relations.
From Stdlib Require Import ZArith Lia.
From S2P Require Import Prelude Threads Identities Types Double Bytes Model Codec Domains Evidence Routes Requests.
From S2P Require Import Recovery Selection Persistence Fabric Cutover Failback Invariant System CutoverSpec Restart.
From S2P Require Import Protocol Wire Worker Gateway Coordinator CoordinatorSpec Process Concurrent WorkerThreads.

Open Scope Z_scope.

(** * The interface *)

(** The coordinator and the workers inside the world of a gateway. *)
Class Deployed (W N : Type) `{Env : GatewayEnv W} `{Net : PeerNet N} := {
  dep_coord : W -> Pool (N := N);
  dep_worker : W -> string -> Z -> option WorkerCrew;
  dep_rpc_peer : Z;
  (** What the threads of the worker behind an address do during a call. *)
  dep_during : string -> Z -> Frame -> GwRun W -> list (CrewEvent Worker (list Frame));
  dep_crew w host port wc : dep_worker w host port = Some wc ->
    exists w0 es0, Forall worker_event es0 /\ wc = crew_run es0 (mkCrew w0 ∅);
  (** An answer to the gateway is the coordinator's: it was busy before, its other threads
      went on meanwhile, and go on before the answer arrives. *)
  dep_rpc m r r' a : coordinator_rpc m r = (r', Some a) ->
    exists es1 es2 es3, answered dep_rpc_peer m (pool_run es1 (dep_coord (gr_world r))) es2 (Ok (Replied a)) /\
      dep_coord (gr_world r') = pool_run (es1 ++ (Starts dep_rpc_peer m :: es2) ++ es3) (dep_coord (gr_world r));
  (** An answer from an address is that of a request thread of the worker behind it, whose
      other threads go on as well; and so does the coordinator. *)
  dep_call host port m r r' a : worker_call host port m r = (r', Answer a) ->
    (exists wc io p es1 es2 es3, let t := worker_thread (EvRequest io (Some m)) in
       dep_worker (gr_world r) host port = Some wc /\ dep_during host port m r = es1 ++ Begin p t :: es2 ++ es3 /\
       Forall worker_event (dep_during host port m r) /\ p <> 0 /\ finished p t (crew_run es1 wc) es2 (Ok [a])) /\
    exists es, dep_coord (gr_world r') = pool_run es (dep_coord (gr_world r)) }.

(** The call of the worker at an address with [m], in [r], was served with [a]: of what the
    worker's threads did during the call, a part is the thread of this request from its
    begin to its answer, and at a moment in between the worker was active, under [boot]. *)
Definition served_by {W N : Type} `{D : Deployed W N} (host : string) (port : Z) (m : Frame) (r : GwRun W) (boot : Z) (a : Frame) : Prop :=
  exists wc io p es1 es2 es3 s, let t := worker_thread (EvRequest io (Some m)) in
    dep_worker (gr_world r) host port = Some wc /\
    dep_during host port m r = es1 ++ Begin p t :: es2 ++ es3 /\ Forall worker_event (dep_during host port m r) /\
    finished p t (crew_run es1 wc) es2 (Ok [a]) /\
    crew_visits (crew_run es1 wc) (Begin p t :: es2) s /\ wk_active s = true /\ wk_boot s = boot.

(** * Lemmas: an authorization on its way *)

(** An authorization as the messages carry it: 64 bits of each number, no operation. *)
Definition carried (a : WorkerAuthorization) : WorkerAuthorization :=
  mkAuth (mkEpoch (wrap64 (ep_epoch (wa_epoch a))) (mkId (wrap64 (id_value (ep_id (wa_epoch a)))))
                  (mkId (wrap64 (id_value (ep_boot (wa_epoch a))))))
    (wa_slot a) (mkId (wrap64 (id_value (wa_assignment a)))) (mkGen (wrap64 (gen_value (wa_assignment_generation a))))
    (mkGen (wrap64 (gen_value (wa_route_generation a)))) (mkId (wrap64 (id_value (wa_incarnation a))))
    (mkId (wrap64 (id_value (wa_request a)))) (mkId (wrap64 (id_value (wa_execution a)))) ""
    (mkId (wrap64 (id_value (wa_worker_boot a)))).

Definition grant_of (a : WorkerAuthorization) : DispatchGrant :=
  mkGrant (wrap64 (ep_epoch (wa_epoch a))) (wrap64 (id_value (ep_id (wa_epoch a)))) (wrap64 (id_value (ep_boot (wa_epoch a))))
    (wrap64 (id_value (wa_assignment a))) (wrap64 (gen_value (wa_assignment_generation a)))
    (wrap64 (gen_value (wa_route_generation a))) (wrap64 (id_value (wa_worker_boot a))) (wrap64 (id_value (wa_incarnation a))).

Lemma wrap64_idem z : wrap64 (wrap64 z) = wrap64 z.
Proof. unfold wrap64. by rewrite Z.mod_mod by lia. Qed.

(** Rewrites the reads of a payload whose fields are numbers. *)
Ltac read_u64s :=
  repeat (erewrite p_u64_value; [| reflexivity]); unfold mbind, result_bind; cbv beta iota.

(** The gateway reads the grant the coordinator sent. *)
Lemma read_grant_sent msg_id epoch auth g :
  message MsgType.AUTHORIZE_REQUEST msg_id epoch (grant_fields auth) = Ok g -> read_grant (Some g) = Ok (Some (grant_of auth)).
Proof.
  intros Hm. pose proof (message_fields _ _ _ _ _ Hm) as Hf. destruct (message_inv _ _ _ _ _ Hm) as (Ht & _ & _ & _).
  unfold read_grant. rewrite Ht, bool_decide_true by done. rewrite Hf. unfold mbind at 1, result_bind at 1.
  unfold flag. erewrite opt_field_Some; [| reflexivity | by apply p_bool_reads]. unfold mbind at 1, result_bind at 1.
  read_u64s. done.
Qed.

(** The coordinator reads back the authorization it granted. *)
Lemma read_result_sent msg_id epoch cq req auth m :
  message MsgType.AUTHORIZE_RESULT msg_id epoch (authorize_result_fields cq (grant_of auth) req false) = Ok m ->
  wa_request auth = mkId (wrap64 req) -> wa_execution auth = mkId (wrap64 req) -> wa_slot auth = slot1 (wrap64 (cq_service cq)) ->
  exists fs, payload_reader (fr_payload m) = Ok fs /\ p_u64 fs fid_service = Ok (wrap64 (cq_service cq)) /\
    read_result_auth fs (wa_slot auth) = Ok (carried auth).
Proof.
  intros Hm Hr He Hs. eexists. split; [by eapply message_fields |]. split; [by apply p_u64_value |].
  unfold read_result_auth. read_u64s. unfold grant_of. cbn [dg_epoch dg_epoch_id dg_epoch_boot dg_assignment dg_assignment_gen
    dg_route_gen dg_boot dg_incarnation]. rewrite !wrap64_idem. unfold carried. rewrite Hr, He. cbn [id_value]. by rewrite wrap64_idem.
Qed.

(** The coordinator's states while a call of the gateway was on its way. *)
Lemma rpc_visits {N : Type} `{Net : PeerNet N} p m (c : Pool) es1 es2 es3 s :
  meanwhile p m (pool_run es1 c) es2 s -> visits c (es1 ++ (Starts p m :: es2) ++ es3) s.
Proof. intros H. rewrite app_assoc. apply visits_app_l, visits_app_r. by apply meanwhile_visits. Qed.

Notation core_of c := (run_impl (pool_state c)).

(** A state of a process of which the other is a later one. *)
Lemma threaded_visits {N : Type} `{Net : PeerNet N} `{EvalOrder} a fs n es0 (c : Pool) es s :
  threaded a fs n es0 c -> visits c es s -> im_epoch s = im_epoch (core_of c).
Proof. intros Hc (es1 & es2 & -> & ->). by destruct (threaded_on a fs n es0 c es1 Hc) as (_ & _ & _ & He). Qed.

(** What the coordinator did when it granted the gateway's request. *)
Lemma grant_received {W N : Type} `{D : Deployed W N} `{EO : EvalOrder} ca fs n es0 cq msg_id ep m (r r1 : GwRun W) a1 grant :
  threaded ca fs n es0 (dep_coord (gr_world r)) ->
  message MsgType.AUTHORIZE_REQUEST msg_id ep (authorize_request_fields cq msg_id) = Ok m ->
  coordinator_rpc m r = (r1, a1) -> read_grant a1 = Ok (Some grant) ->
  let c := dep_coord (gr_world r) in
  exists es cur s1 s2 s3 rec, let auth := dispatch_auth (im_epoch (core_of c)) (slot1 (wrap64 (cq_service cq))) (wrap64 msg_id) cur in
    dep_coord (gr_world r1) = pool_run es c /\ Forall (visits c es) [s1; s2; s3] /\
    slot_current s1 (wa_slot auth) = Some cur /\ asg_state cur = AssignmentState.ACTIVE /\
    replay_refused s2 (wa_request auth) = false /\ grant = grant_of auth /\
    request_find (im_requests s3) (wa_request auth) = Some rec /\
    rq_disposition rec = RequestDisposition.DISPATCHED /\ rq_dispatched_auth rec = Some auth.
Proof.
  intros Hth Hm Hr Hg c. destruct a1 as [a |]; [| done]. destruct (dep_rpc m r r1 a Hr) as (es1 & es2 & es3 & Ha & Hc1).
  destruct (message_inv _ _ _ _ _ Hm) as (Ht & _ & _ & _). pose proof (message_fields _ _ _ _ _ Hm) as Hf.
  assert (frame_flag a fid_ok = true) as Hok.
  { unfold read_grant in Hg. destruct (bool_decide _); [| done]. result_inv Hg as q Hq. result_inv Hg as ok Hok.
    destruct ok; [| done]. unfold frame_flag. rewrite Hq. unfold mbind, result_bind. by rewrite Hok. }
  destruct (request_granted_meanwhile _ _ _ _ _ Ht Ha Hok) as
    (fs' & sid & req & cur & idem & eff & s1 & s2 & s3 & s4 & Hfs & Hsid & Hreq & Hall & Hcur & Hact & Hno & Hrec & Hmsg).
  rewrite Hf in Hfs. injection Hfs as <-. erewrite p_u64_value in Hsid; [| reflexivity]. erewrite p_u64_value in Hreq; [| reflexivity].
  injection Hsid as <-. injection Hreq as <-.
  assert (Forall (visits c (es1 ++ (Starts dep_rpc_peer m :: es2) ++ es3)) [s1; s2; s3; s4]) as Hv.
  { eapply Forall_impl; [exact Hall |]. intros s. apply rpc_visits. }
  inversion_clear Hv as [| ? ? H1 Hv2]. inversion_clear Hv2 as [| ? ? H2 Hv3]. inversion_clear Hv3 as [| ? ? H3 Hv4]. inversion_clear Hv4 as [| ? ? H4 _].
  rewrite (threaded_visits _ _ _ _ _ _ _ Hth H3) in Hrec, Hmsg. rewrite (read_grant_sent _ _ _ _ Hmsg) in Hg. injection Hg as <-.
  eexists _, cur, s1, s2, s4, _. cbv zeta. split; [exact Hc1 |]. split; [by repeat constructor |]. by split_and!.
Qed.

(** What the coordinator saw when it accepted the gateway's result. *)
Lemma acceptance_received {W N : Type} `{D : Deployed W N} cq msg_id ep auth m (r r1 : GwRun W) a :
  message MsgType.AUTHORIZE_RESULT msg_id ep (authorize_result_fields cq (grant_of auth) msg_id false) = Ok m ->
  wa_request auth = mkId (wrap64 msg_id) -> wa_execution auth = mkId (wrap64 msg_id) -> wa_slot auth = slot1 (wrap64 (cq_service cq)) ->
  coordinator_rpc m r = (r1, Some a) -> frame_flag a fid_ok = true ->
  exists es s cur, dep_coord (gr_world r1) = pool_run es (dep_coord (gr_world r)) /\ visits (dep_coord (gr_world r)) es s /\
    Authorized s (carried auth) cur.
Proof.
  intros Hm Hq He Hs Hr Hok. destruct (dep_rpc m r r1 a Hr) as (es1 & es2 & es3 & Hans & Hc1).
  destruct (message_inv _ _ _ _ _ Hm) as (Ht & _ & _ & _).
  destruct (result_accepted_meanwhile _ _ _ _ _ Ht Hans Hok) as (s & fs & sid & auth' & Hmw & Hfs & Hsid & Ha & _ & Hg).
  destruct (read_result_sent _ _ _ _ _ _ Hm Hq He Hs) as (fs' & Hfs' & Hsid' & Ha').
  rewrite Hfs' in Hfs. injection Hfs as <-. rewrite Hsid' in Hsid. injection Hsid as <-. rewrite <- Hs, Ha' in Ha. injection Ha as <-.
  apply result_allowed_iff in Hg as [[cur Hc] _]. eexists _, s, cur. split; [exact Hc1 |]. split; [by apply rpc_visits | done].
Qed.

(** The worker that answered ok was admitted meanwhile, under the boot it was called with. *)
Lemma answer_received {W N : Type} `{D : Deployed W N} host port a b boot ep m (r r' : GwRun W) g :
  message MsgType.VERIFY_SERVICE 1001 ep
    [ (fid_input_a, VU64 a); (fid_input_b, VU64 b); (fid_boot, VU64 boot); (fid_operation, VStr "serve") ] = Ok m ->
  worker_call host port m r = (r', Answer g) -> frame_flag g fid_ok = true -> served_by host port m r (wrap64 boot) g.
Proof.
  intros Hm Hcall Hok. destruct (dep_call _ _ _ _ _ _ Hcall) as [(wc & io & p & es1 & es2 & es3 & Hw & Hd & Hes & Hp & Hf) _].
  destruct (dep_crew _ _ _ _ Hw) as (w0 & es0 & He0 & Ewc). pose proof Hes as Hes'. rewrite Hd in Hes'.
  apply Forall_app in Hes' as [He1 [_ [He2 _]%Forall_app]%Forall_cons].
  assert (crew_ok (crew_run es1 wc)) as Hc by (apply crew_ok_run; [done |]; rewrite Ewc; apply crew_ok_run; [done | apply crew_ok_boot]).
  destruct (served_meanwhile _ _ _ _ _ _ Hc He2 Hp Hf Hok) as (s & a' & b' & Hv & Ha & Hb & Hi & _).
  exists wc, io, p, es1, es2, es3, s. do 6 (split; [done |]). rewrite Hb.
  pose proof (message_fields _ _ _ _ _ Hm) as Hfl. revert Hi. unfold request_inputs. rewrite Hfl.
  unfold mbind, result_bind. unfold opt_field. repeat (erewrite has_field_Some; [| reflexivity]).
  repeat (erewrite p_u64_value; [| reflexivity]). by intros [= _ _ <-].
Qed.

(** * Theorems *)

(** C6: End to end, a client is told ok only under one authority.  With the coordinator and
    the workers behind the gateway, whatever the other threads of the coordinator and of
    the workers do before, during and between the calls, an ok answer means: while the
    request was being dispatched, the slot of its service had a current ACTIVE
    assignment, and the request was recorded under it; then the worker at the address of
    the gateway's route was called with the client's inputs and the boot the route
    permits, and its threads, none but its own, served that call: between the begin of
    the request's thread and its ok answer the worker was active, under that boot; while
    the result was being accepted, the authorization of the dispatch (epoch, assignment,
    generation, route generation, boot) passed the gate, so the slot was under that
    assignment and its boot was not fenced; and the client's answer carries the reference
    result of its inputs.  That the route's boot is the boot of the assignment is not
    said: the gateway does not compare them. *)
Theorem client_ok_end_to_end {W N : Type} `{D : Deployed W N} `{EO : EvalOrder} (ca : CoordArgs) (fs : FileSystem) (n : N)
    (es0 : list PoolEvent) (f g : Frame) (r r' : GwRun W) :
  threaded ca fs n es0 (dep_coord (gr_world r)) ->
  handle_client (Some f) r = (r', Ok (Some g)) -> frame_flag g fid_ok = true ->
  exists cq es1 es2 es3 s1 s2 s3 s4 cur1 cur2 rec route m ans r1,
    (fs ← payload_reader (fr_payload f); client_request fs) = Ok cq /\
    let c := dep_coord (gr_world r) in
    let c1 := dep_coord (gr_world r1) in
    let c2 := pool_run es2 c1 in
    let auth := dispatch_auth (im_epoch (core_of c)) (slot1 (wrap64 (cq_service cq))) (wrap64 (fr_msg_id f)) cur1 in
    let address := parse_tcp_transport (re_transport (wr_entry route)) in
    let boot := id_value (re_permitted_boot (wr_entry route)) in
    (* the dispatch *)
    c1 = pool_run es1 c /\ Forall (visits c es1) [s1; s2; s3] /\
    slot_current s1 (wa_slot auth) = Some cur1 /\ asg_state cur1 = AssignmentState.ACTIVE /\
    replay_refused s2 (wa_request auth) = false /\
    request_find (im_requests s3) (wa_request auth) = Some rec /\
    rq_disposition rec = RequestDisposition.DISPATCHED /\ rq_dispatched_auth rec = Some auth /\
    (* the computation *)
    gw_routes (gr_gateway r1) !! cq_slot cq = Some route /\
    message MsgType.VERIFY_SERVICE 1001 (gw_epoch (gr_gateway r1))
      [ (fid_input_a, VU64 (cq_a cq)); (fid_input_b, VU64 (cq_b cq)); (fid_boot, VU64 boot); (fid_operation, VStr "serve") ] = Ok m /\
    served_by address.1.2 address.2 m r1 (wrap64 boot) ans /\ frame_flag ans fid_ok = true /\
    (* the acceptance *)
    dep_coord (gr_world r') = pool_run es3 c2 /\ visits c2 es3 s4 /\ Authorized s4 (carried auth) cur2 /\
    (* the answer *)
    (fs ← payload_reader (fr_payload g); p_bytes fs fid_payload) =
      Ok (string_bytes (to_string_u64 (reference_result (cq_a cq) (cq_b cq)))).
Proof.
  intros Hth H Hok. destruct (client_ok_requires_authority f g r r' H Hok) as
    (fs' & cq & m1 & r1 & a1 & grant & route & m & r2 & ans & m2 & a2 & ep2 & Hfs & Hcq & Hm1 & Hr1 & Hgr & Hroute & Hm & Hcall & Hans & _ &
     Hm2 & Hr2 & _ & Hf2 & Hg).
  destruct (grant_received _ _ _ _ _ _ _ _ _ _ _ _ Hth Hm1 Hr1 Hgr) as
    (es1 & cur1 & s1 & s2 & s3 & rec & Hc1 & Hv & Hc & Ha & Hn & -> & Hrec & Hd & Hda).
  destruct (dep_call _ _ _ _ _ _ Hcall) as [_ [es2 Hes]].
  destruct (acceptance_received _ _ _ _ _ _ _ _ Hm2 eq_refl eq_refl eq_refl Hr2 Hf2) as (es3 & s4 & cur2 & Hc3 & Hv3 & Hau).
  pose proof (answer_received _ _ _ _ _ _ _ _ _ _ Hm Hcall Hans) as Hsv.
  exists cq, es1, es2, es3, s1, s2, s3, s4, cur1, cur2, rec, route, m, ans, r1.
  split; [rewrite Hfs; exact Hcq |]. cbv zeta. rewrite Hes in Hc3, Hv3. by split_and!.
Qed.
