(* ===== verification/Tool.v ===== *)
(** The multi-process demonstration (tools/multiproc_proof.cpp): its remote calls on the
    coordinator, the gateway and the workers, and its eight scenarios, each of which
    returns 0 exactly when every check it makes succeeds.

    The operating system is a parameter, the class [Host]: processes with their standard
    output, sockets that carry frames, files and time.  Lab has the host on which the
    processes of the other files run.  What the scenarios print is left out. *)

From stdpp Require Import base list gmap strings pretty.
From Stdlib Require Import ZArith Lia.
From S2P Require Import Prelude Identities Types Double Bytes Model Codec Protocol Wire.

Open Scope Z_scope.

Class Host (L : Type) := {
  (** [spawn]: the process, and its output line by line. *)
  h_spawn : string -> list string -> L -> L * Z;
  h_read_line : Z -> L -> L * string;
  h_kill : Z -> L -> L;
  h_connect : Z -> L -> L * option Z;
  h_send : Z -> Frame -> L -> L * bool;
  h_recv : Z -> L -> L * option Frame;
  h_close : Z -> L -> L;
  h_sleep : Z -> L -> L;
  h_exists : string -> L -> bool;
  h_remove : string -> L -> L;
  (** [tcp_listen(0)] and [tcp_listen_port]. *)
  h_listen_any : L -> L * option Z;
  h_listen_port : Z -> L -> Z }.

Section tool.
Context {L : Type} `{Sys : Host L}.
Notation T := (ST L).

(** * Processes *)

Definition host_call {A} (f : L -> L * A) : T A := fun l => let '(l', a) := f l in (l', Ok a).
Definition spawn (exe : string) (args : list string) : T Z := host_call (h_spawn exe args).
Definition kill_proc (p : Z) : T unit := modify (h_kill p).
Definition sleep_ms (n : Z) : T unit := modify (h_sleep n).
Definition close (s : Z) : T unit := modify (h_close s).
Definition remove (path : string) : T unit := modify (h_remove path).

(** Up to 32 lines, for one that starts with "PORT ". *)
Fixpoint read_port_in (tries : nat) (p : Z) : T Z :=
  match tries with
  | O => mret 0
  | S tries =>
    line ← host_call (h_read_line p);
    let b := string_bytes line in
    if bool_decide (take 5 b = string_bytes "PORT ") then mret (strtoull (drop 5 b) mod 2 ^ 16) else read_port_in tries p
  end.
Definition read_port (p : Z) : T Z := read_port_in 32 p.

(** * Remote calls *)

Definition send1 (s : Z) (t : MsgType) (id epoch : Z) (l : list (Z * Value)) : T bool :=
  f ← lift (message t id epoch l); host_call (h_send s f).
Definition receive (s : Z) : T (option Frame) := host_call (h_recv s).
Definition connect (port : Z) : T (option Z) := host_call (h_connect port).
Definition client_hello (c : Z) : T bool := send1 c MsgType.HELLO 1 0 [(fid_role, VU8 kRoleClient); (fid_boot, VU64 999)].
Definition when_has {A} (fs : list Field) (field : Z) (get : list Field -> Z -> result A) (d : A) : T A :=
  lift (opt_field get fs field d).

(** [ok] and [detail], which the caller has set to "". *)
Definition coord_rpc (cport : Z) (t : MsgType) (l : list (Z * Value)) : T (bool * string) :=
  c ← connect cport;
  match c with
  | None => mret (false, "rpc connect failed"%string)
  | Some c =>
    _ ← client_hello c;
    sent ← send1 c t 7000 0 l;
    x ← (if (sent : bool) then
           r ← receive c;
           match r with
           | None => mret (false, "rpc no reply"%string)
           | Some r =>
             fs ← lift (payload_reader (fr_payload r));
             if bool_decide (fr_type r = MsgType.ERROR_MSG) then d ← when_has fs fid_detail p_str ""%string; mret (false, d)
             else
               ok ← lift (flag fs fid_ok);
               if (ok : bool) then mret (true, ""%string) else d ← when_has fs fid_detail p_str ""%string; mret (false, d)
           end
         else mret (false, "rpc send failed"%string));
    _ ← close c;
    mret x
  end.

Record QueryResult : Type := mkQuery
  { qr_target : Z; qr_revalidation : bool; qr_ambiguous : Z; qr_route_gen : Z; qr_gateway_boot : Z; qr_epoch : Z;
    qr_txn_incomplete : bool }.
Definition query_default : QueryResult := mkQuery 0 false 0 0 0 0 false.
Definition query_state (cport service : Z) : T QueryResult :=
  c ← connect cport;
  match c with
  | None => mret query_default
  | Some c =>
    _ ← client_hello c;
    sent ← send1 c MsgType.QUERY_ROUTE 7005 0 [(fid_service, VU64 service)];
    qr ← (if (sent : bool) then
            r ← receive c;
            match r with
            | None => mret query_default
            | Some r =>
              fs ← lift (payload_reader (fr_payload r));
              target ← when_has fs fid_target p_u64 0;
              reval ← when_has fs fid_state p_bool false;
              amb ← when_has fs fid_seq p_u64 0;
              gen ← when_has fs fid_route_gen p_u64 0;
              gboot ← when_has fs fid_boot p_u64 0;
              epoch ← when_has fs fid_epoch p_u64 0;
              inc ← when_has fs fid_txn_incomplete p_bool false;
              mret (mkQuery target reval amb gen gboot epoch inc)
            end
          else mret query_default);
    _ ← close c;
    mret qr
  end.

Definition route_ack_authorized (cport service gen gboot : Z) : T bool :=
  x ← coord_rpc cport MsgType.CHECK_ROUTE_ACK
        [(fid_service, VU64 service); (fid_slot, VU64 1); (fid_route_gen, VU64 gen); (fid_boot, VU64 gboot)];
  mret x.1.

(** The disposition, and [found]. *)
Definition classify_request (cport req_id : Z) : T (Z * bool) :=
  c ← connect cport;
  match c with
  | None => mret (0, false)
  | Some c =>
    _ ← client_hello c;
    sent ← send1 c MsgType.CLASSIFY_REQUEST 7010 0 [(fid_request_id, VU64 req_id)];
    x ← (if (sent : bool) then
           r ← receive c;
           match r with
           | Some r =>
             if bool_decide (fr_type r = MsgType.CLASSIFY_REQUEST) then
               fs ← lift (payload_reader (fr_payload r));
               ok ← lift (flag fs fid_ok);
               if (ok : bool) then d ← when_has fs fid_state p_u8 0; mret (d, true) else mret (0, false)
             else mret (0, false)
           | None => mret (0, false)
           end
         else mret (0, false));
    _ ← close c;
    mret x
  end.

Definition query_dispatch_count (cport : Z) : T Z :=
  c ← connect cport;
  match c with
  | None => mret 0
  | Some c =>
    _ ← client_hello c;
    sent ← send1 c MsgType.CLASSIFY_REQUEST 7011 0 [(fid_request_id, VU64 0)];
    x ← (if (sent : bool) then
           r ← receive c;
           match r with
           | Some r =>
             if bool_decide (fr_type r = MsgType.CLASSIFY_REQUEST) then
               fs ← lift (payload_reader (fr_payload r)); when_has fs fid_dispatch_count p_u64 0
             else mret 0
           | None => mret 0
           end
         else mret 0);
    _ ← close c;
    mret x
  end.

(** The socket to the gateway is not closed. *)
Definition gateway_request (gport service a b req_id : Z) (idempotent externally_effectful : bool) : T bool :=
  gw ← connect gport;
  match gw with
  | None => mret false
  | Some gw =>
    sent ← send1 gw MsgType.VERIFY_SERVICE req_id 0
      [ (fid_input_a, VU64 a); (fid_input_b, VU64 b); (fid_service, VU64 service); (fid_slot, VU64 1);
        (fid_idempotent, VBool idempotent); (fid_externally_effectful, VBool externally_effectful) ];
    if (sent : bool) then
      r ← receive gw;
      match r with
      | Some r =>
        if bool_decide (fr_type r = MsgType.EXECUTION_RESULT) then
          fs ← lift (payload_reader (fr_payload r));
          ok ← lift (flag fs fid_ok);
          if (ok : bool) then
            rs ← when_has fs fid_payload p_bytes [];
            let result := strtoull rs in
            mret (Z.eqb result (reference_result a b))
          else mret false
        else mret false
      | None => mret false
      end
    else mret false
  end.

Definition stale_result_rejected (cport service old_boot old_assg_gen old_route_gen req_id : Z) : T bool :=
  c ← connect cport;
  match c with
  | None => mret false
  | Some c =>
    _ ← client_hello c;
    sent ← send1 c MsgType.AUTHORIZE_RESULT 7007 0
      [ (fid_service, VU64 service); (fid_slot, VU64 1); (fid_epoch, VU64 1); (fid_epoch_id, VU64 1); (fid_epoch_boot, VU64 1);
        (fid_assignment_id, VU64 1); (fid_assignment_gen, VU64 old_assg_gen); (fid_route_gen, VU64 old_route_gen);
        (fid_boot, VU64 old_boot); (fid_incarnation, VU64 old_boot); (fid_request_id, VU64 req_id); (fid_execution_id, VU64 req_id) ];
    x ← (if (sent : bool) then
           r ← receive c;
           match r with
           | Some r =>
             if bool_decide (fr_type r = MsgType.AUTHORIZE_RESULT) then
               fs ← lift (payload_reader (fr_payload r)); ok ← lift (flag fs fid_ok); mret (negb ok)
             else mret false
           | None => mret false
           end
         else mret false);
    _ ← close c;
    mret x
  end.

(** A request straight to a worker: whether it is answered ok. *)
Definition probe (port id a b boot : Z) : T bool :=
  c ← connect port;
  match c with
  | None => mret false
  | Some c =>
    _ ← send1 c MsgType.VERIFY_SERVICE id 0 [(fid_input_a, VU64 a); (fid_input_b, VU64 b); (fid_boot, VU64 boot)];
    r ← receive c;
    x ← (match r with
         | Some r =>
           if bool_decide (fr_type r = MsgType.EXECUTION_RESULT)
           then fs ← lift (payload_reader (fr_payload r)); lift (flag fs fid_ok) else mret false
         | None => mret false
         end);
    _ ← close c;
    mret x
  end.
(** The same, whatever the answer. *)
Definition poke (port id a b boot : Z) : T unit :=
  c ← connect port;
  match c with
  | None => mret tt
  | Some c =>
    _ ← send1 c MsgType.VERIFY_SERVICE id 0 [(fid_input_a, VU64 a); (fid_input_b, VU64 b); (fid_boot, VU64 boot)];
    _ ← receive c;
    close c
  end.
Definition fire_execute_failover (cport service : Z) : T unit :=
  c ← connect cport;
  match c with
  | None => mret tt
  | Some c => _ ← client_hello c; _ ← send1 c MsgType.EXECUTE_FAILOVER 7120 0 [(fid_service, VU64 service)]; close c
  end.
Definition find_free_port : T Z :=
  s ← host_call h_listen_any;
  match s with
  | None => mret 0
  | Some s => p ← gets (h_listen_port s); _ ← close s; mret p
  end.
Fixpoint wait_for_file (path : string) (tries : nat) : T bool :=
  match tries with
  | O => mret false
  | S tries =>
    there ← gets (h_exists path);
    if (there : bool) then mret true else _ ← sleep_ms 50; wait_for_file path tries
  end.

(** * Scenarios *)

Section scenarios.
Variables (dir worker_exe : string).
Definition SVC : Z := 1.
Definition A : Z := 10.
Definition B : Z := 11.

Definition exe (n : string) : string := dir +:+ "\" +:+ n.
Definition coordinator_address (cport : Z) : string := "127.0.0.1:" +:+ to_string_u64 cport.
Definition spawn_coordinator (port : Z) (extra : list string) : T Z :=
  spawn (exe "ff_coordinator.exe") (["--port"; to_string_u64 port] ++ extra).
Definition spawn_gateway (cport boot : Z) : T Z :=
  spawn (exe "ff_gateway.exe") ["--coordinator"; coordinator_address cport; "--port"; "0"; "--boot"; to_string_u64 boot].
Definition spawn_worker (cport target boot : Z) (extra : list string) : T Z :=
  spawn (exe worker_exe)
    (["--coordinator"; coordinator_address cport; "--port"; "0"; "--target"; to_string_u64 target; "--boot"; to_string_u64 boot] ++ extra).

Definition register_service (cport : Z) (extra : list (Z * Value)) : T (bool * string) :=
  coord_rpc cport MsgType.REGISTER ([(fid_service, VU64 SVC); (fid_target, VU64 A); (fid_boot, VU64 A)] ++ extra).
Definition report_failure (cport : Z) (cat : FailureCategory) (seq : Z) : T (bool * string) :=
  coord_rpc cport MsgType.PUBLISH_FAILURE [(fid_target, VU64 A); (fid_category, VU8 (enum_index cat)); (fid_seq, VU64 seq)].
(** [for (attempt < tries && !promoted)]. *)
Fixpoint failover_loop (tries : nat) (wait cport : Z) : T bool :=
  match tries with
  | O => mret false
  | S tries =>
    x ← coord_rpc cport MsgType.EXECUTE_FAILOVER [(fid_service, VU64 SVC)];
    if (x : bool * string).1 then mret true else _ ← sleep_ms wait; failover_loop tries wait cport
  end.
Definition serve_request (gport a b : Z) : T bool := gateway_request gport SVC a b 5001 false false.
Definition exit_code (ok : bool) : Z := if ok then 0 else 1.
Fixpoint kill_all (ps : list Z) : T unit := match ps with [] => mret tt | p :: ps => _ ← kill_proc p; kill_all ps end.

Definition run_live_fence : T Z :=
  coord ← spawn_coordinator 0 [];
  cport ← read_port coord;
  if Z.eqb cport 0 then mret 1 else
  gateway ← spawn_gateway cport 1;
  gport ← read_port gateway;
  wa ← spawn_worker cport A A [];
  aport ← read_port wa;
  wb ← spawn_worker cport B B [];
  _ ← sleep_ms 600;
  gw ← connect gport;
  match gw with
  | None => mret 1
  | Some gw =>
    _ ← register_service cport [];
    a_served ← serve_request gport 3 5;
    _ ← poke aport 6001 0xDBAD 0 A;
    alive ← probe aport 6002 1 1 A;
    _ ← report_failure cport FailureCategory.TRANSPORT_DISCONNECT 2;
    promoted ← failover_loop 30 80 cport;
    qs ← query_state cport SVC;
    let current_b := Z.eqb (qr_target qs) B in
    stale_rejected ← stale_result_rejected cport SVC A 1 1 4242;
    wa2 ← spawn_worker cport A 42 [];
    _ ← sleep_ms 400;
    qs2 ← query_state cport SVC;
    let no_reclaim := Z.eqb (qr_target qs2) B in
    let ok := a_served && alive && promoted && current_b && stale_rejected && no_reclaim in
    _ ← close gw;
    _ ← kill_all [coord; gateway; wa; wb; wa2];
    mret (exit_code ok)
  end.

Definition unknown_code : Z := enum_index RequestDisposition.OUTCOME_UNKNOWN.
Definition run_ambiguity : T Z :=
  coord ← spawn_coordinator 0 [];
  cport ← read_port coord;
  if Z.eqb cport 0 then mret 1 else
  gateway ← spawn_gateway cport 1;
  gport ← read_port gateway;
  wa ← spawn_worker cport A A [];
  wb ← spawn_worker cport B B [];
  _ ← sleep_ms 600;
  _ ← register_service cport [];
  reported_success ← gateway_request gport SVC 0xBEEF 7 5001 false true;
  let ambig_file := "ambig_" +:+ to_string_u64 A +:+ ".out" in
  computed ← gets (h_exists ambig_file);
  _ ← remove ambig_file;
  let not_success := negb reported_success in
  x ← classify_request cport 5001;
  let outcome_unknown := x.2 && Z.eqb x.1 unknown_code in
  _ ← kill_proc wa;
  _ ← sleep_ms 150;
  _ ← report_failure cport FailureCategory.PROCESS_EXIT 1;
  promoted ← failover_loop 30 80 cport;
  replayed_verified ← gateway_request gport SVC 7 11 5002 false false;
  stale_rejected ← stale_result_rejected cport SVC A 1 1 5001;
  x2 ← classify_request cport 5001;
  let not_exactly_once := x2.2 && Z.eqb x2.1 unknown_code in
  dpre ← query_dispatch_count cport;
  r3 ← gateway_request gport SVC 7 11 5001 false true;
  let replay_refused := negb r3 in
  dpost ← query_dispatch_count cport;
  let no_replay_dispatch := Z.eqb dpost dpre in
  x3 ← classify_request cport 5001;
  let preserved_unknown := x3.2 && Z.eqb x3.1 unknown_code in
  let ok := computed && not_success && outcome_unknown && promoted && replayed_verified && stale_rejected && not_exactly_once
            && replay_refused && no_replay_dispatch && preserved_unknown in
  _ ← kill_all [coord; gateway; wa; wb];
  mret (exit_code ok).

Definition run_gateway_restart : T Z :=
  coord ← spawn_coordinator 0 [];
  cport ← read_port coord;
  if Z.eqb cport 0 then mret 1 else
  gateway ← spawn_gateway cport 1;
  gport ← read_port gateway;
  wa ← spawn_worker cport A A [];
  wb ← spawn_worker cport B B [];
  bport ← read_port wb;
  _ ← sleep_ms 600;
  _ ← register_service cport [];
  a_served ← serve_request gport 3 5;
  _ ← kill_proc wa;
  _ ← sleep_ms 150;
  _ ← report_failure cport FailureCategory.PROCESS_EXIT 1;
  promoted ← failover_loop 30 80 cport;
  b_alive ← probe bport 6005 7 11 B;
  _ ← kill_proc gateway;
  g2 ← spawn_gateway cport 2;
  gport2 ← read_port g2;
  _ ← sleep_ms 500;
  b_served ← (if Z.eqb gport2 0 then mret false else serve_request gport2 7 11);
  qs2 ← query_state cport SVC;
  let cur_gen := qr_route_gen qs2 in
  let no_old_route_revival := Z.eqb (qr_target qs2) B && Z.ltb 1 cur_gen && Z.eqb (qr_gateway_boot qs2) 2 in
  old_boot ← route_ack_authorized cport SVC cur_gen 1;
  old_gen ← route_ack_authorized cport SVC (if Z.ltb 1 cur_gen then cur_gen - 1 else 1) 2;
  current_ack_ok ← route_ack_authorized cport SVC cur_gen 2;
  let stale_ack_rejected := negb old_boot && negb old_gen && current_ack_ok in
  let ok := a_served && promoted && b_alive && b_served && no_old_route_revival && stale_ack_rejected in
  _ ← kill_all [coord; g2; wb; wa];
  mret (exit_code ok).

Definition run_failback : T Z :=
  coord ← spawn_coordinator 0 [];
  cport ← read_port coord;
  if Z.eqb cport 0 then mret 1 else
  gateway ← spawn_gateway cport 1;
  gport ← read_port gateway;
  wa ← spawn_worker cport A A [];
  wb ← spawn_worker cport B B [];
  _ ← sleep_ms 600;
  _ ← register_service cport [ (fid_failback, VU8 (enum_index FailbackPolicy.MANUAL)); (fid_cooldown_ms, VU32 0);
                       (fid_max_auto_attempts, VU32 1); (fid_hysteresis_ms, VU32 0) ];
  a_served ← serve_request gport 3 5;
  _ ← kill_proc wa;
  _ ← sleep_ms 150;
  _ ← report_failure cport FailureCategory.PROCESS_EXIT 1;
  promoted ← failover_loop 30 80 cport;
  qB ← query_state cport SVC;
  let moved_to_b := Z.eqb (qr_target qB) B in
  wa2 ← spawn_worker cport A 42 [];
  aport2 ← read_port wa2;
  _ ← sleep_ms 400;
  qNo ← query_state cport SVC;
  let no_reclaim := Z.eqb (qr_target qNo) B in
  (* refused without an authorization; the scenario prints this and does not check it *)
  _ ← coord_rpc cport MsgType.REQUEST_FAILBACK [(fid_service, VU64 SVC)];
  x ← coord_rpc cport MsgType.REQUEST_FAILBACK [(fid_service, VU64 SVC); (fid_authorize, VBool true)];
  let back_home := x.1 in
  qHome ← query_state cport SVC;
  let current_is_a := Z.eqb (qr_target qHome) A in
  a_serves_again ← serve_request gport 7 11;
  old_rejected ← stale_result_rejected cport SVC B 2 (if Z.eqb (qr_route_gen qB) 0 then 2 else qr_route_gen qB) 5151;
  let ok := a_served && promoted && moved_to_b && no_reclaim && back_home && current_is_a && a_serves_again && old_rejected in
  _ ← kill_all [coord; gateway; wb; wa2];
  mret (exit_code ok).

(** [s.find(w) != npos]. *)
Fixpoint contains (w s : bytes) : bool :=
  bool_decide (take (length w) s = w) || match s with [] => false | _ :: s => contains w s end.

Definition run_cutover_restart_impl (boundary : Milestone) : T Z :=
  let state_path := "coord_cut.ff"%string in
  _ ← remove state_path;
  coord ← spawn_coordinator 0 ["--checkpoint"; state_path];
  cport ← read_port coord;
  if Z.eqb cport 0 then mret 1 else
  gateway ← spawn_gateway cport 1;
  gport ← read_port gateway;
  wa ← spawn_worker cport A A [];
  wb ← spawn_worker cport B B [];
  _ ← sleep_ms 600;
  _ ← register_service cport [];
  _ ← report_failure cport FailureCategory.PROCESS_EXIT 1;
  x ← coord_rpc cport MsgType.EXECUTE_FAILOVER [(fid_service, VU64 SVC); (fid_state, VU8 (enum_index boundary))];
  let interrupted := contains (string_bytes "interrupted") (string_bytes x.2) in
  if negb interrupted then _ ← kill_all [coord; gateway; wa; wb]; mret 1 else
  _ ← kill_all [coord; gateway; wa; wb];
  _ ← sleep_ms 200;
  coord2 ← spawn_coordinator 0 ["--load"; state_path; "--checkpoint"; state_path];
  cport2 ← read_port coord2;
  if Z.eqb cport2 0 then mret 1 else
  qr ← query_state cport2 SVC;
  let epoch_advanced := Z.ltb 1 (qr_epoch qr) in
  let revalidation := qr_revalidation qr in
  let incomplete := qr_txn_incomplete qr in
  old_epoch_rejected ← stale_result_rejected cport2 SVC A 1 1 9000;
  g2 ← spawn_gateway cport2 2;
  gport2 ← read_port g2;
  wb2 ← spawn_worker cport2 B B [];
  wa2 ← spawn_worker cport2 A 42 [];
  _ ← sleep_ms 500;
  qr2 ← query_state cport2 SVC;
  let no_premature_authority := qr_txn_incomplete qr2 || qr_revalidation qr2 in
  recovered ← failover_loop 30 80 cport2;
  qr3 ← query_state cport2 SVC;
  let current_b := Z.eqb (qr_target qr3) B in
  routed_ok ← (if Z.eqb gport2 0 then mret false else serve_request gport2 3 5);
  stale_rejected ← stale_result_rejected cport2 SVC B 2 2 9001;
  let ok := epoch_advanced && revalidation && incomplete && old_epoch_rejected && no_premature_authority && recovered
            && current_b && routed_ok && stale_rejected in
  _ ← kill_all [coord2; g2; wb2; wa2];
  mret (exit_code ok).

Fixpoint run_boundaries (l : list Milestone) (all : bool) : T Z :=
  match l with
  | [] => mret (exit_code all)
  | bm :: l => r ← run_cutover_restart_impl bm; _ ← remove "coord_cut.ff"; run_boundaries l (if Z.eqb r 0 then all else false)
  end.
Definition run_cutover_restart : T Z :=
  run_boundaries [Milestone.INTENT_ONLY; Milestone.OLD_ADMISSION_FENCED; Milestone.ACTIVATION_ACKNOWLEDGED; Milestone.ROUTE_INSTALLED] true.

Definition run_stateful : T Z :=
  let ckpt := "st_a.ff"%string in
  _ ← remove ckpt;
  coord ← spawn_coordinator 0 [];
  cport ← read_port coord;
  if Z.eqb cport 0 then mret 1 else
  gateway ← spawn_gateway cport 1;
  gport ← read_port gateway;
  wa ← spawn_worker cport A A ["--state"; ckpt; "--session"; "1"];
  aport ← read_port wa;
  wb ← spawn_worker cport B B [];
  _ ← sleep_ms 600;
  _ ← register_service cport [(fid_continuity, VU8 (enum_index ContinuityClass.CHECKPOINT_RESTORE)); (fid_min_checkpoint, VU64 2)];
  s1 ← serve_request gport 1 2;
  s2 ← serve_request gport 3 4;
  s3 ← serve_request gport 5 6;
  ck ← serve_request gport 0xC0FFEE 0;
  a4 ← serve_request gport 7 8;
  a5 ← serve_request gport 9 10;
  let served_before := s1 && s2 && s3 && ck && a4 && a5 in
  _ ← kill_proc wb;
  wb2 ← spawn_worker cport B B ["--state"; ckpt; "--session"; "1"];
  bport2 ← read_port wb2;
  _ ← sleep_ms 400;
  _ ← kill_proc wa;
  _ ← sleep_ms 150;
  _ ← report_failure cport FailureCategory.PROCESS_EXIT 1;
  promoted ← failover_loop 30 80 cport;
  q ← query_state cport SVC;
  let current_b := Z.eqb (qr_target q) B in
  b_serves ← serve_request gport 3 5;
  let ok := served_before && ck && promoted && current_b && b_serves in
  _ ← kill_all [coord; gateway; wb2; wa];
  _ ← remove ckpt;
  mret (exit_code ok).

Definition run_activation_crash : T Z :=
  let ckpt := "coord_act.ff"%string in
  let marker := "activate_withheld_11.out"%string in
  _ ← remove ckpt;
  _ ← remove marker;
  tport ← find_free_port;
  if Z.eqb tport 0 then mret 1 else
  coord ← spawn_coordinator tport ["--checkpoint"; ckpt];
  cport ← read_port coord;
  if negb (Z.eqb cport tport) then mret 1 else
  gateway ← spawn_gateway tport 1;
  gport ← read_port gateway;
  wa ← spawn_worker tport A A [];
  _ ← read_port wa;
  wb ← spawn_worker tport B B ["--withhold-activate"; "--reconnect"];
  _ ← read_port wb;
  _ ← sleep_ms 600;
  _ ← register_service cport [];
  _ ← report_failure cport FailureCategory.PROCESS_EXIT 1;
  _ ← fire_execute_failover cport SVC;
  ack_withheld ← wait_for_file marker 200;
  if negb ack_withheld then _ ← kill_all [coord; gateway; wa; wb]; mret 1 else
  _ ← kill_all [coord; gateway];
  _ ← sleep_ms 300;
  coord2 ← spawn_coordinator tport ["--load"; ckpt; "--checkpoint"; ckpt];
  cport2 ← read_port coord2;
  if negb (Z.eqb cport2 tport) then mret 1 else
  g2 ← spawn_gateway tport 2;
  gport2 ← read_port g2;
  qr ← query_state cport2 SVC;
  let epoch_advanced := Z.ltb 1 (qr_epoch qr) in
  let revalidation := qr_revalidation qr in
  let incomplete := qr_txn_incomplete qr in
  old_epoch_rejected ← stale_result_rejected cport2 SVC A 1 1 9000;
  qr2 ← query_state cport2 SVC;
  let no_premature_authority := qr_txn_incomplete qr2 || qr_revalidation qr2 in
  recovered ← failover_loop 60 80 cport2;
  qr3 ← query_state cport2 SVC;
  let current_b := Z.eqb (qr_target qr3) B in
  routed_ok ← (if Z.eqb gport2 0 then mret false else serve_request gport2 3 5);
  stale_rejected ← stale_result_rejected cport2 SVC B 2 2 9001;
  let survivor_reconciled := ack_withheld && recovered && current_b in
  let ok := ack_withheld && epoch_advanced && revalidation && incomplete && old_epoch_rejected && no_premature_authority
            && recovered && current_b && routed_ok && stale_rejected && survivor_reconciled in
  _ ← kill_all [coord2; g2; wb; wa];
  _ ← remove marker;
  mret (exit_code ok).

(** The scenario of [main], when no other is named. *)
Definition run_basic : T Z :=
  coord ← spawn_coordinator 0 [];
  cport ← read_port coord;
  if Z.eqb cport 0 then mret 1 else
  gateway ← spawn_gateway cport 1;
  gport ← read_port gateway;
  wa ← spawn_worker cport A A [];
  wb ← spawn_worker cport B B [];
  _ ← sleep_ms 600;
  ctl ← connect cport;
  match ctl with
  | None => mret 1
  | Some _ =>
    x ← register_service cport [];
    if negb (x : bool * string).1 then mret 1 else
    a_served ← serve_request gport 3 5;
    _ ← kill_proc wa;
    _ ← sleep_ms 200;
    _ ← report_failure cport FailureCategory.PROCESS_EXIT 1;
    promoted ← failover_loop 30 100 cport;
    _ ← query_state cport SVC;
    b_served ← serve_request gport 7 11;
    wa2 ← spawn_worker cport A 42 [];
    _ ← sleep_ms 400;
    q ← query_state cport SVC;
    let new_target := qr_target q in
    let no_reclaim := Z.eqb new_target B in
    stale_rejected ← stale_result_rejected cport SVC A 1 1 4242;
    let state_path := "coord_state.ff"%string in
    c ← connect cport;
    _ ← (match c with
         | Some c =>
           _ ← client_hello c;
           _ ← send1 c MsgType.SAVE 7008 0 [(fid_detail, VStr state_path)];
           _ ← receive c;
           close c
         | None => mret tt
         end);
    _ ← kill_proc coord;
    _ ← sleep_ms 200;
    coord2 ← spawn_coordinator 0 ["--load"; state_path];
    cport2 ← read_port coord2;
    restart_ok ← (if Z.eqb cport2 0 then mret false else
                    qs ← query_state cport2 SVC;
                    let recovered_b := Z.eqb (qr_target qs) B in
                    old_epoch_rejected ← stale_result_rejected cport2 SVC A 1 1 7777;
                    _ ← kill_proc coord2;
                    mret (recovered_b && qr_revalidation qs && old_epoch_rejected));
    let ok := a_served && promoted && b_served && no_reclaim && Z.eqb new_target B && stale_rejected && restart_ok in
    _ ← kill_all [coord; gateway; wb; wa2];
    mret (exit_code ok)
  end.
End scenarios.

(** [main]: the scenario that is named, on the worker that is named. *)
Definition tool_main (argv : list string) : T Z :=
  let dir := default "."%string (argv !! 0%nat) in
  let use_cuda := existsb (String.eqb "--cuda") argv in
  let worker_exe := (if use_cuda then "ff_cuda_worker.exe" else "ff_worker.exe")%string in
  let named n := match argv !! 1%nat with Some a => String.eqb a n | None => false end in
  if named "live-fence" then run_live_fence dir worker_exe
  else if named "ambiguity" then run_ambiguity dir worker_exe
  else if named "gateway" then run_gateway_restart dir worker_exe
  else if named "failback" then run_failback dir worker_exe
  else if named "cutover" then run_cutover_restart dir worker_exe
  else if named "stateful" then run_stateful dir worker_exe
  else if named "activation-crash" then run_activation_crash dir worker_exe
  else run_basic dir worker_exe.
End tool.
