(* ===== verification/Lab.v ===== *)
(** A host for the demonstration of Tool: the processes of Coordinator, Gateway, Worker and
    CudaWorker, started from their arguments, on one machine.  It is a test host: an
    instance of [Host] on which the scenarios can be evaluated, and the translation of no
    code.

    A process reacts to a frame before the tool goes on.  The coordinator is a [Pool] of
    Concurrent: a frame starts a handler, which acts until it ends or waits for an answer
    that does not come; then it stays where it is, until the process is killed.  The files
    of the coordinator and those of the workers have different names and are kept apart. *)

From stdpp Require Import base list gmap strings pretty relations.
From Stdlib Require Import ZArith Lia.
From S2P Require Import Prelude Threads Identities Types Double Bytes Model Codec Domains Evidence Routes Requests.
From S2P Require Import Recovery Selection Persistence Fabric Cutover Failback Invariant System CutoverSpec Restart.
From S2P Require Import Protocol Wire Worker CudaWorker Gateway Coordinator CoordinatorSpec Process Concurrent Tool.

Open Scope Z_scope.

#[local] Instance lab_order : EvalOrder := true.

(** * Workers *)

(** A device that works: its memory, and the next free address. *)
Notation Board := (DevMem * Z)%type.
#[local] Existing Instance CudaWitness.ideal.

Inductive WorkerKind : Type := Cpu (w : Worker) | Gpu (c : CudaWorker Board).
(** A worker process, and the port of the coordinator it was started with. *)
Record LabWorker : Type := mkLabWorker { lw_pid : Z; lw_coord : Z; lw_kind : WorkerKind }.
Definition lab_io : WorkerIo := mkWorkerIo true None.

Definition kind_files (k : WorkerKind) : FileSystem := match k with Cpu w => wk_fs w | Gpu c => cu_fs c end.
Definition with_files (fs : FileSystem) (k : WorkerKind) : WorkerKind :=
  match k with Cpu w => Cpu (w <| wk_fs := fs |>) | Gpu c => Gpu (c <| cu_fs := fs |>) end.
Definition ctrl_open (k : WorkerKind) : bool := match k with Cpu w => wk_ctrl_open w | Gpu c => cu_ctrl_open c end.
Definition on_kind {A} (f : ST Worker A) (g : ST (CudaWorker Board) A) (k : WorkerKind) : WorkerKind * result A :=
  match k with
  | Cpu w => let '(w, x) := f w in (Cpu w, x)
  | Gpu c => let '(c, x) := g c in (Gpu c, x)
  end.

(** * The network behind the coordinator *)

Inductive LabLink : Type := LinkWorker (port : Z) | LinkGateway (port : Z) | LinkClient.
Record LabGateway : Type := mkLabGateway { lg_pid : Z; lg_rpc : Z; lg_gateway : Gateway }.
Record LabNet : Type := mkLabNet
  { ln_links : gmap Z LabLink; ln_workers : gmap Z LabWorker; ln_gateways : gmap Z LabGateway; ln_files : FileSystem;
    ln_now : Z; ln_waiting : bool }.
#[export] Instance LabNet_eta : Eta LabNet := fun n =>
  mkLabNet (ln_links n) (ln_workers n) (ln_gateways n) (ln_files n) (ln_now n) (ln_waiting n).

(** A step of the worker on a port, on the shared files.  A worker that throws is gone. *)
Definition step_worker {A} (port : Z) (f : ST Worker A) (g : ST (CudaWorker Board) A) (n : LabNet) : LabNet * option A :=
  match ln_workers n !! port with
  | None => (n, None)
  | Some w =>
    match on_kind f g (with_files (ln_files n) (lw_kind w)) with
    | (k, Ok x) =>
      (n <| ln_workers := <[ port := mkLabWorker (lw_pid w) (lw_coord w) k ]> (ln_workers n) |> <| ln_files := kind_files k |>, Some x)
    | (k, Throw _) => (n <| ln_workers := delete port (ln_workers n) |> <| ln_files := kind_files k |>, None)
    end
  end.
Definition ask_worker (port : Z) (m : Frame) (n : LabNet) : LabNet * WorkerReply :=
  match ln_workers n !! port with
  | None => (n, Unreachable)
  | Some _ =>
    match step_worker port (worker_request lab_io (Some m)) (cuda_request lab_io (Some m)) n with
    | (n, Some (Some g)) => (n, Answer g)
    | (n, _) => (n, NoResponse)
    end
  end.

(** The gateway's control thread: it calls workers. *)
#[export] Instance labnet_env : GatewayEnv LabNet := {|
  coordinator_rpc _ r := (r, None);
  worker_call _ port m r := let '(n, x) := ask_worker port m (gr_world r) in (mkGwRun (gr_gateway r) n, x) |}.

Definition set_gateway (port : Z) (g : Gateway) (n : LabNet) : LabNet :=
  n <| ln_gateways := alter (fun x => mkLabGateway (lg_pid x) (lg_rpc x) g) port (ln_gateways n) |>.
Definition link_alive (g : Z) (n : LabNet) : bool :=
  match ln_links n !! g with
  | Some (LinkWorker port) => match ln_workers n !! port with Some w => ctrl_open (lw_kind w) | None => false end
  | Some (LinkGateway port) => bool_decide (is_Some (ln_gateways n !! port))
  | Some LinkClient => true
  | None => false
  end.
(** A frame of the coordinator arrives; the frame sent back. *)
Definition lab_deliver (g : Z) (f : Frame) (n : LabNet) : LabNet * option Frame :=
  match ln_links n !! g with
  | Some (LinkWorker port) =>
    match step_worker port (worker_control lab_io f) (cuda_control f) n with (n, Some x) => (n, x) | (n, None) => (n, None) end
  | Some (LinkGateway port) =>
    match ln_gateways n !! port with
    | Some g =>
      let '(r, x) := gateway_control f (mkGwRun (lg_gateway g) n) in
      (set_gateway port (gr_gateway r) (gr_world r), match x with Ok (Some a) => Some a | _ => None end)
    | None => (n, None)
    end
  | Some LinkClient | None => (n, None)
  end.

(** A request that a live peer does not answer waits. *)
#[export] Instance lab_net : PeerNet LabNet := {|
  conn_alive := link_alive;
  conn_send g f n := ((lab_deliver g f n).1, true);
  conn_request g f n :=
    let '(n', x) := lab_deliver g f n in
    (match x with Some _ => n' | None => if link_alive g n' then n' <| ln_waiting := true |> else n' end, x);
  net_clock := ln_now;
  net_save_io _ := mkSaveIo true None true |}.

(** * The coordinator process *)

Notation LabPool := (Pool (N := LabNet)).
Definition pool_net (c : LabPool) : LabNet := co_net (run_world (pool_state c)).

(** The handler on [p] acts until it ends, or until it waits; [fuel] bounds its actions. *)
Fixpoint lab_advance (fuel : nat) (p : Z) (c : LabPool) : LabPool :=
  match fuel with
  | O => c
  | S fuel =>
    match pool_threads c !! p with
    | Some (Act m k) =>
      let n := co_net (run_world (m (pool_state c)).1) in
      if ln_waiting n then pool_event (Changes (n <| ln_waiting := false |>)) c
      else lab_advance fuel p (pool_event (Acts p) c)
    | _ => c
    end
  end.
Definition answer_of (p : Z) (c : LabPool) : option Frame :=
  match pool_threads c !! p with Some (Done (Ok (Replied g))) => Some g | _ => None end.
Definition handle_frame (p : Z) (f : Frame) (c : LabPool) : LabPool * option Frame :=
  let c := lab_advance 500 p (pool_event (Starts p f) c) in
  (pool_event (Returns p) c, answer_of p c).
(** A connection is accepted, with what is at its other end. *)
Definition accept_link (l : LabLink) (c : LabPool) : LabPool * Z :=
  let g := co_next_gen (run_world (pool_state c)) in
  let c := pool_event Accepts c in
  (pool_event (Changes (pool_net c <| ln_links := <[ g := l ]> (ln_links (pool_net c)) |>)) c, g).
Fixpoint handle_frames (p : Z) (fs : list Frame) (c : LabPool) : LabPool :=
  match fs with [] => c | f :: fs => handle_frames p fs (handle_frame p f c).1 end.

(** * The host *)

Record LabCoord : Type := mkLabCoord { lc_pid : Z; lc_port : Z; lc_pool : LabPool }.
Inductive LabSocket : Type := ToCoordinator (pid gen : Z) | ToGateway (port : Z) | ToWorker (port : Z).
Record Lab : Type := mkLab
  { lb_dir : string; lb_coord : option LabCoord; lb_net : LabNet; lb_files : FileSystem; lb_out : gmap Z (list string);
    lb_socks : gmap Z (LabSocket * list Frame); lb_next : Z }.
#[export] Instance Lab_eta : Eta Lab := fun l =>
  mkLab (lb_dir l) (lb_coord l) (lb_net l) (lb_files l) (lb_out l) (lb_socks l) (lb_next l).

(** Process numbers, sockets and ports are taken from one counter. *)
Definition fresh_id (l : Lab) : Lab * Z := (l <| lb_next := lb_next l + 1 |>, lb_next l).
Definition put_line (pid port : Z) (l : Lab) : Lab := l <| lb_out := <[ pid := ["PORT " +:+ to_string_u64 port] ]> (lb_out l) |>.

(** The running coordinator does something. *)
Definition with_coordinator {A} (l : Lab) (d : A) (f : LabPool -> LabPool * A) : Lab * A :=
  match lb_coord l with
  | None => (l, d)
  | Some c =>
    let '(p, x) := f (pool_event (Changes (lb_net l)) (lc_pool c)) in
    (l <| lb_coord := Some (mkLabCoord (lc_pid c) (lc_port c) p) |> <| lb_net := pool_net p |>, x)
  end.
Definition listening (l : Lab) (port : Z) : bool := match lb_coord l with Some c => Z.eqb (lc_port c) port | None => false end.
(** A process connects to the coordinator and sends its first frames. *)
Definition join (link : LabLink) (fs : list Frame) (l : Lab) : Lab * Z :=
  with_coordinator l 0 (fun c => let '(c, g) := accept_link link c in (handle_frames g fs c, g)).

Definition frames_of (x : result (list Frame)) : list Frame := match x with Ok fs => fs | Throw _ => [] end.

(** The workers that lost their coordinator, started with --reconnect, reach a new one. *)
Definition rejoin (cport : Z) (l : Lab) (port : Z) : Lab :=
  match ln_workers (lb_net l) !! port with
  | Some (mkLabWorker pid coord (Cpu w)) =>
    if wk_reconnect w && Z.eqb coord cport then
      match worker_lost (fun _ => true) w with
      | (w, Ok (Some fs)) =>
        (join (LinkWorker port) fs
           (l <| lb_net := lb_net l <| ln_workers := <[ port := mkLabWorker pid coord (Cpu w) ]> (ln_workers (lb_net l)) |> |>)).1
      | _ => l
      end
    else l
  | _ => l
  end.

Definition start_coordinator (pid : Z) (argv : list string) (l : Lab) : Lab :=
  let a := coordinator_args argv coord_args_default in
  let '(l, fresh) := fresh_id l in
  let port := if Z.eqb (ca_port a) 0 then fresh else ca_port a in
  match coordinator_start a (lb_files l) with
  | Throw _ => l
  | Ok s =>
    let l := l <| lb_coord := Some (mkLabCoord pid port (pool_init s (lb_files l) (lb_net l))) |> in
    put_line pid port (foldl (rejoin port) l (map_to_list (ln_workers (lb_net l))).*1)
  end.

Definition start_gateway (pid : Z) (argv : list string) (l : Lab) : Lab :=
  let a := gateway_args argv gateway_args_default in
  let '(l, port) := fresh_id l in
  if negb (listening l (ga_coord_port a)) then put_line pid port l
  else match gateway_hello (ga_boot a) with
  | Throw _ => l
  | Ok (h1, h2) =>
    let l := l <| lb_net := lb_net l <| ln_gateways := <[ port := mkLabGateway pid 0 gateway_init ]> (ln_gateways (lb_net l)) |> |> in
    let '(l, _) := join (LinkGateway port) [h1] l in
    let '(l, g) := join LinkClient [h2] l in
    put_line pid port
      (l <| lb_net := lb_net l <| ln_gateways := alter (fun x => mkLabGateway pid g (lg_gateway x)) port (ln_gateways (lb_net l)) |> |>)
  end.

Definition add_worker (pid port coord : Z) (k : WorkerKind) (fs : result (list Frame)) (l : Lab) : Lab :=
  let l := l <| lb_net := lb_net l <| ln_workers := <[ port := mkLabWorker pid coord k ]> (ln_workers (lb_net l)) |> |> in
  put_line pid port (join (LinkWorker port) (frames_of fs) l).1.
Definition start_worker (pid : Z) (argv : list string) (l : Lab) : Lab :=
  let a := worker_args argv worker_args_default in
  let '(l, port) := fresh_id l in
  match worker_start a port (ln_files (lb_net l)) with
  | None => l
  | Some w =>
    if listening l (wa_coord_port a)
    then add_worker pid port (wa_coord_port a) (Cpu w) (h ← worker_hello w; r ← send_registration w; Ok [h; r]) l
    else put_line pid port l
  end.
Definition start_cuda_worker (pid : Z) (argv : list string) (l : Lab) : Lab :=
  let a := cuda_args argv cuda_args_default in
  let '(l, port) := fresh_id l in
  match cuda_start a (Some port) (listening l (cua_coord_port a)) (ln_files (lb_net l)) CudaWitness.board with
  | None => put_line pid port l
  | Some (c, fs) => add_worker pid port (cua_coord_port a) (Gpu c) fs l
  end.

Definition lab_spawn (exe : string) (args : list string) (l : Lab) : Lab * Z :=
  let '(l, pid) := fresh_id l in
  let runs n := String.eqb exe (lb_dir l +:+ "\" +:+ n) in
  (if runs "ff_coordinator.exe" then start_coordinator pid args l
   else if runs "ff_gateway.exe" then start_gateway pid args l
   else if runs "ff_worker.exe" then start_worker pid args l
   else if runs "ff_cuda_worker.exe" then start_cuda_worker pid args l
   else l, pid).

(** A killed coordinator leaves its files; its connections are gone. *)
Definition lab_kill (pid : Z) (l : Lab) : Lab :=
  let n := lb_net l in
  let l := l <| lb_net := n <| ln_workers := filter (fun x => lw_pid x.2 <> pid) (ln_workers n) |>
                            <| ln_gateways := filter (fun x => lg_pid x.2 <> pid) (ln_gateways n) |> |> in
  match lb_coord l with
  | Some c => if Z.eqb (lc_pid c) pid
              then l <| lb_coord := None |> <| lb_files := run_fs (pool_state (lc_pool c)) |>
                     <| lb_net := lb_net l <| ln_links := ∅ |> |>
              else l
  | None => l
  end.

Definition new_socket (s : LabSocket) (l : Lab) : Lab * option Z :=
  let '(l, id) := fresh_id l in (l <| lb_socks := <[ id := (s, []) ]> (lb_socks l) |>, Some id).
Definition lab_connect (port : Z) (l : Lab) : Lab * option Z :=
  match lb_coord l with
  | Some c =>
    if Z.eqb (lc_port c) port
    then let '(l, g) := join LinkClient [] l in new_socket (ToCoordinator (lc_pid c) g) l
    else if bool_decide (is_Some (ln_gateways (lb_net l) !! port)) then new_socket (ToGateway port) l
    else if bool_decide (is_Some (ln_workers (lb_net l) !! port)) then new_socket (ToWorker port) l
    else (l, None)
  | None =>
    if bool_decide (is_Some (ln_gateways (lb_net l) !! port)) then new_socket (ToGateway port) l
    else if bool_decide (is_Some (ln_workers (lb_net l) !! port)) then new_socket (ToWorker port) l
    else (l, None)
  end.

(** The thread of a client in the gateway on a port. *)
Record AtGateway : Type := mkAt { at_port : Z; at_lab : Lab }.
Definition sync_gateway (r : GwRun AtGateway) : Lab :=
  let l := at_lab (gr_world r) in l <| lb_net := set_gateway (at_port (gr_world r)) (gr_gateway r) (lb_net l) |>.
Definition gateway_of (port : Z) (l : Lab) (d : Gateway) : Gateway :=
  match ln_gateways (lb_net l) !! port with Some x => lg_gateway x | None => d end.
#[export] Instance lab_env : GatewayEnv AtGateway := {|
  coordinator_rpc m r :=
    let port := at_port (gr_world r) in
    let l := sync_gateway r in
    match ln_gateways (lb_net l) !! port with
    | None => (r, None)
    | Some x =>
      let '(l, a) := with_coordinator l None (handle_frame (lg_rpc x) m) in
      (mkGwRun (gateway_of port l (gr_gateway r)) (mkAt port l), a)
    end;
  worker_call _ port m r :=
    let l := sync_gateway r in
    let '(n, x) := ask_worker port m (lb_net l) in
    (mkGwRun (gr_gateway r) (mkAt (at_port (gr_world r)) (l <| lb_net := n |>)), x) |}.
Definition client_of_gateway (port : Z) (f : Frame) (l : Lab) : Lab * option Frame :=
  match ln_gateways (lb_net l) !! port with
  | None => (l, None)
  | Some x =>
    let '(r, a) := handle_client (Some f) (mkGwRun (lg_gateway x) (mkAt port l)) in
    (sync_gateway r, match a with Ok a => a | Throw _ => None end)
  end.

Definition push_reply (s : Z) (x : option Frame) (l : Lab) : Lab :=
  match x with
  | Some f => l <| lb_socks := alter (fun y => (y.1, y.2 ++ [f])) s (lb_socks l) |>
  | None => l
  end.
Definition lab_send (s : Z) (f : Frame) (l : Lab) : Lab * bool :=
  match lb_socks l !! s with
  | Some (ToCoordinator pid g, _) =>
    match lb_coord l with
    | Some c => if Z.eqb (lc_pid c) pid
                then let '(l, x) := with_coordinator l None (handle_frame g f) in (push_reply s x l, true)
                else (l, false)
    | None => (l, false)
    end
  | Some (ToGateway port, _) => let '(l, x) := client_of_gateway port f l in (push_reply s x l, true)
  | Some (ToWorker port, _) =>
    let '(n, x) := ask_worker port f (lb_net l) in
    (push_reply s (match x with Answer a => Some a | _ => None end) (l <| lb_net := n |>), true)
  | None => (l, false)
  end.
Definition lab_recv (s : Z) (l : Lab) : Lab * option Frame :=
  match lb_socks l !! s with
  | Some (k, f :: fs) => (l <| lb_socks := <[ s := (k, fs) ]> (lb_socks l) |>, Some f)
  | _ => (l, None)
  end.

#[export] Instance lab_host : Host Lab := {|
  h_spawn := lab_spawn;
  h_read_line pid l := match lb_out l !! pid with
                       | Some (x :: xs) => (l <| lb_out := <[ pid := xs ]> (lb_out l) |>, x)
                       | _ => (l, ""%string)
                       end;
  h_kill := lab_kill;
  h_connect := lab_connect;
  h_send := lab_send;
  h_recv := lab_recv;
  h_close s l := l <| lb_socks := delete s (lb_socks l) |>;
  h_sleep n l := l <| lb_net := lb_net l <| ln_now := ln_now (lb_net l) + n |> |>;
  h_exists p l := bool_decide (is_Some (ln_files (lb_net l) !! p)) || bool_decide (is_Some (lb_files l !! p));
  h_remove p l := l <| lb_files := delete p (lb_files l) |> <| lb_net := lb_net l <| ln_files := delete p (ln_files (lb_net l)) |> |>;
  (* a listening socket has the number of its port *)
  h_listen_any l := let '(l, s) := fresh_id l in (l, Some s);
  h_listen_port s _ := s |}.

(** An idle machine. *)
Definition lab_init : Lab := mkLab "." None (mkLabNet ∅ ∅ ∅ ∅ 0 false) ∅ ∅ ∅ 1024.
