(* ===== verification/Demonstration.v ===== *)
(** What the demonstration of Tool shows on the host of Lab: its scenarios succeed with the
    processes of this library, with CPU workers and, but for two, with CUDA workers; and
    what it does not try. *)

From stdpp Require Import base list gmap strings relations.
From Stdlib Require Import ZArith Lia.
From S2P Require Import Prelude Threads Identities Types Model Fabric Cutover Invariant System Restart.
From S2P Require Import Protocol Wire Coordinator CoordinatorSpec Process Concurrent Tool Lab.

Open Scope Z_scope.
#[local] Existing Instance lab_order.

(** * Definitions *)

(** The exit status of the tool. *)
Definition status (argv : list string) : result Z := (tool_main argv lab_init).2.

(** A gateway is restarted under another boot identity, serves, and then the active worker
    dies: whether the new gateway serves, the failover succeeds, the service is back. *)
Definition failover_after_gateway_restart (boot1 boot2 : Z) : ST Lab (bool * bool * bool) :=
  let worker cport t := spawn_worker "." "ff_worker.exe" cport t t [] in
  coord ← spawn_coordinator "." 0 [];
  cport ← read_port coord;
  g1 ← spawn_gateway "." cport boot1;
  wa ← worker cport A;
  _ ← worker cport B;
  _ ← register_service cport [];
  _ ← kill_proc g1;
  g2 ← spawn_gateway "." cport boot2;
  gport ← read_port g2;
  served ← serve_request gport 3 5;
  _ ← kill_proc wa;
  _ ← report_failure cport FailureCategory.PROCESS_EXIT 1;
  promoted ← failover_loop 30 80 cport;
  again ← serve_request gport 7 11;
  mret (served, promoted, again).

(** Evaluate the left side of an equation, once. *)
Ltac evaluate := lazymatch goal with |- _ = ?v => vm_cast_no_check (eq_refl v) end.

(** * Theorems *)

(** The demonstration succeeds, by evaluation.  On an idle machine of Lab, with the coordinator, the gateway and
    the CPU workers of this library, each of the scenarios of the tool ends with status 0:
    the failover of a killed worker with the restart of the coordinator, the fencing of a
    worker that is alive, the request of unknown outcome that is not replayed, the restart
    of the gateway, the failback, the restart of the coordinator at each of the four
    checkpoints of a cutover, the restored checkpoint, and the coordinator that dies while
    a worker withholds the acknowledgment of its activation. *)
Theorem demonstrations_pass :
  Forall (fun argv => status argv = Ok 0)
    [ ["."]; ["."; "live-fence"]; ["."; "ambiguity"]; ["."; "gateway"]; ["."; "failback"]; ["."; "stateful"];
      ["."; "cutover"]; ["."; "activation-crash"] ]%string.
Proof. repeat (apply List.Forall_cons; [evaluate |]). apply List.Forall_nil. Qed.

(** With CUDA workers, on a device that works, the demonstration succeeds but for the two
    scenarios that need options the CUDA worker does not have: --state, and
    --withhold-activate with --reconnect. *)
Theorem cuda_demonstrations :
  Forall (fun argv => status argv = Ok 0)
    [ ["."; "--cuda"]; ["."; "live-fence"; "--cuda"]; ["."; "ambiguity"; "--cuda"]; ["."; "gateway"; "--cuda"];
      ["."; "failback"; "--cuda"] ]%string /\
  status ["."; "stateful"; "--cuda"]%string = Ok 1 /\ status ["."; "activation-crash"; "--cuda"]%string = Ok 1.
Proof.
  split; [| split; evaluate].
  repeat (apply List.Forall_cons; [evaluate |]). apply List.Forall_nil.
Qed.

(** A restarted gateway makes failover impossible.  Verification goes to the gateway with
    the smallest boot identity the coordinator has ever seen, dead or alive: when a gateway
    is restarted under a larger boot identity, it serves requests, but no later failover
    completes, in any of 30 attempts, and the service is not restored.  Restarted under a
    smaller one, all goes well. *)
Theorem gateway_restart_blocks_failover :
  (failover_after_gateway_restart 1 2 lab_init).2 = Ok (true, false, false) /\
  (failover_after_gateway_restart 2 1 lab_init).2 = Ok (true, true, true).
Proof. split; evaluate. Qed.
