(* ===== verification/Cluster.v ===== *)
(** A closed system: one coordinator, one gateway and any number of workers, each running
    the code of its process, connected by links that deliver at once.  It discharges the
    interface of Deployment, its runs evaluate, and the witnesses of Gateway, Process,
    Concurrent, Refusals, Progress and Deployment are runs of it. *)

From stdpp Require Import base list gmap strings pretty relations.
From Stdlib Require Import ZArith Lia.
From S2P Require Import Prelude Threads Identities Types Double Bytes Model Codec Domains Evidence Routes Requests.
From S2P Require Import Recovery Selection Persistence Fabric Cutover Failback Invariant System CutoverSpec Restart.
From S2P Require Import Protocol Wire Worker Gateway Coordinator CoordinatorSpec Process Concurrent Refusals Progress WorkerThreads Deployment.

Open Scope Z_scope.

(** * Links *)

(** What is at the other end of a connection of the coordinator. *)
Inductive Endpoint : Type := ToWorker (port : Z) | ToGateway | ToClient.

Record Cluster : Type := mkCluster
  { cl_links : gmap Z Endpoint; cl_workers : gmap Z Worker; cl_gateway : Gateway; cl_now : Z }.
#[export] Instance Cluster_eta : Eta Cluster := fun c => mkCluster (cl_links c) (cl_workers c) (cl_gateway c) (cl_now c).

Definition cluster_io : WorkerIo := mkWorkerIo true None.

(** A request on a worker's request port.  A worker whose request loop throws is gone. *)
Definition ask_worker (port : Z) (m : Frame) (c : Cluster) : Cluster * WorkerReply :=
  match cl_workers c !! port with
  | None => (c, Unreachable)
  | Some w =>
    match worker_request cluster_io (Some m) w with
    | (w', Ok (Some g)) => (c <| cl_workers := <[ port := w' ]> (cl_workers c) |>, Answer g)
    | (w', Ok None) => (c <| cl_workers := <[ port := w' ]> (cl_workers c) |>, NoResponse)
    | (_, Throw _) => (c <| cl_workers := delete port (cl_workers c) |>, NoResponse)
    end
  end.

(** The gateway's control thread: it calls workers, not the coordinator. *)
#[export] Instance cluster_env : GatewayEnv Cluster := {|
  coordinator_rpc _ r := (r, None);
  worker_call _ port m r := let '(c, x) := ask_worker port m (gr_world r) in (mkGwRun (gr_gateway r) c, x) |}.

(** A frame from the coordinator arrives; the frame sent back. *)
Definition deliver_control (g : Z) (f : Frame) (c : Cluster) : Cluster * option Frame :=
  match cl_links c !! g with
  | Some (ToWorker port) =>
    match cl_workers c !! port with
    | Some w => let '(w', x) := worker_control cluster_io f w in
                (c <| cl_workers := <[ port := w' ]> (cl_workers c) |>, match x with Ok (Some a) => Some a | _ => None end)
    | None => (c, None)
    end
  | Some ToGateway =>
    let '(r, x) := gateway_control f (mkGwRun (cl_gateway c) c) in
    (gr_world r <| cl_gateway := gr_gateway r |>, match x with Ok (Some a) => Some a | _ => None end)
  | Some ToClient | None => (c, None)
  end.

#[export] Instance cluster_net : PeerNet Cluster := {|
  conn_alive g c := match cl_links c !! g with
                    | Some (ToWorker port) => bool_decide (is_Some (cl_workers c !! port))
                    | Some _ => true
                    | None => false
                    end;
  conn_send g f c := ((deliver_control g f c).1, true);
  conn_request g f c := deliver_control g f c;
  net_clock := cl_now;
  net_save_io _ := mkSaveIo true None true |}.

(** * The system *)

(** The coordinator with everything behind it, the connection of the gateway's requests,
    and what the coordinator will handle before each of them. *)
Record Plant : Type := mkPlant
  { pt_coord : Run (Coord Cluster); pt_meanwhile : list (list (CoordEvent (N := Cluster))) }.

Definition kRpcPeer : Z := 2.

Definition pt_net (p : Plant) : Cluster := co_net (run_world (pt_coord p)).
Definition with_net (c : Cluster) (p : Plant) : Plant :=
  mkPlant (coord_event (NetChanged c) (pt_coord p)) (pt_meanwhile p).

(** The gateway's two threads share its state. *)
#[export] Instance plant_env : GatewayEnv Plant := {|
  coordinator_rpc m r :=
    let p := with_net (pt_net (gr_world r) <| cl_gateway := gr_gateway r |>) (gr_world r) in
    let '(c, x) := handle kRpcPeer m (coord_run (default [] (head (pt_meanwhile p))) (pt_coord p)) in
    (mkGwRun (cl_gateway (co_net (run_world c))) (mkPlant c (tail (pt_meanwhile p))),
     match x with Ok (Replied a) => Some a | _ => None end);
  worker_call _ port m r :=
    let '(c, x) := ask_worker port m (pt_net (gr_world r)) in (mkGwRun (gr_gateway r) (with_net c (gr_world r)), x) |}.

(** The frames the coordinator handles are the actions of its threads. *)
#[export] Program Instance plant_deployed : Deployed Plant Cluster := {|
  dep_coord p := mkPool (pt_coord p) ∅;
  dep_worker p _ port := (fun w => mkCrew w ∅) <$> cl_workers (pt_net p) !! port;
  dep_rpc_peer := kRpcPeer;
  dep_during _ port m r :=
    let t := worker_thread (EvRequest cluster_io (Some m)) in
    Begin 1 t :: match cl_workers (pt_net (gr_world r)) !! port with
                 | Some w => replicate (actions_alone t w) (Step 1)
                 | None => []
                 end |}.
Next Obligation.
  intros p host port wc. cbn. destruct (cl_workers (pt_net p) !! port) as [w |]; [| done]. intros [= <-]. by exists w, [].
Qed.
Next Obligation.
  intros m r r' a. cbn [coordinator_rpc plant_env]. set (p := with_net _ _).
  set (es := default [] (head (pt_meanwhile p))). intros H.
  destruct (sequential_threaded (NetChanged (pt_net (gr_world r) <| cl_gateway := gr_gateway r |>) :: es) (pt_coord (gr_world r)))
    as [es1 H1].
  change (pool_run es1 (mkPool (pt_coord (gr_world r)) ∅) = mkPool (coord_run es (pt_coord p)) ∅) in H1.
  destruct (handler_alone kRpcPeer m (mkPool (coord_run es (pt_coord p)) ∅)) as (n & Ha & Hn); [apply lookup_empty |].
  cbn [pool_state pool_threads] in Ha, Hn. exists es1, (replicate n (Acts kRpcPeer)), [Returns kRpcPeer].
  rewrite pool_run_app, H1. clearbody es p.
  destruct (handle kRpcPeer m (coord_run es (pt_coord p))) as [c [[] |]]; simplify_eq. by split.
Qed.
Next Obligation.
  intros host port m r r' a. cbn [worker_call plant_env]. unfold ask_worker.
  destruct (cl_workers (pt_net (gr_world r)) !! port) as [w |] eqn:Ew; [| done].
  destruct (worker_request cluster_io (Some m) w) as [w' [[g |] | e]] eqn:Er; intros [= <- <-].
  split; [| by exists [Changes (pt_net (gr_world r) <| cl_workers := <[ port := w' ]> (cl_workers (pt_net (gr_world r))) |>)]].
  destruct (threads_alone_are_steps (EvRequest cluster_io (Some m)) w 1 ∅) as (Hf & _); [apply lookup_empty |].
  set (es := replicate _ _) in Hf. exists (mkCrew w ∅), cluster_io, 1, [], es, []. cbn zeta. rewrite app_nil_r.
  split; [done |]. split; [done |]. split; [constructor; [by apply request_event | by apply Forall_replicate] |].
  split; [done |]. cbn [worker_step] in Hf. unfold mbind, st_bind in Hf. by rewrite Er in Hf.
Qed.
(** * A scenario *)

#[local] Instance scene_order : EvalOrder := true.

Module Scene.
Definition frame (x : result Frame) : Frame := match x with Ok f => f | Throw _ => mkFrame MsgType.SHUTDOWN 0 0 [] end.
Definition worker (target boot port : Z) : Worker :=
  mkWorker target boot port "" 0 false false false false 0 "ref-det-sequence-v1" true true ∅.
Definition workers : gmap Z Worker := <[ 40001 := worker 1 11 40001 ]> {[ 40002 := worker 2 12 40002 ]}.
Definition links : gmap Z Endpoint :=
  <[ 1 := ToGateway ]> (<[ 2 := ToClient ]> (<[ 3 := ToWorker 40001 ]> (<[ 4 := ToWorker 40002 ]> {[ 5 := ToClient ]}))).
Definition net : Cluster := mkCluster links workers gateway_init 0.
Definition msg (type : MsgType) (id : Z) (l : list (Z * Value)) : Frame := frame (message type id 1 l).
Definition hello (role target boot port : Z) : Frame :=
  msg MsgType.HELLO 1 [(fid_role, VU8 role); (fid_target, VU64 target); (fid_boot, VU64 boot); (fid_req_port, VU64 port)].
Definition ready (w : Worker) : Frame := frame (send_registration w).
Definition register : Frame :=
  msg MsgType.REGISTER 7 [(fid_service, VU64 1); (fid_target, VU64 1); (fid_boot, VU64 11)].
Definition opening : list (CoordEvent (N := Cluster)) :=
  [ Accepted; Accepted; Accepted; Accepted; Accepted; Received 1 (hello kRoleGateway 0 900 0);
    Received 3 (hello kRoleWorker 1 11 40001); Received 3 (ready (worker 1 11 40001));
    Received 4 (hello kRoleWorker 2 12 40002); Received 4 (ready (worker 2 12 40002)); Received 5 register ].
Definition start : Run (Coord Cluster) :=
  match coordinator_start coord_args_default ∅ with
  | Ok s => mkRun s ∅ (coord_init net)
  | Throw _ => mkRun (impl_init config_default) ∅ (coord_init net)
  end.
Definition opened : Run (Coord Cluster) := coord_run opening start.
Definition ask (id a b : Z) : Frame := msg MsgType.AUTHORIZE_REQUEST id [(fid_input_a, VU64 a); (fid_input_b, VU64 b)].
Definition at_gateway (c : Run (Coord Cluster)) (l : list (list (CoordEvent (N := Cluster)))) : GwRun Plant :=
  mkGwRun (cl_gateway (co_net (run_world c))) (mkPlant c l).
Definition failed : Frame := msg MsgType.PUBLISH_FAILURE 8 [(fid_target, VU64 1); (fid_category, VU8 0); (fid_seq, VU64 0)].
Definition failover : Frame := msg MsgType.EXECUTE_FAILOVER 9 [(fid_service, VU64 1)].
(** The reply to a frame, and the state after it. *)
Definition reply (p : Z) (f : Frame) (c : Run (Coord Cluster)) : Frame :=
  match handle p f c with (_, Ok (Replied g)) => g | _ => frame (Throw (LogicError "no reply")) end.
Definition served (c : Run (Coord Cluster)) (f : Frame) : Frame :=
  match handle_client (Some f) (at_gateway c []) with (_, Ok (Some g)) => g | _ => frame (Throw (LogicError "no answer")) end.
(** How many requests the worker on a port has computed. *)
Definition computed (port : Z) (c : Run (Coord Cluster)) : option Z :=
  wk_committed_seq <$> cl_workers (co_net (run_world c)) !! port.
(** Service 1 moved from target 1 to target 2. *)
Definition moving : list (CoordEvent (N := Cluster)) := [Received 5 failed; Received 5 failover].
Definition moved : Run (Coord Cluster) := coord_run moving opened.
(** Service 2 is then registered on target 1, with the boot that was fenced. *)
Definition register2 : Frame := msg MsgType.REGISTER 17 [(fid_service, VU64 2); (fid_target, VU64 1); (fid_boot, VU64 11)].
Definition reused : list (CoordEvent (N := Cluster)) := opening ++ moving ++ [Received 5 register2].
(** The worker of target 2 is gone before the failover. *)
Definition lost : Cluster := co_net (run_world opened) <| cl_workers := delete 40002 (cl_workers (co_net (run_world opened))) |>.
Definition stuck : list (CoordEvent (N := Cluster)) := opening ++ [NetChanged lost] ++ moving.
Definition dispatch_request : Frame := msg MsgType.AUTHORIZE_REQUEST 30 [(fid_service, VU64 1); (fid_request_id, VU64 30)].
End Scene.

Lemma started es : process (N := Cluster) coord_args_default ∅ Scene.net es (coord_run es Scene.start).
Proof. by eexists. Qed.
Lemma started_app es es' : process (N := Cluster) coord_args_default ∅ Scene.net (es ++ es') (coord_run es' (coord_run es Scene.start)).
Proof. assert (forall r, coord_run (es ++ es') r = coord_run es' (coord_run es r)) as <- by (intros; apply foldl_app). apply started. Qed.

(** The three processes at work: a request served by the first worker, its failure, the
    failover, and a request served by the second. *)
Example scene_failover_restores_service :
  frame_flag (Scene.served Scene.opened (Scene.ask 100 3 4)) fid_ok = true /\
  frame_flag (Scene.reply 5 Scene.failover (coord_run [Received 5 Scene.failed] Scene.opened)) fid_ok = true /\
  asg_worker_boot <$> slot_current (run_impl Scene.moved) (slot1 1) = Some (mkId 12) /\
  im_fenced_boots (run_impl Scene.moved) = [mkId 11] /\
  frame_flag (Scene.served Scene.moved (Scene.ask 101 3 4)) fid_ok = true.
Proof. vm_compute. done. Qed.

Lemma pair_snd {A B} (x : A * B) b : x.2 = b -> x = (x.1, b).
Proof. by destruct x; simpl; intros ->. Qed.

(** The scene with threads: the opening one handler after the other, then two handlers that
    overlap. *)
Module Race.
Definition alone (e : CoordEvent (N := Cluster)) : list (PoolEvent (N := Cluster)) :=
  match e with
  | Accepted => [Accepts]
  | Received p f => Starts p f :: replicate 100 (Acts p) ++ [Returns p]
  | NetChanged n => [Changes n]
  end.
Definition start : Pool (N := Cluster) := pool_init (run_impl Scene.start) ∅ Scene.net.
Definition asked : list (PoolEvent (N := Cluster)) := mbind alone (Scene.opening ++ [Received 2 Scene.dispatch_request]).
(** The result of request 30, withheld. *)
Definition withheld : Frame :=
  Scene.msg MsgType.AUTHORIZE_RESULT 30
    (match slot_current (run_impl Scene.opened) (slot1 1) with
     | Some cur => authorize_result_fields (mkClientRequest 3 4 1 1 false false)
                     (grant_of (dispatch_auth (im_epoch (run_impl Scene.opened)) (slot1 1) 30 cur)) 30 true
     | None => []
     end).
(** The second AUTHORIZE_REQUEST has passed its check when the withheld result arrives on
    another connection. *)
Definition before : list (PoolEvent (N := Cluster)) :=
  asked ++ [Starts 2 Scene.dispatch_request] ++ replicate 7 (Acts 2) ++ alone (Received 5 withheld).
Definition after : list (PoolEvent (N := Cluster)) := replicate 10 (Acts 2).
Definition request30 (c : Pool (N := Cluster)) : option RequestRecord :=
  request_find (im_requests (run_impl (pool_state c))) (mkId 30).
End Race.

(** * Theorems *)

(** A fenced boot can still serve.  The gateway computes on the worker of the route it
    holds for the slot number, and presents the result under the boot the coordinator
    granted; nothing compares the two.  Here service 1 has failed over from boot 11,
    which is fenced, to boot 12, and a second service is registered on the worker of
    boot 11: its route replaces that of service 1 at the gateway.  A client of service 1
    is then answered ok with a result computed by the fenced boot, under the authority
    of the boot that did not compute it. *)
Theorem fenced_boot_can_serve :
  let c := coord_run Scene.reused Scene.start in
  let out := (handle_client (Some (Scene.ask 100 3 4)) (Scene.at_gateway c [])).1 in
  process coord_args_default ∅ Scene.net Scene.reused c /\
  asg_worker_boot <$> slot_current (run_impl c) (slot1 1) = Some (mkId 12) /\ mkId 11 ∈ im_fenced_boots (run_impl c) /\
  frame_flag (Scene.served c (Scene.ask 100 3 4)) fid_ok = true /\
  wk_boot <$> cl_workers (co_net (run_world c)) !! 40001 = Some 11 /\
  Scene.computed 40001 c = Some 0 /\ Scene.computed 40001 (pt_coord (gr_world out)) = Some 1 /\
  Scene.computed 40002 c = Scene.computed 40002 (pt_coord (gr_world out)).
Proof.
  intros c out. split; [apply started |]. split_and!; try (vm_compute; done).
  apply (bool_decide_eq_true (mkId 11 ∈ im_fenced_boots (run_impl c))). vm_compute. done.
Qed.

(** Dispatch is not gated.  After a failover that fenced the old boot and could not
    activate the replacement, AUTHORIZE_REQUEST still grants dispatches to the fenced
    boot, although the gate refuses that very authorization: the handler looks only at
    the state of the current assignment. *)
Theorem dispatch_is_not_gated :
  let c := coord_run Scene.stuck Scene.start in
  let s := run_impl c in
  process coord_args_default ∅ Scene.net Scene.stuck c /\
  exists cur, slot_current s (slot1 1) = Some cur /\ asg_worker_boot cur = mkId 11 /\ mkId 11 ∈ im_fenced_boots s /\
    frame_flag (Scene.reply 5 Scene.dispatch_request c) fid_ok = true /\
    read_grant (Some (Scene.reply 5 Scene.dispatch_request c)) = Ok (Some (grant_of (dispatch_auth (im_epoch s) (slot1 1) 30 cur))) /\
    gd_allowed (authorize_dispatch s (dispatch_auth (im_epoch s) (slot1 1) 30 cur)) = false.
Proof.
  intros c s. split; [apply started |]. destruct (slot_current s (slot1 1)) as [cur |] eqn:E; [| vm_compute in E; discriminate].
  exists cur. assert (Some cur = slot_current s (slot1 1)) as E' by done. vm_compute in E'. injection E' as ->.
  split; [done |]. split; [done |]. split; [| split_and!; vm_compute; done].
  apply (bool_decide_eq_true (mkId 11 ∈ im_fenced_boots s)). vm_compute. done.
Qed.

(** The refusal to replay is not atomic: AUTHORIZE_REQUEST reads the state of the request
    and records its dispatch under two separate locks.  When a withheld result arrives in
    between, on another connection, the request of unknown outcome that may not be
    replayed is granted a second dispatch, and its record is overwritten: nothing
    remembers that its outcome is unknown. *)
Theorem replay_check_can_race :
  let c1 := pool_run Race.before Race.start in
  let c2 := pool_run Race.after c1 in
  threaded coord_args_default ∅ Scene.net Race.before c1 /\
  (exists rec, Race.request30 c1 = Some rec /\ rq_disposition rec = RequestDisposition.OUTCOME_UNKNOWN /\
     record_retry_allowed rec = false) /\
  (exists g, pool_threads c2 !! 2 = Some (Done (Ok (Replied g))) /\ fr_type g = MsgType.AUTHORIZE_REQUEST /\
     frame_flag g fid_ok = true) /\
  rq_disposition <$> Race.request30 c2 = Some RequestDisposition.DISPATCHED.
Proof.
  intros c1 c2. split; [by eexists |]. split; [| split].
  - destruct (Race.request30 c1) as [rec |] eqn:E; [| vm_compute in E; discriminate]. exists rec. split; [done |].
    revert E. vm_compute. intros [= <-]. done.
  - assert (match pool_threads c2 !! 2 with
            | Some (Done (Ok (Replied g))) => bool_decide (fr_type g = MsgType.AUTHORIZE_REQUEST) && frame_flag g fid_ok
            | _ => false end = true) as H by (vm_compute; reflexivity).
    destruct (pool_threads c2 !! 2) as [[[[g | |] | e] | B m k] |]; try discriminate.
    apply andb_true_iff in H as [Ht%bool_decide_eq_true Hf]. by exists g.
  - vm_compute. reflexivity.
Qed.

(** * Witnesses *)

Module SceneWitness.
(** A result presented for request 100 under the grant of [c]'s current assignment. *)
Definition presented_fields (c : Run (Coord Cluster)) (boot : Z) (withheld : bool) : list (Z * Value) :=
  match slot_current (run_impl c) (slot1 1) with
  | Some cur =>
    let auth := dispatch_auth (im_epoch (run_impl c)) (slot1 1) 30 (cur <| asg_worker_boot := mkId boot |>) in
    authorize_result_fields (mkClientRequest 3 4 1 1 false false) (grant_of auth) 30 withheld
  | None => []
  end.
Definition presented (c : Run (Coord Cluster)) (boot : Z) (withheld : bool) : Frame :=
  Scene.msg MsgType.AUTHORIZE_RESULT 30 (presented_fields c boot withheld).
Definition fields (f : Frame) : list Field := match payload_reader (fr_payload f) with Ok fs => fs | Throw _ => [] end.
(** Request 30 dispatched, then withheld. *)
Definition dispatched : Run (Coord Cluster) := coord_run [Received 2 Scene.dispatch_request] Scene.opened.
Definition withheld : Run (Coord Cluster) := coord_run [Received 2 (presented dispatched 11 true)] dispatched.
Definition unknown : RequestRecord := default request_default (request_find (im_requests (run_impl withheld)) (mkId 30)).
Definition accepted : Frame := presented dispatched 11 false.
(** A coordinator restarted from the state of [Scene.opened]. *)
Definition blob : bytes := match encode (snapshot_of (run_impl Scene.opened)) with Ok b => b | Throw _ => [] end.
Definition disk : FileSystem := {[ "state"%string := blob ]}.
Definition ok_or {A} (d : A) (x : result A) : A := match x with Ok a => a | Throw _ => d end.
Definition snap : PersistenceSnapshot := ok_or (snapshot_of (run_impl Scene.start)) (load_file "state" disk).
Definition args : CoordArgs := coordinator_args ["--load"; "state"] coord_args_default.
Definition run_from (s : Impl) : Run (Coord Cluster) := coord_run Scene.opening (mkRun s disk (coord_init Scene.net)).
Definition restarted : Run (Coord Cluster) := run_from (ok_or (impl_init config_default) (coordinator_start args disk)).
Definition barrier : Frame := Scene.msg MsgType.EXECUTE_FAILOVER 9 [(fid_service, VU64 9); (fid_state, VU8 0)].

Lemma opened_process : process coord_args_default ∅ Scene.net Scene.opening Scene.opened.
Proof. apply started. Qed.
Lemma restarted_process : process args disk Scene.net Scene.opening restarted.
Proof.
  assert (is_ok (coordinator_start args disk) = true) as H by (vm_compute; reflexivity). unfold process, restarted, run_from.
  destruct (coordinator_start args disk) as [s | e]; [by exists s | done].
Qed.
Lemma opened_wf : impl_wf (run_impl Scene.opened).
Proof. apply run_ok. eapply (start_wf coord_args_default ∅). vm_compute. reflexivity. Qed.
End SceneWitness.

Lemma coordinator_refines_system_witness :
  exists ps, reachable config_default (mkConfiguration (run_impl Scene.opened) ps).
Proof.
  destruct (coordinator_refines_system coord_args_default ∅ Scene.net Scene.opening Scene.opened SceneWitness.opened_process)
    as (s & ps & _ & _ & _ & H).
  apply H. reflexivity.
Defined.

Lemma result_reply_follows_gate_witness :
  exists auth cur, wa_worker_boot auth = mkId 11 /\ Authorized (run_impl SceneWitness.dispatched) auth cur.
Proof.
  destruct (result_reply_follows_gate 2 SceneWitness.accepted (Scene.reply 2 SceneWitness.accepted SceneWitness.dispatched)
              SceneWitness.dispatched (handle 2 SceneWitness.accepted SceneWitness.dispatched).1) as [H _].
  - vm_compute. reflexivity.
  - apply pair_snd. vm_compute. reflexivity.
  - destruct H as (fs & sid & auth & cur & rec & Hfs & _ & Ha & _ & Hau & _); [vm_compute; reflexivity |].
    exists auth, cur. split; [| exact Hau]. apply read_result_auth_boot with (b := 11) in Ha; [exact Ha |].
    assert (fs = SceneWitness.fields SceneWitness.accepted) as -> by (unfold SceneWitness.fields; rewrite Hfs; reflexivity).
    vm_compute. reflexivity.
Defined.

Lemma fenced_boot_results_refused_witness :
  frame_flag (Scene.reply 2 (SceneWitness.presented Scene.moved 11 false) Scene.moved) fid_ok = false.
Proof.
  apply (fenced_boot_results_refused coord_args_default ∅ Scene.net (Scene.opening ++ Scene.moving) [] Scene.moved
           (handle 2 (SceneWitness.presented Scene.moved 11 false) Scene.moved).1 (mkId 11) 2 (SceneWitness.presented Scene.moved 11 false)
           _ (SceneWitness.fields (SceneWitness.presented Scene.moved 11 false))).
  - exact (started_app Scene.opening Scene.moving).
  - apply (bool_decide_eq_true (mkId 11 ∈ im_fenced_boots (run_impl Scene.moved))). vm_compute. reflexivity.
  - vm_compute. reflexivity.
  - vm_compute. reflexivity.
  - vm_compute. reflexivity.
  - apply pair_snd. vm_compute. reflexivity.
Defined.

Lemma unknown_outcome_never_replayed_witness :
  frame_flag (Scene.reply 2 Scene.dispatch_request (coord_run Scene.moving SceneWitness.withheld)) fid_ok = false.
Proof.
  apply (unknown_outcome_never_replayed 30 SceneWitness.unknown Scene.moving SceneWitness.withheld
           (handle 2 Scene.dispatch_request (coord_run Scene.moving SceneWitness.withheld)).1 2 Scene.dispatch_request
           _ (SceneWitness.fields Scene.dispatch_request)).
  - vm_compute. reflexivity.
  - vm_compute. reflexivity.
  - vm_compute. reflexivity.
  - vm_compute. reflexivity.
  - vm_compute. reflexivity.
  - vm_compute. reflexivity.
  - apply pair_snd. vm_compute. reflexivity.
Defined.

Lemma earlier_epochs_refused_witness :
  frame_flag (Scene.reply 2 SceneWitness.accepted SceneWitness.restarted) fid_ok = false.
Proof.
  apply (earlier_epochs_refused SceneWitness.args SceneWitness.disk Scene.net Scene.opening SceneWitness.restarted
           (handle 2 SceneWitness.accepted SceneWitness.restarted).1 SceneWitness.snap 2 1 SceneWitness.accepted
           _ (SceneWitness.fields SceneWitness.accepted)).
  - exact SceneWitness.restarted_process.
  - discriminate.
  - vm_compute. reflexivity.
  - vm_compute. split; [discriminate | reflexivity].
  - vm_compute. reflexivity.
  - vm_compute. reflexivity.
  - vm_compute. reflexivity.
  - vm_compute. discriminate.
  - apply pair_snd. vm_compute. reflexivity.
Defined.

Lemma failover_reply_truthful_witness :
  frame_flag (Scene.reply 5 Scene.failover Scene.opened) fid_ok = true /\
  exists n, slot_current (run_impl (handle 5 Scene.failover Scene.opened).1) (slot1 1) = Some n /\
    asg_state n = AssignmentState.ACTIVE.
Proof.
  assert (frame_flag (Scene.reply 5 Scene.failover Scene.opened) fid_ok = true) as Hok by (vm_compute; reflexivity).
  split; [exact Hok |].
  destruct (failover_reply_truthful 5 Scene.failover (Scene.reply 5 Scene.failover Scene.opened) Scene.opened
              (handle 5 Scene.failover Scene.opened).1) as (sid & Hsid & _ & _ & _ & H).
  - exact SceneWitness.opened_wf.
  - vm_compute. reflexivity.
  - apply pair_snd. vm_compute. reflexivity.
  - vm_compute. reflexivity.
  - assert (sid = 1) as -> by (vm_compute in Hsid; congruence).
    assert (is_Some (find_slot (run_impl Scene.opened) (slot1 1))) as Hslot
      by (apply (bool_decide_eq_true (is_Some (find_slot (run_impl Scene.opened) (slot1 1)))); vm_compute; reflexivity).
    destruct (proj2 (proj2 (proj2 (H Hok))) Hslot) as (n & H1 & H2 & _). exists n. split; [exact H1 | exact H2].
Defined.

Lemma refused_failover_leaves_barrier_witness :
  im_barrier_milestone (run_impl (handle 5 SceneWitness.barrier Scene.opened).1) = Milestone.INTENT_ONLY.
Proof.
  apply (refused_failover_leaves_barrier 5 SceneWitness.barrier Scene.opened (SceneWitness.fields SceneWitness.barrier) 9 0
           Milestone.INTENT_ONLY); vm_compute; reflexivity.
Defined.

Lemma client_detail_is_shadowed_witness :
  exists fs, payload_reader (fr_payload (Scene.served Scene.start (Scene.ask 100 3 4))) = Ok fs /\
    p_str fs fid_detail = Ok "unknown"%string.
Proof.
  apply (client_detail_is_shadowed (Scene.ask 100 3 4) (Scene.served Scene.start (Scene.ask 100 3 4)) (Scene.at_gateway Scene.start [])
           (handle_client (Some (Scene.ask 100 3 4)) (Scene.at_gateway Scene.start [])).1).
  apply pair_snd. vm_compute. reflexivity.
Defined.

Lemma install_route_acknowledged_witness :
  exists r' ack, gateway_control (Scene.frame (message MsgType.INSTALL_ROUTE 9103 1 (encode_route_entry WireWitness.entry)))
      (mkGwRun gateway_init Scene.net) = (r', Ok (Some ack)) /\ fr_msg_id ack = 9103.
Proof.
  destruct (install_route_acknowledged 9103 1 WireWitness.entry
              (Scene.frame (message MsgType.INSTALL_ROUTE 9103 1 (encode_route_entry WireWitness.entry))) (mkGwRun gateway_init Scene.net))
    as (r' & ack & H1 & _ & H2 & _).
  - exact WireWitness.entry_typed.
  - vm_compute. reflexivity.
  - exists r', ack. split; [exact H1 | exact H2].
Defined.

Lemma routes_of_services_collide_witness :
  let e2 := WireWitness.entry <| re_slot := mkSlotKey (mkId 77) (sk_slot (re_slot WireWitness.entry)) |>
                              <| re_transport := tcp_transport 40002 |> in
  exists r : GwRun Cluster, gw_routes (gr_gateway r) !! route_slot WireWitness.entry = Some (received e2).
Proof.
  intros e2.
  destruct (routes_of_services_collide 1 2 1 WireWitness.entry e2
              (Scene.frame (message MsgType.INSTALL_ROUTE 1 1 (encode_route_entry WireWitness.entry)))
              (Scene.frame (message MsgType.INSTALL_ROUTE 2 1 (encode_route_entry e2))) (mkGwRun gateway_init Scene.net))
    as (r1 & r2 & a1 & a2 & _ & _ & _ & _ & H & _).
  - exact WireWitness.entry_typed.
  - vm_compute. repeat split; discriminate.
  - reflexivity.
  - discriminate.
  - vm_compute. reflexivity.
  - vm_compute. reflexivity.
  - exists r2. exact H.
Defined.

Module RaceWitness.
(** The reply with which the handler on [p] has ended. *)
Definition replied (p : Z) (c : Pool (N := Cluster)) : option Frame :=
  match pool_threads c !! p with Some (Done (Ok (Replied g))) => Some g | _ => None end.
Definition reply (p : Z) (c : Pool (N := Cluster)) : Frame := default Scene.failover (replied p c).
(** [f] read on connection 2 after [es], and handled while nothing else happens. *)
Definition pool (es : list (CoordEvent (N := Cluster))) : Pool (N := Cluster) := pool_run (mbind Race.alone es) Race.start.
Definition acting : list (PoolEvent (N := Cluster)) := replicate 100 (Acts 2).
Definition handled (es : list (CoordEvent (N := Cluster))) (f : Frame) : Frame :=
  reply 2 (pool_run acting (pool_event (Starts 2 f) (pool es))).

Lemma pool_threaded es : threaded (N := Cluster) coord_args_default ∅ Scene.net (mbind Race.alone es) (pool es).
Proof. by eexists. Qed.
Definition ended (p : Z) (c : Pool (N := Cluster)) : bool := if replied p c then true else false.
Lemma replied_done p c : ended p c = true -> pool_threads c !! p = Some (Done (Ok (Replied (reply p c)))).
Proof.
  unfold ended, reply. destruct (replied p c) as [g |] eqn:E; [| done]. intros _. cbn [default]. unfold replied in E.
  repeat case_match; simplify_eq; done.
Qed.
Lemma pool_still (c : Pool (N := Cluster)) : pool_run [] c = c.
Proof. reflexivity. Qed.
Definition idle (p : Z) (c : Pool (N := Cluster)) : bool := if pool_threads c !! p then false else true.
Lemma acting_answers c f :
  idle 2 c && ended 2 (pool_run acting (pool_event (Starts 2 f) c)) = true ->
  answered 2 f c acting (Ok (Replied (reply 2 (pool_run acting (pool_event (Starts 2 f) c))))).
Proof.
  unfold idle. intros [Hn Hd]%andb_true_iff. split; [by destruct (pool_threads c !! 2) |]. split; [by apply Forall_replicate |].
  by apply replied_done.
Qed.
(** A coordinator restarted from a file, with threads. *)
Definition restored : Pool (N := Cluster) :=
  pool_run (mbind Race.alone Scene.opening)
    (pool_init (SceneWitness.ok_or (impl_init config_default) (coordinator_start SceneWitness.args SceneWitness.disk)) SceneWitness.disk Scene.net).
Lemma restored_threaded : threaded SceneWitness.args SceneWitness.disk Scene.net (mbind Race.alone Scene.opening) restored.
Proof.
  assert (is_ok (coordinator_start SceneWitness.args SceneWitness.disk) = true) as H by (vm_compute; reflexivity). unfold threaded, restored.
  destruct (coordinator_start SceneWitness.args SceneWitness.disk) as [s | e]; [by exists s | done].
Qed.
Definition asked : list (CoordEvent (N := Cluster)) := Scene.opening ++ [Received 2 Scene.dispatch_request].
Definition moved : list (CoordEvent (N := Cluster)) := Scene.opening ++ Scene.moving.
Definition stale : Frame := SceneWitness.presented Scene.moved 11 false.
(** Request 30, withheld. *)
Definition noted : list (CoordEvent (N := Cluster)) := asked ++ [Received 5 Race.withheld].
Definition unknown : RequestRecord := default request_default (Race.request30 (pool noted)).
(** The worker of target 2 is gone, and target 1 has failed. *)
Definition stranded : list (CoordEvent (N := Cluster)) := Scene.opening ++ [NetChanged Scene.lost; Received 5 Scene.failed].
(** The coordinator behind the gateway is a process with threads. *)
Lemma plant_threaded es m : exists es0, threaded coord_args_default ∅ Scene.net es0
  (dep_coord (gr_world (Scene.at_gateway (coord_run es Scene.start) m))).
Proof. destruct (sequential_threaded es Scene.start) as [es0 H]. exists es0, (run_impl Scene.start). split; [reflexivity |]. symmetry. exact H. Qed.
End RaceWitness.

Lemma client_ok_end_to_end_witness :
  exists (cur : Assignment) (route : WireRoute) (m ans : Frame) (r1 : GwRun Plant), asg_state cur = AssignmentState.ACTIVE /\
    let address := parse_tcp_transport (re_transport (wr_entry route)) in
    served_by address.1.2 address.2 m r1 (wrap64 (id_value (re_permitted_boot (wr_entry route)))) ans.
Proof.
  destruct (RaceWitness.plant_threaded Scene.opening []) as [es0 H0].
  destruct (client_ok_end_to_end coord_args_default ∅ Scene.net es0 (Scene.ask 100 3 4) (Scene.served Scene.opened (Scene.ask 100 3 4))
              (Scene.at_gateway Scene.opened []) (handle_client (Some (Scene.ask 100 3 4)) (Scene.at_gateway Scene.opened [])).1 H0)
    as (cq & es1 & es2 & es3 & s1 & s2 & s3 & s4 & cur1 & cur2 & rec & route & m & ans & r1 & _ & H).
  - apply pair_snd. vm_compute. reflexivity.
  - vm_compute. reflexivity.
  - destruct H as (_ & _ & _ & Hact & _ & _ & _ & _ & _ & _ & Hs & _). exists cur1, route, m, ans, r1. split; [exact Hact | exact Hs].
Defined.

Lemma threads_refine_system_witness :
  exists ps, reachable config_default (mkConfiguration (run_impl (pool_state (pool_run Race.before Race.start))) ps).
Proof.
  destruct (threads_refine_system coord_args_default ∅ Scene.net Race.before (pool_run Race.before Race.start)) as (s & ps & _ & _ & _ & _ & H).
  - exists (run_impl Scene.start). split; reflexivity.
  - apply H. reflexivity.
Defined.

Lemma concurrent_results_gated_witness :
  exists s auth cur, meanwhile 2 SceneWitness.accepted (RaceWitness.pool RaceWitness.asked) RaceWitness.acting s /\ Authorized s auth cur.
Proof.
  destruct (concurrent_results_gated 2 SceneWitness.accepted (RaceWitness.handled RaceWitness.asked SceneWitness.accepted)
              (RaceWitness.pool RaceWitness.asked) RaceWitness.acting) as (s & fs & sid & auth & cur & rec & H1 & _ & _ & _ & _ & H2 & _).
  - vm_compute. reflexivity.
  - refine (RaceWitness.acting_answers _ _ _). vm_compute. reflexivity.
  - vm_compute. reflexivity.
  - exists s, auth, cur. split; [exact H1 | exact H2].
Defined.

Lemma fences_hold_under_threads_witness :
  frame_flag (RaceWitness.handled RaceWitness.moved RaceWitness.stale) fid_ok = false.
Proof.
  apply (fences_hold_under_threads coord_args_default ∅ Scene.net (mbind Race.alone RaceWitness.moved) [] RaceWitness.acting
           (RaceWitness.pool RaceWitness.moved) (mkId 11) 2 RaceWitness.stale _ (SceneWitness.fields RaceWitness.stale)).
  - apply RaceWitness.pool_threaded.
  - apply (bool_decide_eq_true (mkId 11 ∈ im_fenced_boots (run_impl (pool_state (RaceWitness.pool RaceWitness.moved))))). vm_compute. reflexivity.
  - vm_compute. reflexivity.
  - vm_compute. reflexivity.
  - vm_compute. reflexivity.
  - rewrite RaceWitness.pool_still. refine (RaceWitness.acting_answers _ _ _). vm_compute. reflexivity.
Defined.

Lemma never_replayed_under_threads_witness :
  frame_flag (RaceWitness.handled RaceWitness.noted Scene.dispatch_request) fid_ok = false.
Proof.
  apply (never_replayed_under_threads 30 RaceWitness.unknown (RaceWitness.pool RaceWitness.noted) [] RaceWitness.acting 2
           Scene.dispatch_request _ (SceneWitness.fields Scene.dispatch_request)).
  - vm_compute. reflexivity.
  - vm_compute. reflexivity.
  - vm_compute. reflexivity.
  - vm_compute. reflexivity.
  - vm_compute. reflexivity.
  - vm_compute. reflexivity.
  - vm_compute. reflexivity.
  - rewrite RaceWitness.pool_still. refine (RaceWitness.acting_answers _ _ _). vm_compute. reflexivity.
Defined.

Lemma failover_truthful_under_threads_witness :
  exists ep plan a a' vo tc ar,
    performs 2 [prepares plan a; verifies (SocketOps ep) vo; commits a' vo tc ar]
      (pool_event (Starts 2 Scene.failover) (RaceWitness.pool Scene.opening)) RaceWitness.acting /\
    vo_verified vo = true.
Proof.
  destruct (failover_truthful_under_threads coord_args_default ∅ Scene.net (mbind Race.alone Scene.opening) RaceWitness.acting
              (RaceWitness.pool Scene.opening) 2 Scene.failover (RaceWitness.handled Scene.opening Scene.failover))
    as (fields & sid & ep & plan & a & a' & vo & tc & ar & cur & _ & _ & _ & H & _ & Hv & _).
  - apply RaceWitness.pool_threaded.
  - vm_compute. reflexivity.
  - refine (RaceWitness.acting_answers _ _ _). vm_compute. reflexivity.
  - vm_compute. reflexivity.
  - exists ep, plan, a, a', vo, tc, ar. split; [| exact Hv].
    destruct H as (es1 & es2 & E1 & [H1 _] & es3 & es4 & E2 & H2 & es5 & es6 & E3 & [H3 _] & _).
    exists es1, es2. split; [exact E1 |]. split; [exact H1 |]. exists es3, es4. split; [exact E2 |]. split; [exact H2 |].
    exists es5, es6. split; [exact E3 |]. split; [exact H3 | exact I].
Defined.

Lemma refused_cutover_moves_nothing_witness :
  let before := pool_run (replicate 10 (Acts 2)) (pool_event (Starts 2 Scene.failover) (RaceWitness.pool RaceWitness.stranded)) in
  slot_current (run_impl (pool_state (pool_event (Acts 2) before))) (slot1 1) = slot_current (run_impl (pool_state before)) (slot1 1).
Proof.
  refine (refused_cutover_moves_nothing 2 Scene.failover (RaceWitness.handled RaceWitness.stranded Scene.failover)
            (RaceWitness.pool RaceWitness.stranded) RaceWitness.acting (replicate 10 (Acts 2)) (replicate 89 (Acts 2)) (slot1 1) _ _ _ _ _).
  - left. vm_compute. reflexivity.
  - refine (RaceWitness.acting_answers _ _ _). vm_compute. reflexivity.
  - vm_compute. reflexivity.
  - vm_compute. reflexivity.
  - reflexivity.
Defined.

Lemma earlier_epochs_refused_under_threads_witness :
  frame_flag (RaceWitness.reply 2 (pool_run RaceWitness.acting (pool_event (Starts 2 SceneWitness.accepted) RaceWitness.restored))) fid_ok = false.
Proof.
  apply (earlier_epochs_refused_under_threads SceneWitness.args SceneWitness.disk Scene.net (mbind Race.alone Scene.opening) RaceWitness.acting
           RaceWitness.restored SceneWitness.snap 2 1 SceneWitness.accepted _ (SceneWitness.fields SceneWitness.accepted)).
  - exact RaceWitness.restored_threaded.
  - discriminate.
  - vm_compute. reflexivity.
  - vm_compute. split; [discriminate | reflexivity].
  - vm_compute. reflexivity.
  - vm_compute. reflexivity.
  - vm_compute. reflexivity.
  - vm_compute. discriminate.
  - refine (RaceWitness.acting_answers _ _ _). vm_compute. reflexivity.
Defined.

Lemma sequential_runs_are_threaded_witness :
  exists es, threaded coord_args_default ∅ Scene.net es (mkPool Scene.opened ∅).
Proof.
  destruct (sequential_runs_are_threaded (N := Cluster)) as [_ H]. apply (H _ _ _ Scene.opening). exact SceneWitness.opened_process.
Defined.

(** A network on which everything is acknowledged. *)
Module AckWitness.
Inductive AckNet : Type := Acks.
Definition ack (f : Frame) : Frame :=
  match fr_type f with
  | MsgType.ACTIVATE_TARGET => Scene.msg MsgType.ACTIVATE_RESULT 1 [(fid_ok, VBool true)]
  | MsgType.INSTALL_ROUTE => Scene.msg MsgType.ROUTE_ACK 1 [(fid_ok, VBool true)]
  | _ => Scene.msg MsgType.VERIFY_SERVICE 1 [(fid_ok, VBool true)]
  end.
#[global] Instance ack_net : PeerNet AckNet := {|
  conn_alive _ _ := true;
  conn_send _ _ n := (n, true);
  conn_request _ f n := (n, Some (ack f));
  net_clock _ := 0;
  net_save_io _ := mkSaveIo true None true |}.
Lemma responsive : Responsive (N := AckNet) (fun _ => True) 4 1 5.
Proof.
  split; [done | done | | |]; intros n f _ Hf; unfold conn_request, ack_net, ack; rewrite Hf.
  - by eexists _, _.
  - by eexists _, _.
  - eexists _, _, _, _. split_and!; [reflexivity | exact Logic.I | vm_compute; reflexivity ..].
Qed.

Definition opening : list (CoordEvent (N := AckNet)) :=
  [ Accepted; Accepted; Accepted; Accepted; Accepted; Received 1 (Scene.hello kRoleGateway 0 900 0);
    Received 3 (Scene.hello kRoleWorker 1 11 40001); Received 3 (Scene.ready (Scene.worker 1 11 40001));
    Received 4 (Scene.hello kRoleWorker 2 12 40002); Received 4 (Scene.ready (Scene.worker 2 12 40002)); Received 5 Scene.register;
    Received 5 Scene.failed ].
Definition start : Run (Coord AckNet) := mkRun (run_impl Scene.start) ∅ (coord_init Acks).
Definition ready : Run (Coord AckNet) := coord_run opening start.
Definition ok_of {A} (d : A) (x : result A) : A := match x with Ok a => a | Throw _ => d end.
Definition plan : FailoverPlan := default Scenario.plan (ok_of None (plan_failover (slot1 1) (run_impl ready)).2).
Definition planned : Impl := (plan_failover (slot1 1) (run_impl ready)).1.
Definition attempt : Attempt := match (prepare plan planned).2 with Ok (inr a) => a | _ => Scenario.attempt end.
Definition ports (w : Coord AckNet) : bool :=
  forallb (fun x => Z.leb 0 (pr_req_port x.2) && Z.ltb (pr_req_port x.2) (2 ^ 16)) (map_to_list (co_peers w)).
Lemma ports_spec w : ports w = true -> ports_ok w.
Proof.
  unfold ports. rewrite forallb_forall. intros H g q Hq%elem_of_map_to_list. apply list_elem_of_In in Hq.
  specialize (H _ Hq). apply andb_true_iff in H as [H1%Z.leb_le H2%Z.ltb_lt]. by split.
Qed.
Lemma ready_wf : impl_wf (run_impl ready).
Proof.
  apply run_ok. assert (coordinator_start coord_args_default ∅ = Ok (run_impl Scene.start)) as H by reflexivity. exact (start_wf _ _ _ H).
Qed.
End AckWitness.

Lemma failover_is_done_witness :
  exists r' g, handle 5 Scene.failover AckWitness.ready = (r', Ok (Replied g)) /\ fr_type g = MsgType.EXECUTE_FAILOVER /\
    frame_flag g fid_ok = true.
Proof.
  apply (failover_is_done (fun _ => True) 4 1 5 1 Scene.failover AckWitness.ready (SceneWitness.fields Scene.failover)
           AckWitness.plan AckWitness.planned (prepare AckWitness.plan AckWitness.planned).1 AckWitness.attempt AckWitness.responsive).
  - split; [exact Logic.I | vm_compute; reflexivity | vm_compute; reflexivity | vm_compute; reflexivity |].
    apply AckWitness.ports_spec. vm_compute. reflexivity.
  - exact AckWitness.ready_wf.
  - split; vm_compute; reflexivity.
  - vm_compute. reflexivity.
  - vm_compute. reflexivity.
  - vm_compute. reflexivity.
  - vm_compute. reflexivity.
  - unfold AckWitness.planned. apply pair_snd. vm_compute. reflexivity.
  - apply pair_snd. vm_compute. reflexivity.
Defined.
